(* ===== verification/_CoqProject ===== *)
-Q . S2P
Prelude.v
Errors.v
Json.v
Pause.v
Payloads.v
Crypto.v
Chain.v
Identity.v
Reduce.v
Models.v
Repo.v
RepoFacts.v
Relational.v
Schema.v
RelationalFacts.v
Migrations.v
StoredOk.v
Lineage.v
Coop.v
BrokerState.v
BrokerOps.v
Dispatch.v
Handlers.v
BrokerInv.v
BrokerQuiet.v
BrokerMid.v
BrokerMoves.v
BrokerTurn.v
BrokerSafe.v
System.v
HandlersOk.v
BrokerProps.v
LiveRoster.v
Roster.v
RosterFacts.v
Kyok.v
Shapes.v
ShapesOk.v
Doors.v
DoorsOk.v
Core.v
CoreOk.v
Probes.v
ProbesOk.v
Runtime.v
RuntimeOk.v
Closing.v
ClosingOk.v
Link.v
LinkOk.v
Facade.v
FacadeOk.v
MigrationsOk.v
Whole.v
A2aTranslate.v
A2aTranslateOk.v
A2a.v
A2aOk.v
A2aHandler.v
A2aHandlerOk.v
KyokAdapter.v
KyokAdapterOk.v
AgUi.v
AgUiOk.v
Keys.v
KeysOk.v
Views.v
Play.v
PlayOk.v
ReplacedOk.v
SilenceOk.v
