(* ===== verification/Prelude.v ===== *)
(** * funduq: a verification development

    funduq is an agent gateway: callers speak A2A or AG-UI to it, providers
    dial in over a link and serve agents, and funduq keeps the record.  This
    library models its core in Python's own shape and proves what makes each
    part correct.  Paths are under src/.

    ** How the program is put together, and where each part is modelled

    A request enters through a door (A2A, AG-UI, KYOK or the facade), which
    reads the caller's signed chain, writes one run in one commit and hands
    it to the broker.  The broker gives every thread a task that reads an
    inbox; it offers the thread's head to the provider serving the agent,
    and six record handlers write what happened.  The provider's runtime
    runs its agents and reports their events back over its link.

    - data:          [Errors] (funduq/errors.py), [Json] (the values and the
      event types), [Models] (models.py, schema.py)
    - contract:      [Payloads], [Crypto], [Chain] (funduq_contract/payloads.py,
      signatures.py, chain.py), [Identity] (funduq/identity.py)
    - events:        [Pause] (pause.py), [Reduce] (agui_reduce.py)
    - the database:  [Repo], [RepoFacts], [Lineage] (repo.py: the tables, what
      every sequence of writes keeps, chains of runs)
    - the schema:    [Relational], [RelationalFacts] (tables, rows, and the
      statements that change them, refused where a constraint would break),
      [Schema] (schema.py, db_schema.py, config.py), [Migrations],
      [MigrationsOk] (alembic/versions, alembic/env.py, migrate.py and the
      probe that compares the two schemas), [StoredOk] (the tables of
      [Models] as rows of [Schema]'s)
    - concurrency:   [Coop], cooperative tasks as resumable computations over
      a shared world; a task runs alone between two suspensions
    - the broker:    [BrokerState], [BrokerOps], [Dispatch] (broker.py: state,
      synchronous operations, the thread's task), [Handlers] (handlers.py),
      [System] (the whole as a step relation); [BrokerInv], [BrokerQuiet],
      [BrokerMid], [BrokerMoves], [BrokerTurn], [BrokerSafe], [HandlersOk]
      carry the invariant and [BrokerProps] states what follows
    - links:         [LiveRoster] (live_roster.py, and the interface
      [LiveTable] that the broker's and the relay's tables implement),
      [Roster], [RosterFacts] (core.py's rosters and tickets)
    - the doors:     [Kyok] (kyok.py, props.py), [Doors], [DoorsOk]
      (doors.py, agui.py), [Core], [CoreOk] (core.py), [A2aTranslate],
      [A2aTranslateOk], [A2a], [A2aOk] (protocols/a2a_translate.py, a2a.py),
      [KyokAdapter], [KyokAdapterOk] (protocols/kyok.py), [AgUi], [AgUiOk]
      (protocols/agui.py), [A2aHandler], [A2aHandlerOk] (the request handler
      of protocols/a2a.py)
    - what is shown: [Views] (models.py's summaries, the broker's snapshots
      and counters, the roster's listings)
    - the wire:      [Shapes], [ShapesOk] (funduq_contract/shapes.py: every
      declared shape, with pydantic's reading and writing of one)
    - the whole:     [Facade], [FacadeOk] (core.py's object: both rosters, the
      broker, the relay, the store and the change subscribers as one state),
      [Whole] (the object with its broker's tasks running, as one step
      relation: every step of it is steps of [System]);
      [Probes], [ProbesOk] (the two chain probes under scripts/probes, played
      on [Core], [Doors] and [Chain]); [Play], [PlayOk] (a run and its thread
      with nobody else in the process, played to its end), on which
      [ReplacedOk] and [SilenceOk] play the three probes that replace the
      database under a running process
    - keys:          [Keys], [KeysOk] (funduq_provider_sdk/identity.py and
      llm/, funduq/identity.py: key files, what each identity signs, the
      in-process LLM link)
    - the provider:  [Runtime], [RuntimeOk] (funduq_provider_sdk/runtime.py),
      [Closing], [ClosingOk] (its start and aclose, with the reporting
      loop's task), [Link], [LinkOk] (inprocess.py, provider.py, the loop)

    A definition has the name of the function it translates; a file ending
    in Ok or Facts holds what is proved about the file it is named after.

    ** What the theorems show

    - The broker, over every interleaving of its tasks: places are counted,
      a thread has one turn at a time, a run is offered once, its stream
      ends once, its row agrees with its state, no run is lost, and what is
      recorded of a run is, event for event, what its stream was told.
    - The record: a terminal status is final, lineages end, a restart
      accounts for every run, a queue keeps its limit; whatever repo.py
      writes fits the schema.
    - The schema: on either backend the migrations build what schema.py
      declares; no database that keeps its constraints fails to upgrade; the
      last revision can be undone without loss.
    - Authority: chain verification is exactly its specification, signed
      bytes of different acts never coincide, cancels, answers, link
      openings and completion calls are accepted exactly with the proofs
      they ask for; what an identity signs is taken; a refused completion
      call tells a stranger nothing of the run; the probes of the chain hold
      for all keys.
    - The doors: what comes in is written as what is delivered, a pause is
      answered once and whole, A2A streams agree with A2A snapshots, pages
      reach every task, and a handler speaks of its own agent's tasks only.
    - The whole object: a ticket opens one link on either roster, a
      registration is served and announced; over every interleaving of its
      rosters, doors, connections and tasks the broker stays in states its
      own system reaches, and what is served is served by an open link of
      its own key; every declared shape survives the wire; the roster is
      listed whole or not at all.
    - The scenes: with the database replaced under a running process, a
      taken run's stream still ends and nothing is recorded of it; a provider
      that publishes again serves again; a run left unserved ends failed,
      with its reason.
    - The provider: one run per thread, none stuck, none run twice, one end
      per run, what the link says comes in order, and closing can always
      return.

    ** Conventions

    A call that may raise returns [result exn]; one that awaits and may be
    interleaved is a step of [Coop] or of a step relation; a door's session,
    committed whole or not at all, is a function of the database it read.  A
    mutable object reached from several places (a run, a thread's handler)
    lives in a heap or a map by id, never by value.  A dict whose order shows
    is an association list ([aget], [aset]).  Time is an integer number of
    microseconds.

    Third-party code is an interface with the behaviour the code relies on as
    laws, and an instance in which the laws hold: [Crypto] (Ed25519, JWT,
    SHA-256), [TokenCodec] (base64, HMAC), [RunModel], [AGUI] and
    [MessageModel] (AG-UI's pydantic models), [CompletionCodec] (openai's),
    [A2aTypes] and [PyRepr] (a2a-sdk's enums, [str] of a value),
    [RequestRules] (a2a-sdk's validation), [Pydantic] (a nested model's
    reading and writing), [KeyBytes] (raw keys and hex).

    Fuel: walking a lineage takes one more than the number of runs, which
    [Lineage.lineages_end] proves enough; [Runtime._kick_parked] takes one
    turn per parked lane, which [RuntimeOk.no_run_is_stuck] relies on;
    building a thread tree takes one more than the number of threads
    ([CoreOk.thread_tree_ends]).

    ** What is not modelled

    The database engine, its isolation and its failures (a migration is the
    statements it issues, on the tables as the backend then has them); random
    ids; the loops that supervise tasks; printing; protobuf objects beyond
    the fields written (a Struct's numbers become doubles; here they stay
    integers); case mapping and integer parsing beyond ASCII, and numbers too
    large for a float.
    [A2a.send_task] stops where it waits for its run and goes on from the
    state it then finds. *)
From stdpp Require Export base tactics strings list gmap sorting.
From Stdlib Require Export ZArith Lia.

(** ** Results of fallible Python code

    A Python call either returns a value or raises; [result E A] is that sum,
    with stdpp's monad notation ([x ← e; k]) for sequencing. *)

Inductive result (E A : Type) : Type :=
| Ok (a : A)
| Err (e : E).
Arguments Ok {E A} _.
Arguments Err {E A} _.

#[global] Instance result_ret E : MRet (result E) := fun A a => Ok a.
#[global] Instance result_bind E : MBind (result E) :=
  fun A B f m => match m with Ok a => f a | Err e => Err e end.
#[global] Instance result_fmap E : FMap (result E) :=
  fun A B f m => match m with Ok a => Ok (f a) | Err e => Err e end.

#[global] Instance result_eq_dec E A `{EqDecision E, EqDecision A} :
  EqDecision (result E A).
Proof. solve_decision. Defined.

Definition is_ok {E A} (r : result E A) : bool :=
  match r with Ok _ => true | Err _ => false end.

(** [guard_or e b k]: Python's [if not b: raise e], then [k]. *)
Definition guard_or {E A} (e : E) (b : bool) (k : result E A) : result E A :=
  if b then k else Err e.

(** [traverse f l] runs [f] on each element in order and stops at the first
    exception: a Python comprehension or loop whose body may raise. *)
Fixpoint traverse {E A B} (f : A -> result E B) (l : list A) : result E (list B) :=
  match l with
  | [] => Ok []
  | x :: l' => y ← f x; ys ← traverse f l'; Ok (y :: ys)
  end.

(** [fold_res f l a]: a Python [for] loop over [l] threading a state that a
    raising body interrupts. *)
Fixpoint fold_res {E A S} (f : A -> S -> result E S) (l : list A) (s : S) : result E S :=
  match l with
  | [] => Ok s
  | x :: l' => s' ← f x s; fold_res f l' s'
  end.

(** Association lists that stand for Python dicts: unique keys, insertion order. *)
Section assoc.
Context {K V : Type} `{EqDecision K}.

Fixpoint aget (k : K) (d : list (K * V)) : option V :=
  match d with
  | [] => None
  | (k', v) :: d' => if decide (k = k') then Some v else aget k d'
  end.

(** [d[k] = v]: replaces in place, or appends. *)
Fixpoint aset (k : K) (v : V) (d : list (K * V)) : list (K * V) :=
  match d with
  | [] => [(k, v)]
  | (k', v') :: d' => if decide (k = k') then (k, v) :: d' else (k', v') :: aset k v d'
  end.

(** [d.pop(k, None)]. *)
Definition adel (k : K) (d : list (K * V)) : list (K * V) :=
  filter (fun kv => kv.1 <> k) d.

Definition akeys (d : list (K * V)) : list K := d.*1.
End assoc.

(** ** Tactics and hint databases of the development *)

Create HintDb funduq.

(** Case analysis on every [match] and [if] of the hypotheses and the goal. *)
Ltac cases := repeat (case_match; simplify_eq/=; try done).

(** Invert a chain of monadic binds that returned. *)
Ltac inv_ok :=
  repeat match goal with
  | H : mbind _ ?m = Ok _ |- _ => destruct m eqn:?; simpl in H; [|discriminate H]
  | H : guard_or _ ?b _ = Ok _ |- _ => destruct b eqn:?; simpl in H; [|discriminate H]
  | H : Ok _ = Ok _ |- _ => injection H as H; try subst
  | H : Err _ = Ok _ |- _ => discriminate H
  end.

(** ** Shared lemmas *)

Section bind_lemmas.
Context {E A B : Type}.

Lemma bind_ok (m : result E A) (f : A -> result E B) b :
  (m ≫= f) = Ok b <-> exists a, m = Ok a /\ f a = Ok b.
Proof. destruct m; simpl; naive_solver. Qed.

Lemma bind_err (m : result E A) (f : A -> result E B) e :
  (m ≫= f) = Err e <-> m = Err e \/ exists a, m = Ok a /\ f a = Err e.
Proof. destruct m; simpl; naive_solver. Qed.

Lemma guard_or_ok (e : E) b (k : result E A) a :
  guard_or e b k = Ok a <-> b = true /\ k = Ok a.
Proof. destruct b; simpl; naive_solver. Qed.

End bind_lemmas.

Section loop_lemmas.
Context {E A B S : Type}.

Lemma traverse_ok (f : A -> result E B) l l' :
  traverse f l = Ok l' <-> Forall2 (fun a b => f a = Ok b) l l'.
Proof.
  revert l'. induction l as [|x l IH]; intros l'; simpl.
  - split; [intros [= <-]; constructor | inversion 1; done].
  - destruct (f x) as [y|e] eqn:Hy; simpl; [|split; [done|inversion 1; congruence]].
    destruct (traverse f l) as [ys|e] eqn:Hys; simpl.
    + split; [intros [= <-]; constructor; [done|by apply IH]|].
      inversion 1 as [|? y' ? ys' Hy' Hf]; subst. apply IH in Hf. congruence.
    + split; [done|]. inversion 1 as [|? y' ? ys' Hy' Hf]; subst. by apply IH in Hf.
Qed.

Lemma traverse_elem (f : A -> result E B) l l' y :
  traverse f l = Ok l' -> y ∈ l' <-> exists x, x ∈ l /\ f x = Ok y.
Proof.
  rewrite traverse_ok. induction 1 as [|x y0 l l' Hxy Hl IH].
  { split; [by intros ?%not_elem_of_nil|]. by intros (x & ?%not_elem_of_nil & _). }
  rewrite elem_of_cons, IH. split.
  - intros [->|(x1 & ? & ?)]; [exists x|exists x1]; (split; [|done]); by constructor.
  - intros (x1 & [->|Hx]%elem_of_cons & Hf); [left; congruence|right; eauto].
Qed.

Lemma traverse_app (f : A -> result E B) l1 l2 :
  traverse f (l1 ++ l2) = (r1 ← traverse f l1; r2 ← traverse f l2; Ok (r1 ++ r2)).
Proof.
  induction l1 as [|x l1 IH]; simpl.
  - destruct (traverse f l2); done.
  - destruct (f x); simpl; [|done]. rewrite IH.
    destruct (traverse f l1); simpl; [|done]. destruct (traverse f l2); done.
Qed.

Lemma fold_res_app (f : A -> S -> result E S) l1 l2 s :
  fold_res f (l1 ++ l2) s = (s' ← fold_res f l1 s; fold_res f l2 s').
Proof.
  revert s. induction l1 as [|x l1 IH]; intros s; simpl; [done|].
  destruct (f x s); simpl; [apply IH|done].
Qed.

(** Rule of the [for] loop: an invariant kept by the body holds at the end. *)
Lemma fold_res_inv (P : S -> Prop) (f : A -> S -> result E S) l s s' :
  P s -> (forall x s1 s2, x ∈ l -> P s1 -> f x s1 = Ok s2 -> P s2) ->
  fold_res f l s = Ok s' -> P s'.
Proof.
  revert s. induction l as [|x l IH]; simpl; intros s HP Hf.
  - by intros [= <-].
  - intros (s1 & H1 & H2)%bind_ok. eapply (IH s1); [|intros y s2 s3 Hy; apply Hf; by constructor|done].
    eapply (Hf x s s1); [constructor|exact HP|exact H1].
Qed.
End loop_lemmas.

Section assoc_lemmas.
Context {K V : Type} `{EqDecision K}.
Implicit Types d : list (K * V).

Lemma aget_aset_eq k v d : aget k (aset k v d) = Some v.
Proof. induction d as [|[k' v'] d IH]; simpl; repeat case_decide; simpl; repeat case_decide; naive_solver. Qed.

Lemma aget_aset_ne k k' v d : k <> k' -> aget k' (aset k v d) = aget k' d.
Proof.
  intros Hne. induction d as [|[k1 v1] d IH]; simpl; [by case_decide|].
  case_decide; simpl; repeat case_decide; naive_solver.
Qed.

Lemma aget_aset k k' v d :
  aget k' (aset k v d) = if decide (k = k') then Some v else aget k' d.
Proof. case_decide; [subst; apply aget_aset_eq|by apply aget_aset_ne]. Qed.

Lemma aget_None k d : aget k d = None <-> k ∉ akeys d.
Proof.
  unfold akeys. induction d as [|[k' v] d IH]; simpl.
  - split; [intros _ H%not_elem_of_nil; done|done].
  - case_decide; subst; set_solver.
Qed.

Lemma aget_Some_elem k v d : aget k d = Some v -> (k, v) ∈ d.
Proof. induction d as [|[k' v'] d IH]; simpl; [done|]. case_decide; simplify_eq; set_solver. Qed.

Lemma akeys_aset k v d :
  akeys (aset k v d) = if decide (k ∈ akeys d) then akeys d else akeys d ++ [k].
Proof.
  unfold akeys. induction d as [|[k' v'] d IH]; [done|].
  cbn [aset fmap list_fmap fst]. destruct (decide (k = k')) as [->|Hne]; cbn [fmap list_fmap fst].
  - by rewrite decide_True by set_solver.
  - rewrite IH. repeat case_decide; set_solver.
Qed.

Lemma akeys_aset_NoDup k v d : NoDup (akeys d) -> NoDup (akeys (aset k v d)).
Proof.
  intros Hnd. rewrite akeys_aset. case_decide; [done|].
  apply NoDup_app; split_and!; [done| |apply NoDup_singleton]. set_solver.
Qed.

Lemma aget_adel k k' d :
  aget k' (adel k d) = if decide (k = k') then None else aget k' d.
Proof.
  unfold adel. induction d as [|[k1 v1] d IH]; simpl; [by case_decide|].
  rewrite filter_cons; simpl. repeat case_decide; simpl; repeat case_decide; naive_solver.
Qed.
End assoc_lemmas.

#[export] Hint Rewrite @aget_aset_eq @aget_aset @aget_adel @akeys_aset : funduq.
#[export] Hint Resolve akeys_aset_NoDup : funduq.

(** ** Strings: order, concatenation, separators *)

Definition str_le (s1 s2 : string) : Prop := String.leb s1 s2 = true.
#[global] Instance str_le_dec : RelDecision str_le.
Proof. intros s1 s2. unfold str_le. apply _. Defined.

Lemma ascii_compare_trans a b c o :
  Ascii.compare a b = o -> Ascii.compare b c = o -> Ascii.compare a c = o.
Proof.
  unfold Ascii.compare. destruct o.
  - rewrite !N.compare_eq_iff. congruence.
  - rewrite !N.compare_lt_iff. lia.
  - rewrite !N.compare_gt_iff. lia.
Qed.

Lemma leb_cons a b s1 s2 :
  String.leb (String a s1) (String b s2) = true <->
  Ascii.compare a b = Lt \/ (a = b /\ String.leb s1 s2 = true).
Proof.
  unfold String.leb; simpl. destruct (Ascii.compare a b) eqn:E.
  - apply Ascii.compare_eq_iff in E as ->. destruct (String.compare s1 s2); intuition discriminate.
  - tauto.
  - split; [done|]. intros [?|[-> _]]; [done|].
    unfold Ascii.compare in E. by rewrite N.compare_refl in E.
Qed.

#[global] Instance str_le_trans : Transitive str_le.
Proof.
  unfold str_le. intros s1. induction s1 as [|a s1 IH]; intros [|b s2] [|c s3]; try done.
  rewrite !leb_cons. intros [H1|[-> H1]] [H2|[-> H2]]; [left|left|left|right]; eauto using ascii_compare_trans.
Qed.

#[global] Instance str_le_antisym : AntiSymm (=) str_le.
Proof. intros s1 s2. apply String.leb_antisym. Qed.

#[global] Instance str_le_total : Total str_le.
Proof. intros s1 s2. apply String.leb_total. Qed.

Definition sort_strings (l : list string) : list string := merge_sort str_le l.

Lemma sort_strings_Permutation l : sort_strings l ≡ₚ l.
Proof. apply merge_sort_Permutation. Qed.

Lemma sort_strings_proper l1 l2 : l1 ≡ₚ l2 -> sort_strings l1 = sort_strings l2.
Proof.
  intros Hp. apply (StronglySorted_unique str_le).
  - apply (StronglySorted_merge_sort str_le l1).
  - apply (StronglySorted_merge_sort str_le l2).
  - by rewrite !sort_strings_Permutation.
Qed.

Lemma str_app_nil_r (s : string) : s +:+ "" = s.
Proof. induction s as [|a s IH]; [done|]. change (String a (s +:+ "") = String a s). by rewrite IH. Qed.

Lemma str_app_assoc (a b c : string) : (a +:+ b) +:+ c = a +:+ (b +:+ c).
Proof.
  induction a as [|x a IH]; [done|].
  change (String x ((a +:+ b) +:+ c) = String x (a +:+ (b +:+ c))). by rewrite IH.
Qed.

(** [free c s]: the character [c] does not occur in [s]. *)
Fixpoint free (c : Ascii.ascii) (s : string) : bool :=
  match s with
  | EmptyString => true
  | String a s' => negb (Ascii.eqb c a) && free c s'
  end.

Lemma app_sep_inj c x y x' y' :
  free c x = true -> free c x' = true ->
  x +:+ String c y = x' +:+ String c y' -> x = x' /\ y = y'.
Proof.
  revert x'. induction x as [|a x IH]; intros [|a' x'] Hx Hx' Heq; simpl in *.
  - by injection Heq as ->.
  - injection Heq as <- _. by rewrite Ascii.eqb_refl in Hx'.
  - injection Heq as -> _. by rewrite Ascii.eqb_refl in Hx.
  - apply andb_prop in Hx as [_ Hx]. apply andb_prop in Hx' as [_ Hx'].
    injection Heq as <- Heq. destruct (IH _ Hx Hx' Heq) as [-> ->]. done.
Qed.

(** [join sep l]: Python's [sep.join(l)] for a one-character separator. *)
Fixpoint join (c : Ascii.ascii) (l : list string) : string :=
  match l with
  | [] => ""
  | [s] => s
  | s :: l' => s +:+ String c (join c l')
  end.

Lemma free_app c x y : free c (x +:+ y) = free c x && free c y.
Proof. induction x as [|a x IH]; simpl; [done|]. by rewrite IH, andb_assoc. Qed.

Lemma free_sep c x y : free c (x +:+ String c y) = false.
Proof. rewrite free_app. simpl. rewrite Ascii.eqb_refl. simpl. apply andb_false_r. Qed.

Lemma join_inj c l l' :
  Forall (fun s => s <> "" /\ free c s = true) l ->
  Forall (fun s => s <> "" /\ free c s = true) l' ->
  join c l = join c l' -> l = l'.
Proof.
  revert l'. induction l as [|x [|y l] IH]; intros [|x' [|y' l']] Hl Hl' Heq; try done.
  - inversion_clear Hl' as [|?? [? ?] ?]. simpl in Heq. congruence.
  - inversion_clear Hl' as [|?? [? ?] ?]. simpl in Heq. destruct x'; [done|discriminate].
  - inversion_clear Hl as [|?? [? ?] ?]. simpl in Heq. congruence.
  - simpl in Heq. congruence.
  - cbn [join] in Heq. inversion_clear Hl as [|?? [? Hf] ?].
    rewrite Heq, free_sep in Hf. done.
  - inversion_clear Hl as [|?? [? ?] ?]. cbn [join] in Heq. destruct x; [done|discriminate].
  - cbn [join] in Heq. inversion_clear Hl' as [|?? [? Hf] ?].
    rewrite <- Heq, free_sep in Hf. done.
  - inversion_clear Hl as [|?? [? Hf] Hl2]. inversion_clear Hl' as [|?? [? Hf'] Hl2'].
    assert (x +:+ String c (join c (y :: l)) = x' +:+ String c (join c (y' :: l'))) as E by exact Heq.
    apply app_sep_inj in E as [-> E]; [|done..]. f_equal. by apply IH.
Qed.

(** ** Filters and sorts *)

Lemma filter_ext_in {A} (P Q : A -> Prop) `{!forall x, Decision (P x), !forall x, Decision (Q x)} (l : list A) :
  (forall x, x ∈ l -> P x <-> Q x) -> filter P l = filter Q l.
Proof.
  induction l as [|x l IH]; intros Hl; [done|]. rewrite !filter_cons, IH by (intros; apply Hl; by right).
  pose proof (Hl x ltac:(by left)). repeat case_decide; tauto.
Qed.

(** Sorting what is sorted already, and strictly, does nothing. *)
Lemma merge_sort_sorted {A} (R : relation A) `{!forall x y, Decision (R x y), !Transitive R, !Total R} (l : list A) :
  StronglySorted (fun a b => ~ R b a) l -> merge_sort R l = l.
Proof.
  intros Hl. apply (StronglySorted_unique_strong R); [|by apply StronglySorted_merge_sort|  |apply merge_sort_Permutation].
  - intros x y Hx%(elem_of_Permutation_proper _ _ _ (merge_sort_Permutation R l)) Hy Hxy Hyx. induction Hl as [|z l Hl IH Hz]; [by apply not_elem_of_nil in Hx|].
    rewrite Forall_forall in Hz. apply elem_of_cons in Hx as [->|Hx], Hy as [->|Hy]; [done| | |by apply IH].
    + by destruct (Hz y Hy).
    + by destruct (Hz x Hx).
  - induction Hl as [|z l Hl IH Hz]; constructor; [done|]. eapply Forall_impl; [exact Hz|]. cbn. intros x Hn. destruct (total R x z); tauto.
Qed.
