(* ===== verification/Errors.v ===== *)
(** * Exceptions

    The exceptions the modelled code raises: Python's own, the ones of
    funduq/errors.py, and the ones declared beside the code that raises them
    (identity.py, chain.py, repo.py, a2a's error types).  A constructor's
    string argument is the model's name for the [raise] it comes from; the
    English message is not modelled. *)

From S2P Require Import Prelude.

Inductive exn : Type :=
(* Python's own *)
| KeyError
| TypeError
| AttributeError
| ValueError (why : string)
| LookupError
| RuntimeError
| IntegrityError (constraint : string)
(* funduq_contract/chain.py, funduq/identity.py *)
| InvalidChain (why : string)
| InvalidResolution (why : string)
| InvalidCancel (why : string)
(* funduq/errors.py *)
| AgentNotFound
| LlmProviderNotFound
| LlmOfferingInUse (reason : string)
| AgentInUse (reason : string)
| InvalidRegistration (why : string)
| KyokRejected (why : string) (status : Z)
| ProviderFingerprintTaken
| ThreadNotFound
| ThreadOwnershipMismatch
| ThreadMembershipRequired
| ThreadQueueFull
| RunNotCancellable
| NoPendingAsk
| InvalidRunInput (why : string)
| PresenterRequired
| StreamTaken
(* funduq/repo.py *)
| RunRowMissing
(* funduq_provider_sdk/identity.py *)
| WrongFunduq
(* a2a.utils.errors, as funduq raises them *)
| InvalidParamsError
| TaskNotFoundError
| TaskNotCancelableError
| UnsupportedOperationError
| PushNotificationNotSupportedError
| ContentTypeNotSupportedError.

#[global] Instance exn_eq_dec : EqDecision exn.
Proof. solve_decision. Defined.

(** What the code may raise: a result whose error is a Python exception. *)
Notation py A := (result exn A).
