(* ===== verification/Json.v ===== *)
(** * Python's plain data: JSON values and dicts

    Events, messages, metadata bags and [forwardedProps] are plain dicts in
    the code.  A dict is an association list with unique keys in insertion
    order ([Prelude.aget], [aset]); a value that must be hashed (a set
    element, a dict key) is turned into a [key] first, and an unhashable one
    raises [TypeError], as Python does.  Numbers are integers: nothing the
    modelled code does depends on a fractional part. *)

From S2P Require Import Prelude Errors.

Inductive json : Type :=
| JNull
| JBool (b : bool)
| JNum (z : Z)
| JStr (s : string)
| JList (l : list json)
| JObj (d : list (string * json)).

Notation dict := (list (string * json)).

(** Decidable equality; the nested lists need a recursion of their own. *)
Fixpoint json_eqb (a b : json) {struct a} : bool :=
  let fix list_eqb (l1 l2 : list json) {struct l1} : bool :=
    match l1, l2 with
    | [], [] => true
    | x :: l1, y :: l2 => json_eqb x y && list_eqb l1 l2
    | _, _ => false
    end in
  let fix dict_eqb (d1 d2 : dict) {struct d1} : bool :=
    match d1, d2 with
    | [], [] => true
    | (k1, x) :: d1, (k2, y) :: d2 => String.eqb k1 k2 && json_eqb x y && dict_eqb d1 d2
    | _, _ => false
    end in
  match a, b with
  | JNull, JNull => true
  | JBool x, JBool y => Bool.eqb x y
  | JNum x, JNum y => Z.eqb x y
  | JStr x, JStr y => String.eqb x y
  | JList l1, JList l2 => list_eqb l1 l2
  | JObj d1, JObj d2 => dict_eqb d1 d2
  | _, _ => false
  end.

Fixpoint json_eqb_refl (a : json) : json_eqb a a = true.
Proof.
  destruct a as [|b|z|s|l|d]; simpl.
  - done.
  - by destruct b.
  - apply Z.eqb_refl.
  - apply String.eqb_refl.
  - induction l as [|x l IH]; [done|]. by rewrite json_eqb_refl.
  - induction d as [|[k x] d IH]; [done|].
    by rewrite String.eqb_refl, json_eqb_refl.
Qed.

Fixpoint json_eqb_eq (a b : json) {struct a} : json_eqb a b = true -> a = b.
Proof.
  destruct a as [|x|x|x|l|d], b as [|y|y|y|l'|d']; simpl; try done.
  - intros H%Bool.eqb_prop. by subst.
  - intros H%Z.eqb_eq. by subst.
  - intros H%String.eqb_eq. by subst.
  - intros H. f_equal. revert l' H.
    induction l as [|x l IH]; intros [|y l'] H; try done.
    apply andb_prop in H as [H1 H2]. f_equal; [by apply json_eqb_eq|by apply IH].
  - intros H. f_equal. revert d' H.
    induction d as [|[k x] d IH]; intros [|[k' y] d'] H; try done.
    apply andb_prop in H as [H H2]. apply andb_prop in H as [H0 H1].
    apply String.eqb_eq in H0. apply json_eqb_eq in H1. subst. f_equal. by apply IH.
Qed.

#[global] Instance json_eq_dec : EqDecision json.
Proof.
  intros a b. destruct (json_eqb a b) eqn:E.
  - left. by apply json_eqb_eq.
  - right. intros ->. by rewrite json_eqb_refl in E.
Defined.

(** Hashable values, as set elements and dict keys: Python identifies [True]
    with [1] and [False] with [0]. *)
Inductive key : Type :=
| KNone
| KNum (z : Z)
| KStr (s : string).

#[global] Instance key_eq_dec : EqDecision key.
Proof. solve_decision. Defined.

#[global] Instance key_countable : Countable key.
Proof.
  refine (inj_countable'
    (fun k => match k with KNone => inl () | KNum z => inr (inl z) | KStr s => inr (inr s) end)
    (fun x => match x with inl _ => KNone | inr (inl z) => KNum z | inr (inr s) => KStr s end) _).
  by intros [].
Defined.

Definition to_key (j : json) : py key :=
  match j with
  | JNull => Ok KNone
  | JBool b => Ok (KNum (if b then 1 else 0))
  | JNum z => Ok (KNum z)
  | JStr s => Ok (KStr s)
  | JList _ | JObj _ => Err TypeError
  end.

(** Truth of a value, and of a hashed value. *)
Definition truthy (j : json) : bool :=
  match j with
  | JNull => false
  | JBool b => b
  | JNum z => negb (Z.eqb z 0)
  | JStr s => negb (String.eqb s "")
  | JList l => match l with [] => false | _ => true end
  | JObj d => match d with [] => false | _ => true end
  end.

Definition key_truthy (k : key) : bool :=
  match k with
  | KNone => false
  | KNum z => negb (Z.eqb z 0)
  | KStr s => negb (String.eqb s "")
  end.

(** [d.get(k)], [d.get(k, dflt)], [d[k]], and [x or y]. *)
Definition get (k : string) (d : dict) : json := default JNull (aget k d).
Definition get_or (k : string) (dflt : json) (d : dict) : json := default dflt (aget k d).
Definition item (k : string) (d : dict) : py json :=
  match aget k d with Some v => Ok v | None => Err KeyError end.
Definition py_or (x y : json) : json := if truthy x then x else y.

(** [isinstance(x, dict)] narrowing and the [AttributeError] of [x.get] on
    anything else. *)
Definition as_dict (j : json) : py dict :=
  match j with JObj d => Ok d | _ => Err AttributeError end.

(** [d.get("type") == t] for a string constant [t]. *)
Definition has_type (t : string) (d : dict) : bool :=
  bool_decide (get "type" d = JStr t).

(** Iterating a value in a [for]. *)
Definition py_iter (j : json) : py (list json) :=
  match j with
  | JList l => Ok l
  | JObj d => Ok (map (fun kv => JStr kv.1) d)
  | JStr s => Ok (map (fun c => JStr (String.String c "")) (String.list_ascii_of_string s))
  | _ => Err TypeError
  end.

(** ** AG-UI's event type tags, [ag_ui.core.EventType], those funduq names *)

Definition RUN_STARTED : string := "RUN_STARTED".
Definition RUN_FINISHED : string := "RUN_FINISHED".
Definition RUN_ERROR : string := "RUN_ERROR".
Definition TEXT_MESSAGE_START : string := "TEXT_MESSAGE_START".
Definition TEXT_MESSAGE_CONTENT : string := "TEXT_MESSAGE_CONTENT".
Definition TEXT_MESSAGE_CHUNK : string := "TEXT_MESSAGE_CHUNK".
Definition REASONING_MESSAGE_START : string := "REASONING_MESSAGE_START".
Definition REASONING_MESSAGE_CONTENT : string := "REASONING_MESSAGE_CONTENT".
Definition REASONING_ENCRYPTED_VALUE : string := "REASONING_ENCRYPTED_VALUE".
Definition TOOL_CALL_START : string := "TOOL_CALL_START".
Definition TOOL_CALL_ARGS : string := "TOOL_CALL_ARGS".
Definition TOOL_CALL_RESULT : string := "TOOL_CALL_RESULT".

(** ** Lemmas *)

Lemma has_type_spec t d : has_type t d = true <-> get "type" d = JStr t.
Proof. apply bool_decide_eq_true. Qed.

Lemma has_type_ne t t' d : t <> t' -> has_type t d = true -> has_type t' d = false.
Proof.
  rewrite has_type_spec. intros Hne Ht. apply bool_decide_eq_false. rewrite Ht. congruence.
Qed.

Lemma item_ok k d v : item k d = Ok v <-> aget k d = Some v.
Proof. unfold item. case_match; naive_solver. Qed.

Lemma get_item k d v : item k d = Ok v -> get k d = v.
Proof. intros H%item_ok. unfold get. by rewrite H. Qed.

#[export] Hint Resolve has_type_ne : funduq.
