(* ===== verification/Pause.v ===== *)
(** * What a run's events say about where its thread stands (funduq/pause.py)

    [open_asks] reads, off the recorded events of a run, what the run left
    waiting: the tool calls nobody answered and the interrupts it finished
    on.  [answered_asks] reads what an inbound request answers, in the same
    id space.  Both are translated over raw event dicts, so a missing key or
    an unhashable id raises as it does in Python. *)

From S2P Require Import Prelude Errors Json.

Module Pause.

(** The interrupts of a RUN_FINISHED with an interrupt outcome, else [None]. *)
Definition interrupt_outcome_of (event : dict) : option json :=
  if has_type RUN_FINISHED event then
    match get "outcome" event with
    | JObj outcome =>
        if has_type "interrupt" outcome
        then Some (py_or (get "interrupts" outcome) (JList []))
        else None
    | _ => None
    end
  else None.

(** One turn of the loop of [unanswered_tool_calls]: the announced ids in
    order, and the set of answered ones. *)
Definition tool_call_step (event : dict) (st : list json * gset key)
    : py (list json * gset key) :=
  let '(announced, answered) := st in
  if has_type TOOL_CALL_START event then
    i ← item "toolCallId" event; Ok (announced ++ [i], answered)
  else if has_type TOOL_CALL_RESULT event then
    i ← item "toolCallId" event; k ← to_key i; Ok (announced, {[k]} ∪ answered)
  else Ok st.

(** [[t for t in announced if t not in answered]], each [t] hashed. *)
Fixpoint keep_unanswered (answered : gset key) (announced : list json) : py (list key) :=
  match announced with
  | [] => Ok []
  | i :: l =>
      k ← to_key i; rest ← keep_unanswered answered l;
      Ok (if bool_decide (k ∈ answered) then rest else k :: rest)
  end.

Definition unanswered_tool_calls (events : list dict) : py (list key) :=
  '(announced, answered) ← fold_res tool_call_step events ([], ∅);
  keep_unanswered answered announced.

(** The first RUN_FINISHED from the end decides: its interrupt outcome, or []. *)
Fixpoint interrupts_of_rev (reversed : list dict) : json :=
  match reversed with
  | [] => JList []
  | event :: rest =>
      if has_type RUN_FINISHED event
      then py_or (default JNull (interrupt_outcome_of event)) (JList [])
      else interrupts_of_rev rest
  end.

Definition interrupts_of (events : list dict) : json := interrupts_of_rev (rev events).

Definition finished (events : list dict) : bool := existsb (has_type RUN_FINISHED) events.

(** [interrupt.get("toolCallId") or interrupt.get("id")], hashed into the set. *)
Definition interrupt_ask (interrupt : json) : py key :=
  i ← as_dict interrupt; to_key (py_or (get "toolCallId" i) (get "id" i)).

Definition open_asks (events : list dict) : py (gset key) :=
  if negb (finished events) then Ok ∅
  else
    calls ← unanswered_tool_calls events;
    ints ← py_iter (interrupts_of events);
    asks ← traverse interrupt_ask ints;
    Ok (filter (fun k => key_truthy k = true) (list_to_set (calls ++ asks))).

(** The dict comprehension that maps each identified interrupt to the ask it stands for. *)
Definition tool_call_of_step (interrupt : json) (m : list (key * json))
    : py (list (key * json)) :=
  i ← as_dict interrupt;
  if truthy (get "id" i) then
    iid ← item "id" i; k ← to_key iid; Ok (aset k (py_or (get "toolCallId" i) iid) m)
  else Ok m.

Definition tool_call_of (events : list dict) : py (list (key * json)) :=
  ints ← py_iter (interrupts_of events); fold_res tool_call_of_step ints [].

(** The set comprehension over the messages. *)
Definition tool_message_step (only_by_resume : gset key) (message : dict) (acc : gset key)
    : py (gset key) :=
  if bool_decide (get "role" message = JStr "tool") && truthy (get "toolCallId" message) then
    i ← item "toolCallId" message; k ← to_key i;
    Ok (if bool_decide (k ∈ only_by_resume) then acc else {[k]} ∪ acc)
  else Ok acc.

Definition resume_step (tool_call_of : list (key * json)) (entry : dict) (acc : gset key)
    : py (gset key) :=
  k ← to_key (get "interruptId" entry);
  match aget k tool_call_of with
  | Some v => a ← to_key v; Ok ({[a]} ∪ acc)
  | None => Ok acc
  end.

Definition answered_asks (messages : list dict) (resume : option (list dict))
    (events : list dict) : py (gset key) :=
  m ← tool_call_of events;
  only ← traverse (fun kv => to_key kv.2) m;
  answered ← fold_res (tool_message_step (list_to_set only)) messages ∅;
  fold_res (resume_step m) (default [] resume) answered.

(** Why the run failed: the last RUN_ERROR's code, else its message; [None]
    (here [JNull]) when there is none. *)
Fixpoint failure_reason_rev (reversed : list dict) : json :=
  match reversed with
  | [] => JNull
  | event :: rest =>
      if has_type RUN_ERROR event then py_or (get "code" event) (get "message" event)
      else failure_reason_rev rest
  end.

Definition failure_reason_of (events : list dict) : json := failure_reason_rev (rev events).

(** ** Specification vocabulary *)

(** [k] is the tool call id of some event of type [t]. *)
Definition tool_id_in (t : string) (events : list dict) (k : key) : Prop :=
  exists e j, e ∈ events /\ has_type t e = true /\ aget "toolCallId" e = Some j /\ to_key j = Ok k.

Definition start_in (events : list dict) (j : json) : Prop :=
  exists e, e ∈ events /\ has_type TOOL_CALL_START e = true /\ aget "toolCallId" e = Some j.

(** [k] is what one of the interrupts the run finished on asks for. *)
Definition interrupt_in (events : list dict) (k : key) : Prop :=
  exists ints i, py_iter (interrupts_of events) = Ok ints /\ i ∈ ints /\ interrupt_ask i = Ok k.

(** What [ag_ui]'s validation guarantees of a recorded event: tool call ids
    are strings, and the interrupts of an interrupt outcome are objects whose
    ids are strings or absent. *)
Definition str_or_none (j : json) : bool :=
  match j with JStr _ | JNull => true | _ => false end.

Definition interrupt_ok (j : json) : bool :=
  match j with
  | JObj i => str_or_none (get "id" i) && str_or_none (get "toolCallId" i)
  | _ => false
  end.

Definition event_ok (e : dict) : bool :=
  (if has_type TOOL_CALL_START e || has_type TOOL_CALL_RESULT e then
     match aget "toolCallId" e with Some (JStr _) => true | _ => false end
   else true) &&
  match interrupt_outcome_of e with
  | Some (JList l) => forallb interrupt_ok l
  | Some _ => false
  | None => true
  end.

(** ** Lemmas *)

Lemma tool_id_in_cons t e events k :
  tool_id_in t (e :: events) k <->
  (has_type t e = true /\ exists j, aget "toolCallId" e = Some j /\ to_key j = Ok k)
  \/ tool_id_in t events k.
Proof.
  unfold tool_id_in. split.
  - intros (e' & j & He & ? & ? & ?). apply elem_of_cons in He as [->|He]; [left|right]; eauto 10.
  - intros [(Ht & j & ? & ?)|(e' & j & ? & ?)]; [exists e, j|exists e', j]; set_solver.
Qed.

Lemma tool_id_in_nil t k : ~ tool_id_in t [] k.
Proof. intros (? & ? & H & _). by apply not_elem_of_nil in H. Qed.

Lemma START_RESULT e : has_type TOOL_CALL_START e = true -> has_type TOOL_CALL_RESULT e = false.
Proof. by apply has_type_ne. Qed.

Lemma start_in_cons e events j :
  start_in (e :: events) j <->
  (has_type TOOL_CALL_START e = true /\ aget "toolCallId" e = Some j) \/ start_in events j.
Proof.
  unfold start_in. split.
  - intros (e' & He & ? & ?). apply elem_of_cons in He as [->|He]; [left|right]; eauto.
  - intros [[? ?]|(e' & ? & ?)]; [exists e|exists e']; set_solver.
Qed.

(** The loop's state after a run over the events: every announcement kept in
    order, every answer remembered, whatever the order they came in. *)
Lemma tool_call_steps events ann ans ann' ans' :
  fold_res tool_call_step events (ann, ans) = Ok (ann', ans') ->
  (forall k, k ∈ ans' <-> k ∈ ans \/ tool_id_in TOOL_CALL_RESULT events k) /\
  (forall j, j ∈ ann' <-> j ∈ ann \/ start_in events j).
Proof.
  revert ann ans. induction events as [|e events IH]; intros ann ans; cbn [fold_res].
  - intros [= -> ->]. split; intros x.
    + pose proof (tool_id_in_nil TOOL_CALL_RESULT x). tauto.
    + unfold start_in. set_solver.
  - intros ((ann1, ans1) & Hs & Hrest)%bind_ok. apply IH in Hrest as [Hk Hj]. clear IH.
    unfold tool_call_step in Hs.
    destruct (has_type TOOL_CALL_START e) eqn:Hst;
      [|destruct (has_type TOOL_CALL_RESULT e) eqn:Hres].
    + apply bind_ok in Hs as (i & Hi & [= <- <-]). apply item_ok in Hi. split.
      * intros k. rewrite Hk, tool_id_in_cons, (START_RESULT e Hst). intuition discriminate.
      * intros j. rewrite Hj, start_in_cons, elem_of_app, list_elem_of_singleton, Hst, Hi.
        intuition congruence.
    + apply bind_ok in Hs as (i & Hi & (k0 & Hk0 & [= <- <-])%bind_ok). apply item_ok in Hi. split.
      * intros k. rewrite Hk, tool_id_in_cons, elem_of_union, elem_of_singleton, Hres, Hi.
        split; [|intros [?|[(_ & j & [= <-] & ?)|?]]; [tauto| |tauto]].
        -- intros [[->|?]|?]; [|tauto..]. right; left. split; [done|]. by exists i.
        -- left; left. congruence.
      * intros j. rewrite Hj, start_in_cons, Hst. intuition discriminate.
    + injection Hs as <- <-. split.
      * intros k. rewrite Hk, tool_id_in_cons, Hres. intuition discriminate.
      * intros j. rewrite Hj, start_in_cons, Hst. intuition discriminate.
Qed.

Lemma keep_unanswered_spec ans ann ks k :
  keep_unanswered ans ann = Ok ks ->
  k ∈ ks <-> k ∉ ans /\ exists j, j ∈ ann /\ to_key j = Ok k.
Proof.
  revert ks. induction ann as [|i ann IH]; intros ks; simpl.
  - intros [= <-]. set_solver.
  - intros (k0 & Hk0 & (rest & Hrest & [= <-])%bind_ok)%bind_ok.
    specialize (IH _ Hrest).
    assert ((exists j, j ∈ i :: ann /\ to_key j = Ok k) <->
            k0 = k \/ exists j, j ∈ ann /\ to_key j = Ok k) as ->.
    { split.
      - intros (j & [->|Hj]%elem_of_cons & ?); [left; congruence|right; eauto].
      - intros [->|(j & ? & ?)]; [exists i|exists j]; set_solver. }
    case_bool_decide; [|rewrite elem_of_cons]; rewrite IH; [|intuition congruence].
    split; [tauto|]. intros [? [->|?]]; [done|tauto].
Qed.

Lemma unanswered_spec events ks k :
  unanswered_tool_calls events = Ok ks ->
  k ∈ ks <-> tool_id_in TOOL_CALL_START events k /\ ~ tool_id_in TOOL_CALL_RESULT events k.
Proof.
  unfold unanswered_tool_calls. intros ((ann, ans) & Hf & Hk)%bind_ok.
  apply tool_call_steps in Hf as [Hans Hann].
  rewrite (keep_unanswered_spec _ _ _ _ Hk), Hans. setoid_rewrite Hann.
  unfold tool_id_in at 2. set_solver.
Qed.


Definition ev (t : string) (fields : dict) : dict := ("type", JStr t) :: fields.

Definition paused_events : list dict :=
  [ ev TOOL_CALL_START [("toolCallId", JStr "c1")];
    ev TOOL_CALL_START [("toolCallId", JStr "c2")];
    ev TOOL_CALL_RESULT [("toolCallId", JStr "c1"); ("messageId", JStr "m")];
    ev RUN_FINISHED [("outcome", JObj [("type", JStr "interrupt");
      ("interrupts", JList [JObj [("id", JStr "i1")]])])] ].


(** *** No exception on validated events *)

Lemma fold_steps_total events ann ans :
  forallb event_ok events = true -> (forall j, j ∈ ann -> exists s, j = JStr s) ->
  exists ann' ans', fold_res tool_call_step events (ann, ans) = Ok (ann', ans') /\
    (forall j, j ∈ ann' -> exists s, j = JStr s).
Proof.
  revert ann ans. induction events as [|e events IH]; intros ann ans Hok Hann; simpl in *.
  { eauto. }
  apply andb_prop in Hok as [He Hrest]. unfold event_ok in He. apply andb_prop in He as [He _].
  unfold tool_call_step at 1.
  destruct (has_type TOOL_CALL_START e) eqn:Hst; [|destruct (has_type TOOL_CALL_RESULT e) eqn:Hre];
    simpl in He.
  - unfold item. destruct (aget "toolCallId" e) as [[| | |s| |]|] eqn:Hid; try done. simpl.
    apply IH; [done|]. intros j [?|?%list_elem_of_singleton]%elem_of_app; eauto.
  - unfold item. destruct (aget "toolCallId" e) as [[| | |s| |]|] eqn:Hid; try done. simpl. by apply IH.
  - simpl. by apply IH.
Qed.

Lemma keep_unanswered_total ans ann :
  (forall j, j ∈ ann -> exists s, j = JStr s) -> exists ks, keep_unanswered ans ann = Ok ks.
Proof.
  induction ann as [|j ann IH]; intros Hann; simpl; [eauto|].
  destruct (Hann j) as [s ->]; [by constructor|]. simpl.
  destruct IH as [ks ->]; [intros; apply Hann; by constructor|]. simpl. eauto.
Qed.

Lemma interrupts_of_ok events :
  forallb event_ok events = true ->
  exists l, interrupts_of events = JList l /\ forallb interrupt_ok l = true.
Proof.
  intros Hok. unfold interrupts_of.
  assert (Hr : forallb event_ok (rev events) = true).
  { apply forallb_forall. intros x Hx. rewrite forallb_forall in Hok. apply Hok. by apply in_rev. }
  clear Hok. induction (rev events) as [|e l IH]; simpl; [by exists []|].
  simpl in Hr. apply andb_prop in Hr as [He Hl].
  destruct (has_type RUN_FINISHED e); [|by apply IH].
  unfold event_ok in He. apply andb_prop in He as [_ He].
  destruct (interrupt_outcome_of e) as [[| | | |ints|]|]; simpl; try done.
  - destruct ints as [|i ints]; [by exists []|]. unfold py_or. simpl. eauto.
  - by exists [].
Qed.

Lemma interrupt_ask_total ints :
  forallb interrupt_ok ints = true -> exists ks, traverse interrupt_ask ints = Ok ks.
Proof.
  induction ints as [|i ints IH]; simpl; [eauto|]. intros [Hi Hints]%andb_prop.
  destruct i as [| | | | |i]; try done. simpl in Hi. apply andb_prop in Hi as [Hid Htc].
  assert (exists k, interrupt_ask (JObj i) = Ok k) as [k ->].
  { unfold interrupt_ask, py_or. simpl.
    destruct (truthy _); [destruct (get "toolCallId" i)|destruct (get "id" i)]; simpl in *; eauto; done. }
  simpl. destruct (IH Hints) as [ks ->]. simpl. eauto.
Qed.

(** On events as AG-UI's validation lets them be recorded (string tool
    call ids, interrupts that are objects with string ids), reading the open
    asks never raises: every door may ask whether a thread is waiting. *)
Theorem open_asks_total events :
  forallb event_ok events = true -> is_ok (open_asks events) = true.
Proof.
  intros Hok. unfold open_asks. destruct (finished events); [|done]. simpl.
  unfold unanswered_tool_calls.
  destruct (fold_steps_total events [] ∅) as (ann & ans & -> & Hann);
    [done|by intros ? ?%not_elem_of_nil|].
  destruct (keep_unanswered_total ans ann Hann) as [ks Hks].
  destruct (interrupts_of_ok _ Hok) as (l & -> & Hl).
  destruct (interrupt_ask_total l Hl) as [as_ Has]. simpl. rewrite Hks; simpl. by rewrite Has.
Qed.

Lemma open_asks_total_witness : is_ok (open_asks paused_events) = true.
Proof. apply open_asks_total. vm_compute. reflexivity. Defined.

(** *** What an inbound request answers *)

Lemma tool_messages_avoid only messages acc acc' :
  fold_res (tool_message_step only) messages acc = Ok acc' ->
  forall k, k ∈ acc' -> k ∈ acc \/ k ∉ only.
Proof.
  intros Hf. apply (fold_res_inv (fun s : gset key => forall k, k ∈ s -> k ∈ acc \/ k ∉ only)
    (tool_message_step only) messages acc acc'); [auto| |done].
  intros x s1 s2 _ IH Hs. unfold tool_message_step in Hs.
  destruct (_ && _); [|by injection Hs as <-].
  apply bind_ok in Hs as (i & _ & (k0 & _ & [= <-])%bind_ok).
  case_bool_decide; [done|]. set_solver.
Qed.

Lemma resumes_sound (Q : key -> Prop) m entries acc acc' :
  fold_res (resume_step m) entries acc = Ok acc' ->
  (forall entry kid v k, entry ∈ entries -> to_key (get "interruptId" entry) = Ok kid ->
     aget kid m = Some v -> to_key v = Ok k -> Q k) ->
  forall k, k ∈ acc' -> k ∈ acc \/ Q k.
Proof.
  intros Hf HQ. apply (fold_res_inv (fun s : gset key => forall k, k ∈ s -> k ∈ acc \/ Q k)
    (resume_step m) entries acc acc'); [auto| |done].
  intros x s1 s2 Hx IH Hs k Hk. unfold resume_step in Hs. apply bind_ok in Hs as (kid & Hkid & Hs).
  destruct (aget kid m) as [v|] eqn:Hm; [|injection Hs as <-; auto].
  apply bind_ok in Hs as (a & Ha & [= <-]).
  apply elem_of_union in Hk as [->%elem_of_singleton|Hk]; [right; eauto|auto].
Qed.

(** An ask one of the interrupts stands for ([only_by_resume] in the
    code) is answered only by a [resume] entry naming that interrupt: no tool
    message a caller writes closes it. *)
Theorem interrupts_answered_only_by_resume messages resume events answered m kid v k :
  answered_asks messages resume events = Ok answered ->
  tool_call_of events = Ok m -> aget kid m = Some v -> to_key v = Ok k ->
  k ∈ answered ->
  exists entry kid' v', entry ∈ default [] resume /\ to_key (get "interruptId" entry) = Ok kid' /\
    aget kid' m = Some v' /\ to_key v' = Ok k.
Proof.
  unfold answered_asks. intros Ha Hm Hkid Hv Hk. rewrite Hm in Ha. simpl in Ha.
  apply bind_ok in Ha as (only & Honly & (acc & Hacc & Hres)%bind_ok).
  destruct (resumes_sound (fun k => exists entry kid' v', entry ∈ default [] resume /\
    to_key (get "interruptId" entry) = Ok kid' /\ aget kid' m = Some v' /\ to_key v' = Ok k)
    _ _ _ _ Hres) with k as [Hin|?]; [by eauto 10|done| |done].
  destruct (tool_messages_avoid _ _ _ _ Hacc k Hin) as [?%not_elem_of_empty|Hno]; [done|].
  destruct Hno. apply elem_of_list_to_set, (traverse_elem _ _ _ _ Honly).
  exists (kid, v). split; [by apply aget_Some_elem|done].
Qed.

Definition tool_said (i : string) : dict := [("role", JStr "tool"); ("toolCallId", JStr i)].

Lemma interrupts_answered_only_by_resume_witness :
  answered_asks [tool_said "i1"; tool_said "c2"] (Some [[("interruptId", JStr "i1")]]) paused_events
    = Ok {[KStr "c2"; KStr "i1"]} /\
  exists entry kid' v', entry ∈ default [] (Some [[("interruptId", JStr "i1")]]) /\
    to_key (get "interruptId" entry) = Ok kid' /\
    aget kid' [(KStr "i1", JStr "i1")] = Some v' /\ to_key v' = Ok (KStr "i1").
Proof.
  split; [vm_compute; reflexivity|].
  apply (interrupts_answered_only_by_resume [tool_said "i1"; tool_said "c2"]
    (Some [[("interruptId", JStr "i1")]]) paused_events {[KStr "c2"; KStr "i1"]} _ (KStr "i1") (JStr "i1"));
    [vm_compute; reflexivity..|set_solver].
Defined.

End Pause.
