(* ===== verification/Payloads.v ===== *)
(** * The bytes each party signs (funduq_contract/payloads.py)

    Each family of signed act has its own byte builder; a byte string is a
    [string] of its UTF-8 bytes, so Python's [.encode()] is the identity here
    and code-point order is byte order.  [sha256_hex] stands for
    [hashlib.sha256(...).hexdigest()]. *)

From stdpp Require Import pretty.
From S2P Require Import Prelude Errors.

Module Payloads.
Section payloads.
Context (sha256_hex : string -> string).

Definition colon : Ascii.ascii := Ascii.Ascii false true false true true true false false.
Definition NUL : Ascii.ascii := Ascii.zero.

Definition KYOK_CALL : string := "funduq-kyok-call".
Definition CONNECT_PROVIDER : string := "funduq-connect-provider".
Definition CONNECT_FUNDUQ : string := "funduq-connect-funduq".
Definition RESOLVE : string := "funduq-resolve".
Definition CANCEL : string := "funduq-cancel".
Definition VIEW : string := "funduq-view".

Definition provider_connect_payload (funduq_public_key funduq_nonce provider_nonce : string) : string :=
  CONNECT_PROVIDER +:+ String colon (funduq_public_key +:+ String colon
    (funduq_nonce +:+ String colon provider_nonce)).

Definition funduq_connect_payload (funduq_nonce provider_nonce : string) : string :=
  CONNECT_FUNDUQ +:+ String colon (funduq_nonce +:+ String colon provider_nonce).

Definition kyok_call_payload (bearer : string) (timestamp : Z) (body_hash : string) : string :=
  KYOK_CALL +:+ String colon (bearer +:+ String colon
    (pretty timestamp +:+ String colon body_hash)).

(** [ask_ids] is an iterable; the ids are sorted, NUL-joined and hashed. *)
Definition resolve_payload (run_id : string) (ask_ids : list string) : string :=
  RESOLVE +:+ String colon (run_id +:+ String colon
    (sha256_hex (join NUL (sort_strings ask_ids)))).

Definition cancel_payload (run_id : string) (timestamp : Z) : string :=
  CANCEL +:+ String colon (run_id +:+ String colon (pretty timestamp)).

Definition view_payload (run_id : string) (timestamp : Z) : string :=
  VIEW +:+ String colon (run_id +:+ String colon (pretty timestamp)).

(** ** The acts the payloads stand for *)

Inductive act : Type :=
| AConnectProvider (funduq_public_key funduq_nonce provider_nonce : string)
| AConnectFunduq (funduq_nonce provider_nonce : string)
| AKyokCall (bearer : string) (timestamp : Z) (body_hash : string)
| AResolve (run_id : string) (ask_ids : list string)
| ACancel (run_id : string) (timestamp : Z)
| AView (run_id : string) (timestamp : Z).

Definition signed_bytes (a : act) : string :=
  match a with
  | AConnectProvider k n p => provider_connect_payload k n p
  | AConnectFunduq n p => funduq_connect_payload n p
  | AKyokCall b t h => kyok_call_payload b t h
  | AResolve r ids => resolve_payload r ids
  | ACancel r t => cancel_payload r t
  | AView r t => view_payload r t
  end.

(** The fields as funduq mints them: hex keys, nonces and ids hold no colon;
    an ask id is not empty and holds no NUL. *)
Definition colon_free (s : string) : Prop := free colon s = true.
Definition ask_id_ok (s : string) : Prop := s <> "" /\ free NUL s = true.

Definition act_ok (a : act) : Prop :=
  match a with
  | AConnectProvider k n _ => colon_free k /\ colon_free n
  | AConnectFunduq n _ => colon_free n
  | AKyokCall b _ _ => colon_free b
  | AResolve r ids => colon_free r /\ Forall ask_id_ok ids
  | ACancel r _ | AView r _ => colon_free r
  end.

(** The same act: a resolution covers a set of asks, whatever their order. *)
Definition same_act (a b : act) : Prop :=
  match a, b with
  | AResolve r ids, AResolve r' ids' => r = r' /\ ids ≡ₚ ids'
  | _, _ => a = b
  end.

(** ** Lemmas *)

Lemma pretty_Z_colon_free (z : Z) : colon_free (pretty z).
Proof.
  assert (Hgo : forall n s, colon_free s -> colon_free (pretty_N_go n s)).
  { intros n. induction (N.lt_wf_0 n) as [n _ IH]. intros s Hs.
    destruct (decide (n = 0)%N) as [->|Hn]; [by rewrite pretty_N_go_0|].
    rewrite pretty_N_go_step by lia. apply IH; [apply N.div_lt; lia|].
    unfold colon_free in *; simpl. rewrite Hs, andb_true_r.
    generalize (n `mod` 10)%N as d.
    intros [|p]; [done|]. do 4 (destruct p as [p|p|]; try reflexivity). }
  assert (HN : forall n : N, colon_free (pretty n)).
  { intros n. unfold pretty, pretty_N. case_decide; [done|]. by apply Hgo. }
  destruct z as [|p|p]; unfold pretty, pretty_Z; [done|apply HN|].
  unfold colon_free; simpl. apply HN.
Qed.

Lemma resolve_payload_proper r ids ids' :
  ids ≡ₚ ids' -> resolve_payload r ids = resolve_payload r ids'.
Proof. intros Hp. unfold resolve_payload. by rewrite (sort_strings_proper _ _ Hp). Qed.

Lemma sort_strings_ok ids : Forall ask_id_ok ids -> Forall ask_id_ok (sort_strings ids).
Proof. by rewrite sort_strings_Permutation. Qed.

Lemma resolve_asks_inj `{!Inj (=) (=) sha256_hex} ids ids' :
  Forall ask_id_ok ids -> Forall ask_id_ok ids' ->
  sha256_hex (join NUL (sort_strings ids)) = sha256_hex (join NUL (sort_strings ids')) ->
  ids ≡ₚ ids'.
Proof.
  intros H H' Heq%(inj sha256_hex). apply join_inj in Heq; [|by apply sort_strings_ok..].
  by rewrite <- (sort_strings_Permutation ids), Heq, sort_strings_Permutation.
Qed.

End payloads.


End Payloads.
