(* ===== verification/Crypto.v ===== *)
(** * The cryptography funduq calls, as an interface

    Ed25519, SHA-256 and JWT come from [cryptography], [hashlib] and [jwt].
    [Crypto] packs the operations the code calls; [CryptoLaws] states the
    documented behaviour the proofs rely on (what is signed verifies, what is
    encoded decodes, the digest is collision free).  [Toy] is an instance in
    which the laws hold, used by the witnesses. *)

From S2P Require Import Prelude Errors Json.

Class Crypto : Type := {
  (** a private key object, and the hex of its public half *)
  private_key : Type;
  public_hex : private_key -> string;
  (** hashlib.sha256(_).hexdigest() *)
  sha256_hex : string -> string;
  (** private_key.sign(payload).hex() *)
  sign_hex : private_key -> string -> string;
  (** does the hex key and the hex signature parse, and does the signature verify? *)
  sig_verifies : string -> string -> string -> bool;
  (** jwt.encode(claims, key, algorithm="EdDSA") *)
  jwt_encode : dict -> private_key -> string;
  (** jwt.decode without verification: [None] is a PyJWTError *)
  jwt_decode : string -> option dict;
  (** Ed25519PublicKey.from_public_bytes(bytes.fromhex(_)) does not raise *)
  pubkey_parses : string -> bool;
  (** jwt.decode under that key does not raise *)
  jwt_verifies : string -> string -> bool;
}.

Class CryptoLaws `{Crypto} : Prop := {
  sign_verifies k p : sig_verifies (public_hex k) (sign_hex k p) p = true;
  jwt_roundtrip c k : jwt_decode (jwt_encode c k) = Some c;
  jwt_signed c k : jwt_verifies (jwt_encode c k) (public_hex k) = true;
  pubkey_of k : pubkey_parses (public_hex k) = true;
  sha256_inj :: Inj (=) (=) sha256_hex;
}.

(** ** A toy instance: keys are their own hex, the digest is the identity, a
    signature is the key and the payload side by side, a token is a printed
    claim set. *)
Module Toy.

(** An injective printing of claim sets: enough for [jwt_roundtrip], through
    stdpp's encoding of countable types into positives. *)
Fixpoint to_tree (j : json) : gen_tree (string + (Z + (bool + ()))) :=
  match j with
  | JNull => GenLeaf (inr (inr (inr ())))
  | JBool b => GenLeaf (inr (inr (inl b)))
  | JNum z => GenLeaf (inr (inl z))
  | JStr s => GenLeaf (inl s)
  | JList l => GenNode 0 (map to_tree l)
  | JObj d => GenNode 1 ((fix go (d : dict) := match d with
      | [] => []
      | (k, v) :: d => GenLeaf (inl k) :: to_tree v :: go d
      end) d)
  end.

Fixpoint of_tree (t : gen_tree (string + (Z + (bool + ())))) : json :=
  match t with
  | GenLeaf (inr (inr (inr ()))) => JNull
  | GenLeaf (inr (inr (inl b))) => JBool b
  | GenLeaf (inr (inl z)) => JNum z
  | GenLeaf (inl s) => JStr s
  | GenNode 0 l => JList (map of_tree l)
  | GenNode _ l => JObj ((fix go (l : list (gen_tree (string + (Z + (bool + ()))))) := match l with
      | GenLeaf (inl k) :: v :: l => (k, of_tree v) :: go l
      | _ => []
      end) l)
  end.

Fixpoint of_to_tree (j : json) : of_tree (to_tree j) = j.
Proof.
  destruct j as [| | | |l|d]; simpl; try done; f_equal.
  - induction l as [|x l IH]; simpl; [done|]. by rewrite of_to_tree, IH.
  - induction d as [|[k x] d IH]; simpl; [done|]. by rewrite of_to_tree, IH.
Qed.

#[global] Instance json_countable : Countable json :=
  inj_countable' to_tree of_tree of_to_tree.

(** A positive as a string of its bits. *)
Fixpoint bits (p : positive) : string :=
  match p with
  | xH => ""
  | xO p => String (Ascii.ascii_of_nat 48) (bits p)
  | xI p => String (Ascii.ascii_of_nat 49) (bits p)
  end.

Fixpoint unbits (s : string) : positive :=
  match s with
  | EmptyString => xH
  | String c s => if Ascii.eqb c (Ascii.ascii_of_nat 48) then xO (unbits s) else xI (unbits s)
  end.

Lemma unbits_bits p : unbits (bits p) = p.
Proof. induction p as [p IH|p IH|]; simpl; [by rewrite IH..|done]. Qed.

Definition print (c : dict) (k : string) : string := bits (encode (c, k)).
Definition parse (t : string) : option (dict * string) := decode (unbits t).

Lemma parse_print c k : parse (print c k) = Some (c, k).
Proof. unfold parse, print. by rewrite unbits_bits, decode_encode. Qed.

#[export] Instance crypto : Crypto := {|
  private_key := string;
  public_hex k := k;
  sha256_hex s := s;
  sign_hex k p := k +:+ p;
  sig_verifies k s p := String.eqb s (k +:+ p);
  jwt_encode c k := print c k;
  jwt_decode t := fst <$> parse t;
  pubkey_parses _ := true;
  jwt_verifies t k := match parse t with Some (_, k') => String.eqb k k' | None => false end;
|}.

#[export] Instance laws : CryptoLaws.
Proof.
  split; simpl.
  - intros k p. apply String.eqb_refl.
  - intros c k. by rewrite parse_print.
  - intros c k. rewrite parse_print. apply String.eqb_refl.
  - done.
  - by intros x y.
Qed.

End Toy.
