(* ===== verification/Chain.v ===== *)
(** * The actor chain (funduq_contract/chain.py)

    A chain is a list of JWT hops, head first, each naming its signer and the
    hash of the hop before it; a hop may record a dispatch to one agent.
    [verify_chain] is the code's loop, one [check_hop] per turn;
    [linked] is the specification: what a verified chain is. *)

From S2P Require Import Prelude Errors Json Crypto.

Module Chain.
Section chain.
Context `{Crypto}.

(** Where a witness handed the work. *)
Record DispatchTarget : Type := { dt_provider_key : string; dt_name : string }.

Record Hop : Type := {
  actor_public_key : string;
  prev_hash : option string;
  dispatched_to : option DispatchTarget;
}.

(** [prevHash]: absent or null is [None]; anything else must be a string. *)
Definition parse_prev_hash (payload : dict) : py (option string) :=
  match get "prevHash" payload with
  | JNull => Ok None
  | JStr s => Ok (Some s)
  | _ => Err (InvalidChain "prevHash is not a string")
  end.

Definition parse_dispatched_to (payload : dict) : py (option DispatchTarget) :=
  match aget "dispatchedTo" payload with
  | None => Ok None
  | Some (JObj claimed) =>
      match get "providerKey" claimed, get "name" claimed with
      | JStr k, JStr n => Ok (Some {| dt_provider_key := k; dt_name := n |})
      | _, _ => Err (InvalidChain "dispatchedTo needs a providerKey and a name")
      end
  | Some _ => Err (InvalidChain "dispatchedTo is not an object")
  end.

Definition parse_hop (payload : dict) : py Hop :=
  match get "actorPublicKey" payload with
  | JStr k =>
      p ← parse_prev_hash payload;
      d ← parse_dispatched_to payload;
      Ok {| actor_public_key := k; prev_hash := p; dispatched_to := d |}
  | _ => Err (InvalidChain "missing actorPublicKey")
  end.

Definition hop_hash (token : string) : string := sha256_hex token.

(** ** Building a chain *)

Definition hop_claims (k : private_key) (prev_token : option string)
    (target : option DispatchTarget) : dict :=
  [("actorPublicKey", JStr (public_hex k));
   ("prevHash", match prev_token with Some t => JStr (hop_hash t) | None => JNull end)]
  ++ match target with
     | Some d => [("dispatchedTo", JObj [("providerKey", JStr (dt_provider_key d));
                                         ("name", JStr (dt_name d))])]
     | None => []
     end.

Definition sign_hop (k : private_key) (prev_token : option string)
    (target : option DispatchTarget) : string :=
  jwt_encode (hop_claims k prev_token target) k.

Definition new_chain (k : private_key) : list string := [sign_hop k None None].

Definition extend_chain (k : private_key) (prev_chain : list string) : py (list string) :=
  match last prev_chain with
  | None => Err (ValueError "extend_chain requires a non-empty chain")
  | Some t => Ok (prev_chain ++ [sign_hop k (Some t) None])
  end.

(** [prev_chain[-1]] raises IndexError, a LookupError, on an empty chain. *)
Definition dispatch_hop (k : private_key) (prev_chain : list string) (target : DispatchTarget)
    : py (list string) :=
  match last prev_chain with
  | None => Err LookupError
  | Some t => Ok (prev_chain ++ [sign_hop k (Some t) (Some target)])
  end.

(** ** Verifying one *)

(** A hop that dispatched and its successor must agree. *)
Definition agrees (previous : option Hop) (hop : Hop) : py () :=
  match previous with
  | Some p =>
      match dispatched_to p with
      | Some d =>
          if String.eqb (actor_public_key hop) (dt_provider_key d) then Ok ()
          else if String.eqb (actor_public_key hop) (actor_public_key p) then
            match dispatched_to hop with
            | None => Err (InvalidChain "a witness may never sign as a party")
            | Some _ => Ok ()
            end
          else Err (InvalidChain "signed by neither the named party nor the witness")
      | None => Ok ()
      end
  | None => Ok ()
  end.

(** One turn of [verify_chain]'s loop. *)
Definition check_hop (prev_token : option string) (previous : option Hop) (token : string)
    : py Hop :=
  match jwt_decode token with
  | None => Err (InvalidChain "unparseable token")
  | Some unverified =>
      hop ← parse_hop unverified;
      guard_or (InvalidChain "malformed actorPublicKey") (pubkey_parses (actor_public_key hop))
      (guard_or (InvalidChain "signature check failed") (jwt_verifies token (actor_public_key hop))
      (guard_or (InvalidChain "prevHash doesn't match")
         (bool_decide (prev_hash hop = hop_hash <$> prev_token))
      (_ ← agrees previous hop; Ok hop)))
  end.

Fixpoint verify_from (prev_token : option string) (previous : option Hop) (chain : list string)
    : py (list Hop) :=
  match chain with
  | [] => Ok []
  | token :: rest =>
      hop ← check_hop prev_token previous token;
      hops ← verify_from (Some token) (Some hop) rest;
      Ok (hop :: hops)
  end.

(** Returns the [ChainResult]: its list of hops, never empty. *)
Definition verify_chain (chain : list string) : py (list Hop) :=
  match chain with
  | [] => Err (InvalidChain "empty actor chain")
  | _ => verify_from None None chain
  end.

(** [ChainResult]'s readings. *)
Definition actor_public_keys (hops : list Hop) : list string := actor_public_key <$> hops.
Definition chain_head (hops : list Hop) : option string := head (actor_public_keys hops).
Definition presenter (hops : list Hop) : option string := last (actor_public_keys hops).

(** ** Specification *)

(** The dispatch rule, as a predicate. *)
Definition agreement (previous : option Hop) (hop : Hop) : Prop :=
  forall p d, previous = Some p -> dispatched_to p = Some d ->
    actor_public_key hop = dt_provider_key d \/
    (actor_public_key hop = actor_public_key p /\ is_Some (dispatched_to hop)).

Inductive linked : option string -> option Hop -> list string -> list Hop -> Prop :=
| linked_nil pt ph : linked pt ph [] []
| linked_cons pt ph token rest claims hop hops :
    jwt_decode token = Some claims ->
    parse_hop claims = Ok hop ->
    pubkey_parses (actor_public_key hop) = true ->
    jwt_verifies token (actor_public_key hop) = true ->
    prev_hash hop = hop_hash <$> pt ->
    agreement ph hop ->
    linked (Some token) (Some hop) rest hops ->
    linked pt ph (token :: rest) (hop :: hops).

(** ** Lemmas *)

Lemma agrees_spec ph hop : agrees ph hop = Ok () <-> agreement ph hop.
Proof.
  unfold agrees, agreement. destruct ph as [p|]; [|naive_solver].
  destruct (dispatched_to p) as [d|] eqn:Hd; [|naive_solver].
  destruct (String.eqb _ (dt_provider_key d)) eqn:E1.
  { apply String.eqb_eq in E1. naive_solver. }
  apply String.eqb_neq in E1.
  destruct (String.eqb _ (actor_public_key p)) eqn:E2.
  - apply String.eqb_eq in E2. destruct (dispatched_to hop).
    + split; [|done]. intros _ ? ? [= <-] ?. right. eauto.
    + split; [done|]. intros Ha. edestruct Ha as [?|[_ [? [=]]]]; eauto. simplify_eq.
  - apply String.eqb_neq in E2. split; [done|].
    intros Ha. edestruct Ha as [?|[? _]]; eauto; simplify_eq.
Qed.

Lemma check_hop_ok pt ph token hop :
  check_hop pt ph token = Ok hop <->
  exists claims, jwt_decode token = Some claims /\ parse_hop claims = Ok hop /\
    pubkey_parses (actor_public_key hop) = true /\
    jwt_verifies token (actor_public_key hop) = true /\
    prev_hash hop = hop_hash <$> pt /\ agreement ph hop.
Proof.
  unfold check_hop. destruct (jwt_decode token) as [claims|]; [|naive_solver]. split.
  - intros (h & Hh & Hk)%bind_ok. rewrite !guard_or_ok in Hk.
    destruct Hk as (Hpk & Hv & Hph%bool_decide_eq_true & Ha).
    apply bind_ok in Ha as ([] & Ha%agrees_spec & [= <-]). eauto 10.
  - intros (c & [= <-] & Hp & Hpk & Hv & Hph & Ha). rewrite Hp. simpl.
    apply agrees_spec in Ha.
    unfold guard_or. rewrite Hpk, Hv, bool_decide_eq_true_2 by done. by rewrite Ha.
Qed.

Lemma verify_from_linked pt ph chain hops :
  verify_from pt ph chain = Ok hops <-> linked pt ph chain hops.
Proof.
  revert pt ph hops. induction chain as [|token rest IH]; intros pt ph hops; simpl.
  - split; [intros [= <-]; constructor|by inversion 1].
  - rewrite bind_ok. split.
    + intros (hop & Hc & (hs & Hr & [= <-])%bind_ok). apply check_hop_ok in Hc.
      destruct Hc as (claims & ? & ? & ? & ? & ? & ?). econstructor; eauto. by apply IH.
    + inversion_clear 1 as [|? ? ? ? claims hop hs]. exists hop.
      rewrite check_hop_ok. split; [by eauto 10|]. apply bind_ok. exists hs. by rewrite IH.
Qed.

Lemma linked_app pt ph c1 c2 hops :
  linked pt ph (c1 ++ c2) hops <->
  exists h1 h2, hops = h1 ++ h2 /\ linked pt ph c1 h1 /\
    linked (match last c1 with Some t => Some t | None => pt end)
           (match last h1 with Some h => Some h | None => ph end) c2 h2.
Proof.
  revert pt ph hops. induction c1 as [|t c1 IH]; intros pt ph hops; simpl.
  - split; [intros Hl; exists [], hops; repeat split; [constructor|done]|].
    intros (h1 & h2 & -> & Hn & Hl). inversion Hn; subst. done.
  - split.
    + inversion_clear 1 as [|? ? ? ? claims hop hs Hd Hp Hk Hv Hh Ha Hl].
      apply IH in Hl as (h1 & h2 & -> & Hl1 & Hl2).
      exists (hop :: h1), h2. split; [done|]. split; [by econstructor; eauto|].
      rewrite !last_cons. by destruct (last c1), (last h1).
    + intros (h1 & h2 & -> & Hl1 & Hl2).
      inversion Hl1 as [|? ? ? ? claims hop hs Hd Hp Hk Hv Hh Ha Hl]; subst.
      simpl. econstructor; eauto. apply IH. exists hs, h2. split; [done|]. split; [done|].
      rewrite !last_cons in Hl2. by destruct (last c1), (last hs).
Qed.

Lemma linked_length pt ph c hops : linked pt ph c hops -> length hops = length c.
Proof. induction 1; simpl; congruence. Qed.

Lemma verify_chain_linked chain hops :
  verify_chain chain = Ok hops <-> chain <> [] /\ linked None None chain hops.
Proof.
  destruct chain as [|t rest]; [naive_solver|].
  unfold verify_chain. rewrite verify_from_linked. naive_solver.
Qed.

(** C9. [verify_chain] accepts exactly the chains of the specification: a
    non-empty list in which every token decodes to its hop, is signed by the
    key the hop names, carries the hash of the token before it (none for the
    first), and in which the successor of a dispatch is the party it named or
    the witness re-dispatching. *)
Theorem verify_chain_spec chain hops :
  verify_chain chain = Ok hops <-> chain <> [] /\ linked None None chain hops.
Proof. apply verify_chain_linked. Qed.

Lemma verify_from_snoc pt ph chain t :
  verify_from pt ph (chain ++ [t]) =
  (hops ← verify_from pt ph chain;
   hop ← check_hop (match last chain with Some t' => Some t' | None => pt end)
                   (match last hops with Some h => Some h | None => ph end) t;
   Ok (hops ++ [hop])).
Proof.
  revert pt ph. induction chain as [|x chain IH]; intros pt ph; cbn [app verify_from last].
  - cbn [mbind result_bind last]. by destruct (check_hop _ _ _).
  - destruct (check_hop pt ph x) as [hop|]; [|done]. cbn [mbind result_bind].
    rewrite IH. destruct (verify_from _ _ chain) as [hops|]; [|done]. cbn [mbind result_bind].
    change (last (x :: chain)) with (match chain with [] => Some x | _ => last chain end).
    rewrite !last_cons.
    assert (match chain with [] => Some x | _ => last chain end =
            match last chain with Some y => Some y | None => Some x end) as ->.
    { destruct chain; [done|]. by destruct (last (s :: chain)) eqn:E; [|apply last_None in E]. }
    destruct (last chain), (last hops); by destruct (check_hop _ _ _).
Qed.

(** Every non-empty prefix of a verified chain verifies. *)
Lemma verify_prefix c1 c2 hops :
  c1 <> [] -> verify_chain (c1 ++ c2) = Ok hops ->
  verify_chain c1 = Ok (take (length c1) hops).
Proof.
  intros Hne Hv. apply verify_chain_linked in Hv as [_ Hl].
  apply linked_app in Hl as (h1 & h2 & -> & Hl1 & _).
  apply verify_chain_linked. split; [done|].
  by rewrite <- (linked_length _ _ _ _ Hl1), take_app_length.
Qed.

(** *** Building, then verifying *)

Context `{!CryptoLaws}.

Lemma parse_hop_claims k pt target :
  parse_hop (hop_claims k pt target) =
  Ok {| actor_public_key := public_hex k; prev_hash := hop_hash <$> pt; dispatched_to := target |}.
Proof. destruct pt, target as [[? ?]|]; reflexivity. Qed.

Lemma check_signed k pt ph target :
  check_hop pt ph (sign_hop k pt target) =
  (_ ← agrees ph {| actor_public_key := public_hex k; prev_hash := hop_hash <$> pt; dispatched_to := target |};
   Ok {| actor_public_key := public_hex k; prev_hash := hop_hash <$> pt; dispatched_to := target |}).
Proof.
  unfold check_hop, sign_hop. rewrite jwt_roundtrip, parse_hop_claims. simpl.
  rewrite pubkey_of, jwt_signed, bool_decide_eq_true_2 by done. done.
Qed.

Lemma verify_snoc chain hops t k target :
  verify_chain chain = Ok hops -> last chain = Some t ->
  verify_chain (chain ++ [sign_hop k (Some t) target]) =
  (_ ← agrees (last hops)
         {| actor_public_key := public_hex k; prev_hash := Some (hop_hash t); dispatched_to := target |};
   Ok (hops ++ [{| actor_public_key := public_hex k; prev_hash := Some (hop_hash t); dispatched_to := target |}])).
Proof.
  intros Hv Ht. destruct chain as [|t0 rest]; [done|].
  unfold verify_chain in *. cbn [app].
  change (t0 :: rest ++ ?x) with ((t0 :: rest) ++ x).
  rewrite verify_from_snoc, Hv, Ht. cbn [mbind result_bind].
  assert (exists h, last hops = Some h) as [h Hh].
  { apply verify_from_linked, linked_length in Hv. destruct hops; [done|]. by apply last_is_Some. }
  rewrite Hh, check_signed. change (hop_hash <$> Some t) with (Some (hop_hash t)).
  by destruct (agrees _ _).
Qed.

(** What the builders make, the verifier accepts: extending a verified
    chain whose tail did not dispatch, or dispatching on from any verified
    chain under the rule, yields a chain that verifies to the old hops plus
    the signer's, keeps its head and changes its presenter to the signer. *)
Theorem extend_verifies chain hops k chain' :
  verify_chain chain = Ok hops ->
  (forall h d, last hops = Some h -> dispatched_to h = Some d -> public_hex k = dt_provider_key d) ->
  extend_chain k chain = Ok chain' ->
  exists hop, verify_chain chain' = Ok (hops ++ [hop]) /\ dispatched_to hop = None /\
    chain_head (hops ++ [hop]) = chain_head hops /\ presenter (hops ++ [hop]) = Some (public_hex k).
Proof.
  intros Hv Hd He. unfold extend_chain in He. destruct (last chain) as [t|] eqn:Ht; [|done].
  injection He as <-. rewrite (verify_snoc _ _ _ _ _ Hv Ht).
  set (hop := {| actor_public_key := _ |}). exists hop.
  assert (agrees (last hops) hop = Ok ()) as ->.
  { apply agrees_spec. intros p d Hp Hpd. left. by eapply Hd. }
  split; [done|]. split; [done|]. apply verify_chain_linked in Hv as [Hne Hl].
  apply linked_length in Hl. unfold chain_head, presenter, actor_public_keys.
  rewrite fmap_app. cbn [fmap list_fmap]. rewrite last_snoc.
  split; [|done]. destruct hops; [by destruct chain|done].
Qed.

(** The tail token vouches for the whole chain: two chains that verify
    and end in the same token are the same chain, so nothing before a
    genuine hop can be replaced, reordered, spliced or dropped. *)
Theorem tail_determines_chain c1 c2 t h1 h2 :
  verify_chain (c1 ++ [t]) = Ok h1 -> verify_chain (c2 ++ [t]) = Ok h2 -> c1 = c2.
Proof.
  intros [_ H1]%verify_chain_linked [_ H2]%verify_chain_linked.
  revert c2 t h1 h2 H1 H2. induction c1 as [|x c1 IH] using rev_ind;
    intros c2 t h1 h2 H1 H2.
  - destruct c2 as [|y c2 _] using rev_ind; [done|]. exfalso.
    apply linked_app in H2 as (hs & hs' & _ & _ & H2). rewrite last_snoc in H2.
    inversion H1 as [|? ? ? ? claims hop ?]; subst. inversion H2 as [|? ? ? ? claims' hop' ?]; subst.
    simplify_eq/=. congruence.
  - destruct c2 as [|y c2 _] using rev_ind.
    + exfalso. apply linked_app in H1 as (hs & hs' & _ & _ & H1). rewrite last_snoc in H1.
      inversion H1 as [|? ? ? ? claims hop ?]; subst. inversion H2 as [|? ? ? ? claims' hop' ?]; subst.
      simplify_eq/=. congruence.
    + apply linked_app in H1 as (hs1 & hs1' & -> & H1 & Ht1). rewrite last_snoc in Ht1.
      apply linked_app in H2 as (hs2 & hs2' & -> & H2 & Ht2). rewrite last_snoc in Ht2.
      inversion Ht1 as [|? ? ? ? claims hop ?]; subst. inversion Ht2 as [|? ? ? ? claims' hop' ?]; subst.
      simplify_eq/=. assert (x = y) as ->.
      { apply (inj hop_hash). congruence. }
      by rewrite (IH c2 y hs1 hs2 H1 H2).
Qed.
End chain.

(** ** Witnesses, in the toy instance *)
Module Witness.
Import Toy.

Definition one : list string := [@sign_hop crypto "alice" None None].
Definition hop_of (k : string) (p : option string) : Hop :=
  {| actor_public_key := k; prev_hash := p; dispatched_to := None |}.

Lemma verify_chain_spec_witness :
  verify_chain one = Ok [hop_of "alice" None] /\ linked None None one [hop_of "alice" None].
Proof.
  split; [vm_compute; reflexivity|].
  apply (verify_chain_spec one [hop_of "alice" None]). vm_compute. reflexivity.
Defined.

Lemma extend_verifies_witness :
  exists chain', extend_chain (H := crypto) "bob" one = Ok chain' /\
  exists hop, verify_chain chain' = Ok ([hop_of "alice" None] ++ [hop]) /\ dispatched_to hop = None /\
    chain_head ([hop_of "alice" None] ++ [hop]) = Some "alice" /\
    presenter ([hop_of "alice" None] ++ [hop]) = Some "bob".
Proof.
  eexists. split; [reflexivity|].
  apply (extend_verifies (H := crypto) one [hop_of "alice" None] "bob").
  - vm_compute. reflexivity.
  - intros h d [= <-]. discriminate.
  - reflexivity.
Defined.

Definition second : string := @sign_hop crypto "bob" (last one) None.

Lemma tail_determines_chain_witness : is_ok (verify_chain (one ++ [second])) = true /\ one = one.
Proof.
  split; [vm_compute; reflexivity|].
  eapply (tail_determines_chain (H := crypto) one one second); vm_compute; reflexivity.
Defined.
End Witness.
End Chain.
