(* ===== verification/Identity.v ===== *)
(** * Signed acts and their authorities (funduq/identity.py,
    funduq_contract/signatures.py)

    A proof is a JSON value from the caller's bag.  [verify_resolution] and
    [verify_cancel] check who signed, over which bytes and (for a cancel) how
    long ago; the clock is an argument, in microseconds. *)

From S2P Require Import Prelude Errors Json Crypto Payloads.

Module Identity.
Section identity.
Context `{Crypto}.

Definition SIGNATURE_FRESHNESS_WINDOW_SECONDS : Z := 60.
Definition FINGERPRINT_HEX_LENGTH : nat := 16.

Definition second : Z := 1000000.

Definition is_timestamp_fresh (now timestamp : Z) : bool :=
  Z.leb (Z.abs (now - timestamp * second)) (SIGNATURE_FRESHNESS_WINDOW_SECONDS * second).

(** [verify_signature] over a JSON signature: [bytes.fromhex] of a value that
    is not a string raises [TypeError], which the code does not catch. *)
Definition verify_signature (public_key_hex : string) (signature : json) (payload : string) : py bool :=
  match signature with
  | JStr s => Ok (sig_verifies public_key_hex s payload)
  | _ => Err TypeError
  end.

(** [bytes.fromhex(public_key)] raises on a key that is not hex; [digest] is
    the sha256 of the parsed bytes. *)
Definition provider_fingerprint (digest : string -> option string) (public_key : string) : py string :=
  match digest public_key with
  | Some d => Ok (String.substring 0 FINGERPRINT_HEX_LENGTH d)
  | None => Err (ValueError "fromhex")
  end.

Definition is_fingerprint (value : string) : bool := Nat.eqb (String.length value) FINGERPRINT_HEX_LENGTH.

(** [proof[k]] on a JSON value: only a dict can be subscripted by a string. *)
Definition subscript (k : string) (proof : json) : py json :=
  match proof with JObj d => item k d | _ => Err TypeError end.

(** [int(x)]: of a number, a boolean, or a string of ASCII decimal digits,
    single underscores between them, an optional sign, surrounding blanks. *)
Definition blank (c : Ascii.ascii) : bool :=
  let n := Ascii.nat_of_ascii c in Nat.eqb n 32 || (Nat.leb 9 n && Nat.leb n 13).

Fixpoint lstrip (s : string) : string :=
  match s with
  | String c s' => if blank c then lstrip s' else s
  | EmptyString => EmptyString
  end.

Definition starts_digit (s : string) : bool :=
  match s with
  | String c _ => let n := Ascii.nat_of_ascii c in Nat.leb 48 n && Nat.leb n 57
  | EmptyString => false
  end.

Fixpoint digits (acc : Z) (s : string) : option Z :=
  match s with
  | EmptyString => Some acc
  | String c s' =>
      let n := Ascii.nat_of_ascii c in
      if Nat.leb 48 n && Nat.leb n 57 then digits (10 * acc + Z.of_nat (n - 48)) s'
      else if Nat.eqb n 95 then (if starts_digit s' then digits acc s' else None)
      else if blank c then (if String.eqb (lstrip s') "" then Some acc else None)
      else None
  end.

Definition int_of_string (s : string) : option Z :=
  let unsigned s := if starts_digit s then digits 0 s else None in
  match lstrip s with
  | String c s' =>
      let n := Ascii.nat_of_ascii c in
      if Nat.eqb n 45 then Z.opp <$> unsigned s'
      else if Nat.eqb n 43 then unsigned s'
      else unsigned (String c s')
  | EmptyString => None
  end.

Definition py_int (j : json) : py Z :=
  match j with
  | JNum z => Ok z
  | JBool b => Ok (if b then 1 else 0)%Z
  | JStr s => match int_of_string s with Some z => Ok z | None => Err (ValueError "int") end
  | _ => Err TypeError
  end.

(** [except (KeyError, TypeError, ValueError)] around the reads of a proof. *)
Definition malformed {A} (invalid : string -> exn) (r : py A) : py A :=
  match r with
  | Ok a => Ok a
  | Err KeyError | Err TypeError | Err (ValueError _) => Err (invalid "malformed proof")
  | Err e => Err e
  end.

(** [signer in allowed_keys], hashing the signer. *)
Definition in_keys (signer : json) (allowed : gset string) : py bool :=
  k ← to_key signer;
  Ok match k with KStr s => bool_decide (s ∈ allowed) | _ => false end.

Definition verify_signed_act (now : Z) (proof : json) (run_id : string)
    (payload_for : string -> Z -> string) (allowed_keys : gset string)
    (invalid : string -> exn) : py string :=
  '(signer, timestamp, signature) ← malformed invalid
     (signer ← subscript "publicKey" proof;
      ts ← subscript "timestamp" proof; timestamp ← py_int ts;
      signature ← subscript "signature" proof;
      Ok (signer, timestamp, signature));
  allowed ← in_keys signer allowed_keys;
  guard_or (invalid "the signer is not an authority for this run") allowed
  (guard_or (invalid "timestamp outside the freshness window") (is_timestamp_fresh now timestamp)
  match signer with
  | JStr s =>
      ok ← verify_signature s signature (payload_for run_id timestamp);
      guard_or (invalid "signature does not verify") ok (Ok s)
  | _ => Err TypeError
  end).

Definition verify_cancel (now : Z) (cancel : json) (run_id : string) (allowed_keys : gset string)
    : py string :=
  verify_signed_act now cancel run_id Payloads.cancel_payload allowed_keys InvalidCancel.

Definition verify_resolution (resolution : json) (run_id : string) (ask_ids : list string)
    (allowed_keys : gset string) : py string :=
  '(signer, signature) ← malformed InvalidResolution
     (signer ← subscript "publicKey" resolution;
      signature ← subscript "signature" resolution; Ok (signer, signature));
  allowed ← in_keys signer allowed_keys;
  guard_or (InvalidResolution "the signer is not an authority for this run") allowed
  match signer with
  | JStr s =>
      ok ← verify_signature s signature (Payloads.resolve_payload sha256_hex run_id ask_ids);
      guard_or (InvalidResolution "resolve signature does not verify") ok (Ok s)
  | _ => Err TypeError
  end.

(** What a proof must carry. *)
Definition proof_fields (proof : json) (signer signature : string) : Prop :=
  exists d, proof = JObj d /\ aget "publicKey" d = Some (JStr signer) /\
    aget "signature" d = Some (JStr signature).

Definition proof_time (proof : json) (timestamp : Z) : Prop :=
  exists d ts, proof = JObj d /\ aget "timestamp" d = Some ts /\ py_int ts = Ok timestamp.

(** ** Lemmas *)

Lemma subscript_ok k proof v :
  subscript k proof = Ok v <-> exists d, proof = JObj d /\ aget k d = Some v.
Proof.
  destruct proof; simpl; try (split; [done|by intros (? & [=] & _)]).
  rewrite item_ok. split; [eauto|by intros (? & [= <-] & ?)].
Qed.

Lemma malformed_ok {A} invalid (r : py A) a : malformed invalid r = Ok a <-> r = Ok a.
Proof. destruct r as [|[]]; simpl; naive_solver. Qed.

Lemma in_keys_true signer allowed :
  in_keys signer allowed = Ok true <-> exists s, signer = JStr s /\ s ∈ allowed.
Proof.
  unfold in_keys. destruct signer; simpl; try (split; [done|intros (? & [=] & _)]).
  split.
  - intros [= Hin%bool_decide_eq_true]. eauto.
  - intros (? & [= <-] & ?). by rewrite bool_decide_eq_true_2.
Qed.

Lemma verify_signature_true k sig p :
  verify_signature k sig p = Ok true <-> exists s, sig = JStr s /\ sig_verifies k s p = true.
Proof.
  destruct sig as [| | |s| |]; simpl; try (split; [done|by intros (? & [=] & _)]).
  split; [intros [= Hv]; eauto|intros (? & [= <-] & ->); done].
Qed.

(** What an accepted cancel carried. *)
Definition cancel_proved now cancel run_id (allowed : gset string) s : Prop :=
  exists sig ts, proof_fields cancel s sig /\ proof_time cancel ts /\ s ∈ allowed /\
    (Z.abs (now - ts * 1000000) <= 60 * 1000000)%Z /\
    sig_verifies s sig (Payloads.cancel_payload run_id ts) = true.

Lemma verify_cancel_sound now cancel run_id allowed s :
  verify_cancel now cancel run_id allowed = Ok s -> cancel_proved now cancel run_id allowed s.
Proof.
  unfold verify_cancel, verify_signed_act.
  intros (((signer, ts), sig) & Hp%malformed_ok & Hv)%bind_ok.
  apply bind_ok in Hp as (sg & Hsg%subscript_ok & Hp).
  apply bind_ok in Hp as (tj & Htj%subscript_ok & Hp).
  apply bind_ok in Hp as (t & Ht & Hp).
  apply bind_ok in Hp as (si & Hsi%subscript_ok & Hp). injection Hp as <- <- <-.
  destruct Hsg as (d & -> & Hsg), Htj as (? & [= <-] & Htj), Hsi as (? & [= <-] & Hsi).
  apply bind_ok in Hv as (b & Hb & (-> & Hv)%guard_or_ok).
  apply guard_or_ok in Hv as [Hf%Z.leb_le Hv].
  apply in_keys_true in Hb as (s' & -> & Hin).
  apply bind_ok in Hv as (b & Hb & (-> & [= <-])%guard_or_ok).
  apply verify_signature_true in Hb as (s0 & -> & Hs0).
  exists s0, t. split; [by exists d|]. split; [by exists d, tj|]. split; [done|]. split; [exact Hf|done].
Qed.

Lemma verify_cancel_complete now cancel run_id allowed s :
  cancel_proved now cancel run_id allowed s -> verify_cancel now cancel run_id allowed = Ok s.
Proof.
  unfold verify_cancel, verify_signed_act.
  intros (sig & ts & (d & -> & Hpk & Hsig) & (? & tj & [= <-] & Htj & Ht) & Hin & Hf & Hv).
  simpl. unfold item. rewrite Hpk, Htj. simpl. rewrite Ht. simpl. rewrite Hsig. simpl.
  unfold in_keys. simpl. rewrite bool_decide_eq_true_2 by done. simpl.
  unfold is_timestamp_fresh. rewrite (proj2 (Z.leb_le _ _)) by exact Hf. simpl. by rewrite Hv.
Qed.

(** A cancel is accepted exactly when its proof names a key among the
    run's authorities, carries a timestamp within 60 seconds of the clock
    either way, and a signature by that key over this run's cancel bytes at
    that timestamp; the signer is what is returned. *)
Theorem verify_cancel_spec now cancel run_id allowed s :
  verify_cancel now cancel run_id allowed = Ok s <->
  exists sig ts, proof_fields cancel s sig /\ proof_time cancel ts /\ s ∈ allowed /\
    (Z.abs (now - ts * 1000000) <= 60 * 1000000)%Z /\
    sig_verifies s sig (Payloads.cancel_payload run_id ts) = true.
Proof. split; [apply verify_cancel_sound|apply verify_cancel_complete]. Qed.

(** What an accepted resolution carried. *)
Definition resolution_proved resolution run_id asks (allowed : gset string) s : Prop :=
  exists sig, proof_fields resolution s sig /\ s ∈ allowed /\
    sig_verifies s sig (Payloads.resolve_payload sha256_hex run_id asks) = true.

Lemma verify_resolution_sound resolution run_id asks allowed s :
  verify_resolution resolution run_id asks allowed = Ok s -> resolution_proved resolution run_id asks allowed s.
Proof.
  unfold verify_resolution.
  intros ((signer, sig) & Hp%malformed_ok & Hv)%bind_ok.
  apply bind_ok in Hp as (sg & Hsg%subscript_ok & Hp).
  apply bind_ok in Hp as (si & Hsi%subscript_ok & Hp). injection Hp as <- <-.
  destruct Hsg as (d & -> & Hsg), Hsi as (? & [= <-] & Hsi).
  apply bind_ok in Hv as (b & Hb & (-> & Hv)%guard_or_ok).
  apply in_keys_true in Hb as (s' & -> & Hin).
  apply bind_ok in Hv as (b & Hb & (-> & [= <-])%guard_or_ok).
  apply verify_signature_true in Hb as (s0 & -> & Hs0).
  exists s0. split; [by exists d|done].
Qed.

Lemma verify_resolution_complete resolution run_id asks allowed s :
  resolution_proved resolution run_id asks allowed s -> verify_resolution resolution run_id asks allowed = Ok s.
Proof.
  unfold verify_resolution.
  intros (sig & (d & -> & Hpk & Hsig) & Hin & Hv).
  simpl. unfold item. rewrite Hpk, Hsig. simpl.
  unfold in_keys. simpl. rewrite bool_decide_eq_true_2 by done. simpl. by rewrite Hv.
Qed.

(** A resolution is accepted exactly when its proof names an authority of
    the run and a signature by that key over the run's id and the set of asks
    still open: no clock is read, and a proof over other asks is refused. *)
Theorem verify_resolution_spec resolution run_id asks allowed s :
  verify_resolution resolution run_id asks allowed = Ok s <->
  exists sig, proof_fields resolution s sig /\ s ∈ allowed /\
    sig_verifies s sig (Payloads.resolve_payload sha256_hex run_id asks) = true.
Proof. split; [apply verify_resolution_sound|apply verify_resolution_complete]. Qed.

(** A proof that is not even well formed is not always refused as
    [InvalidCancel]: with a genuine authority as signer and a fresh time, a
    signature that is not a string escapes as Python's [TypeError]. *)
Theorem cancel_proof_escapes_as_type_error now run_id allowed s ts d :
  s ∈ allowed -> is_timestamp_fresh now ts = true ->
  aget "publicKey" d = Some (JStr s) -> aget "timestamp" d = Some (JNum ts) ->
  aget "signature" d = Some (JNum 0) ->
  verify_cancel now (JObj d) run_id allowed = Err TypeError.
Proof.
  intros Hin Hf Hpk Hts Hsig. unfold verify_cancel, verify_signed_act. simpl. unfold item.
  rewrite Hpk, Hts, Hsig. simpl. unfold in_keys. simpl.
  rewrite bool_decide_eq_true_2 by done. simpl. by rewrite Hf.
Qed.
End identity.

Module Witness.
Import Toy.

Lemma cancel_proof_escapes_as_type_error_witness :
  verify_cancel (H := crypto) 0 (JObj [("publicKey", JStr "k"); ("timestamp", JNum 30); ("signature", JNum 0)])
    "run_1" {["k"]} = Err TypeError.
Proof.
  apply (cancel_proof_escapes_as_type_error (H := crypto) 0 "run_1" {["k"]} "k" 30);
    [set_solver|reflexivity..].
Defined.
End Witness.
End Identity.
