(* ===== verification/Reduce.v ===== *)
(** * Folding a run's events into messages (funduq/agui_reduce.py)

    [reduce_events_to_messages] is the code's single loop: [reduce_step]
    handles one event over the loop's three tables, the messages by id, the
    order their ids appeared in, and the message each tool call hangs off. *)

From S2P Require Import Prelude Errors Json.

Module Reduce.

Record state : Type := mkState {
  messages : list (key * dict);
  order : list key;
  tool_call_parent : list (key * key);
}.

Definition initial : state := mkState [] [] [].

Definition set_message (k : key) (m : dict) (st : state) : state :=
  mkState (aset k m (messages st)) (order st) (tool_call_parent st).

(** The inner function: creates the message on first sight, with an empty
    content; the caller then works on [messages[k]]. *)
Definition assistant_message (message_id role : json) (st : state) : py (key * state) :=
  k ← to_key message_id;
  Ok (k, match aget k (messages st) with
         | Some _ => st
         | None =>
             mkState (aset k [("id", message_id); ("role", role); ("content", JStr "")] (messages st))
                     (order st ++ [k]) (tool_call_parent st)
         end).

(** [x += y] on the values that meet here. *)
Definition py_iadd (x y : json) : py json :=
  match x, y with
  | JStr a, JStr b => Ok (JStr (a +:+ b))
  | JNum a, JNum b => Ok (JNum (a + b))
  | JList a, b => l ← py_iter b; Ok (JList (a ++ l))
  | _, _ => Err TypeError
  end.

(** [messages[k]["content"] += delta]. *)
Definition append_content (k : key) (delta : json) (st : state) : py state :=
  match aget k (messages st) with
  | None => Err KeyError
  | Some m =>
      content ← item "content" m;
      content' ← py_iadd content delta;
      Ok (set_message k (aset "content" content' m) st)
  end.

(** [for tool_call in calls: if tool_call["id"] == i: <f>; break]. *)
Fixpoint update_call (i : key) (f : dict -> py dict) (calls : list json) : py (list json) :=
  match calls with
  | [] => Ok []
  | c :: rest =>
      d ← as_dict c; ci ← item "id" d; ck ← to_key ci;
      if bool_decide (ck = i)
      then d' ← f d; Ok (JObj d' :: rest)
      else rest' ← update_call i f rest; Ok (c :: rest')
  end.

(** The same, on the calls of the message the tool call hangs off. *)
Definition update_parent_call (i : key) (f : dict -> py dict) (st : state) : py state :=
  match aget i (tool_call_parent st) with
  | None => Ok st
  | Some parent =>
      match aget parent (messages st) with
      | None => Err KeyError
      | Some m =>
          match aget "toolCalls" m with
          | None => Ok st
          | Some (JList calls) =>
              calls' ← update_call i f calls;
              Ok (set_message parent (aset "toolCalls" (JList calls') m) st)
          | Some _ => Err TypeError
          end
      end
  end.

Definition add_arguments (delta : json) (call : dict) : py dict :=
  fj ← item "function" call; f ← as_dict fj;
  args ← item "arguments" f; args' ← py_iadd args delta;
  Ok (aset "function" (JObj (aset "arguments" args' f)) call).

(** [msg.setdefault("toolCalls", []).append(call)]. *)
Definition append_call (k : key) (call : json) (st : state) : py state :=
  match aget k (messages st) with
  | None => Err KeyError
  | Some m =>
      match get_or "toolCalls" (JList []) m with
      | JList calls => Ok (set_message k (aset "toolCalls" (JList (calls ++ [call])) m) st)
      | _ => Err AttributeError
      end
  end.

Definition on_text_start (event : dict) (st : state) : py state :=
  i ← item "messageId" event;
  '(_, st') ← assistant_message i (get_or "role" (JStr "assistant") event) st; Ok st'.

Definition on_reasoning_start (event : dict) (st : state) : py state :=
  i ← item "messageId" event;
  '(_, st') ← assistant_message i (JStr "reasoning") st; Ok st'.

Definition on_content (role : string) (event : dict) (st : state) : py state :=
  i ← item "messageId" event;
  '(k, st') ← assistant_message i (JStr role) st;
  append_content k (get_or "delta" (JStr "") event) st'.

Definition on_encrypted (event : dict) (st : state) : py state :=
  entity ← item "entityId" event;
  subtype ← item "subtype" event;
  k ← to_key entity;
  if bool_decide (subtype = JStr "message") then
    match aget k (messages st) with
    | Some m => v ← item "encryptedValue" event; Ok (set_message k (aset "encryptedValue" v m) st)
    | None => Ok st
    end
  else update_parent_call k (fun call => v ← item "encryptedValue" event;
                                         Ok (aset "encryptedValue" v call)) st.

Definition on_call_start (event : dict) (st : state) : py state :=
  i ← item "toolCallId" event;
  k ← to_key i;
  let parent := py_or (get "parentMessageId" event) i in
  pk ← to_key parent;
  '(_, st') ← assistant_message parent (JStr "assistant")
     (mkState (messages st) (order st) (aset k pk (tool_call_parent st)));
  name ← item "toolCallName" event;
  append_call pk (JObj [("id", i); ("type", JStr "function");
                        ("function", JObj [("name", name); ("arguments", JStr "")])]) st'.

Definition on_call_args (event : dict) (st : state) : py state :=
  i ← item "toolCallId" event;
  k ← to_key i;
  update_parent_call k (add_arguments (get_or "delta" (JStr "") event)) st.

Definition on_call_result (event : dict) (st : state) : py state :=
  i ← item "messageId" event;
  call ← item "toolCallId" event;
  k ← to_key i;
  Ok (mkState (aset k [("id", i); ("role", JStr "tool");
                       ("content", get_or "content" (JStr "") event); ("toolCallId", call)]
                    (messages st))
              (order st ++ [k]) (tool_call_parent st)).

Definition reduce_step (event : dict) (st : state) : py state :=
  if has_type TEXT_MESSAGE_START event then on_text_start event st
  else if has_type TEXT_MESSAGE_CONTENT event then on_content "assistant" event st
  else if has_type REASONING_MESSAGE_START event then on_reasoning_start event st
  else if has_type REASONING_MESSAGE_CONTENT event then on_content "reasoning" event st
  else if has_type REASONING_ENCRYPTED_VALUE event then on_encrypted event st
  else if has_type TOOL_CALL_START event then on_call_start event st
  else if has_type TOOL_CALL_ARGS event then on_call_args event st
  else if has_type TOOL_CALL_RESULT event then on_call_result event st
  else Ok st.

(** [messages[message_id] for message_id in order]. *)
Definition read_out (st : state) : py (list dict) :=
  traverse (fun k => match aget k (messages st) with Some m => Ok m | None => Err KeyError end)
    (order st).

Definition reduce_events_to_messages (events : list dict) : py (list dict) :=
  st ← fold_res reduce_step events initial; read_out st.

(** ** Invariant of the loop *)

Record wf (st : state) : Prop := {
  wf_order k : k ∈ order st <-> is_Some (aget k (messages st));
  wf_parent k p : aget k (tool_call_parent st) = Some p -> is_Some (aget p (messages st));
}.

Lemma wf_initial : wf initial.
Proof. split; simpl; [|done]. intros k. split; [by intros ?%not_elem_of_nil|by intros []]. Qed.

Lemma set_message_wf k m st : is_Some (aget k (messages st)) -> wf st -> wf (set_message k m st).
Proof.
  intros Hk [Ho Hp]. split; simpl; intros.
  - rewrite Ho, aget_aset. case_decide; subst; [|done]. split; eauto.
  - rewrite aget_aset. case_decide; eauto.
Qed.

Lemma assistant_message_wf i r st k st' :
  wf st -> assistant_message i r st = Ok (k, st') -> wf st' /\ is_Some (aget k (messages st')).
Proof.
  unfold assistant_message. intros [Ho Hp] (k' & _ & [= <- <-])%bind_ok.
  destruct (aget k' (messages st)) as [m|] eqn:Hm; [split; [by split|by rewrite Hm]|].
  simpl. split; [|rewrite aget_aset_eq; eauto]. split; simpl; intros.
  - rewrite elem_of_app, list_elem_of_singleton, Ho, aget_aset. case_decide; subst; naive_solver.
  - rewrite aget_aset. case_decide; eauto.
Qed.

Lemma append_content_wf k d st st' : wf st -> append_content k d st = Ok st' -> wf st'.
Proof.
  unfold append_content. intros Hwf. destruct (aget k (messages st)) eqn:Hm; [|done].
  intros (c & _ & (c' & _ & [= <-])%bind_ok)%bind_ok. apply set_message_wf; eauto.
Qed.

Lemma update_parent_call_wf k f st st' : wf st -> update_parent_call k f st = Ok st' -> wf st'.
Proof.
  unfold update_parent_call. intros Hwf. destruct (aget k _) as [p|]; [|by intros [= <-]].
  destruct (aget p (messages st)) as [m|] eqn:Hm; [|done].
  destruct (aget "toolCalls" m) as [[]|]; try done; [|by intros [= <-]].
  intros (c & _ & [= <-])%bind_ok. apply set_message_wf; eauto.
Qed.

Lemma append_call_wf k c st st' : wf st -> append_call k c st = Ok st' -> wf st'.
Proof.
  unfold append_call. intros Hwf. destruct (aget k (messages st)) as [m|] eqn:Hm; [|done].
  destruct (get_or _ _ m); try done. intros [= <-]. apply set_message_wf; eauto.
Qed.

Lemma on_call_start_wf e st st' : wf st -> on_call_start e st = Ok st' -> wf st'.
Proof.
  unfold on_call_start. intros Hwf (i & _ & Hs)%bind_ok.
  apply bind_ok in Hs as (k & _ & (pk & Hpk & Hs)%bind_ok).
  unfold assistant_message in Hs. rewrite Hpk in Hs. cbn [mbind result_bind messages order tool_call_parent] in Hs.
  apply bind_ok in Hs as (name & _ & Ha). eapply append_call_wf; [|exact Ha].
  destruct Hwf as [Ho Hp]. destruct (aget pk (messages st)) as [m|] eqn:Hm; split; simpl.
  - done.
  - intros k' p. rewrite aget_aset. case_decide; [intros [= <-]; by rewrite Hm|apply Hp].
  - intros k'. rewrite elem_of_app, list_elem_of_singleton, Ho, aget_aset. case_decide; subst; naive_solver.
  - intros k' p. rewrite !aget_aset. repeat case_decide; naive_solver.
Qed.

Lemma on_call_result_wf e st st' : wf st -> on_call_result e st = Ok st' -> wf st'.
Proof.
  unfold on_call_result. intros [Ho Hp] (i & _ & (c & _ & (k & _ & [= <-])%bind_ok)%bind_ok)%bind_ok.
  split; simpl.
  - intros k'. rewrite elem_of_app, list_elem_of_singleton, Ho, aget_aset. case_decide; subst; naive_solver.
  - intros k' p Hk'. rewrite aget_aset. case_decide; eauto.
Qed.

Lemma reduce_step_wf e st st' : wf st -> reduce_step e st = Ok st' -> wf st'.
Proof.
  unfold reduce_step. intros Hwf Hs. repeat case_match; try (injection Hs as <-; done).
  - apply bind_ok in Hs as (i & _ & ([k s] & Ha & [= <-])%bind_ok). by eapply assistant_message_wf.
  - apply bind_ok in Hs as (i & _ & ([k s] & Ha & Hc)%bind_ok).
    eapply append_content_wf; [|exact Hc]. by eapply assistant_message_wf.
  - apply bind_ok in Hs as (i & _ & ([k s] & Ha & [= <-])%bind_ok). by eapply assistant_message_wf.
  - apply bind_ok in Hs as (i & _ & ([k s] & Ha & Hc)%bind_ok).
    eapply append_content_wf; [|exact Hc]. by eapply assistant_message_wf.
  - apply bind_ok in Hs as (i & _ & (t & _ & (k & _ & Hs)%bind_ok)%bind_ok).
    case_bool_decide; [|by eapply update_parent_call_wf].
    destruct (aget k (messages st)) eqn:Hm; [|by injection Hs as <-].
    apply bind_ok in Hs as (v & _ & [= <-]). apply set_message_wf; eauto.
  - by eapply on_call_start_wf.
  - apply bind_ok in Hs as (i & _ & (k & _ & Hs)%bind_ok). by eapply update_parent_call_wf.
  - by eapply on_call_result_wf.
Qed.

Lemma reduce_loop_wf events st st' : wf st -> fold_res reduce_step events st = Ok st' -> wf st'.
Proof. intros Hwf. apply (fold_res_inv wf); [done|]. intros; by eapply reduce_step_wf. Qed.

Lemma read_out_total st : wf st -> is_ok (read_out st) = true.
Proof.
  intros [Ho _]. unfold read_out. assert (forall k, k ∈ order st -> is_Some (aget k (messages st))) as H
    by (intros; by apply Ho). clear Ho.
  induction (order st) as [|k l IH]; simpl; [done|].
  destruct (H k) as [m ->]; [by constructor|]. simpl.
  destruct (traverse _ l); [done|]. simpl in IH. apply IH. intros; apply H; by constructor.
Qed.
(** The fold never loses a message: whenever the loop over the events
    returns, reading the messages out by the recorded order finds every one. *)
Theorem reduce_reads_out events st :
  fold_res reduce_step events initial = Ok st ->
  is_ok (reduce_events_to_messages events) = true.
Proof.
  intros Hst. unfold reduce_events_to_messages. rewrite Hst. simpl.
  apply read_out_total. by eapply reduce_loop_wf; [apply wf_initial|].
Qed.

(** ** What a message's text is *)

Definition is_content (e : dict) : bool :=
  negb (has_type TEXT_MESSAGE_START e) &&
  (has_type TEXT_MESSAGE_CONTENT e ||
   (negb (has_type REASONING_MESSAGE_START e) && has_type REASONING_MESSAGE_CONTENT e)).

Definition names (k : key) (e : dict) : bool :=
  match aget "messageId" e with
  | Some i => bool_decide (to_key i = Ok k)
  | None => false
  end.

(** The text one event adds to the message [k]. *)
Definition delta_of (k : key) (e : dict) : string :=
  if is_content e && names k e then
    match get_or "delta" (JStr "") e with JStr s => s | _ => "" end
  else "".

Fixpoint text_of (k : key) (events : list dict) : string :=
  match events with
  | [] => ""
  | e :: rest => delta_of k e +:+ text_of k rest
  end.

(** The message [k] is text only: no tool result takes its id. *)
Definition not_result (k : key) (events : list dict) : Prop :=
  Forall (fun e => has_type TOOL_CALL_RESULT e = true -> names k e = false) events.

(** While the loop runs, [k]'s content is the text seen so far. *)
Definition says (k : key) (acc : string) (st : state) : Prop :=
  match aget k (messages st) with
  | Some m => aget "content" m = Some (JStr acc)
  | None => acc = ""
  end.

Lemma says_set_message k acc k' m st :
  says k acc st -> (k = k' -> aget "content" m = Some (JStr acc)) -> says k acc (set_message k' m st).
Proof. unfold says. simpl. rewrite aget_aset. case_decide; subst; auto. Qed.

Lemma says_assistant k acc i r st k' st' :
  says k acc st -> assistant_message i r st = Ok (k', st') -> says k acc st'.
Proof.
  unfold assistant_message. intros Hs (k0 & _ & [= <- <-])%bind_ok.
  destruct (aget k0 (messages st)) eqn:Hk0; [done|].
  unfold says in *; simpl. rewrite aget_aset. case_decide as Hd; [|done]. subst. rewrite Hk0 in Hs. by subst.
Qed.

Lemma says_append_content k acc k' d st st' :
  says k acc st -> append_content k' d st = Ok st' ->
  says k (if decide (k = k') then acc +:+ match d with JStr s => s | _ => "" end else acc) st'.
Proof.
  unfold append_content. intros Hs. destruct (aget k' (messages st)) as [m|] eqn:Hm; [|done].
  intros (c & Hc%item_ok & (c' & Hadd & [= <-])%bind_ok)%bind_ok.
  unfold says in *; simpl. rewrite aget_aset. repeat case_decide; simplify_eq; [|done].
  rewrite Hm in Hs. simplify_eq. destruct d; try done. simpl in Hadd. simplify_eq.
  by rewrite aget_aset_eq.
Qed.

Lemma says_update_parent k acc k' f st st' :
  says k acc st -> update_parent_call k' f st = Ok st' -> says k acc st'.
Proof.
  unfold update_parent_call. intros Hs. destruct (aget k' _) as [p|]; [|by intros [= <-]].
  destruct (aget p (messages st)) as [m|] eqn:Hm; [|done].
  destruct (aget "toolCalls" m) as [[]|]; try done; [|by intros [= <-]].
  intros (c & _ & [= <-])%bind_ok. apply says_set_message; [done|]. intros ->.
  unfold says in Hs. rewrite Hm in Hs. by rewrite aget_aset_ne.
Qed.

Lemma says_append_call k acc k' c st st' :
  says k acc st -> append_call k' c st = Ok st' -> says k acc st'.
Proof.
  unfold append_call. intros Hs. destruct (aget k' (messages st)) as [m|] eqn:Hm; [|done].
  destruct (get_or _ _ m); try done. intros [= <-]. apply says_set_message; [done|]. intros ->.
  unfold says in Hs. rewrite Hm in Hs. by rewrite aget_aset_ne.
Qed.

Lemma says_encrypted k acc e st st' :
  says k acc st -> on_encrypted e st = Ok st' -> says k acc st'.
Proof.
  unfold on_encrypted. intros Hs (i & _ & (t & _ & (k' & _ & He)%bind_ok)%bind_ok)%bind_ok.
  case_bool_decide; [|by eapply says_update_parent].
  destruct (aget k' (messages st)) as [m|] eqn:Hm; [|by injection He as <-].
  apply bind_ok in He as (v & _ & [= <-]). apply says_set_message; [done|]. intros ->.
  unfold says in Hs. rewrite Hm in Hs. by rewrite aget_aset_ne.
Qed.

Lemma says_call_start k acc e st st' :
  says k acc st -> on_call_start e st = Ok st' -> says k acc st'.
Proof.
  unfold on_call_start.
  intros Hs (i & _ & (k' & _ & (pk & _ & ([k2 s] & Ha & (n & _ & Hc)%bind_ok)%bind_ok)%bind_ok)%bind_ok)%bind_ok.
  eapply says_append_call; [|exact Hc]. eapply says_assistant; [|exact Ha]. exact Hs.
Qed.

Lemma says_content k acc role e st st' :
  says k acc st -> on_content role e st = Ok st' ->
  says k (acc +:+ if names k e then match get_or "delta" (JStr "") e with JStr s => s | _ => "" end else "") st'.
Proof.
  unfold on_content. intros Hs (i & Hi%item_ok & ([k' s] & Ha & Hc)%bind_ok)%bind_ok.
  pose proof Ha as Hk. apply bind_ok in Hk as (k2 & Hk & [= <- _]).
  apply (says_assistant k acc) in Ha; [|done].
  apply (says_append_content k acc) in Hc; [|done].
  unfold names. rewrite Hi. case_decide; subst.
  - by rewrite bool_decide_eq_true_2.
  - rewrite bool_decide_eq_false_2 by congruence. by rewrite str_app_nil_r.
Qed.

Lemma says_step k acc e st st' :
  (has_type TOOL_CALL_RESULT e = true -> names k e = false) ->
  says k acc st -> reduce_step e st = Ok st' -> says k (acc +:+ delta_of k e) st'.
Proof.
  intros Hr Hs Hst. unfold reduce_step in Hst. unfold delta_of, is_content.
  assert (Hnil : forall s, s +:+ "" = s) by apply str_app_nil_r.
  repeat match type of Hst with
  | (if has_type ?t e then _ else _) = _ => destruct (has_type t e) eqn:?; simpl
  end; rewrite ?Hnil; try (injection Hst as <-; done).
  - apply bind_ok in Hst as (i & _ & ([k' s] & Ha & [= <-])%bind_ok). by eapply says_assistant.
  - apply (says_content k acc) in Hst; [|done]. by destruct (names k e).
  - apply bind_ok in Hst as (i & _ & ([k' s] & Ha & [= <-])%bind_ok). by eapply says_assistant.
  - apply (says_content k acc) in Hst; [|done]. by destruct (names k e).
  - by eapply says_encrypted.
  - by eapply says_call_start.
  - apply bind_ok in Hst as (i & _ & (k' & _ & Hst)%bind_ok). by eapply says_update_parent.
  - apply bind_ok in Hst as (i & Hi%item_ok & (c & _ & (k' & Hk' & [= <-])%bind_ok)%bind_ok).
    specialize (Hr eq_refl). unfold names in Hr. rewrite Hi, bool_decide_eq_false in Hr.
    unfold says in *; simpl. rewrite aget_aset_ne by congruence. done.
Qed.

Lemma says_loop k events acc st st' :
  not_result k events -> says k acc st -> fold_res reduce_step events st = Ok st' ->
  says k (acc +:+ text_of k events) st'.
Proof.
  intros Hr. revert acc st. induction Hr as [|e events He Hr IH]; intros acc st Hs Hf; simpl in *.
  - injection Hf as <-. by rewrite str_app_nil_r.
  - apply bind_ok in Hf as (s1 & H1 & H2). rewrite <- str_app_assoc. eapply IH; [|exact H2].
    by eapply says_step.
Qed.

(** The text of every message the fold produces, tool results apart, is
    exactly the concatenation of the deltas streamed under its id, in event
    order, whatever other messages, tool calls, reasoning and encrypted
    values are interleaved. *)
Theorem message_text_is_its_deltas events st k m :
  fold_res reduce_step events initial = Ok st -> not_result k events ->
  aget k (messages st) = Some m ->
  aget "content" m = Some (JStr (text_of k events)).
Proof.
  intros Hf Hr Hm. apply (says_loop k events "" initial st Hr) in Hf; [|done].
  unfold says in Hf. by rewrite Hm in Hf.
Qed.

Definition chat : list dict :=
  [ [("type", JStr TEXT_MESSAGE_START); ("messageId", JStr "m")];
    [("type", JStr TEXT_MESSAGE_CONTENT); ("messageId", JStr "m"); ("delta", JStr "hel")];
    [("type", JStr TOOL_CALL_START); ("toolCallId", JStr "c"); ("toolCallName", JStr "f");
     ("parentMessageId", JStr "m")];
    [("type", JStr TEXT_MESSAGE_CONTENT); ("messageId", JStr "n"); ("delta", JStr "other")];
    [("type", JStr TOOL_CALL_ARGS); ("toolCallId", JStr "c"); ("delta", JStr "{}")];
    [("type", JStr TEXT_MESSAGE_CONTENT); ("messageId", JStr "m"); ("delta", JStr "lo")] ].

Definition chat_state : state :=
  match fold_res reduce_step chat initial with Ok st => st | Err _ => initial end.

Lemma reduce_reads_out_witness : is_ok (reduce_events_to_messages chat) = true.
Proof. apply (reduce_reads_out chat chat_state). vm_compute. reflexivity. Defined.

Lemma message_text_is_its_deltas_witness :
  exists m, aget (KStr "m") (messages chat_state) = Some m /\ aget "content" m = Some (JStr "hello").
Proof.
  eexists. split; [vm_compute; reflexivity|].
  apply (message_text_is_its_deltas chat chat_state (KStr "m")).
  - vm_compute. reflexivity.
  - repeat constructor; vm_compute; discriminate.
  - vm_compute. reflexivity.
Defined.

(** A tool result that reuses a message id is listed twice. *)
Example reused_id_is_duplicated :
  length <$> reduce_events_to_messages
    [ [("type", JStr TEXT_MESSAGE_START); ("messageId", JStr "m")];
      [("type", JStr TOOL_CALL_RESULT); ("messageId", JStr "m"); ("toolCallId", JStr "c")] ] = Ok 2.
Proof. reflexivity. Qed.
End Reduce.
