(* ===== verification/Models.v ===== *)
(** * The data funduq keeps (funduq/models.py, funduq/schema.py)

    The tables of the schema as records: a table with a primary key is a
    finite map from the key to its row, [thread_messages] and [run_events]
    are lists in the order of their serial id.  Times are microseconds. *)

From S2P Require Import Prelude Errors Json.

(** [AgentRef] and [LlmRef] are the same pair of strings. *)
Record AgentRef : Type := mkRef { ref_provider_key : string; ref_name : string }.

#[global] Instance AgentRef_eq_dec : EqDecision AgentRef.
Proof. solve_decision. Defined.

#[global] Instance AgentRef_countable : Countable AgentRef :=
  inj_countable' (fun a => (ref_provider_key a, ref_name a)) (fun p => mkRef p.1 p.2)
    (fun a => match a with mkRef _ _ => eq_refl end).

Notation LlmRef := AgentRef (only parsing).

(** The statuses the CHECK constraint on [runs] allows. *)
Inductive run_status : Type :=
| queued
| offering
| running
| cancelling
| completed
| failed
| cancelled.

#[global] Instance run_status_eq_dec : EqDecision run_status.
Proof. solve_decision. Defined.

Definition RUN_STATUSES : list run_status :=
  [queued; offering; running; cancelling; completed; failed; cancelled].

(** ** The [runs] table *)

Record RunRecord : Type := mkRunRecord {
  rr_run_id : string;
  rr_thread_id : string;
  rr_provider_key : string;
  rr_agent_name : string;
  rr_status : run_status;
  rr_actor_chain : option (list string);
  rr_created_at : Z;
  rr_started_at : option Z;
  rr_completed_at : option Z;
  rr_last_activity_at : option Z;
  rr_parent_run_id : option string;
  rr_state : json;
  rr_tools : json;
  rr_context : json;
  rr_forwarded_props : json;
  rr_resume : json;
  rr_cancel_requested : bool;
  rr_cancel_requested_by : option string;
}.

Definition set_rr_status (v : run_status) (x : RunRecord) : RunRecord :=
  mkRunRecord (rr_run_id x) (rr_thread_id x) (rr_provider_key x) (rr_agent_name x) v (rr_actor_chain x) (rr_created_at x) (rr_started_at x) (rr_completed_at x) (rr_last_activity_at x) (rr_parent_run_id x) (rr_state x) (rr_tools x) (rr_context x) (rr_forwarded_props x) (rr_resume x) (rr_cancel_requested x) (rr_cancel_requested_by x).

Definition set_rr_started_at (v : option Z) (x : RunRecord) : RunRecord :=
  mkRunRecord (rr_run_id x) (rr_thread_id x) (rr_provider_key x) (rr_agent_name x) (rr_status x) (rr_actor_chain x) (rr_created_at x) v (rr_completed_at x) (rr_last_activity_at x) (rr_parent_run_id x) (rr_state x) (rr_tools x) (rr_context x) (rr_forwarded_props x) (rr_resume x) (rr_cancel_requested x) (rr_cancel_requested_by x).

Definition set_rr_completed_at (v : option Z) (x : RunRecord) : RunRecord :=
  mkRunRecord (rr_run_id x) (rr_thread_id x) (rr_provider_key x) (rr_agent_name x) (rr_status x) (rr_actor_chain x) (rr_created_at x) (rr_started_at x) v (rr_last_activity_at x) (rr_parent_run_id x) (rr_state x) (rr_tools x) (rr_context x) (rr_forwarded_props x) (rr_resume x) (rr_cancel_requested x) (rr_cancel_requested_by x).

Definition set_rr_last_activity_at (v : option Z) (x : RunRecord) : RunRecord :=
  mkRunRecord (rr_run_id x) (rr_thread_id x) (rr_provider_key x) (rr_agent_name x) (rr_status x) (rr_actor_chain x) (rr_created_at x) (rr_started_at x) (rr_completed_at x) v (rr_parent_run_id x) (rr_state x) (rr_tools x) (rr_context x) (rr_forwarded_props x) (rr_resume x) (rr_cancel_requested x) (rr_cancel_requested_by x).

Definition set_rr_cancel_requested (v : bool) (x : RunRecord) : RunRecord :=
  mkRunRecord (rr_run_id x) (rr_thread_id x) (rr_provider_key x) (rr_agent_name x) (rr_status x) (rr_actor_chain x) (rr_created_at x) (rr_started_at x) (rr_completed_at x) (rr_last_activity_at x) (rr_parent_run_id x) (rr_state x) (rr_tools x) (rr_context x) (rr_forwarded_props x) (rr_resume x) v (rr_cancel_requested_by x).

Definition set_rr_cancel_requested_by (v : option string) (x : RunRecord) : RunRecord :=
  mkRunRecord (rr_run_id x) (rr_thread_id x) (rr_provider_key x) (rr_agent_name x) (rr_status x) (rr_actor_chain x) (rr_created_at x) (rr_started_at x) (rr_completed_at x) (rr_last_activity_at x) (rr_parent_run_id x) (rr_state x) (rr_tools x) (rr_context x) (rr_forwarded_props x) (rr_resume x) (rr_cancel_requested x) v.

(** [RunRecord.agent]. *)
Definition rr_agent (r : RunRecord) : AgentRef := mkRef (rr_provider_key r) (rr_agent_name r).

(** ** The other tables *)

Record ThreadRow : Type := mkThreadRow {
  th_thread_id : string;
  th_provider_key : string;
  th_agent_name : string;
  th_parent_thread_id : option string;
  th_head_key : option string;
  th_metadata : json;
  th_created_at : Z;
  th_last_activity_at : Z;
}.

Definition set_th_last_activity_at (v : Z) (x : ThreadRow) : ThreadRow :=
  mkThreadRow (th_thread_id x) (th_provider_key x) (th_agent_name x) (th_parent_thread_id x) (th_head_key x) (th_metadata x) (th_created_at x) v.

Record AgentRow : Type := mkAgentRow {
  ag_card : dict;
  ag_metadata : json;
  ag_joined_at : Z;
  ag_last_seen_at : Z;
}.

Definition set_ag_last_seen_at (v : Z) (x : AgentRow) : AgentRow :=
  mkAgentRow (ag_card x) (ag_metadata x) (ag_joined_at x) v.

Record LlmRow : Type := mkLlmRow {
  lp_metadata : json;
  lp_joined_at : Z;
  lp_last_seen_at : Z;
}.

Definition set_lp_last_seen_at (v : Z) (x : LlmRow) : LlmRow :=
  mkLlmRow (lp_metadata x) (lp_joined_at x) v.

Record ProviderRow : Type := mkProviderRow {
  pv_fingerprint : string;
  pv_display_name : option string;
  pv_updated_at : Z;
}.

Definition set_pv_display_name (v : option string) (x : ProviderRow) : ProviderRow :=
  mkProviderRow (pv_fingerprint x) v (pv_updated_at x).

Definition set_pv_updated_at (v : Z) (x : ProviderRow) : ProviderRow :=
  mkProviderRow (pv_fingerprint x) (pv_display_name x) v.

Record MessageRow : Type := mkMessageRow {
  ms_thread_id : string;
  ms_run_id : string;
  ms_message_id : json;
  ms_message : dict;
  ms_metadata : json;
}.

Record EventRow : Type := mkEventRow {
  ev_run_id : string;
  ev_seq : Z;
  ev_event : dict;
}.

(** ** The database *)

Record db : Type := mkDb {
  d_providers : gmap string ProviderRow;
  d_agents : gmap AgentRef AgentRow;
  d_llm_providers : gmap AgentRef LlmRow;
  d_threads : gmap string ThreadRow;
  d_runs : gmap string RunRecord;
  d_thread_messages : list MessageRow;
  d_run_events : list EventRow;
}.

Definition set_d_providers (v : gmap string ProviderRow) (x : db) : db :=
  mkDb v (d_agents x) (d_llm_providers x) (d_threads x) (d_runs x) (d_thread_messages x) (d_run_events x).

Definition set_d_agents (v : gmap AgentRef AgentRow) (x : db) : db :=
  mkDb (d_providers x) v (d_llm_providers x) (d_threads x) (d_runs x) (d_thread_messages x) (d_run_events x).

Definition set_d_llm_providers (v : gmap AgentRef LlmRow) (x : db) : db :=
  mkDb (d_providers x) (d_agents x) v (d_threads x) (d_runs x) (d_thread_messages x) (d_run_events x).

Definition set_d_threads (v : gmap string ThreadRow) (x : db) : db :=
  mkDb (d_providers x) (d_agents x) (d_llm_providers x) v (d_runs x) (d_thread_messages x) (d_run_events x).

Definition set_d_runs (v : gmap string RunRecord) (x : db) : db :=
  mkDb (d_providers x) (d_agents x) (d_llm_providers x) (d_threads x) v (d_thread_messages x) (d_run_events x).

Definition set_d_thread_messages (v : list MessageRow) (x : db) : db :=
  mkDb (d_providers x) (d_agents x) (d_llm_providers x) (d_threads x) (d_runs x) v (d_run_events x).

Definition set_d_run_events (v : list EventRow) (x : db) : db :=
  mkDb (d_providers x) (d_agents x) (d_llm_providers x) (d_threads x) (d_runs x) (d_thread_messages x) v.

Definition empty_db : db := mkDb ∅ ∅ ∅ ∅ ∅ [] [].
