(* ===== verification/Repo.v ===== *)
(** * The database functions (funduq/repo.py)

    Each function is one query or write over [Models.db]; none commits.  A
    SQL statement reads and writes the tables as its text says: primary keys,
    the unique and foreign keys of schema.py raise [IntegrityError].  The
    clock ([_utcnow]) and freshly minted ids ([new_id]) are arguments. *)

From S2P Require Import Prelude Errors Json Models Crypto Chain Identity Reduce.

Module Repo.

Definition PENDING_RUN_STATUSES : list run_status := [queued; offering].
Definition ACTIVE_RUN_STATUSES : list run_status := PENDING_RUN_STATUSES ++ [running; cancelling].

Definition status_in (l : list run_status) (r : RunRecord) : bool := bool_decide (rr_status r ∈ l).

(** ** Order: [created_at], then [run_id] *)

Definition run_le (a b : RunRecord) : Prop :=
  (rr_created_at a < rr_created_at b)%Z \/
  (rr_created_at a = rr_created_at b /\ str_le (rr_run_id a) (rr_run_id b)).
#[global] Instance run_le_dec : RelDecision run_le.
Proof. intros a b. unfold run_le. apply _. Defined.

Definition all_runs (d : db) : list RunRecord := snd <$> map_to_list (d_runs d).
Definition runs_sorted (d : db) : list RunRecord := merge_sort run_le (all_runs d).

(** ** Providers and agents *)

(** [fp] is the key's fingerprint, as [provider_fingerprint] computed it. *)
Definition ensure_provider (now : Z) (public_key fp : string) (d : db) : py db :=
  match d_providers d !! public_key with
  | Some _ => Ok d
  | None =>
      if existsb (fun kv => String.eqb (pv_fingerprint kv.2) fp) (map_to_list (d_providers d))
      then Err ProviderFingerprintTaken
      else Ok (set_d_providers (<[public_key := mkProviderRow fp None now]> (d_providers d)) d)
  end.

Definition set_provider_name (now : Z) (public_key display_name : string) (d : db) : db :=
  set_d_providers
    (alter (fun p => set_pv_updated_at now (set_pv_display_name (Some display_name) p))
       public_key (d_providers d)) d.

(** What a link publishes for one agent (funduq_contract's [Registration]). *)
Record Registration : Type := mkRegistration {
  reg_name : string;
  reg_description : string;
  reg_agent_card_extra : dict;
  reg_metadata : json;
  reg_takes_interjections : bool;
}.

Definition INTERJECTION_EXTENSION_URI : string := "https://github.com/hukaichun/funduq/ext/interjection/v1".

(** [{"name": ..., "description": ..., **agent_card_extra}], and the declared extension. *)
Definition agent_card (agent : Registration) : py dict :=
  let card := foldl (fun c kv => aset kv.1 kv.2 c)
    [("name", JStr (reg_name agent)); ("description", JStr (reg_description agent))]
    (reg_agent_card_extra agent) in
  if reg_takes_interjections agent then
    declared ← py_iter (get_or "extensions" (JList []) card);
    let declared :=
      if existsb (json_eqb (JStr INTERJECTION_EXTENSION_URI)) declared then declared
      else declared ++ [JStr INTERJECTION_EXTENSION_URI] in
    Ok (aset "extensions" (JList declared) card)
  else Ok card.

Definition register_agent (now : Z) (public_key : string) (agent : Registration) (d : db) : py db :=
  card ← agent_card agent;
  let ref := mkRef public_key (reg_name agent) in
  let row := match d_agents d !! ref with
             | Some old => mkAgentRow card (reg_metadata agent) (ag_joined_at old) now
             | None => mkAgentRow card (reg_metadata agent) now now
             end in
  Ok (set_d_agents (<[ref := row]> (d_agents d)) d).

Definition register_agents (now : Z) (public_key fp : string) (agents_batch : list Registration)
    (provider_name : option string) (d : db) : py (list AgentRef * db) :=
  d1 ← ensure_provider now public_key fp d;
  let d2 := match provider_name with
            | Some n => set_provider_name now public_key n d1
            | None => d1
            end in
  d3 ← fold_res (register_agent now public_key) agents_batch d2;
  Ok (map (fun a => mkRef public_key (reg_name a)) agents_batch, d3).

Definition register_llm_provider (now : Z) (public_key : string) (metadata : json) (name : string)
    (d : db) : db :=
  let ref := mkRef public_key name in
  let row := match d_llm_providers d !! ref with
             | Some old => mkLlmRow metadata (lp_joined_at old) now
             | None => mkLlmRow metadata now now
             end in
  set_d_llm_providers (<[ref := row]> (d_llm_providers d)) d.

Definition register_llm_providers (now : Z) (public_key fp : string) (names : list string)
    (metadata : json) (d : db) : py (list LlmRef * db) :=
  d1 ← ensure_provider now public_key fp d;
  Ok (map (mkRef public_key) names,
      foldl (fun d n => register_llm_provider now public_key (py_or metadata (JObj [])) n d) d1 names).

Definition get_llm_provider (ref : LlmRef) (d : db) : option LlmRow := d_llm_providers d !! ref.

Definition get_agent_names_for_provider (provider_key : string) (d : db) : gset string :=
  list_to_set (omap (fun kv => if String.eqb (ref_provider_key kv.1) provider_key
                               then Some (ref_name kv.1) else None) (map_to_list (d_agents d))).

Definition touch_agents (now : Z) (provider_key : string) (names : list string) (d : db) : db :=
  set_d_agents (foldl (fun m n => alter (set_ag_last_seen_at now) (mkRef provider_key n) m)
                  (d_agents d) names) d.

Definition touch_llm_providers (now : Z) (provider_key : string) (names : list string) (d : db) : db :=
  set_d_llm_providers (foldl (fun m n => alter (set_lp_last_seen_at now) (mkRef provider_key n) m)
                  (d_llm_providers d) names) d.

Definition get_agent (agent : AgentRef) (d : db) : option AgentRow := d_agents d !! agent.

(** By public key or by fingerprint. *)
Definition resolve_agent (provider name : string) (d : db) : option (AgentRef * AgentRow) :=
  List.find (fun kv =>
      (String.eqb (ref_provider_key kv.1) provider ||
       match d_providers d !! ref_provider_key kv.1 with
       | Some p => String.eqb (pv_fingerprint p) provider
       | None => false
       end) && String.eqb (ref_name kv.1) name)
    (map_to_list (d_agents d)).

Definition name_le {A} (a b : AgentRef * A) : Prop := str_le (ref_name a.1) (ref_name b.1).
#[global] Instance name_le_dec {A} : RelDecision (@name_le A).
Proof. intros a b. unfold name_le. apply _. Defined.

(** The rows seen within the window, by name. *)
Definition list_agents (now stale_hidden_window : Z) (d : db) : list (AgentRef * AgentRow) :=
  merge_sort name_le
    (filter (fun kv => (now - stale_hidden_window <= ag_last_seen_at kv.2)%Z) (map_to_list (d_agents d))).

Definition list_llm_providers (now stale_hidden_window : Z) (d : db) : list (LlmRef * LlmRow) :=
  merge_sort name_le
    (filter (fun kv => (now - stale_hidden_window <= lp_last_seen_at kv.2)%Z)
       (map_to_list (d_llm_providers d))).

Definition count_threads_for_agent (agent : AgentRef) (d : db) : nat :=
  length (filter (fun kv => mkRef (th_provider_key kv.2) (th_agent_name kv.2) = agent)
            (map_to_list (d_threads d))).

Definition count_runs_for_agent (agent : AgentRef) (statuses : option (list run_status)) (d : db) : nat :=
  let wanted := match statuses with Some l => status_in l | None => fun _ => true end in
  length (filter (fun r => rr_agent r = agent /\ wanted r = true) (all_runs d)).

Definition delete_llm_provider (ref : LlmRef) (d : db) : bool * db :=
  (bool_decide (is_Some (d_llm_providers d !! ref)),
   set_d_llm_providers (delete ref (d_llm_providers d)) d).

(** Threads and runs reference the row: deleting it while one does raises. *)
Definition delete_agent (agent : AgentRef) (d : db) : py (bool * db) :=
  if Nat.ltb 0 (count_threads_for_agent agent d) || Nat.ltb 0 (count_runs_for_agent agent None d)
  then Err (IntegrityError "fk_agent")
  else Ok (bool_decide (is_Some (d_agents d !! agent)),
           set_d_agents (delete agent (d_agents d)) d).

(** ** Threads *)

Definition get_thread (thread_id : string) (d : db) : option ThreadRow := d_threads d !! thread_id.

Definition create_thread (now : Z) (new_id : string) (agent : AgentRef)
    (parent_thread_id : option string) (metadata : json) (head_key : option string) (d : db)
    : py (string * db) :=
  guard_or (IntegrityError "threads_pkey") (bool_decide (d_threads d !! new_id = None))
  (guard_or (IntegrityError "fk_threads_agent") (bool_decide (is_Some (d_agents d !! agent)))
  (guard_or (IntegrityError "fk_threads_parent")
     (match parent_thread_id with
      | Some p => bool_decide (is_Some (d_threads d !! p)) || String.eqb p new_id
      | None => true
      end)
  (Ok (new_id,
       set_d_threads (<[new_id := mkThreadRow new_id (ref_provider_key agent) (ref_name agent)
                          parent_thread_id head_key (py_or metadata (JObj [])) now now]>
                        (d_threads d)) d)))).

Definition th_agent (t : ThreadRow) : AgentRef := mkRef (th_provider_key t) (th_agent_name t).

Definition ensure_thread (now : Z) (new_id : string) (agent : AgentRef) (thread_id : option string)
    (parent_thread_id : option string) (metadata : json) (create_if_missing : bool)
    (head_key : option string) (d : db) : py (string * db) :=
  match thread_id with
  | Some t =>
      match get_thread t d with
      | None =>
          if create_if_missing
          then create_thread now new_id agent parent_thread_id metadata head_key d
          else Err ThreadNotFound
      | Some existing =>
          if bool_decide (th_agent existing <> agent) then Err ThreadOwnershipMismatch
          else if
            match th_head_key existing with
            | Some bound_head =>
                bool_decide (head_key <> Some bound_head) &&
                bool_decide (head_key <> Some (ref_provider_key agent))
            | None => false
            end
          then Err ThreadMembershipRequired
          else Ok (t, set_d_threads (alter (set_th_last_activity_at now) t (d_threads d)) d)
      end
  | None => create_thread now new_id agent parent_thread_id metadata head_key d
  end.

Definition th_le (a b : ThreadRow) : Prop := (th_created_at a <= th_created_at b)%Z.
#[global] Instance th_le_dec : RelDecision th_le.
Proof. intros a b. unfold th_le. apply _. Defined.

Definition get_thread_children (thread_id : string) (d : db) : list ThreadRow :=
  merge_sort th_le
    (filter (fun t => th_parent_thread_id t = Some thread_id) (snd <$> map_to_list (d_threads d))).

(** One row per message; [(run_id, message_id)] is unique. *)
Definition append_thread_message (thread_id run_id : string) (message : dict) (d : db) : py db :=
  i ← item "id" message;
  guard_or (IntegrityError "uq_thread_messages_run_message")
    (negb (existsb (fun m => String.eqb (ms_run_id m) run_id && json_eqb (ms_message_id m) i)
             (d_thread_messages d)))
  (guard_or (IntegrityError "fk_thread_messages")
     (bool_decide (is_Some (d_threads d !! thread_id)) && bool_decide (is_Some (d_runs d !! run_id)))
  (Ok (set_d_thread_messages
         (d_thread_messages d ++ [mkMessageRow thread_id run_id i message (get_or "metadata" (JObj []) message)]) d))).

Definition append_thread_messages (thread_id run_id : string) (messages : list dict) (d : db) : py db :=
  fold_res (append_thread_message thread_id run_id) messages d.

(** ** Runs *)

Definition opt_str (j : json) : option string := match j with JStr s => Some s | _ => None end.

Definition create_run (now : Z) (run_id thread_id : string) (agent : AgentRef) (run_input : dict)
    (actor_chain : option (list string)) (d : db) : py db :=
  guard_or (IntegrityError "runs_pkey") (bool_decide (d_runs d !! run_id = None))
  (guard_or (IntegrityError "fk_runs_thread") (bool_decide (is_Some (d_threads d !! thread_id)))
  (guard_or (IntegrityError "fk_runs_agent") (bool_decide (is_Some (d_agents d !! agent)))
  (Ok (set_d_runs
         (<[run_id := mkRunRecord run_id thread_id (ref_provider_key agent) (ref_name agent)
              queued actor_chain now None None (Some now) (opt_str (get "parentRunId" run_input))
              (get "state" run_input) (py_or (get "tools" run_input) (JList []))
              (py_or (get "context" run_input) (JList [])) (get "forwardedProps" run_input)
              (get "resume" run_input) false None]> (d_runs d)) d)))).

Definition get_run (run_id : string) (d : db) : option RunRecord := d_runs d !! run_id.

Definition messages_of_run (run_id : string) (d : db) : list dict :=
  ms_message <$> filter (fun m => ms_run_id m = run_id) (d_thread_messages d).

Definition ev_le (a b : EventRow) : Prop := (ev_seq a <= ev_seq b)%Z.
#[global] Instance ev_le_dec : RelDecision ev_le.
Proof. intros a b. unfold ev_le. apply _. Defined.

Definition append_run_event (run_id : string) (seq : Z) (event : dict) (d : db) : py db :=
  guard_or (IntegrityError "fk_run_events") (bool_decide (is_Some (d_runs d !! run_id)))
  (Ok (set_d_run_events (d_run_events d ++ [mkEventRow run_id seq event]) d)).

Definition get_run_events (run_id : string) (since_seq : Z) (d : db) : list dict :=
  ev_event <$> merge_sort ev_le
    (filter (fun e => ev_run_id e = run_id /\ (since_seq < ev_seq e)%Z) (d_run_events d)).

(** [coalesce(max(seq), 0)]. *)
Fixpoint max_seq (l : list EventRow) : option Z :=
  match l with
  | [] => None
  | e :: rest => Some match max_seq rest with Some m => Z.max (ev_seq e) m | None => ev_seq e end
  end.

Definition get_last_event_seq (run_id : string) (d : db) : Z :=
  default 0%Z (max_seq (filter (fun e => ev_run_id e = run_id) (d_run_events d))).

(** The messages of [runs], each under the first run it appears in. *)
Definition add_unseen (run_id : string) (message : dict) (st : list key * list (string * dict))
    : py (list key * list (string * dict)) :=
  let '(seen, out) := st in
  i ← item "id" message; k ← to_key i;
  Ok (if bool_decide (k ∈ seen) then (seen, out) else (seen ++ [k], out ++ [(run_id, message)])).

Definition said_in (d : db) (run : RunRecord) : py (list dict) :=
  let said := messages_of_run (rr_run_id run) d in
  if bool_decide (rr_status run = completed) then
    replies ← Reduce.reduce_events_to_messages (get_run_events (rr_run_id run) 0 d);
    Ok (said ++ replies)
  else Ok said.

Definition conversation_step (d : db) (run : RunRecord) (st : list key * list (string * dict))
    : py (list key * list (string * dict)) :=
  said ← said_in d run; fold_res (add_unseen (rr_run_id run)) said st.

Definition conversation_of (runs : list RunRecord) (d : db) : py (list (string * dict)) :=
  '(_, out) ← fold_res (conversation_step d) runs ([], []); Ok out.

Definition readers_of `{Crypto} (thread : ThreadRow) (d : db) : py (option (gset string)) :=
  match th_head_key thread with
  | None => Ok None
  | Some head =>
      circle ← fold_res (fun r acc =>
          match rr_actor_chain r with
          | None | Some [] => Ok acc
          | Some chain =>
              hops ← Chain.verify_chain chain;
              Ok (list_to_set (Chain.actor_public_keys hops) ∪ acc)
          end)
        (filter (fun r => rr_thread_id r = th_thread_id thread) (all_runs d))
        ({[th_provider_key thread; head]} : gset string);
      Ok (Some circle)
  end.

Definition record_cancel_request (run_id : string) (requested_by : option string) (d : db) : db :=
  set_d_runs (alter (fun r => set_rr_cancel_requested_by requested_by (set_rr_cancel_requested true r))
                run_id (d_runs d)) d.

(** ** The run-status state machine *)

Definition LEGAL_STATUS_TRANSITIONS (status : run_status) : option (list run_status) :=
  match status with
  | offering => Some [queued]
  | running => Some [offering]
  | cancelling => Some [running]
  | completed => Some [running; cancelling]
  | cancelled => Some [queued; offering; running; cancelling]
  | failed => Some [queued; offering; running; cancelling]
  | queued => None
  end.

Definition status_update (now : Z) (status : run_status) (r : RunRecord) : RunRecord :=
  let r := set_rr_last_activity_at (Some now) (set_rr_status status r) in
  match status with
  | running => set_rr_started_at (Some now) r
  | completed | failed | cancelled => set_rr_completed_at (Some now) r
  | _ => r
  end.

Definition mark_run_status (now : Z) (run_id : string) (status : run_status) (d : db) : py (bool * db) :=
  match LEGAL_STATUS_TRANSITIONS status with
  | None => Err (ValueError "not a status mark_run_status may write")
  | Some legal_from =>
      match d_runs d !! run_id with
      | None => Err RunRowMissing
      | Some r =>
          if bool_decide (rr_status r ∈ legal_from)
          then Ok (true, set_d_runs (<[run_id := status_update now status r]> (d_runs d)) d)
          else Ok (false, d)
      end
  end.

Definition touch_run_activity (now : Z) (run_id : string) (d : db) : db :=
  set_d_runs (alter (set_rr_last_activity_at (Some now)) run_id (d_runs d)) d.

(** ** Queries over a thread's runs *)

Definition runs_in_thread (thread_id : string) (d : db) : list RunRecord :=
  filter (fun r => rr_thread_id r = thread_id) (runs_sorted d).

Definition get_active_run_for_thread (thread_id : string) (d : db) : option RunRecord :=
  last (filter (fun r => rr_status r ∈ ACTIVE_RUN_STATUSES) (runs_in_thread thread_id d)).

Definition count_queued_runs_for_thread (thread_id : string) (d : db) : nat :=
  length (filter (fun r => rr_thread_id r = thread_id /\ rr_status r ∈ PENDING_RUN_STATUSES) (all_runs d)).

Definition ensure_queue_room (thread_id : string) (limit : option nat) (d : db) : py () :=
  match limit with
  | None => Ok ()
  | Some l => if Nat.leb l (count_queued_runs_for_thread thread_id d) then Err ThreadQueueFull else Ok ()
  end.

Definition latest_run_for_thread (thread_id : string) (d : db) : option RunRecord :=
  last (runs_in_thread thread_id d).

Definition root_runs_in_thread (thread_id : string) (d : db) : list RunRecord :=
  rev (filter (fun r => rr_parent_run_id r = None) (runs_in_thread thread_id d)).

Definition get_thread_snapshot (thread_id : string) (d : db) : option (string * option (string * run_status)) :=
  match get_thread thread_id d with
  | None => None
  | Some _ => Some (thread_id, (fun r => (rr_run_id r, rr_status r)) <$> get_active_run_for_thread thread_id d)
  end.

(** ** Lineages *)

(** The newest run whose [parent_run_id] is [run_id], of any thread. *)
Definition newest_child (run_id : string) (d : db) : option RunRecord :=
  last (filter (fun r => rr_parent_run_id r = Some run_id) (runs_sorted d)).

(** The [while] loops, with fuel: [None] is fuel running out. *)
Fixpoint lineage_from (fuel : nat) (d : db) (current : RunRecord) : option (list RunRecord) :=
  match fuel with
  | O => None
  | S fuel =>
      match newest_child (rr_run_id current) d with
      | None => Some [current]
      | Some child => cons current <$> lineage_from fuel d child
      end
  end.

Fixpoint tail_from (fuel : nat) (d : db) (current : RunRecord) : option RunRecord :=
  match fuel with
  | O => None
  | S fuel =>
      match newest_child (rr_run_id current) d with
      | None => Some current
      | Some child => tail_from fuel d child
      end
  end.

Fixpoint root_from (fuel : nat) (d : db) (current : RunRecord) : option string :=
  match fuel with
  | O => None
  | S fuel =>
      match rr_parent_run_id current with
      | None => Some (rr_run_id current)
      | Some p =>
          match get_run p d with
          | None => Some (rr_run_id current)
          | Some parent => root_from fuel d parent
          end
      end
  end.

Definition fuel_of (d : db) : nat := S (size (d_runs d)).

Definition lineage (run_id : string) (d : db) : option (list RunRecord) :=
  match get_run run_id d with
  | None => Some []
  | Some r => lineage_from (fuel_of d) d r
  end.

Definition lineage_tail (run_id : string) (d : db) : option (option RunRecord) :=
  match get_run run_id d with
  | None => Some None
  | Some r => Some <$> tail_from (fuel_of d) d r
  end.

Definition root_of (run : RunRecord) (d : db) : option string := root_from (fuel_of d) d run.

(** ** Restart *)

Definition HELD : list run_status := [offering; running; cancelling].

Definition fail_orphaned_runs (now : Z) (d : db) : list string * db :=
  let orphaned := filter (fun kv => rr_status kv.2 ∈ HELD) (map_to_list (d_runs d)) in
  (orphaned.*1,
   set_d_runs (foldl (fun m kv => <[kv.1 := set_rr_completed_at (Some now) (set_rr_status failed kv.2)]> m)
                 (d_runs d) orphaned) d).

Definition queued_runs (d : db) : list RunRecord :=
  filter (fun r => rr_status r = queued) (runs_sorted d).

End Repo.
