(* ===== verification/RepoFacts.v ===== *)
(** * What the database functions guarantee

    The run-status machine as a step relation with its invariants, the
    lineages of runs and why walking them ends, thread membership, the
    restart split and the conversation fold, over the definitions of
    [Repo]. *)

From Stdlib Require Import Sorting.Sorted.
From S2P Require Import Prelude Errors Json Models Crypto Reduce Repo.

Module RepoFacts.
Import Repo.

(** ** Writes as steps *)

Definition terminal (s : run_status) : bool :=
  match s with completed | failed | cancelled => true | _ => false end.

(** One write of the repository; a write to another table leaves [runs] alone. *)
Inductive db_step (d d' : db) : Prop :=
| step_create now id t a inp ch : create_run now id t a inp ch d = Ok d' -> db_step d d'
| step_mark now id s b : mark_run_status now id s d = Ok (b, d') -> db_step d d'
| step_cancel id who : d' = record_cancel_request id who d -> db_step d d'
| step_touch now id : d' = touch_run_activity now id d -> db_step d d'
| step_orphans now : d' = (fail_orphaned_runs now d).2 -> db_step d d'
| step_other : d_runs d' = d_runs d -> db_step d d'.

Definition reachable (d : db) : Prop := rtc db_step empty_db d.

(** What each status says of the timestamps beside it. *)
Definition stamps_ok (r : RunRecord) : Prop :=
  match rr_status r with
  | queued | offering => rr_started_at r = None /\ rr_completed_at r = None
  | running | cancelling => is_Some (rr_started_at r) /\ rr_completed_at r = None
  | completed => is_Some (rr_started_at r) /\ is_Some (rr_completed_at r)
  | failed | cancelled => is_Some (rr_completed_at r)
  end.

(** ** Lemmas about single writes *)

Lemma mark_ok now id s d b d' :
  mark_run_status now id s d = Ok (b, d') ->
  exists r, d_runs d !! id = Some r /\
    ((b = true /\ (exists l, LEGAL_STATUS_TRANSITIONS s = Some l /\ rr_status r ∈ l) /\
      d' = set_d_runs (<[id := status_update now s r]> (d_runs d)) d)
     \/ (b = false /\ d' = d)).
Proof.
  unfold mark_run_status. destruct (LEGAL_STATUS_TRANSITIONS s) as [l|]; [|done].
  destruct (d_runs d !! id) as [r|] eqn:Hr; [|done].
  case_bool_decide; intros [= <- <-]; exists r; split; [done|left|done|right]; eauto.
Qed.

Lemma create_ok now id t a inp ch d d' :
  create_run now id t a inp ch d = Ok d' ->
  d_runs d !! id = None /\ exists r, d_runs d' = <[id := r]> (d_runs d) /\ rr_run_id r = id /\
    rr_status r = queued /\ rr_started_at r = None /\ rr_completed_at r = None /\
    rr_thread_id r = t /\ rr_agent r = a /\ rr_parent_run_id r = opt_str (get "parentRunId" inp) /\
    rr_cancel_requested r = false /\ rr_created_at r = now.
Proof.
  unfold create_run. rewrite !guard_or_ok. intros (Hn%bool_decide_eq_true & _ & _ & [= <-]).
  split; [done|]. simpl. eexists. split; [done|]. destruct a. done.
Qed.

Lemma NoDup_sublist_fst {A B} (l k : list (A * B)) : sublist l k -> NoDup k.*1 -> NoDup l.*1.
Proof.
  induction 1 as [|x l k Hs IH|x l k Hs IH]; cbn [fmap list_fmap]; [done| |].
  - intros [Hx Hk]%NoDup_cons. apply NoDup_cons. split; [|by apply IH].
    contradict Hx. apply list_elem_of_fmap in Hx as (y & -> & Hy). apply list_elem_of_fmap.
    exists y. split; [done|]. by eapply elem_of_sublist.
  - intros [_ Hk]%NoDup_cons. by apply IH.
Qed.

Lemma orphans_lookup now d id :
  d_runs (fail_orphaned_runs now d).2 !! id =
  (fun r => if bool_decide (rr_status r ∈ HELD)
            then set_rr_completed_at (Some now) (set_rr_status failed r) else r) <$> d_runs d !! id.
Proof.
  unfold fail_orphaned_runs. simpl.
  set (f := fun r => set_rr_completed_at (Some now) (set_rr_status failed r)).
  assert (Hgen : forall (l : list (string * RunRecord)) (m : gmap string RunRecord),
    NoDup l.*1 -> (forall k r, (k, r) ∈ l -> d_runs d !! k = Some r) ->
    foldl (fun m kv => <[kv.1 := f kv.2]> m) m l !! id =
    if decide (id ∈ l.*1) then f <$> d_runs d !! id else m !! id).
  { induction l as [|[k r] l IH]; intros m Hnd Hl; [done|].
    cbn [foldl fmap list_fmap fst snd]. cbn [fmap list_fmap fst] in Hnd. apply NoDup_cons in Hnd as [Hk Hnd].
    rewrite IH; [|done|intros; apply Hl; by constructor].
    pose proof (Hl k r) as Hkr. specialize (Hkr ltac:(constructor)).
    destruct (decide (id = k)) as [->|Hne].
    - rewrite (decide_False (P := k ∈ l.*1)) by done.
      rewrite decide_True by constructor. rewrite lookup_insert_eq, Hkr. done.
    - destruct (decide (id ∈ l.*1)).
      + rewrite decide_True by (by constructor). done.
      + rewrite decide_False by (rewrite elem_of_cons; tauto). by rewrite lookup_insert_ne. }
  rewrite Hgen.
  - case_decide as Hin.
    + apply list_elem_of_fmap in Hin as ([k r] & -> & [Hst Hkr%elem_of_map_to_list]%list_elem_of_filter).
      simpl in *. rewrite Hkr. simpl. by rewrite bool_decide_eq_true_2.
    + destruct (d_runs d !! id) as [r|] eqn:Hr; [|done]. simpl. case_bool_decide as Hst; [|done].
      destruct Hin. apply list_elem_of_fmap. exists (id, r). split; [done|].
      apply list_elem_of_filter. split; [done|]. by apply elem_of_map_to_list.
  - assert (Hs : sublist (filter (fun kv => rr_status kv.2 ∈ HELD) (map_to_list (d_runs d)))
      (map_to_list (d_runs d))) by apply sublist_filter.
    eapply NoDup_sublist_fst; [exact Hs|apply NoDup_fst_map_to_list].
  - intros k r [_ Hkr]%list_elem_of_filter. by apply elem_of_map_to_list.
Qed.

(** The effect of any step on one existing run. *)
Inductive run_step (r r' : RunRecord) : Prop :=
| run_same : r' = r -> run_step r r'
| run_marked now s l : LEGAL_STATUS_TRANSITIONS s = Some l -> rr_status r ∈ l ->
    r' = status_update now s r -> run_step r r'
| run_cancel_asked who :
    r' = set_rr_cancel_requested_by who (set_rr_cancel_requested true r) -> run_step r r'
| run_touched now : r' = set_rr_last_activity_at (Some now) r -> run_step r r'
| run_orphaned now : rr_status r ∈ HELD ->
    r' = set_rr_completed_at (Some now) (set_rr_status failed r) -> run_step r r'.

Lemma alter_run_step (f : RunRecord -> RunRecord) id0 d id r :
  (forall x, run_step x (f x)) -> d_runs d !! id = Some r ->
  exists r', alter f id0 (d_runs d) !! id = Some r' /\ run_step r r'.
Proof.
  intros Hf Hr. rewrite lookup_alter. case_decide; subst; rewrite Hr; simpl; eexists; split; eauto.
  by constructor.
Qed.

Lemma db_step_run d d' id r :
  db_step d d' -> d_runs d !! id = Some r ->
  exists r', d_runs d' !! id = Some r' /\ run_step r r'.
Proof.
  intros [now i t a inp ch Hs|now i s b Hs|i who ->|now i ->|now ->|Hs] Hr.
  - apply create_ok in Hs as (Hn & r0 & -> & _). exists r.
    rewrite lookup_insert_ne by congruence. split; [done|by constructor].
  - apply mark_ok in Hs as (r0 & Hr0 & [(-> & (l & Hl & Hin) & ->)|[-> ->]]).
    + simpl. rewrite lookup_insert. case_decide; subst; [|by exists r; split; [|constructor]].
      simplify_eq. eexists. split; [done|]. by eapply run_marked.
    + exists r. by split; [|constructor].
  - apply alter_run_step; [|done]. intros x. by eapply run_cancel_asked.
  - apply alter_run_step; [|done]. intros x. by eapply run_touched.
  - rewrite orphans_lookup, Hr. simpl. eexists. split; [done|].
    case_bool_decide; [by eapply run_orphaned|by constructor].
  - rewrite Hs. exists r. by split; [|constructor].
Qed.

Lemma legal_not_terminal s l x : LEGAL_STATUS_TRANSITIONS s = Some l -> x ∈ l -> terminal x = false.
Proof. destruct s; intros [= <-]; set_solver. Qed.

Lemma run_step_terminal r r' : run_step r r' -> terminal (rr_status r) = true -> rr_status r' = rr_status r.
Proof.
  intros [->|now s l Hl Hin ->|who ->|now ->|now Hin ->] Ht; try done.
  - by rewrite (legal_not_terminal _ _ _ Hl Hin) in Ht.
  - unfold HELD in Hin. exfalso. destruct (rr_status r); set_solver.
Qed.

Lemma run_step_stamps r r' : run_step r r' -> stamps_ok r -> stamps_ok r'.
Proof.
  unfold stamps_ok. intros [->|now s l Hl Hin ->|who ->|now ->|now Hin ->]; try done.
  - destruct s; (try discriminate Hl); injection Hl as <-; unfold status_update; cbn;
      rewrite ?elem_of_cons, ?elem_of_nil in Hin; intros Hst; destruct (rr_status r); simpl in *;
      try done; try (destruct_or?; discriminate); naive_solver.
  - simpl. eauto.
Qed.

(** A terminal status is final: once a run is recorded completed, failed
    or cancelled, no sequence of repository writes changes its status or
    removes its row. *)
Theorem terminal_is_final d d' id r :
  rtc db_step d d' -> d_runs d !! id = Some r -> terminal (rr_status r) = true ->
  exists r', d_runs d' !! id = Some r' /\ rr_status r' = rr_status r.
Proof.
  intros Hsteps. revert r. induction Hsteps as [d|d d1 d' Hs _ IH]; intros r Hr Ht; [eauto|].
  destruct (db_step_run _ _ _ _ Hs Hr) as (r1 & Hr1 & Hrs).
  pose proof (run_step_terminal _ _ Hrs Ht) as Heq.
  destruct (IH r1 Hr1) as (r' & Hr' & Heq'); [by rewrite Heq|]. exists r'. by rewrite Heq', Heq.
Qed.

(** In every reachable database a run's timestamps agree with its
    status: a completed run was started (it passed through running) and
    ended, a queued or offered one neither, a failed or cancelled one ended. *)
Theorem reachable_stamps d id r : reachable d -> d_runs d !! id = Some r -> stamps_ok r.
Proof.
  intros Hr. revert id r. unfold reachable in Hr. 
  revert d Hr. refine (rtc_ind_r (fun d => forall id r, d_runs d !! id = Some r -> stamps_ok r) empty_db _ _).
  - intros id r. unfold empty_db; simpl. by rewrite lookup_empty.
  - intros d1 d2 _ Hs IH id r Hr2. destruct (d_runs d1 !! id) as [r1|] eqn:Hr1.
    + destruct (db_step_run _ _ _ _ Hs Hr1) as (r' & Hr' & Hrs). simplify_eq.
      eapply run_step_stamps; eauto.
    + destruct Hs as [now i t a inp ch Hs|now i s b Hs|i who ->|now i ->|now ->|Hs].
      * apply create_ok in Hs as (Hn & r0 & Heq & _ & Hst & Hsa & Hca & _). rewrite Heq in Hr2.
        rewrite lookup_insert in Hr2. case_decide; simplify_eq. unfold stamps_ok. by rewrite Hst.
      * apply mark_ok in Hs as (r0 & Hr0 & [(-> & _ & ->)|[-> ->]]); [|congruence].
        simpl in Hr2. rewrite lookup_insert in Hr2. case_decide; congruence.
      * simpl in Hr2. rewrite lookup_alter in Hr2. case_decide; subst; rewrite Hr1 in Hr2; done.
      * simpl in Hr2. rewrite lookup_alter in Hr2. case_decide; subst; rewrite Hr1 in Hr2; done.
      * rewrite orphans_lookup, Hr1 in Hr2. done.
      * congruence.
Qed.
#[export] Instance run_le_trans : Transitive run_le.
Proof. intros a b c [?|[? ?]] [?|[? ?]]; [left; lia|left; lia|left; lia|right; split; [lia|by etrans]]. Qed.

#[export] Instance run_le_total : Total run_le.
Proof.
  intros a b. destruct (Z.lt_total (rr_created_at a) (rr_created_at b)) as [?|[Heq|?]]; [by left; left| |by right; left].
  destruct (total str_le (rr_run_id a) (rr_run_id b)); [left|right]; by right.
Qed.

(** ** Restart *)

(** The restart split: failing the orphans fails exactly the runs the
    previous process had handed out (and returns their ids), leaves every
    queued and every ended run as it was, and what is left queued is taken
    back oldest first. *)
Theorem restart_split now d :
  (forall id, id ∈ (fail_orphaned_runs now d).1 <->
     exists r, d_runs d !! id = Some r /\ rr_status r ∈ [offering; running; cancelling]) /\
  (forall id r, d_runs d !! id = Some r -> exists r', d_runs (fail_orphaned_runs now d).2 !! id = Some r' /\
     if bool_decide (rr_status r ∈ [offering; running; cancelling])
     then rr_status r' = failed /\ rr_completed_at r' = Some now
     else r' = r) /\
  Sorted run_le (queued_runs (fail_orphaned_runs now d).2).
Proof.
  split_and!.
  - intros id. unfold fail_orphaned_runs. cbn [fst]. rewrite list_elem_of_fmap. split.
    + intros ([k r]&->&[Hs Hr%elem_of_map_to_list]%list_elem_of_filter). eauto.
    + intros (r&Hr&Hs). exists (id, r). split; [done|]. apply list_elem_of_filter. split; [done|].
      by apply elem_of_map_to_list.
  - intros id r Hr. rewrite orphans_lookup, Hr. cbn [fmap option_fmap option_map]. eexists. split; [done|].
    unfold HELD. by case_bool_decide.
  - unfold queued_runs, runs_sorted. apply StronglySorted_Sorted.
    assert (Hs : forall l : list RunRecord, StronglySorted run_le (merge_sort run_le l)).
    { intros l. exact (StronglySorted_merge_sort run_le l). }
    generalize (Hs (all_runs (fail_orphaned_runs now d).2)). generalize (merge_sort run_le (all_runs (fail_orphaned_runs now d).2)).
    intros l. induction 1 as [|x l Hl IH Hx]; [constructor|]. rewrite filter_cons. case_decide; [|done].
    constructor; [done|]. rewrite Forall_forall in *. intros y [_ Hy]%list_elem_of_filter. auto.
Qed.

(** ** Threads *)

(** C13. Who may write to a thread: [ensure_thread] answers with the thread
    asked for exactly when it exists, belongs to that agent, and, if it is
    bound to a head, the caller presents that head or is the provider serving
    the agent; the thread keeps its agent, its head and its metadata. *)
Theorem ensure_thread_admits now new_id agent t parent metadata create head_key d row :
  d_threads d !! t = Some row ->
  (is_ok (ensure_thread now new_id agent (Some t) parent metadata create head_key d) = true <->
     th_agent row = agent /\
     forall h, th_head_key row = Some h -> head_key = Some h \/ head_key = Some (ref_provider_key agent)) /\
  forall t' d', ensure_thread now new_id agent (Some t) parent metadata create head_key d = Ok (t', d') ->
    t' = t /\ d_threads d' = <[t := set_th_last_activity_at now row]> (d_threads d).
Proof.
  intros Hrow. unfold ensure_thread, get_thread. rewrite Hrow. split.
  - case_bool_decide as Ha; [cbn; split; [done|tauto]|].
    destruct (th_head_key row) as [h|]; [|cbn; split; [by split|done]].
    case_bool_decide as H1; case_bool_decide as H2; cbn.
    + split; [done|]. intros [_ H]. destruct (H h eq_refl); congruence.
    + split; [|done]. intros _. split; [done|]. intros ? [= <-]. by right.
    + split; [|done]. intros _. split; [done|]. intros ? [= <-]. by left.
    + split; [|done]. intros _. split; [done|]. intros ? [= <-]. by left.
  - intros t' d'. repeat case_match; try done; intros [= <- <-]; (split; [done|]); cbn;
      apply map_eq; intros k; rewrite lookup_alter, lookup_insert; case_decide; subst; rewrite ?Hrow; done.
Qed.

(** ** The queue's bound *)

Lemma count_after_create now id t a inp ch d d' limit :
  create_run now id t a inp ch d = Ok d' -> count_queued_runs_for_thread t d < limit ->
  count_queued_runs_for_thread t d' <= limit.
Proof.
  intros Hc Hlt. apply create_ok in Hc as (Hn&r&Hd'&Hr). unfold count_queued_runs_for_thread, all_runs in *.
  rewrite Hd'. rewrite (Permutation_length (l := filter _ (snd <$> map_to_list (<[id:=r]> (d_runs d))))
    (l' := filter (fun r => rr_thread_id r = t /\ rr_status r ∈ PENDING_RUN_STATUSES) (r :: (snd <$> map_to_list (d_runs d))))).
  - rewrite filter_cons. case_decide; cbn [length]; lia.
  - apply filter_Permutation. rewrite map_to_list_insert by done. done.
Qed.

(** C14. The buffer holds its bound: a run created behind [ensure_queue_room]
    leaves at most the limit of runs pending on its thread; a full thread is
    refused and nothing is written. *)
Theorem queue_room_bounds now id t a inp ch limit d :
  match ensure_queue_room t (Some limit) d with
  | Ok _ => forall d', create_run now id t a inp ch d = Ok d' -> count_queued_runs_for_thread t d' <= limit
  | Err e => e = ThreadQueueFull /\ limit <= count_queued_runs_for_thread t d
  end.
Proof.
  unfold ensure_queue_room. destruct (Nat.leb_spec limit (count_queued_runs_for_thread t d)) as [Hle|Hlt]; [done|].
  intros d' Hc. by eapply count_after_create.
Qed.

(** ** The conversation *)

Definition message_key (m : dict) : option key :=
  match get "id" m with JNull => Some KNone | j => match to_key j with Ok k => Some k | Err _ => None end end.

Lemma add_unseen_inv run m seen out seen' out' :
  add_unseen run m (seen, out) = Ok (seen', out') ->
  NoDup seen -> seen = omap (fun rm => message_key rm.2) out ->
  NoDup seen' /\ seen' = omap (fun rm => message_key rm.2) out' /\
  (exists k, message_key m = Some k /\ k ∈ seen') /\ seen `prefix_of` seen' /\ out `prefix_of` out'.
Proof.
  unfold add_unseen. intros (i & Hi & (k & Hk & [= Heq])%bind_ok)%bind_ok Hnd Hs.
  assert (Hmk : message_key m = Some k).
  { unfold message_key. rewrite (get_item _ _ _ Hi). destruct i; cbn in *; congruence. }
  case_bool_decide as Hin; injection Heq as <- <-.
  - split_and!; [done|done|eauto|done|done].
  - split_and!.
    + apply NoDup_app. split_and!; [done| |apply NoDup_singleton]. by intros y Hy ->%list_elem_of_singleton.
    + rewrite omap_app. cbn. rewrite Hmk. by rewrite <- Hs.
    + exists k. split; [done|]. set_solver.
    + by eexists.
    + by eexists.
Qed.

Definition unseen_ok (st : list key * list (string * dict)) : Prop :=
  NoDup st.1 /\ st.1 = omap (fun rm => message_key rm.2) st.2.

Lemma add_all_inv run said st st' : fold_res (add_unseen run) said st = Ok st' -> unseen_ok st ->
  unseen_ok st' /\ st.2 `prefix_of` st'.2 /\ st.1 `prefix_of` st'.1 /\
  forall m, m ∈ said -> exists k, message_key m = Some k /\ k ∈ st'.1.
Proof.
  revert st. induction said as [|m said IH]; intros [seen out]; cbn [fold_res].
  - intros [= <-] Hok. split_and!; [done..|by intros m ?%not_elem_of_nil].
  - intros ([seen1 out1] & H1 & H2)%bind_ok [Hnd Hs].
    destruct (add_unseen_inv _ _ _ _ _ _ H1 Hnd Hs) as (Hnd1&Hs1&(k&Hk&Hin)&Hp1&Hp2).
    destruct (IH _ H2 (conj Hnd1 Hs1)) as (Hok&Hq1&Hq2&Hall). cbn in *. split_and!; [done|by etrans|by etrans|].
    intros m' [->|Hm']%elem_of_cons; [|auto]. exists k. split; [done|]. destruct Hq2 as [z ->]. set_solver.
Qed.

(** A conversation says everything once: the fold over a thread's runs
    returns every message its runs carried in or (for a completed run)
    replied, no message id twice, and extending the runs by a later one only
    appends. *)
Theorem conversation_says_each_once runs run d out :
  conversation_of (runs ++ [run]) d = Ok out ->
  NoDup (omap (fun rm => message_key rm.2) out) /\
  (exists before, conversation_of runs d = Ok before /\ before `prefix_of` out) /\
  (forall said m, said_in d run = Ok said -> m ∈ said ->
     exists k, message_key m = Some k /\ k ∈ omap (fun rm => message_key rm.2) out).
Proof.
  assert (Hgen : forall runs st st', fold_res (conversation_step d) runs st = Ok st' -> unseen_ok st ->
    unseen_ok st' /\ st.2 `prefix_of` st'.2).
  { clear. induction runs as [|r runs IH]; intros st st'; cbn [fold_res]; [by intros [= <-]|].
    intros (st1 & (said & _ & H1)%bind_ok & H2)%bind_ok Hok.
    destruct (add_all_inv _ _ _ _ H1 Hok) as (Hok1&Hp&_). destruct (IH _ _ H2 Hok1) as [? ?]. split; [done|by etrans]. }
  unfold conversation_of. intros ([seen out'] & Hf & [= <-])%bind_ok. rewrite fold_res_app in Hf.
  apply bind_ok in Hf as (st1 & H1 & H2). destruct (Hgen _ _ _ H1) as [Hok1 _]; [split; [constructor|done]|].
  cbn [fold_res] in H2. apply bind_ok in H2 as (st2 & (said & Hsaid & H2)%bind_ok & [= ->]).
  destruct (add_all_inv _ _ _ _ H2 Hok1) as ([Hnd Hs]&Hp&_&Hall). cbn in *. rewrite <- Hs. split_and!; [done| |].
  - exists st1.2. rewrite H1. cbn. by destruct st1.
  - intros said' m Hsaid' Hm. assert (said' = said) as -> by congruence. auto.
Qed.

(** ** The claims on concrete databases *)

Module Witness.
Definition agent : AgentRef := mkRef "K" "a".
Definition thread : ThreadRow := mkThreadRow "t" "K" "a" None (Some "H") JNull 0 0.
Definition base : db := set_d_threads {["t" := thread]} (set_d_agents {[agent := mkAgentRow [] JNull 0 0]} empty_db).
Definition getd (r : py db) : db := match r with Ok d => d | Err _ => base end.
Definition after_mark (s : run_status) (d : db) : db :=
  match mark_run_status 5 "r" s d with Ok (_, d') => d' | Err _ => base end.
Definition d1 : db := getd (create_run 1 "r" "t" agent [] None base).
Definition d2 : db := after_mark completed (after_mark running (after_mark offering d1)).
Definition row_of (d : db) : RunRecord :=
  default (mkRunRecord "" "" "" "" queued None 0 None None None None JNull JNull JNull JNull JNull false None) (d_runs d !! "r").

Lemma d2_reachable : reachable d2.
Proof.
  eapply rtc_l; [apply (step_other _ base); reflexivity|].
  eapply rtc_l; [apply (step_create _ d1 1 "r" "t" agent [] None); reflexivity|].
  eapply rtc_l; [apply (step_mark _ (after_mark offering d1) 5 "r" offering true); reflexivity|].
  eapply rtc_l; [apply (step_mark _ (after_mark running (after_mark offering d1)) 5 "r" running true); reflexivity|].
  apply rtc_once. apply (step_mark _ d2 5 "r" completed true); vm_compute; reflexivity.
Qed.

Lemma terminal_is_final_witness :
  exists r', d_runs (touch_run_activity 9 "r" d2) !! "r" = Some r' /\ rr_status r' = completed.
Proof.
  apply (terminal_is_final d2 (touch_run_activity 9 "r" d2) "r" (row_of d2)); [|vm_compute; reflexivity|vm_compute; reflexivity].
  apply rtc_once. by apply (step_touch _ _ 9 "r").
Defined.

Lemma reachable_stamps_witness : stamps_ok (row_of d2).
Proof. apply (reachable_stamps d2 "r" (row_of d2)); [exact d2_reachable|vm_compute; reflexivity]. Defined.

Lemma ensure_thread_admits_witness :
  is_ok (ensure_thread 7 "new" agent (Some "t") None JNull true (Some "H") base) = true.
Proof. apply (ensure_thread_admits 7 "new" agent "t" None JNull true (Some "H") base thread); [reflexivity|]. split; [done|]. intros h [= <-]. by left. Defined.

Definition said : dict := [("id", JStr "m1"); ("role", JStr "user")].
Definition d3 : db := match append_thread_message "t" "r" said d1 with Ok d => d | Err _ => d1 end.

Lemma conversation_says_each_once_witness :
  conversation_of ([] ++ [row_of d3]) d3 = Ok [("r", said)] /\
  NoDup (omap (fun rm => message_key rm.2) [("r", said)]).
Proof.
  split; [vm_compute; reflexivity|]. apply (conversation_says_each_once [] (row_of d3) d3 [("r", said)]). vm_compute. reflexivity.
Defined.
End Witness.
End RepoFacts.
