(* ===== verification/Relational.v ===== *)
(** * Tables, rows, and the statements that change them

    What funduq's schema and migrations are written in: column types and
    constraints as SQLAlchemy declares them, rows, and the DDL and DML
    statements a migration issues.  A statement that would leave the database
    violating one of its constraints is refused, as SQL refuses it; the
    statements are data, so a migration is a list of them. *)

From S2P Require Import Prelude Json.

Module Relational.

(** ** Declarations *)

(** [String], [DateTime(timezone=True)], [_JSON], [_BIGSERIAL], [Integer], [Boolean]. *)
Inductive column_type : Type := String_ | DateTime_ | JSON_ | BigSerial_ | Integer_ | Boolean_.

Inductive value : Type :=
| VNull
| VString (s : string)
| VTime (t : Z)
| VJson (j : json)
| VInt (z : Z)
| VBool (b : bool).

#[global] Instance column_type_eq_dec : EqDecision column_type.
Proof. solve_decision. Defined.
#[global] Instance value_eq_dec : EqDecision value.
Proof. solve_decision. Defined.

Record Column : Type := mkColumn {
  c_name : string;
  c_type : column_type;
  c_nullable : bool;
  c_server_default : option value;
}.

(** [CheckConstraint("column IN (...)", name)]. *)
Record CheckConstraint : Type := mkCheck { ck_name : string; ck_column : string; ck_in : list string }.

Record UniqueConstraint : Type := mkUnique { u_name : option string; u_columns : list string }.

Record ForeignKey : Type := mkForeignKey {
  fk_name : option string;
  fk_columns : list string;
  fk_table : string;
  fk_refers : list string;
}.

Record Index : Type := mkIndex { ix_name : string; ix_columns : list string; ix_unique : bool }.

#[global] Instance Column_eq_dec : EqDecision Column.
Proof. solve_decision. Defined.
#[global] Instance CheckConstraint_eq_dec : EqDecision CheckConstraint.
Proof. solve_decision. Defined.
#[global] Instance UniqueConstraint_eq_dec : EqDecision UniqueConstraint.
Proof. solve_decision. Defined.
#[global] Instance ForeignKey_eq_dec : EqDecision ForeignKey.
Proof. solve_decision. Defined.
#[global] Instance Index_eq_dec : EqDecision Index.
Proof. solve_decision. Defined.

Record Table : Type := mkTable {
  t_columns : list Column;
  t_pk : list string;
  t_fks : list ForeignKey;
  t_uniques : list UniqueConstraint;
  t_checks : list CheckConstraint;
  t_indexes : list Index;
}.

#[global] Instance Table_eq_dec : EqDecision Table.
Proof. solve_decision. Defined.

Definition set_t_columns (v : list Column) (t : Table) : Table := mkTable v (t_pk t) (t_fks t) (t_uniques t) (t_checks t) (t_indexes t).
Definition set_t_uniques (v : list UniqueConstraint) (t : Table) : Table := mkTable (t_columns t) (t_pk t) (t_fks t) v (t_checks t) (t_indexes t).
Definition set_t_checks (v : list CheckConstraint) (t : Table) : Table := mkTable (t_columns t) (t_pk t) (t_fks t) (t_uniques t) v (t_indexes t).
Definition set_t_indexes (v : list Index) (t : Table) : Table := mkTable (t_columns t) (t_pk t) (t_fks t) (t_uniques t) (t_checks t) v.

Definition column_names (t : Table) : list string := map c_name (t_columns t).

Notation schema := (gmap string Table).
Notation row := (gmap string value).

(** ** Contents *)

Record database : Type := mkDatabase { d_schema : schema; d_rows : gmap string (list row) }.

Definition rows (name : string) (d : database) : list row := default [] (d_rows d !! name).

Definition empty : database := mkDatabase ∅ ∅.

(** ** What a database promises *)

Definition fits (c : Column) (v : value) : bool :=
  match v, c_type c with
  | VNull, _ => c_nullable c
  | VString _, String_ | VTime _, DateTime_ | VJson _, JSON_ | VInt _, BigSerial_ | VInt _, Integer_ | VBool _, Boolean_ => true
  | _, _ => false
  end.

(** A check is violated only where it is false, which it is not on NULL. *)
Definition passes (ck : CheckConstraint) (r : row) : bool :=
  match r !! ck_column ck with Some (VString s) => bool_decide (s ∈ ck_in ck) | _ => true end.

(** The row has the table's columns and no other. *)
Definition row_ok (t : Table) (r : row) : Prop :=
  Forall (fun c => match r !! c_name c with Some v => fits c v = true | None => False end) (t_columns t) /\
  dom r ⊆ list_to_set (column_names t) /\
  Forall (fun ck => passes ck r = true) (t_checks t).

Definition cell (r : row) (c : string) : option value :=
  match r !! c with Some VNull => None | v => v end.

(** The key a row has on some columns, unless one of them is NULL. *)
Definition key_on (cols : list string) (r : row) : option (list value) := mapM (cell r) cols.

Definition unique_on (cols : list string) (l : list row) : Prop := NoDup (omap (key_on cols) l).

(** Every key the rows have is the key of a row referred to. *)
Definition refers_to (fk : ForeignKey) (l referred : list row) : Prop :=
  Forall (fun r => match key_on (fk_columns fk) r with
                   | Some k => k ∈ omap (key_on (fk_refers fk)) referred
                   | None => True
                   end) l.

(** Primary key, unique constraints, unique indexes. *)
Definition keys_of (t : Table) : list (list string) :=
  t_pk t :: map u_columns (t_uniques t) ++ map ix_columns (filter (fun ix => ix_unique ix = true) (t_indexes t)).

Definition table_valid (d : database) (name : string) (t : Table) : Prop :=
  Forall (row_ok t) (rows name d) /\
  Forall (fun cols => unique_on cols (rows name d)) (keys_of t) /\
  Forall (fun fk => refers_to fk (rows name d) (rows (fk_table fk) d)) (t_fks t).

Definition valid (d : database) : Prop := map_Forall (table_valid d) (d_schema d).

#[global] Instance row_ok_dec t r : Decision (row_ok t r).
Proof. unfold row_ok. apply and_dec; [|apply _]. apply Forall_dec. intros c. destruct (r !! c_name c); apply _. Defined.
#[global] Instance refers_to_dec fk l referred : Decision (refers_to fk l referred).
Proof. unfold refers_to. apply Forall_dec. intros r. destruct (key_on _ r); apply _. Defined.
#[global] Instance table_valid_dec d name t : Decision (table_valid d name t).
Proof. unfold table_valid, unique_on. apply _. Defined.
#[global] Instance valid_dec d : Decision (valid d).
Proof. unfold valid. apply _. Defined.

(** ** Statements *)

(** The [WHERE] clauses written: none, [c = v], [c IS NOT NULL], [c AND c' IS NULL]. *)
Inductive condition : Type :=
| Always
| Equals (c : string) (v : value)
| IsNotNull (c : string)
| TrueAndNull (c c' : string).

Definition holds (w : condition) (r : row) : bool :=
  match w with
  | Always => true
  | Equals c v => bool_decide (cell r c = Some v)
  | IsNotNull c => bool_decide (is_Some (cell r c))
  | TrueAndNull c c' => bool_decide (cell r c = Some (VBool true)) && bool_decide (cell r c' = None)
  end.

(** What a batch, or a plain operation, does to one table. *)
Inductive alteration : Type :=
| AddColumn (c : Column)
| DropColumn (name : string)
| DropCheck (name : string)
| DropUnique (name : string)
| CreateCheck (ck : CheckConstraint)
| CreateUnique (u : UniqueConstraint).

Inductive statement : Type :=
| CreateTable (name : string) (t : Table)
| DropTable (name : string)
| CreateIndex (table : string) (ix : Index)
| DropIndex (table name : string)
| Alter (table : string) (a : alteration)
| Delete (table : string) (w : condition)
| Update (table column : string) (v : value) (w : condition)
| CopyFrom (table : string) (t : Table).

Inductive failure : Type :=
| NoSuchTable (name : string)
| TableExists (name : string)
| NoSuchColumn (name : string)
| ColumnExists (name : string)
| ColumnInUse (name : string)
| NoSuchConstraint (name : string)
| ConstraintViolated.

Notation outcome := (result failure).

(** The columns a table's own constraints and indexes name. *)
Definition used (t : Table) : list string :=
  t_pk t ++ flat_map fk_columns (t_fks t) ++ flat_map u_columns (t_uniques t) ++ map ck_column (t_checks t) ++
  flat_map ix_columns (t_indexes t).

(** The columns of [name] that some table refers to. *)
Definition referred (name : string) (s : schema) : list string :=
  flat_map (fun kv => flat_map fk_refers (filter (fun fk => fk_table fk = name) (t_fks kv.2))) (map_to_list s).

(** The table after an alteration, and each of its rows. *)
Definition altered (a : alteration) (t : Table) : Table :=
  match a with
  | AddColumn c => set_t_columns (t_columns t ++ [c]) t
  | DropColumn c => set_t_columns (filter (fun x => c_name x <> c) (t_columns t)) t
  | DropCheck c => set_t_checks (filter (fun x => ck_name x <> c) (t_checks t)) t
  | DropUnique c => set_t_uniques (filter (fun x => u_name x <> Some c) (t_uniques t)) t
  | CreateCheck ck => set_t_checks (t_checks t ++ [ck]) t
  | CreateUnique u => set_t_uniques (t_uniques t ++ [u]) t
  end.

Definition altered_row (a : alteration) (r : row) : row :=
  match a with
  | AddColumn c => <[c_name c := default VNull (c_server_default c)]> r
  | DropColumn c => delete c r
  | _ => r
  end.

Definition update_row (c : string) (v : value) (w : condition) (r : row) : row := if holds w r then <[c := v]> r else r.

(** The table a statement is about. *)
Definition target (s : statement) : string :=
  match s with
  | CreateTable n _ | DropTable n | CreateIndex n _ | DropIndex n _ | Alter n _ | Delete n _ | Update n _ _ _ | CopyFrom n _ => n
  end.

(** What it does to the declarations. *)
Definition schema_effect (s : statement) (d : schema) : schema :=
  match s with
  | CreateTable n t => <[n := t]> d
  | DropTable n => delete n d
  | CreateIndex n ix => alter (fun t => set_t_indexes (t_indexes t ++ [ix]) t) n d
  | DropIndex n ix => alter (fun t => set_t_indexes (filter (fun x => ix_name x <> ix) (t_indexes t)) t) n d
  | Alter n a => alter (altered a) n d
  | CopyFrom n t => alter (fun _ => t) n d
  | Delete _ _ | Update _ _ _ _ => d
  end.

(** What it does to the table's rows. *)
Definition rows_effect (s : statement) (l : list row) : list row :=
  match s with
  | CreateTable _ _ | DropTable _ => []
  | Alter _ a => map (altered_row a) l
  | Delete _ w => filter (fun r => holds w r = false) l
  | Update _ c v w => map (update_row c v w) l
  | CreateIndex _ _ | DropIndex _ _ | CopyFrom _ _ => l
  end.

Definition effect (s : statement) (d : database) : database :=
  mkDatabase (schema_effect s (d_schema d)) (<[target s := rows_effect s (rows (target s) d)]> (d_rows d)).

(** Why a statement is refused whatever the rows are. *)
Definition complaint (s : statement) (d : schema) : option failure :=
  match s, d !! target s with
  | CreateTable n _, Some _ => Some (TableExists n)
  | CreateTable _ _, None => None
  | _, None => Some (NoSuchTable (target s))
  | Alter _ (AddColumn c), Some t => if bool_decide (c_name c ∈ column_names t) then Some (ColumnExists (c_name c)) else None
  | Alter n (DropColumn c), Some t =>
      if bool_decide (c ∉ column_names t) then Some (NoSuchColumn c)
      else if bool_decide (c ∈ used t ++ referred n d) then Some (ColumnInUse c) else None
  | Alter _ (DropCheck c), Some t => if bool_decide (c ∈ map ck_name (t_checks t)) then None else Some (NoSuchConstraint c)
  | Alter _ (DropUnique c), Some t => if bool_decide (Some c ∈ map u_name (t_uniques t)) then None else Some (NoSuchConstraint c)
  | DropIndex _ ix, Some t => if bool_decide (ix ∈ map ix_name (t_indexes t)) then None else Some (NoSuchConstraint ix)
  | Update _ c _ _, Some t => if bool_decide (c ∈ column_names t) then None else Some (NoSuchColumn c)
  | _, Some _ => None
  end.

Definition execute (s : statement) (d : database) : outcome database :=
  match complaint s (d_schema d) with
  | Some f => Err f
  | None => if bool_decide (valid (effect s d)) then Ok (effect s d) else Err ConstraintViolated
  end.

Definition run_script (l : list statement) (d : database) : outcome database := fold_res execute l d.

End Relational.
