(* ===== verification/Schema.v ===== *)
(** * The schema the application queries through (funduq/schema.py,
    funduq/db_schema.py, funduq/config.py)

    Every [Table] of schema.py's [metadata] as it is declared.  [default=] of
    a column is the client's, not the database's: [Repo] writes it. *)

From S2P Require Import Prelude Json Models Relational.

Module Schema.
Import Relational.

Definition DEFAULT_DB_SCHEMA : string := "public".
Definition DEFAULT_DATABASE_URL : string := "sqlite+aiosqlite:///./funduq.db".

(** The double quote, as the identifier's delimiter. *)
Definition dquote : string := String (Ascii.ascii_of_nat 34) EmptyString.
Definition quoted_schema (db_schema : string) : string := dquote +:+ db_schema +:+ dquote.

(** [Column(name, type, nullable=...)]: a primary key column is not nullable. *)
Definition required (name : string) (ty : column_type) : Column := mkColumn name ty false None.
Definition optional (name : string) (ty : column_type) : Column := mkColumn name ty true None.

(** [ForeignKey("table.column")] on a column. *)
Definition references (column table refers : string) : ForeignKey := mkForeignKey None [column] table [refers].

Definition providers : Table :=
  mkTable
    [required "public_key" String_; required "fingerprint" String_; optional "display_name" String_;
     required "updated_at" DateTime_]
    ["public_key"] [] [mkUnique None ["fingerprint"]] [] [].

Definition agents : Table :=
  mkTable
    [required "provider_key" String_; required "name" String_; required "agent_card" JSON_; required "metadata" JSON_;
     required "joined_at" DateTime_; required "last_seen_at" DateTime_]
    ["provider_key"; "name"] [references "provider_key" "providers" "public_key"] [] [] [].

Definition llm_providers : Table :=
  mkTable
    [required "provider_key" String_; required "name" String_; required "metadata" JSON_;
     required "joined_at" DateTime_; required "last_seen_at" DateTime_]
    ["provider_key"; "name"] [references "provider_key" "providers" "public_key"] [] [] [].

(** [ForeignKeyConstraint([...], ["agents.provider_key", "agents.name"], name)]. *)
Definition to_agent (name : string) : ForeignKey :=
  mkForeignKey (Some name) ["provider_key"; "agent_name"] "agents" ["provider_key"; "name"].

Definition threads : Table :=
  mkTable
    [required "thread_id" String_; required "provider_key" String_; required "agent_name" String_;
     optional "parent_thread_id" String_; optional "head_key" String_; required "metadata" JSON_;
     required "created_at" DateTime_; required "last_activity_at" DateTime_]
    ["thread_id"] [references "parent_thread_id" "threads" "thread_id"; to_agent "fk_threads_agent"] [] []
    [mkIndex "idx_threads_parent" ["parent_thread_id"] false].

(** [RUN_STATUSES] as the words stored. *)
Definition status_word (s : run_status) : string :=
  match s with
  | queued => "queued"
  | offering => "offering"
  | running => "running"
  | cancelling => "cancelling"
  | completed => "completed"
  | failed => "failed"
  | cancelled => "cancelled"
  end.

Definition RUN_STATUS_CHECK : CheckConstraint := mkCheck "ck_runs_status" "status" (map status_word RUN_STATUSES).

Definition runs : Table :=
  mkTable
    [required "run_id" String_; required "thread_id" String_; required "provider_key" String_; required "agent_name" String_;
     required "status" String_; optional "actor_chain" JSON_;
     optional "started_at" DateTime_; optional "completed_at" DateTime_; optional "last_activity_at" DateTime_;
     required "created_at" DateTime_;
     optional "parent_run_id" String_; optional "state" JSON_; required "tools" JSON_; required "context" JSON_;
     optional "forwarded_props" JSON_; optional "resume" JSON_;
     mkColumn "cancel_requested" Boolean_ false (Some (VBool false)); optional "cancel_requested_by" String_]
    ["run_id"] [references "thread_id" "threads" "thread_id"; to_agent "fk_runs_agent"] [] [RUN_STATUS_CHECK]
    [mkIndex "idx_runs_thread" ["thread_id"; "created_at"] false;
     mkIndex "idx_runs_agent_status" ["provider_key"; "agent_name"; "status"] false].

Definition thread_messages : Table :=
  mkTable
    [required "id" BigSerial_; required "thread_id" String_; required "run_id" String_; required "message_id" String_;
     required "message_json" JSON_; required "metadata" JSON_; required "created_at" DateTime_]
    ["id"] [references "thread_id" "threads" "thread_id"; references "run_id" "runs" "run_id"]
    [mkUnique (Some "uq_thread_messages_run_message") ["run_id"; "message_id"]] []
    [mkIndex "idx_thread_messages_thread" ["thread_id"; "id"] false].

Definition run_events : Table :=
  mkTable
    [required "id" BigSerial_; required "run_id" String_; required "seq" Integer_; required "event_json" JSON_;
     required "created_at" DateTime_]
    ["id"] [references "run_id" "runs" "run_id"] [] [] [mkIndex "idx_run_events_run" ["run_id"; "seq"] false].

Definition metadata : schema :=
  {["providers" := providers; "agents" := agents; "llm_providers" := llm_providers; "threads" := threads;
    "runs" := runs; "thread_messages" := thread_messages; "run_events" := run_events]}.

(** ** Settings (config.py) *)

(** Durations in microseconds. *)
Definition UNSERVED_TIMEOUT_SECONDS : Z := 45000000.
Definition DELIVER_TIMEOUT_SECONDS : Z := 5000000.

Record CoreSettings : Type := mkCoreSettings {
  database_url : string;
  db_schema : string;
  stale_hidden_window_seconds : Z;
  thread_queue_limit : option nat;
  provider_quality_tolerance : option nat;
  unserved_timeout_seconds : Z;
  deliver_timeout_seconds : Z;
  token_signing_secret : string;
  identity_private_key : string;
}.

(** What is not told, by default; the last two must be told. *)
Definition default_settings (token_signing_secret identity_private_key : string) : CoreSettings :=
  mkCoreSettings DEFAULT_DATABASE_URL DEFAULT_DB_SCHEMA (60 * 60 * 24 * 7 * 1000000) (Some 8) (Some 3)
    UNSERVED_TIMEOUT_SECONDS DELIVER_TIMEOUT_SECONDS token_signing_secret identity_private_key.

End Schema.
