(* ===== verification/RelationalFacts.v ===== *)
(** * When a statement is not refused

    A statement keeps a valid database valid when what it touches is used by
    no key and no reference ([safe], which looks at declarations only) and
    the rows meet what it newly asks of them ([demands]); then a script runs
    to its end, whatever the rows are. *)

From S2P Require Import Prelude Json Relational.

Module RelationalFacts.
Import Relational.

(** ** Keys and rows *)

(** The row is the same but for one column, if any. *)
Definition same_but (x : option string) (r r' : row) : Prop := forall c, x <> Some c -> r' !! c = r !! c.

Lemma key_on_same x cols r r' : same_but x r r' -> (forall c, x = Some c -> c ∉ cols) -> key_on cols r' = key_on cols r.
Proof.
  intros Hs Hx. unfold key_on. induction cols as [|c cols IH]; [done|]. cbn [mapM].
  rewrite IH by (intros c' Hc'; specialize (Hx c' Hc'); by apply not_elem_of_cons in Hx as [_ ?]).
  assert (cell r' c = cell r c) as ->; [|done]. unfold cell. rewrite Hs; [done|]. intros Hc. apply (Hx c Hc). by left.
Qed.

Lemma omap_map_same {A B} (g : A -> option B) (f : A -> A) l : (forall a, g (f a) = g a) -> omap g (map f l) = omap g l.
Proof. intros Hg. induction l as [|a l IH]; [done|]. cbn. rewrite Hg. by destruct (g a); rewrite IH. Qed.

(** What a table's keys and references are made of. *)
Definition untouched (x : option string) (n : string) (t : Table) (s : schema) : Prop :=
  forall c, x = Some c -> c ∉ concat (keys_of t) ++ flat_map fk_columns (t_fks t) ++ referred n s.

#[global] Instance untouched_dec x n t s : Decision (untouched x n t s).
Proof.
  destruct x as [c|]; [|left; intros c [=]].
  destruct (decide (c ∉ concat (keys_of t) ++ flat_map fk_columns (t_fks t) ++ referred n s)) as [H|H].
  - left. by intros c' [= <-].
  - right. intros Hu. by apply H, Hu.
Defined.

Lemma elem_of_flat_map {A B} (f : A -> list B) (l : list A) (b : B) : b ∈ flat_map f l <-> exists a, a ∈ l /\ b ∈ f a.
Proof.
  rewrite list_elem_of_In, in_flat_map. split; intros (a&H1&H2); exists a; by rewrite ?list_elem_of_In in *.
Qed.

Lemma elem_of_referred n s m u fk c : s !! m = Some u -> fk ∈ t_fks u -> fk_table fk = n -> c ∈ fk_refers fk -> c ∈ referred n s.
Proof.
  intros Hm Hf Hn Hc. apply elem_of_flat_map. exists (m, u). split; [by apply elem_of_map_to_list|].
  apply elem_of_flat_map. exists fk. split; [by apply list_elem_of_filter|done].
Qed.

(** ** The effect of a statement *)

Lemma rows_after s d m : rows m (effect s d) = if decide (m = target s) then rows_effect s (rows (target s) d) else rows m d.
Proof.
  unfold rows at 1, effect. cbn [d_rows]. case_decide as Hm; [subst; by rewrite lookup_insert_eq|].
  by rewrite lookup_insert_ne by congruence.
Qed.

Lemma schema_other s d m : m <> target s -> schema_effect s d !! m = d !! m.
Proof.
  intros Hm. destruct s; cbn in *; rewrite ?lookup_insert_ne, ?lookup_delete_ne, ?lookup_alter_ne by congruence; done.
Qed.

(** The rows a key of the statement's table refers to, afterwards. *)
Definition new_rows (s : statement) (d : database) : list row := rows_effect s (rows (target s) d).

Lemma valid_effect s d : valid d ->
  (forall t', schema_effect s (d_schema d) !! target s = Some t' ->
     Forall (row_ok t') (new_rows s d) /\ Forall (fun cols => unique_on cols (new_rows s d)) (keys_of t') /\
     Forall (fun fk => refers_to fk (new_rows s d) (rows (fk_table fk) (effect s d))) (t_fks t')) ->
  (forall m u fk, m <> target s -> d_schema d !! m = Some u -> fk ∈ t_fks u -> fk_table fk = target s ->
     refers_to fk (rows m d) (new_rows s d)) ->
  valid (effect s d).
Proof.
  intros Hv Hown Hothers m u Hm. unfold table_valid. rewrite (rows_after s d m). case_decide as Heq.
  - subst m. by apply Hown.
  - cbn [d_schema effect] in Hm. rewrite schema_other in Hm by done. destruct (Hv m u Hm) as (H1&H2&H3). split_and!; [done..|].
    apply Forall_forall. intros fk Hfk. pose proof (proj1 (Forall_forall _ _) H3 fk Hfk) as Hr. rewrite rows_after. case_decide as Ht; [|done].
    by eapply Hothers.
Qed.

Lemma refers_map fk x (f : row -> row) l l' :
  (forall r, same_but x r (f r)) -> (forall c, x = Some c -> c ∉ fk_columns fk) ->
  refers_to fk l l' -> refers_to fk (map f l) l'.
Proof.
  intros Hf Hx. unfold refers_to. rewrite !Forall_forall. intros Hr r' (r&->&Hin)%list_elem_of_fmap.
  rewrite (key_on_same x _ r) by done. by apply Hr.
Qed.

Lemma refers_to_map fk x (f : row -> row) l l' :
  (forall r, same_but x r (f r)) -> (forall c, x = Some c -> c ∉ fk_refers fk) ->
  refers_to fk l l' -> refers_to fk l (map f l').
Proof.
  intros Hf Hx. unfold refers_to. by rewrite (omap_map_same (key_on (fk_refers fk)) f) by (intros r; by apply (key_on_same x)).
Qed.

(** One column changes in every row, or none; keys and references are not
    about it. *)
Lemma valid_map s d t t' x f : valid d ->
  d_schema d !! target s = Some t -> schema_effect s (d_schema d) !! target s = Some t' ->
  new_rows s d = map f (rows (target s) d) -> (forall r, same_but x r (f r)) ->
  untouched x (target s) t' (schema_effect s (d_schema d)) ->
  (forall r, r ∈ rows (target s) d -> row_ok t r -> row_ok t' (f r)) ->
  (forall cols, cols ∈ keys_of t' -> cols ∈ keys_of t \/ unique_on cols (rows (target s) d)) ->
  (forall fk, fk ∈ t_fks t' -> fk ∈ t_fks t) ->
  valid (effect s d).
Proof.
  intros Hv Ht Ht' Hrows Hf Hx Hok Hkeys Hfks. destruct (Hv _ _ Ht) as (H1&H2&H3). rewrite Forall_forall in H1; rewrite Forall_forall in H2; rewrite Forall_forall in H3.
  apply valid_effect; [done| |].
  - intros t0 Ht0. rewrite Ht' in Ht0. injection Ht0 as <-. rewrite Hrows. split_and!; apply Forall_forall.
    + intros r' (r&->&Hin)%list_elem_of_fmap. by apply Hok; [|apply H1].
    + intros cols Hc. unfold unique_on. rewrite (omap_map_same (key_on cols) f).
      * destruct (Hkeys cols Hc) as [Hk|Hu]; [by apply H2|exact Hu].
      * intros r. apply (key_on_same x); [done|]. intros c Hxc Hin. apply (Hx c Hxc). apply elem_of_app. left.
        apply list_elem_of_In, in_concat. exists cols. by split; apply list_elem_of_In.
    + intros fk Hfk. apply (refers_map fk x); [done| |].
      * intros c Hxc Hin. apply (Hx c Hxc). rewrite !elem_of_app. right. left. apply elem_of_flat_map. by exists fk.
      * rewrite rows_after. pose proof (H3 fk (Hfks fk Hfk)) as Hr. case_decide as Heq; [|done].
        change (rows_effect s (rows (target s) d)) with (new_rows s d). rewrite Hrows. apply (refers_to_map fk x); [done| |by rewrite Heq in Hr].
        intros c Hxc Hin. apply (Hx c Hxc). rewrite !elem_of_app. right. right. by eapply elem_of_referred.
  - intros m u fk Hm Hu Hfk Heq. rewrite Hrows. apply (refers_to_map fk x); [done| |].
    + intros c Hxc Hin. apply (Hx c Hxc). rewrite !elem_of_app. right. right.
      eapply (elem_of_referred _ _ m u fk); [|done..]. by rewrite schema_other.
    + destruct (Hv m u Hu) as (_&_&Hr). rewrite Forall_forall in Hr. specialize (Hr fk Hfk). by rewrite Heq in Hr.
Qed.

(** ** What the declarations must say *)

(** The tables that refer to one. *)
Definition referrers (n : string) (s : schema) : list string :=
  map fst (filter (fun kv => existsb (fun fk => String.eqb (fk_table fk) n) (t_fks kv.2) = true) (map_to_list s)).

Lemma elem_of_referrers n s m u fk : s !! m = Some u -> fk ∈ t_fks u -> fk_table fk = n -> m ∈ referrers n s.
Proof.
  intros Hm Hf Hn. apply list_elem_of_fmap. exists (m, u). split; [done|]. apply list_elem_of_filter. split; [|by apply elem_of_map_to_list].
  apply existsb_exists. exists fk. split; [by apply list_elem_of_In|]. by apply String.eqb_eq.
Qed.

(** Whatever the rows, the statement's changes meet the table's own declarations. *)
Definition safe_for (s : statement) (t t' : Table) (d : schema) : bool :=
  match s with
  | CreateIndex _ ix => negb (ix_unique ix)
  | Alter n (AddColumn c) =>
      bool_decide (untouched (Some (c_name c)) n t' (schema_effect s d)) && forallb (fun ck => negb (String.eqb (ck_column ck) (c_name c))) (t_checks t)
  | Alter n (DropColumn c) =>
      bool_decide (untouched (Some c) n t' (schema_effect s d)) && forallb (fun ck => negb (String.eqb (ck_column ck) c)) (t_checks t)
  | Update n c v _ =>
      bool_decide (untouched (Some c) n t d) && forallb (fun ck => passes ck {[c := v]}) (t_checks t) &&
      forallb (fun k => negb (String.eqb (c_name k) c) || fits k v) (t_columns t)
  | CopyFrom _ _ => forallb (fun cols => bool_decide (cols ∈ keys_of t)) (keys_of t') && forallb (fun fk => bool_decide (fk ∈ t_fks t)) (t_fks t')
  | _ => true
  end.

Definition safe (s : statement) (d : schema) : bool :=
  bool_decide (complaint s d = None) &&
  match s with
  | CreateTable n _ | DropTable n => forallb (fun m => String.eqb m n) (referrers n d)
  | _ => match d !! target s, schema_effect s d !! target s with Some t, Some t' => safe_for s t t' d | _, _ => false end
  end.

(** ** What the rows must say *)

Definition demands (s : statement) (d : database) : Prop :=
  match s with
  | Alter n (AddColumn c) => fits c (default VNull (c_server_default c)) = true \/ rows n d = []
  | Alter n (CreateCheck ck) => Forall (fun r => passes ck r = true) (rows n d)
  | Alter n (CreateUnique u) => unique_on (u_columns u) (rows n d)
  | Delete n _ => Forall (fun m => rows m d = []) (referrers n (d_schema d))
  | CopyFrom n t => Forall (row_ok t) (rows n d)
  | _ => True
  end.

(** ** Rows and declarations *)

Lemma row_ok_add c v t r : c_name c ∉ column_names t -> fits c v = true ->
  (forall ck, ck ∈ t_checks t -> ck_column ck <> c_name c) -> row_ok t r ->
  row_ok (set_t_columns (t_columns t ++ [c]) t) (<[c_name c := v]> r).
Proof.
  intros Hn Hf Hc (H1&H2&H3). split_and!; cbn [t_columns t_checks set_t_columns].
  - apply Forall_app. split; [|apply Forall_singleton; by rewrite lookup_insert_eq].
    apply Forall_forall. intros k Hk. rewrite lookup_insert_ne.
    + by apply (proj1 (Forall_forall _ _) H1 k Hk).
    + intros He. apply Hn. rewrite He. apply list_elem_of_fmap. by exists k.
  - rewrite dom_insert. unfold column_names. cbn. rewrite map_app, list_to_set_app. cbn. unfold column_names in H2. set_solver.
  - apply Forall_forall. intros ck Hck. unfold passes. rewrite lookup_insert_ne by (intros He; by apply (Hc ck Hck)).
    exact (proj1 (Forall_forall _ _) H3 ck Hck).
Qed.

Lemma row_ok_drop c t r : (forall ck, ck ∈ t_checks t -> ck_column ck <> c) -> row_ok t r ->
  row_ok (set_t_columns (filter (fun x => c_name x <> c) (t_columns t)) t) (delete c r).
Proof.
  intros Hc (H1&H2&H3). split_and!; cbn [t_columns t_checks set_t_columns].
  - apply Forall_forall. intros k [Hne Hk]%list_elem_of_filter. rewrite lookup_delete_ne by done. by apply (proj1 (Forall_forall _ _) H1 k Hk).
  - rewrite dom_delete. intros x [Hx Hne]%elem_of_difference. apply H2 in Hx. apply elem_of_list_to_set. apply elem_of_list_to_set in Hx.
    apply list_elem_of_fmap in Hx as (k&->&Hk). apply list_elem_of_fmap. exists k. split; [done|]. apply list_elem_of_filter. set_solver.
  - apply Forall_forall. intros ck Hck. unfold passes. rewrite lookup_delete_ne by (intros He; by apply (Hc ck Hck)).
    exact (proj1 (Forall_forall _ _) H3 ck Hck).
Qed.

Lemma row_ok_update c v t r : c ∈ column_names t -> (forall k, k ∈ t_columns t -> c_name k = c -> fits k v = true) ->
  (forall ck, ck ∈ t_checks t -> passes ck {[c := v]} = true) -> row_ok t r -> row_ok t (<[c := v]> r).
Proof.
  intros Hin Hf Hc (H1&H2&H3). split_and!.
  - apply Forall_forall. intros k Hk. destruct (decide (c = c_name k)) as [->|Hne].
    + rewrite lookup_insert_eq. by apply Hf.
    + rewrite lookup_insert_ne by done. by apply (proj1 (Forall_forall _ _) H1 k Hk).
  - rewrite dom_insert. apply union_least; [|done]. apply singleton_subseteq_l. by apply elem_of_list_to_set.
  - apply Forall_forall. intros ck Hck. pose proof (Hc ck Hck) as Hp. unfold passes in *. destruct (decide (c = ck_column ck)) as [->|Hne].
    + rewrite lookup_insert_eq. by rewrite lookup_singleton_eq in Hp.
    + rewrite lookup_insert_ne by done. exact (proj1 (Forall_forall _ _) H3 ck Hck).
Qed.

Lemma row_ok_checks t r cks : (forall ck, ck ∈ cks -> ck ∈ t_checks t \/ passes ck r = true) -> row_ok t r -> row_ok (set_t_checks cks t) r.
Proof.
  intros Hc (H1&H2&H3). split_and!; [done..|]. apply Forall_forall. intros ck Hck. destruct (Hc ck Hck) as [Hin|]; [|done].
  exact (proj1 (Forall_forall _ _) H3 ck Hin).
Qed.

Lemma same_but_refl x r : same_but x r r.
Proof. done. Qed.

Lemma same_but_insert c v r : same_but (Some c) r (<[c := v]> r).
Proof. intros c' Hc. rewrite lookup_insert_ne; [done|]. congruence. Qed.

Lemma same_but_delete c r : same_but (Some c) r (delete c r).
Proof. intros c' Hc. rewrite lookup_delete_ne; [done|]. congruence. Qed.

Lemma same_but_update c v w r : same_but (Some c) r (update_row c v w r).
Proof. unfold update_row. destruct (holds w r); [apply same_but_insert|done]. Qed.

Lemma untouched_none n t s : untouched None n t s.
Proof. intros c [=]. Qed.

(** ** Statements that succeed *)

Section succeeds.
Variable d : database.
Hypothesis Hv : valid d.

(** A statement that leaves every row as it is, or one column of each. *)
Lemma valid_kept s t t' : d_schema d !! target s = Some t -> schema_effect s (d_schema d) !! target s = Some t' ->
  new_rows s d = rows (target s) d ->
  (forall r, r ∈ rows (target s) d -> row_ok t r -> row_ok t' r) ->
  (forall cols, cols ∈ keys_of t' -> cols ∈ keys_of t \/ unique_on cols (rows (target s) d)) ->
  (forall fk, fk ∈ t_fks t' -> fk ∈ t_fks t) -> valid (effect s d).
Proof.
  intros Ht Ht' Hr Hok Hk Hf. apply (valid_map s d t t' None (fun r => r)); try done. by rewrite map_id.
Qed.

Lemma unreferred_gone n m u fk : forallb (fun m => String.eqb m n) (referrers n (d_schema d)) = true ->
  m <> n -> d_schema d !! m = Some u -> fk ∈ t_fks u -> fk_table fk = n -> False.
Proof.
  intros Hr Hm Hu Hf Hn. rewrite forallb_forall in Hr. apply Hm, String.eqb_eq, Hr, list_elem_of_In. by eapply elem_of_referrers.
Qed.

Lemma valid_create n t : forallb (fun m => String.eqb m n) (referrers n (d_schema d)) = true -> valid (effect (CreateTable n t) d).
Proof.
  intros Hr. apply valid_effect; [done|cbn|intros m u fk Hm Hu Hf Hn; by destruct (unreferred_gone n m u fk)].
  intros t' _. split; [by apply Forall_nil|]. split; [by apply Forall_forall; intros cols _; apply NoDup_nil|].
  apply Forall_forall. intros fk _. by apply Forall_nil.
Qed.

Lemma valid_drop_table n : forallb (fun m => String.eqb m n) (referrers n (d_schema d)) = true -> valid (effect (DropTable n) d).
Proof.
  intros Hr. apply valid_effect; [done|cbn|intros m u fk Hm Hu Hf Hn; by destruct (unreferred_gone n m u fk)].
  intros t'. by rewrite lookup_delete_eq.
Qed.

Lemma valid_delete n w t : d_schema d !! n = Some t -> demands (Delete n w) d -> valid (effect (Delete n w) d).
Proof.
  intros Ht Hd. cbn in Hd. rewrite Forall_forall in Hd. destruct (Hv _ _ Ht) as (H1&H2&H3).
  assert (Hgone : forall m u fk, d_schema d !! m = Some u -> fk ∈ t_fks u -> fk_table fk = n -> rows m d = [])
    by (intros m u fk Hu Hf Hn; eapply Hd, elem_of_referrers; eauto).
  apply valid_effect; [done| |].
  - cbn. intros t' Ht'. rewrite Ht in Ht'. injection Ht' as <-. unfold new_rows. cbn. split_and!.
    + apply Forall_forall. intros r [_ Hr]%list_elem_of_filter. exact (proj1 (Forall_forall _ _) H1 r Hr).
    + apply Forall_forall. intros cols Hc. pose proof (proj1 (Forall_forall _ _) H2 cols Hc) as Hu. unfold unique_on in *.
      assert (Hs : sublist (omap (key_on cols) (filter (fun r => holds w r = false) (rows n d))) (omap (key_on cols) (rows n d))).
      { generalize (rows n d). intros l. induction l as [|r l IH]; [done|]. rewrite filter_cons. cbn. case_decide; cbn.
        - destruct (key_on cols r); [by apply sublist_skip|done].
        - destruct (key_on cols r); [by apply sublist_cons|done]. }
      by eapply sublist_NoDup.
    + apply Forall_forall. intros fk Hf. apply Forall_forall. intros r [_ Hr]%list_elem_of_filter.
      pose proof (proj1 (Forall_forall _ _) (proj1 (Forall_forall _ _) H3 fk Hf) r Hr) as Hk. cbn in Hk.
      rewrite rows_after. cbn [target]. case_decide as Hn; [|done]. rewrite (Hgone n t fk Ht Hf Hn) in Hr. by apply not_elem_of_nil in Hr.
  - cbn. intros m u fk Hm Hu Hf Hn. rewrite (Hgone m u fk Hu Hf Hn). by apply Forall_nil.
Qed.

Lemma valid_update n c v w t : d_schema d !! n = Some t -> c ∈ column_names t ->
  safe_for (Update n c v w) t t (d_schema d) = true -> valid (effect (Update n c v w) d).
Proof.
  intros Ht Hc Hs. cbn in Hs. apply andb_prop in Hs as [Hs Hf]. apply andb_prop in Hs as [Hu%bool_decide_eq_true Hp].
  rewrite forallb_forall in Hf, Hp. apply (valid_map _ _ t t (Some c) (update_row c v w)); try done.
  - intros r. apply same_but_update.
  - intros r _ Hr. unfold update_row. destruct (holds w r); [|done]. apply row_ok_update; try done.
    + intros k Hk He. specialize (Hf k ltac:(by apply list_elem_of_In)). by rewrite He, String.eqb_refl in Hf.
    + intros ck Hck. by apply Hp, list_elem_of_In.
  - by left.
Qed.

(** What [safe] has computed, read back. *)
Lemma safe_for_spec s t t' : safe_for s t t' (d_schema d) = true ->
  match s with
  | CreateIndex _ ix => ix_unique ix = false
  | Alter n (AddColumn c) => untouched (Some (c_name c)) n t' (schema_effect s (d_schema d)) /\ (forall ck, ck ∈ t_checks t -> ck_column ck <> c_name c)
  | Alter n (DropColumn c) => untouched (Some c) n t' (schema_effect s (d_schema d)) /\ (forall ck, ck ∈ t_checks t -> ck_column ck <> c)
  | CopyFrom _ _ => (forall cols, cols ∈ keys_of t' -> cols ∈ keys_of t) /\ (forall fk, fk ∈ t_fks t' -> fk ∈ t_fks t)
  | _ => True
  end.
Proof.
  destruct s as [| |n ix| |n [c|c| | | |]| | |n t0]; cbn [safe_for]; try done.
  - by intros ?%negb_true_iff.
  - intros [Hu%bool_decide_eq_true Hc]%andb_prop. split; [done|]. rewrite forallb_forall in Hc.
    intros ck Hin He. specialize (Hc ck ltac:(by apply list_elem_of_In)). by rewrite He, String.eqb_refl in Hc.
  - intros [Hu%bool_decide_eq_true Hc]%andb_prop. split; [done|]. rewrite forallb_forall in Hc.
    intros ck Hin He. specialize (Hc ck ltac:(by apply list_elem_of_In)). by rewrite He, String.eqb_refl in Hc.
  - intros [Hk Hf]%andb_prop. rewrite forallb_forall in Hk, Hf.
    split; [intros cols Hc; apply (bool_decide_eq_true_1 _), Hk|intros fk Hc; apply (bool_decide_eq_true_1 _), Hf]; by apply list_elem_of_In.
Qed.

Lemma valid_alter n a t : d_schema d !! n = Some t -> complaint (Alter n a) (d_schema d) = None ->
  safe_for (Alter n a) t (altered a t) (d_schema d) = true -> demands (Alter n a) d -> valid (effect (Alter n a) d).
Proof.
  intros Ht Hc Hs Hd. pose proof (safe_for_spec _ _ _ Hs) as Hsp.
  assert (Ht' : schema_effect (Alter n a) (d_schema d) !! n = Some (altered a t)) by (cbn; by rewrite lookup_alter_eq, Ht).
  cbn in Hc. rewrite Ht in Hc. destruct a as [c|c|c|c|ck|u]; cbn in Hsp, Hd.
  - destruct Hsp as [Hu Hck]. case_bool_decide as Hn; [done|]. destruct Hd as [Hf|He].
    + apply (valid_map (Alter n (AddColumn c)) d t _ (Some (c_name c)) (altered_row (AddColumn c)) Hv Ht Ht'); try done; [intros r; apply same_but_insert| |by left].
      intros r _. by apply row_ok_add.
    + apply (valid_map (Alter n (AddColumn c)) d t _ (Some (c_name c)) (altered_row (AddColumn c)) Hv Ht Ht'); try done; [intros r; apply same_but_insert| |by left].
      intros r Hr. cbn [target] in Hr. rewrite He in Hr. by apply not_elem_of_nil in Hr.
  - destruct Hsp as [Hu Hck].
    apply (valid_map (Alter n (DropColumn c)) d t _ (Some c) (altered_row (DropColumn c)) Hv Ht Ht'); try done; [intros r; apply same_but_delete| |by left].
    intros r _. by apply row_ok_drop.
  - apply (valid_kept (Alter n _) t _ Ht Ht'); [apply map_id| |by left|done].
    intros r _. apply row_ok_checks. intros ck [_ Hck]%list_elem_of_filter. by left.
  - apply (valid_kept (Alter n _) t _ Ht Ht'); [apply map_id|done| |done].
    intros cols Hcols. left. unfold keys_of in *. cbn in Hcols. rewrite elem_of_cons, elem_of_app in *. destruct Hcols as [?|[Hin|?]]; [by left| |auto].
    right. left. apply list_elem_of_fmap in Hin as (u&->&[_ Hu]%list_elem_of_filter). apply list_elem_of_fmap. by exists u.
  - apply (valid_kept (Alter n _) t _ Ht Ht'); [apply map_id| |by left|done].
    intros r Hr. apply row_ok_checks. intros ck' [Hck|Hck]%elem_of_app; [by left|right]. apply list_elem_of_singleton in Hck as ->.
    exact (proj1 (Forall_forall _ _) Hd r Hr).
  - apply (valid_kept (Alter n _) t _ Ht Ht'); [apply map_id|done| |done].
    intros cols Hcols. unfold keys_of in *. cbn in Hcols. rewrite map_app, elem_of_cons, !elem_of_app in Hcols. cbn in Hcols.
    rewrite list_elem_of_singleton in Hcols. destruct Hcols as [->|[[Hin| ->]|Hin]]; [left; by left| |by right|]; left; right; apply elem_of_app; auto.
Qed.

Lemma valid_index_dropped n ix t : d_schema d !! n = Some t -> valid (effect (DropIndex n ix) d).
Proof.
  intros Ht. eapply (valid_kept (DropIndex n ix)); [exact Ht|cbn; by rewrite lookup_alter_eq, Ht|done|done| |done].
  intros cols Hcols. left. unfold keys_of in *. cbn in Hcols. rewrite elem_of_cons, elem_of_app in *. destruct Hcols as [?|[?|Hin]]; [auto..|].
  right. right. apply list_elem_of_fmap in Hin as (i&->&[Hu [_ Hi]%list_elem_of_filter]%list_elem_of_filter).
  apply list_elem_of_fmap. exists i. split; [done|]. by apply list_elem_of_filter.
Qed.

Lemma valid_index_created n ix t : d_schema d !! n = Some t -> ix_unique ix = false -> valid (effect (CreateIndex n ix) d).
Proof.
  intros Ht Hix. eapply (valid_kept (CreateIndex n ix)); [exact Ht|cbn; by rewrite lookup_alter_eq, Ht|done|done| |done].
  intros cols Hcols. left. unfold keys_of in *. cbn in Hcols. by rewrite filter_app, filter_cons_False, filter_nil, app_nil_r in Hcols by congruence.
Qed.

(** Safe, with its demands met, a statement succeeds. *)
Lemma safe_executes s : safe s (d_schema d) = true -> demands s d -> execute s d = Ok (effect s d) /\ valid (effect s d).
Proof.
  intros [Hc%bool_decide_eq_true Hs]%andb_prop Hd. enough (valid (effect s d)) as Hok by (unfold execute; by rewrite Hc, bool_decide_eq_true_2).
  destruct s as [n t0|n|n ix|n ix|n a|n w|n c v w|n t0]; [by apply valid_create|by apply valid_drop_table|..];
    cbn [target] in Hs; destruct (d_schema d !! n) as [t|] eqn:Ht; try done.
  - cbn in Hs. rewrite lookup_alter_eq, Ht in Hs. cbn in Hs. apply negb_true_iff in Hs. by eapply valid_index_created.
  - by eapply valid_index_dropped.
  - cbn [schema_effect] in Hs. rewrite lookup_alter_eq, Ht in Hs. by eapply valid_alter.
  - by eapply valid_delete.
  - cbn [schema_effect] in Hs. rewrite Ht in Hs. cbn in Hc. rewrite Ht in Hc. case_bool_decide; [|done]. by eapply valid_update.
  - cbn [schema_effect] in Hs. rewrite lookup_alter_eq, Ht in Hs. cbn [fmap option_fmap option_map] in Hs.
    apply safe_for_spec in Hs as [Hk Hf]. cbn in Hd.
    eapply (valid_kept (CopyFrom n t0) t); [exact Ht|cbn; by rewrite lookup_alter_eq, Ht|done| |by left; apply Hk|exact Hf].
    intros r Hr _. exact (proj1 (Forall_forall _ _) Hd r Hr).
Qed.
End succeeds.

(** ** Scripts *)

Definition effects (l : list statement) (d : database) : database := foldl (fun d s => effect s d) d l.
Definition schema_effects (l : list statement) (s : schema) : schema := foldl (fun d s => schema_effect s d) s l.

(** Every statement is safe where it comes. *)
Fixpoint safe_script (l : list statement) (s : schema) : bool :=
  match l with [] => true | x :: l => safe x s && safe_script l (schema_effect x s) end.

Fixpoint script_demands (l : list statement) (d : database) : Prop :=
  match l with [] => True | x :: l => demands x d /\ script_demands l (effect x d) end.

(** A safe script whose demands are met runs to its end. *)
Lemma safe_script_runs l d : valid d -> safe_script l (d_schema d) = true -> script_demands l d ->
  run_script l d = Ok (effects l d) /\ valid (effects l d) /\ d_schema (effects l d) = schema_effects l (d_schema d).
Proof.
  revert d. induction l as [|s l IH]; intros d Hv; cbn; [done|]. intros [Hs Hl]%andb_prop [Hd Hds].
  destruct (safe_executes d Hv s Hs Hd) as [He Hv']. unfold run_script. cbn [fold_res]. rewrite He. by apply IH.
Qed.

Lemma effects_app l1 l2 d : effects (l1 ++ l2) d = effects l2 (effects l1 d).
Proof. apply foldl_app. Qed.

Lemma script_demands_app l1 l2 d : script_demands (l1 ++ l2) d <-> script_demands l1 d /\ script_demands l2 (effects l1 d).
Proof. revert d. induction l1 as [|s l1 IH]; intros d; cbn; [tauto|]. rewrite IH. tauto. Qed.
End RelationalFacts.
