(* ===== verification/Migrations.v ===== *)
(** * The migrations a deployment runs (funduq/alembic, funduq/migrate.py,
    scripts/probes/probe_schema_agrees.py)

    Every revision of the chain as the statements its [upgrade] and
    [downgrade] issue, in order; bringing a database to the head; and the
    probe that compares what they build with what schema.py declares.  On
    SQLite a batch with [copy_from] works on the table it is given. *)

From S2P Require Import Prelude Json Models Relational Schema.

Module Migrations.
Import Relational Schema.

(** [get_backend_name()]. *)
Inductive backend : Type := Sqlite | Postgresql.
#[global] Instance backend_eq_dec : EqDecision backend.
Proof. solve_decision. Defined.

Record Revision : Type := mkRevision {
  revision : string;
  down_revision : option string;
  upgrade : backend -> list statement;
  downgrade : backend -> list statement;
}.

Definition batch_alter_table (b : backend) (table : string) (copy_from : option Table) (l : list alteration) : list statement :=
  match b, copy_from with Sqlite, Some t => [CopyFrom table t] | _, _ => [] end ++ map (Alter table) l.

Definition create_table_with (name : string) (t : Table) (indexes : list Index) : list statement :=
  CreateTable name t :: map (CreateIndex name) indexes.

(** ** ff342e6c6b85, initial schema *)

Definition initial_threads : Table :=
  mkTable
    [required "thread_id" String_; required "provider_key" String_; required "agent_name" String_;
     optional "parent_thread_id" String_; required "metadata" JSON_;
     required "created_at" DateTime_; required "last_activity_at" DateTime_]
    ["thread_id"] [references "parent_thread_id" "threads" "thread_id"; to_agent "fk_threads_agent"] [] [] [].

Definition ck_runs_protocol : CheckConstraint := mkCheck "ck_runs_protocol" "protocol" ["ag-ui"; "a2a"].

(** The vocabulary before "offering". *)
Definition status_before : CheckConstraint :=
  mkCheck "ck_runs_status" "status" ["queued"; "running"; "input-required"; "cancelling"; "completed"; "failed"; "cancelled"].

Definition initial_runs : Table :=
  mkTable
    [required "run_id" String_; required "thread_id" String_; required "provider_key" String_; required "agent_name" String_;
     required "protocol" String_; required "status" String_; required "input_json" JSON_;
     optional "started_at" DateTime_; optional "completed_at" DateTime_; optional "last_activity_at" DateTime_;
     required "metadata" JSON_; required "created_at" DateTime_]
    ["run_id"] [to_agent "fk_runs_agent"; references "thread_id" "threads" "thread_id"] [] [ck_runs_protocol; status_before] [].

Definition initial_run_events : Table :=
  mkTable
    [required "id" BigSerial_; required "run_id" String_; required "seq" Integer_; required "event_json" JSON_;
     required "created_at" DateTime_]
    ["id"] [references "run_id" "runs" "run_id"] [] [] [].

Definition thread_message_unique : UniqueConstraint :=
  mkUnique (Some "uq_thread_messages_thread_message") ["thread_id"; "message_id"].
Definition run_message_unique : UniqueConstraint :=
  mkUnique (Some "uq_thread_messages_run_message") ["run_id"; "message_id"].

Definition initial_thread_messages : Table :=
  mkTable
    [required "id" BigSerial_; required "thread_id" String_; required "run_id" String_; required "message_id" String_;
     required "message_json" JSON_; required "metadata" JSON_; required "created_at" DateTime_]
    ["id"] [references "run_id" "runs" "run_id"; references "thread_id" "threads" "thread_id"] [thread_message_unique] [] [].

Definition upgrade_ff342e6c6b85 (_ : backend) : list statement :=
  CreateTable "providers" providers :: CreateTable "agents" agents :: CreateTable "llm_providers" llm_providers ::
  create_table_with "threads" initial_threads [mkIndex "idx_threads_parent" ["parent_thread_id"] false] ++
  create_table_with "runs" initial_runs
    [mkIndex "idx_runs_agent_status" ["provider_key"; "agent_name"; "status"] false;
     mkIndex "idx_runs_thread" ["thread_id"; "created_at"] false] ++
  create_table_with "run_events" initial_run_events [mkIndex "idx_run_events_run" ["run_id"; "seq"] false] ++
  create_table_with "thread_messages" initial_thread_messages [mkIndex "idx_thread_messages_thread" ["thread_id"; "id"] false].

Definition downgrade_ff342e6c6b85 (_ : backend) : list statement :=
  [DropIndex "thread_messages" "idx_thread_messages_thread"; DropTable "thread_messages";
   DropIndex "run_events" "idx_run_events_run"; DropTable "run_events";
   DropIndex "runs" "idx_runs_thread"; DropIndex "runs" "idx_runs_agent_status"; DropTable "runs";
   DropIndex "threads" "idx_threads_parent"; DropTable "threads";
   DropTable "llm_providers"; DropTable "agents"; DropTable "providers"].

(** ** a11c3b7d42e9, head keys *)

Definition upgrade_a11c3b7d42e9 (_ : backend) : list statement :=
  [Alter "threads" (AddColumn (optional "head_key" String_)); Alter "runs" (AddColumn (optional "head_key" String_))].
Definition downgrade_a11c3b7d42e9 (_ : backend) : list statement :=
  [Alter "runs" (DropColumn "head_key"); Alter "threads" (DropColumn "head_key")].

(** ** c4d9e17b52aa, "offering" is a status *)

Definition status_offering : CheckConstraint :=
  mkCheck "ck_runs_status" "status"
    ["queued"; "offering"; "running"; "input-required"; "cancelling"; "completed"; "failed"; "cancelled"].

(** The table as this revision knows it. *)
Definition _runs (status_check : CheckConstraint) : Table :=
  mkTable
    [required "run_id" String_; required "thread_id" String_; required "provider_key" String_; required "agent_name" String_;
     required "protocol" String_; required "status" String_; optional "head_key" String_; required "input_json" JSON_;
     optional "started_at" DateTime_; optional "completed_at" DateTime_; optional "last_activity_at" DateTime_;
     required "metadata" JSON_; required "created_at" DateTime_]
    ["run_id"] [references "thread_id" "threads" "thread_id"; to_agent "fk_runs_agent"] [] [ck_runs_protocol; status_check]
    [mkIndex "idx_runs_thread" ["thread_id"; "created_at"] false;
     mkIndex "idx_runs_agent_status" ["provider_key"; "agent_name"; "status"] false].

Definition _replace_status_check (new_check : CheckConstraint) (b : backend) : list statement :=
  batch_alter_table b "runs" (Some (_runs new_check)) [DropCheck "ck_runs_status"; CreateCheck new_check].

Definition upgrade_c4d9e17b52aa : backend -> list statement := _replace_status_check status_offering.
Definition downgrade_c4d9e17b52aa (b : backend) : list statement :=
  Update "runs" "status" (VString "queued") (Equals "status" (VString "offering")) :: _replace_status_check status_before b.

(** ** e7b3a94c1f60, the actor chain *)

Definition upgrade_e7b3a94c1f60 (_ : backend) : list statement := [Alter "runs" (AddColumn (optional "actor_chain" JSON_))].
Definition downgrade_e7b3a94c1f60 (_ : backend) : list statement := [Alter "runs" (DropColumn "actor_chain")].

(** ** a1f4c9d27e3b, a run is an AG-UI run *)

Definition status_check : CheckConstraint :=
  mkCheck "ck_runs_status" "status" ["queued"; "offering"; "running"; "cancelling"; "completed"; "failed"; "cancelled"].
Definition ck_origin : CheckConstraint := mkCheck "ck_thread_messages_origin" "origin" ["caller"; "agent"].

Definition delete_runs : list statement := [Delete "run_events" Always; Delete "thread_messages" Always; Delete "runs" Always].

Definition upgrade_a1f4c9d27e3b (b : backend) : list statement :=
  delete_runs ++
  batch_alter_table b "runs" None
    [DropCheck "ck_runs_protocol"; DropCheck "ck_runs_status";
     DropColumn "protocol"; DropColumn "head_key"; DropColumn "input_json"; DropColumn "metadata";
     AddColumn (optional "parent_run_id" String_); AddColumn (optional "state" JSON_); AddColumn (required "tools" JSON_);
     AddColumn (required "context" JSON_); AddColumn (optional "forwarded_props" JSON_); AddColumn (optional "resume" JSON_);
     AddColumn (optional "cancel_requested_by" String_); CreateCheck status_check] ++
  batch_alter_table b "thread_messages" None [AddColumn (required "origin" String_); CreateCheck ck_origin].

Definition downgrade_a1f4c9d27e3b (b : backend) : list statement :=
  delete_runs ++
  batch_alter_table b "thread_messages" None [DropCheck "ck_thread_messages_origin"; DropColumn "origin"] ++
  batch_alter_table b "runs" None
    (DropCheck "ck_runs_status" ::
     map DropColumn ["cancel_requested_by"; "resume"; "forwarded_props"; "context"; "tools"; "state"; "parent_run_id"] ++
     [AddColumn (mkColumn "protocol" String_ false (Some (VString "ag-ui"))); AddColumn (optional "head_key" String_);
      AddColumn (required "input_json" JSON_); AddColumn (required "metadata" JSON_);
      CreateCheck ck_runs_protocol; CreateCheck status_offering]).

(** ** b5d2e8f0a7c4, message ids are unique in their run *)

Definition upgrade_b5d2e8f0a7c4 (b : backend) : list statement :=
  batch_alter_table b "thread_messages" None [DropUnique "uq_thread_messages_thread_message"; CreateUnique run_message_unique].
Definition downgrade_b5d2e8f0a7c4 (b : backend) : list statement :=
  batch_alter_table b "thread_messages" None [DropUnique "uq_thread_messages_run_message"; CreateUnique thread_message_unique].

(** ** c8e1f3a6b902, a thread message is what a run carried in *)

Definition upgrade_c8e1f3a6b902 (b : backend) : list statement :=
  Delete "thread_messages" (Equals "origin" (VString "agent")) ::
  batch_alter_table b "thread_messages" None [DropCheck "ck_thread_messages_origin"; DropColumn "origin"].
Definition downgrade_c8e1f3a6b902 (b : backend) : list statement :=
  batch_alter_table b "thread_messages" None
    [AddColumn (mkColumn "origin" String_ false (Some (VString "caller"))); CreateCheck ck_origin].

(** ** d4a7c2e9f150, being asked to stop is a column of its own *)

Definition upgrade_d4a7c2e9f150 (b : backend) : list statement :=
  batch_alter_table b "runs" None [AddColumn (mkColumn "cancel_requested" Boolean_ false (Some (VBool false)))] ++
  [Update "runs" "cancel_requested" (VBool true) (IsNotNull "cancel_requested_by");
   Update "runs" "cancel_requested_by" VNull (Equals "cancel_requested_by" (VString ""))].
Definition downgrade_d4a7c2e9f150 (b : backend) : list statement :=
  Update "runs" "cancel_requested_by" (VString "") (TrueAndNull "cancel_requested" "cancel_requested_by") ::
  batch_alter_table b "runs" None [DropColumn "cancel_requested"].

(** ** The chain *)

(** The files of versions/, as a directory lists them. *)
Definition versions : list Revision :=
  [mkRevision "ff342e6c6b85" None upgrade_ff342e6c6b85 downgrade_ff342e6c6b85;
   mkRevision "a11c3b7d42e9" (Some "ff342e6c6b85") upgrade_a11c3b7d42e9 downgrade_a11c3b7d42e9;
   mkRevision "c4d9e17b52aa" (Some "a11c3b7d42e9") upgrade_c4d9e17b52aa downgrade_c4d9e17b52aa;
   mkRevision "e7b3a94c1f60" (Some "c4d9e17b52aa") upgrade_e7b3a94c1f60 downgrade_e7b3a94c1f60;
   mkRevision "a1f4c9d27e3b" (Some "e7b3a94c1f60") upgrade_a1f4c9d27e3b downgrade_a1f4c9d27e3b;
   mkRevision "b5d2e8f0a7c4" (Some "a1f4c9d27e3b") upgrade_b5d2e8f0a7c4 downgrade_b5d2e8f0a7c4;
   mkRevision "c8e1f3a6b902" (Some "b5d2e8f0a7c4") upgrade_c8e1f3a6b902 downgrade_c8e1f3a6b902;
   mkRevision "d4a7c2e9f150" (Some "c8e1f3a6b902") upgrade_d4a7c2e9f150 downgrade_d4a7c2e9f150].

(** The revisions nothing revises. *)
Definition heads (l : list Revision) : list Revision :=
  filter (fun r => Some (revision r) ∉ map down_revision l) l.

Definition find_revision (id : string) (l : list Revision) : option Revision :=
  List.find (fun r => String.eqb (revision r) id) l.

(** What is to be run to come from [current] to [target], oldest first. *)
Fixpoint path (fuel : nat) (l : list Revision) (current : option string) (target : Revision) (acc : list Revision)
    : option (list Revision) :=
  match fuel with
  | O => None
  | S fuel =>
      if bool_decide (current = Some (revision target)) then Some acc
      else match down_revision target with
           | None => if bool_decide (current = None) then Some (target :: acc) else None
           | Some id => match find_revision id l with Some r => path fuel l current r (target :: acc) | None => None end
           end
  end.

(** A database and the row of [alembic_version]. *)
Record deployment : Type := mkDeployment { dp_database : database; dp_version : option string }.

Inductive migration_failure : Type := MultipleHeads | CannotLocateRevision | Failed (f : failure).

Definition apply_revision (b : backend) (r : Revision) (d : deployment) : result migration_failure deployment :=
  match run_script (upgrade r b) (dp_database d) with
  | Ok db => Ok (mkDeployment db (Some (revision r)))
  | Err f => Err (Failed f)
  end.

(** [command.upgrade(cfg, "head")], which is what [migrate] comes to. *)
Definition migrate (b : backend) (d : deployment) : result migration_failure deployment :=
  match heads versions with
  | [h] =>
      match path (S (length versions)) versions (dp_version d) h [] with
      | Some l => fold_res (apply_revision b) l d
      | None => Err CannotLocateRevision
      end
  | _ => Err MultipleHeads
  end.

(** A step back. *)
Definition revert (b : backend) (r : Revision) (d : deployment) : result migration_failure deployment :=
  match run_script (downgrade r b) (dp_database d) with
  | Ok db => Ok (mkDeployment db (down_revision r))
  | Err f => Err (Failed f)
  end.

Definition fresh : deployment := mkDeployment empty None.

(** ** Where the migrations run (env.py)

    [attributes] is what [migrate] was told, [environ] the environment; a
    URL is read and rewritten by SQLAlchemy. *)
Section env.
Context (backend_name driver_name : string -> string) (set_driver : string -> string -> string).

Definition or_else (told : option string) (k : string) : string :=
  match told with Some s => if String.eqb s "" then k else s | None => k end.

Definition env_database_url (attribute environ : option string) : string :=
  let url := or_else attribute (default DEFAULT_DATABASE_URL environ) in
  if String.eqb (backend_name url) "sqlite" && String.eqb (driver_name url) "aiosqlite" then set_driver "sqlite" url else url.

Definition env_db_schema (attribute environ : option string) (url : string) : string :=
  if String.eqb (backend_name url) "postgresql" then or_else attribute (default DEFAULT_DB_SCHEMA environ) else DEFAULT_DB_SCHEMA.

(** What is issued before the revisions, and where [alembic_version] is. *)
Definition schema_setup (db_schema : string) : list string :=
  if String.eqb db_schema DEFAULT_DB_SCHEMA then []
  else ["CREATE SCHEMA IF NOT EXISTS " +:+ quoted_schema db_schema;
        "SET search_path TO " +:+ quoted_schema db_schema +:+ ", public"].

Definition version_table_schema (db_schema : string) : option string :=
  if String.eqb db_schema DEFAULT_DB_SCHEMA then None else Some db_schema.
End env.

(** ** Does [alembic upgrade head] build the schema of schema.py? *)
Section probe.
(** [str(type).upper()] on the backend. *)
Context (render : column_type -> string).

(** [_describe] of one table; what it sorts is compared up to order. *)
Record description : Type := mkDescription {
  ds_columns : gmap string (string * bool);
  ds_pk : list string;
  ds_fks : list (list string * string * list string);
  ds_unique : list (list string);
  ds_indexes : list (list string * bool);
}.

Definition describe_table (t : Table) : description :=
  mkDescription
    (list_to_map (map (fun c => (c_name c, (render (c_type c), c_nullable c))) (t_columns t)))
    (t_pk t)
    (map (fun f => (fk_columns f, fk_table f, fk_refers f)) (t_fks t))
    (map u_columns (t_uniques t))
    (map (fun i => (ix_columns i, ix_unique i)) (t_indexes t)).

Definition _describe (s : schema) : gmap string description := describe_table <$> s.

Inductive aspect : Type := Columns | Pk | Fks | Unique | Indexes.

Inductive difference : Type :=
| MissingFromMigration (table : string)
| MissingFromSchema (table : string)
| Differs (table : string) (a : aspect).

Definition agrees (a : aspect) (x y : description) : bool :=
  match a with
  | Columns => bool_decide (ds_columns x = ds_columns y)
  | Pk => bool_decide (ds_pk x = ds_pk y)
  | Fks => bool_decide (ds_fks x ≡ₚ ds_fks y)
  | Unique => bool_decide (ds_unique x ≡ₚ ds_unique y)
  | Indexes => bool_decide (ds_indexes x ≡ₚ ds_indexes y)
  end.

(** The loop's body for one table. *)
Definition compare (migrated declared : gmap string description) (table : string) : list difference :=
  match migrated !! table, declared !! table with
  | None, _ => [MissingFromMigration table]
  | Some _, None => [MissingFromSchema table]
  | Some x, Some y => map (Differs table) (filter (fun a => agrees a x y = false) [Columns; Pk; Fks; Unique; Indexes])
  end.

(** [sorted(set(migrated) | set(declared))]. *)
Definition differences (migrated declared : gmap string description) : list difference :=
  flat_map (compare migrated declared) (merge_sort str_le (elements (dom migrated ∪ dom declared))).

(** The exit status, once the migrations ran on an empty database. *)
Definition probe_schema_agrees (b : backend) : result migration_failure nat :=
  d ← migrate b fresh;
  Ok match differences (_describe (d_schema (dp_database d))) (_describe metadata) with [] => 0 | _ => 1 end.
End probe.

End Migrations.
