(* ===== verification/StoredOk.v ===== *)
(** * What the code writes fits the schema

    The tables of [Models] as rows of schema.py's tables, and the proof that
    every write of repo.py keeps what the schema asks: columns, types, the
    status check, primary and unique keys, and every reference. *)

From S2P Require Import Prelude Errors Json Models Crypto Chain Identity Repo RepoFacts Relational Schema RelationalFacts.

Module StoredOk.
Import Repo Relational RelationalFacts.

(** ** Rows *)

Definition opt_string (o : option string) : value := match o with Some s => VString s | None => VNull end.
Definition opt_time (o : option Z) : value := match o with Some t => VTime t | None => VNull end.
Definition json_string (j : json) : value := match j with JStr s => VString s | _ => VNull end.

Notation cells := (list (string * value)).

Definition provider_cells (kv : string * ProviderRow) : cells :=
  [("public_key", VString kv.1); ("fingerprint", VString (pv_fingerprint kv.2)); ("display_name", opt_string (pv_display_name kv.2));
   ("updated_at", VTime (pv_updated_at kv.2))].

Definition agent_cells (kv : AgentRef * AgentRow) : cells :=
  [("provider_key", VString (ref_provider_key kv.1)); ("name", VString (ref_name kv.1)); ("agent_card", VJson (JObj (ag_card kv.2)));
   ("metadata", VJson (ag_metadata kv.2)); ("joined_at", VTime (ag_joined_at kv.2)); ("last_seen_at", VTime (ag_last_seen_at kv.2))].

Definition llm_cells (kv : AgentRef * LlmRow) : cells :=
  [("provider_key", VString (ref_provider_key kv.1)); ("name", VString (ref_name kv.1)); ("metadata", VJson (lp_metadata kv.2));
   ("joined_at", VTime (lp_joined_at kv.2)); ("last_seen_at", VTime (lp_last_seen_at kv.2))].

Definition thread_cells (kv : string * ThreadRow) : cells :=
  [("thread_id", VString kv.1); ("provider_key", VString (th_provider_key kv.2)); ("agent_name", VString (th_agent_name kv.2));
   ("parent_thread_id", opt_string (th_parent_thread_id kv.2)); ("head_key", opt_string (th_head_key kv.2));
   ("metadata", VJson (th_metadata kv.2)); ("created_at", VTime (th_created_at kv.2)); ("last_activity_at", VTime (th_last_activity_at kv.2))].

Definition run_cells (kv : string * RunRecord) : cells :=
  let r := kv.2 in
  [("run_id", VString kv.1); ("thread_id", VString (rr_thread_id r)); ("provider_key", VString (rr_provider_key r));
   ("agent_name", VString (rr_agent_name r)); ("status", VString (Schema.status_word (rr_status r)));
   ("actor_chain", VJson (match rr_actor_chain r with Some l => JList (map JStr l) | None => JNull end));
   ("started_at", opt_time (rr_started_at r)); ("completed_at", opt_time (rr_completed_at r));
   ("last_activity_at", opt_time (rr_last_activity_at r)); ("created_at", VTime (rr_created_at r));
   ("parent_run_id", opt_string (rr_parent_run_id r)); ("state", VJson (rr_state r)); ("tools", VJson (rr_tools r));
   ("context", VJson (rr_context r)); ("forwarded_props", VJson (rr_forwarded_props r)); ("resume", VJson (rr_resume r));
   ("cancel_requested", VBool (rr_cancel_requested r)); ("cancel_requested_by", opt_string (rr_cancel_requested_by r))].

(** Serial ids are the positions; [Models] keeps no [created_at] of these rows. *)
Definition message_cells (created_at : Z) (kv : nat * MessageRow) : cells :=
  [("id", VInt (Z.of_nat kv.1)); ("thread_id", VString (ms_thread_id kv.2)); ("run_id", VString (ms_run_id kv.2));
   ("message_id", json_string (ms_message_id kv.2)); ("message_json", VJson (JObj (ms_message kv.2)));
   ("metadata", VJson (ms_metadata kv.2)); ("created_at", VTime created_at)].

Definition event_cells (created_at : Z) (kv : nat * EventRow) : cells :=
  [("id", VInt (Z.of_nat kv.1)); ("run_id", VString (ev_run_id kv.2)); ("seq", VInt (ev_seq kv.2));
   ("event_json", VJson (JObj (ev_event kv.2))); ("created_at", VTime created_at)].

Definition numbered {A} (l : list A) : list (nat * A) := imap (fun i x => (i, x)) l.
Definition rows_of {A} (f : A -> cells) (l : list A) : list row := map (fun x => list_to_map (f x)) l.

(** The database as the schema's tables hold it. *)
Definition stored (created_at : Z) (d : db) : database :=
  mkDatabase Schema.metadata
    {["providers" := rows_of provider_cells (map_to_list (d_providers d));
      "agents" := rows_of agent_cells (map_to_list (d_agents d));
      "llm_providers" := rows_of llm_cells (map_to_list (d_llm_providers d));
      "threads" := rows_of thread_cells (map_to_list (d_threads d));
      "runs" := rows_of run_cells (map_to_list (d_runs d));
      "thread_messages" := rows_of (message_cells created_at) (numbered (d_thread_messages d));
      "run_events" := rows_of (event_cells created_at) (numbered (d_run_events d))]}.

(** ** What the tables keep *)

Definition message_key (m : MessageRow) : string * json := (ms_run_id m, ms_message_id m).

Record well_stored (d : db) : Prop := {
  ws_fingerprints k k' p p' : d_providers d !! k = Some p -> d_providers d !! k' = Some p' -> pv_fingerprint p = pv_fingerprint p' -> k = k';
  ws_agents a : is_Some (d_agents d !! a) -> is_Some (d_providers d !! ref_provider_key a);
  ws_llms a : is_Some (d_llm_providers d !! a) -> is_Some (d_providers d !! ref_provider_key a);
  ws_threads k t : d_threads d !! k = Some t -> is_Some (d_agents d !! th_agent t);
  ws_parents k t p : d_threads d !! k = Some t -> th_parent_thread_id t = Some p -> is_Some (d_threads d !! p);
  ws_runs k r : d_runs d !! k = Some r -> is_Some (d_threads d !! rr_thread_id r) /\ is_Some (d_agents d !! rr_agent r);
  ws_messages m : m ∈ d_thread_messages d -> is_Some (d_threads d !! ms_thread_id m) /\ is_Some (d_runs d !! ms_run_id m) /\
    exists s, ms_message_id m = JStr s;
  ws_message_ids : NoDup (map message_key (d_thread_messages d));
  ws_events e : e ∈ d_run_events d -> is_Some (d_runs d !! ev_run_id e);
}.

(** ** Rows of the declared shape *)

Lemma fits_row t l : map fst l = column_names t -> NoDup (column_names t) ->
  Forall2 (fun c kv => fits c kv.2 = true) (t_columns t) l ->
  (forall ck, ck ∈ t_checks t -> passes ck (list_to_map l) = true) -> row_ok t (list_to_map l).
Proof.
  intros Hk Hn Hf Hc. assert (NoDup (l.*1)) as Hn' by (unfold fmap, list_fmap in *; rewrite <- Hk in Hn; exact Hn). split_and!.
  - unfold column_names in Hk. clear Hc Hn. revert Hk Hf. generalize (t_columns t). intros cs Hk Hf. apply Forall_forall. intros c Hin.
    apply list_elem_of_lookup in Hin as [i Hi]. destruct (Forall2_lookup_l _ _ _ _ _ Hf Hi) as ([k v]&Hl&Hv). cbn in Hv.
    assert (k = c_name c) as ->.
    { assert (map fst l !! i = Some k) as H1 by (rewrite list_lookup_fmap; by rewrite Hl).
      rewrite Hk, list_lookup_fmap, Hi in H1. by injection H1. }
    rewrite (elem_of_list_to_map_1 l (c_name c) v); [done|done|]. by eapply list_elem_of_lookup_2.
  - intros x Hx. apply elem_of_list_to_set. rewrite <- Hk. apply elem_of_dom in Hx as [v Hv]. apply elem_of_list_to_map_2 in Hv.
    apply list_elem_of_fmap. by exists (x, v).
  - apply Forall_forall. exact Hc.
Qed.

(** The key of a row on some columns, read off its cells. *)
Lemma unique_rows {A K} (f : A -> cells) (g : A -> K) (h : K -> list value) cols l :
  (forall x, x ∈ l -> key_on cols (list_to_map (f x)) = Some (h (g x))) -> (forall k k', h k = h k' -> k = k') -> NoDup (map g l) ->
  unique_on cols (rows_of f l).
Proof.
  intros Hk Hh Hn. unfold unique_on, rows_of.
  assert (omap (key_on cols) (map (fun x => list_to_map (f x)) l) = map h (map g l)) as ->.
  { clear Hn. induction l as [|x l IH]; [done|]. cbn. rewrite Hk by constructor. rewrite IH; [done|].
    intros y Hy. apply Hk. by constructor. }
  apply (NoDup_fmap_2_strong h); [|done]. intros x y _ _. apply Hh.
Qed.

Lemma refers_rows {A B} (f : A -> cells) (f' : B -> cells) fk l l' :
  (forall x k, x ∈ l -> key_on (fk_columns fk) (list_to_map (f x)) = Some k ->
     exists y, y ∈ l' /\ key_on (fk_refers fk) (list_to_map (f' y)) = Some k) ->
  refers_to fk (rows_of f l) (rows_of f' l').
Proof.
  intros Hf. apply Forall_forall. intros r (x&->&Hx)%list_elem_of_fmap. destruct (key_on (fk_columns fk) _) as [k|] eqn:Hk; [|done].
  destruct (Hf x k Hx Hk) as (y&Hy&Hky). apply list_elem_of_omap. exists (list_to_map (f' y)). split; [|done].
  apply list_elem_of_fmap. by exists y.
Qed.

(** ** Well stored, every constraint holds *)

Lemma fits_opt_string c o : c_type c = String_ -> c_nullable c = true -> fits c (opt_string o) = true.
Proof. intros Ht Hn. unfold fits. destruct o; cbn; by rewrite ?Ht, ?Hn. Qed.

Lemma fits_opt_time c o : c_type c = DateTime_ -> c_nullable c = true -> fits c (opt_time o) = true.
Proof. intros Ht Hn. unfold fits. destruct o; cbn; by rewrite ?Ht, ?Hn. Qed.

Ltac fits := apply fits_row;
  [reflexivity|apply (bool_decide_eq_true_1 _); vm_compute; reflexivity
  |repeat (apply Forall2_cons; split; [first [reflexivity|by apply fits_opt_string|by apply fits_opt_time]|]); by apply Forall2_nil
  |try (intros ck Hck; by apply not_elem_of_nil in Hck)].

Lemma rows_fit {A} t (f : A -> cells) l : (forall x, x ∈ l -> row_ok t (list_to_map (f x))) -> Forall (row_ok t) (rows_of f l).
Proof. intros Hf. apply Forall_forall. intros r (x&->&Hx)%list_elem_of_fmap. by apply Hf. Qed.

Lemma map_keys_nodup `{Countable K} {V} (m : gmap K V) : NoDup (map fst (map_to_list m)).
Proof. apply (NoDup_fst_map_to_list m). Qed.

Lemma numbered_nodup {A} (l : list A) : NoDup (map fst (numbered l)).
Proof.
  assert (map fst (numbered l) = seq 0 (length l)) as ->; [|apply NoDup_seq]. unfold numbered.
  assert (forall n, map fst (imap (fun i x => (n + i, x)) l) = seq n (length l)) as Hg; [|exact (Hg 0)].
  induction l as [|x l IH]; intros n; cbn; [done|]. rewrite Nat.add_0_r. f_equal. rewrite <- (IH (S n)). f_equal.
  apply imap_ext. intros i y _. cbn. f_equal. lia.
Qed.

Lemma numbered_in {A} (l : list A) i x : (i, x) ∈ numbered l -> x ∈ l.
Proof. intros (j&y&[= -> ->]&Hy)%elem_of_lookup_imap_1. by eapply list_elem_of_lookup_2. Qed.

Lemma numbered_map {A B} (f : A -> B) (l : list A) : map (fun kv => f kv.2) (numbered l) = map f l.
Proof.
  unfold numbered. assert (forall n, map (fun kv => f kv.2) (imap (fun i x => (n + i, x)) l) = map f l) as Hg; [|exact (Hg 0)].
  induction l as [|x l IH]; intros n; cbn; [done|]. f_equal. rewrite <- (IH (S n)). f_equal. apply imap_ext. intros i y _. cbn. f_equal. lia.
Qed.

Section valid.
Variable created_at : Z.
Variable d : db.
Hypothesis Hd : well_stored d.
Notation st := (stored created_at d).

(** A table whose rows are listed fits when each row does, its keys are apart
    and what it refers to is there. *)
Lemma table_fits {A} name t (f : A -> cells) l : rows name st = rows_of f l ->
  (forall x, x ∈ l -> row_ok t (list_to_map (f x))) ->
  Forall (fun cols => unique_on cols (rows_of f l)) (keys_of t) ->
  Forall (fun fk => refers_to fk (rows_of f l) (rows (fk_table fk) st)) (t_fks t) -> table_valid st name t.
Proof. intros Hr Hf Hu Hk. unfold table_valid. rewrite Hr. split; [by apply rows_fit|done]. Qed.

Lemma providers_valid : table_valid st "providers" Schema.providers.
Proof.
  apply (table_fits "providers" Schema.providers provider_cells (map_to_list (d_providers d)) eq_refl); [intros x _; fits| |by apply Forall_nil].
  apply Forall_cons. split; [|apply Forall_singleton].
  - apply (unique_rows _ fst (fun k => [VString k])); [done|by intros k k' [= ->]|apply map_keys_nodup].
  - apply (unique_rows _ (fun kv => pv_fingerprint kv.2) (fun k => [VString k])); [done|by intros k k' [= ->]|].
    pose proof (NoDup_map_to_list (d_providers d)) as Hn. pose proof (ws_fingerprints _ Hd) as Hf.
    assert (forall kv kv', kv ∈ map_to_list (d_providers d) -> kv' ∈ map_to_list (d_providers d) ->
      pv_fingerprint kv.2 = pv_fingerprint kv'.2 -> kv = kv') as Hinj.
    { intros [k p] [k' p'] Hk%elem_of_map_to_list Hk'%elem_of_map_to_list He. cbn in He. assert (k = k') as <- by eauto. congruence. }
    clear Hf. revert Hn Hinj. generalize (map_to_list (d_providers d)). intros l Hn Hinj. apply NoDup_fmap_2_strong; [|done].
    intros x y Hx Hy. by apply Hinj.
Qed.

(** References to a row of a map. *)
Lemma to_provider {A} (f : A -> cells) (key : A -> string) l :
  (forall x, key_on ["provider_key"] (list_to_map (f x)) = Some [VString (key x)]) ->
  (forall x, x ∈ l -> is_Some (d_providers d !! key x)) ->
  refers_to (Schema.references "provider_key" "providers" "public_key") (rows_of f l) (rows "providers" st).
Proof.
  intros Hk Hp. apply (refers_rows f provider_cells _ l (map_to_list (d_providers d))). intros x k Hx Hkx. cbn [Schema.references fk_columns] in Hkx.
  rewrite Hk in Hkx. injection Hkx as <-. destruct (Hp x Hx) as [p Hp']. exists (key x, p). split; [by apply elem_of_map_to_list|done].
Qed.

Lemma to_agent {A} name (f : A -> cells) (ref : A -> AgentRef) l :
  (forall x, key_on ["provider_key"; "agent_name"] (list_to_map (f x)) = Some [VString (ref_provider_key (ref x)); VString (ref_name (ref x))]) ->
  (forall x, x ∈ l -> is_Some (d_agents d !! ref x)) ->
  refers_to (Schema.to_agent name) (rows_of f l) (rows "agents" st).
Proof.
  intros Hk Hp. apply (refers_rows f agent_cells _ l (map_to_list (d_agents d))). intros x k Hx Hkx. cbn [Schema.to_agent fk_columns] in Hkx.
  rewrite Hk in Hkx. injection Hkx as <-. destruct (Hp x Hx) as [a Ha]. exists (ref x, a). split; [by apply elem_of_map_to_list|done].
Qed.

Lemma to_thread {A} col (f : A -> cells) (key : A -> option string) l :
  (forall x, key_on [col] (list_to_map (f x)) = (fun s => [VString s]) <$> key x) ->
  (forall x s, x ∈ l -> key x = Some s -> is_Some (d_threads d !! s)) ->
  refers_to (Schema.references col "threads" "thread_id") (rows_of f l) (rows "threads" st).
Proof.
  intros Hk Hp. apply (refers_rows f thread_cells _ l (map_to_list (d_threads d))). intros x k Hx Hkx. cbn [Schema.references fk_columns] in Hkx.
  rewrite Hk in Hkx. destruct (key x) as [s|] eqn:Hs; [|done]. injection Hkx as <-. destruct (Hp x s Hx Hs) as [t Ht].
  exists (s, t). split; [by apply elem_of_map_to_list|done].
Qed.

Lemma to_run {A} (f : A -> cells) (key : A -> string) l :
  (forall x, key_on ["run_id"] (list_to_map (f x)) = Some [VString (key x)]) ->
  (forall x, x ∈ l -> is_Some (d_runs d !! key x)) ->
  refers_to (Schema.references "run_id" "runs" "run_id") (rows_of f l) (rows "runs" st).
Proof.
  intros Hk Hp. apply (refers_rows f run_cells _ l (map_to_list (d_runs d))). intros x k Hx Hkx. cbn [Schema.references fk_columns] in Hkx.
  rewrite Hk in Hkx. injection Hkx as <-. destruct (Hp x Hx) as [r Hr]. exists (key x, r). split; [by apply elem_of_map_to_list|done].
Qed.

Lemma agents_valid : table_valid st "agents" Schema.agents.
Proof.
  apply (table_fits "agents" Schema.agents agent_cells (map_to_list (d_agents d)) eq_refl); [intros x _; fits|..]; apply Forall_singleton.
  - apply (unique_rows _ fst (fun a => [VString (ref_provider_key a); VString (ref_name a)])); [done| |apply map_keys_nodup].
    intros [] [] [= -> ->]. done.
  - apply (to_provider agent_cells (fun kv => ref_provider_key kv.1)); [done|]. intros [a row] Ha%elem_of_map_to_list. apply (ws_agents _ Hd). by exists row.
Qed.

Lemma llm_providers_valid : table_valid st "llm_providers" Schema.llm_providers.
Proof.
  apply (table_fits "llm_providers" Schema.llm_providers llm_cells (map_to_list (d_llm_providers d)) eq_refl); [intros x _; fits|..]; apply Forall_singleton.
  - apply (unique_rows _ fst (fun a => [VString (ref_provider_key a); VString (ref_name a)])); [done| |apply map_keys_nodup].
    intros [] [] [= -> ->]. done.
  - apply (to_provider llm_cells (fun kv => ref_provider_key kv.1)); [done|]. intros [a row] Ha%elem_of_map_to_list. apply (ws_llms _ Hd). by exists row.
Qed.

Lemma threads_valid : table_valid st "threads" Schema.threads.
Proof.
  apply (table_fits "threads" Schema.threads thread_cells (map_to_list (d_threads d)) eq_refl); [intros x _; fits|..].
  - apply Forall_singleton. apply (unique_rows _ fst (fun k => [VString k])); [done|by intros k k' [= ->]|apply map_keys_nodup].
  - apply Forall_cons. split; [|apply Forall_singleton].
    + apply (to_thread "parent_thread_id" thread_cells (fun kv => th_parent_thread_id kv.2)); [intros [k t]; by destruct (th_parent_thread_id t) eqn:E; cbn; rewrite ?E|].
      intros [k t] s Hk%elem_of_map_to_list Hs. by apply (ws_parents _ Hd k t).
    + apply (to_agent _ thread_cells (fun kv => th_agent kv.2)); [done|]. intros [k t] Hk%elem_of_map_to_list. by apply (ws_threads _ Hd k).
Qed.

Lemma runs_valid : table_valid st "runs" Schema.runs.
Proof.
  apply (table_fits "runs" Schema.runs run_cells (map_to_list (d_runs d)) eq_refl).
  - intros x _. fits. intros ck Hck. apply list_elem_of_singleton in Hck as ->. by destruct (rr_status x.2) eqn:E; cbn; rewrite E.
  - apply Forall_singleton. apply (unique_rows _ fst (fun k => [VString k])); [done|by intros k k' [= ->]|apply map_keys_nodup].
  - apply Forall_cons. split; [|apply Forall_singleton].
    + apply (to_thread "thread_id" run_cells (fun kv => Some (rr_thread_id kv.2))); [done|].
      intros [k r] s Hk%elem_of_map_to_list [= <-]. by apply (ws_runs _ Hd k).
    + apply (to_agent _ run_cells (fun kv => rr_agent kv.2)); [done|]. intros [k r] Hk%elem_of_map_to_list. by apply (ws_runs _ Hd k).
Qed.

Lemma message_keys_apart : NoDup (map (fun m => (ms_run_id m, json_string (ms_message_id m))) (d_thread_messages d)).
Proof.
  pose proof (ws_message_ids _ Hd) as Hn. assert (forall m, m ∈ d_thread_messages d -> exists s, ms_message_id m = JStr s) as Hm.
  { intros m Hin. by apply (ws_messages _ Hd). }
  revert Hn Hm. generalize (d_thread_messages d). intros l. induction l as [|m l IH]; intros Hn Hm; [constructor|].
  cbn in Hn |- *. apply NoDup_cons in Hn as [Hx Hn]. apply NoDup_cons. split; [|apply IH; [done|]; intros; apply Hm; by constructor].
  intros (m'&He&Hin)%list_elem_of_fmap. apply Hx. apply list_elem_of_fmap. exists m'. split; [|done].
  destruct (Hm m ltac:(constructor)) as [s Hs], (Hm m' ltac:(by constructor)) as [s' Hs']. unfold message_key.
  rewrite Hs, Hs' in He |- *. cbn in He. congruence.
Qed.

Lemma thread_messages_valid : table_valid st "thread_messages" Schema.thread_messages.
Proof.
  pose proof (ws_messages _ Hd) as Hm.
  apply (table_fits "thread_messages" Schema.thread_messages (message_cells created_at) (numbered (d_thread_messages d)) eq_refl).
  - intros [i m] Hin%numbered_in. destruct (Hm m Hin) as (_&_&s&Hs). unfold message_cells. cbn [fst snd]. rewrite Hs. fits.
  - apply Forall_cons. split; [|apply Forall_singleton].
    + apply (unique_rows _ fst (fun k => [VInt (Z.of_nat k)])); [done| |apply numbered_nodup]. intros k k' [= ?%Nat2Z.inj]. done.
    + apply (unique_rows _ (fun kv => (ms_run_id kv.2, json_string (ms_message_id kv.2))) (fun k => [VString k.1; k.2])).
      * intros [i m] Hin%numbered_in. destruct (Hm m Hin) as (_&_&s&Hs). cbn. by rewrite Hs.
      * by intros [] [] [= -> ->].
      * rewrite (numbered_map (fun m => (ms_run_id m, json_string (ms_message_id m)))). by apply message_keys_apart.
  - apply Forall_cons. split; [|apply Forall_singleton].
    + apply (to_thread "thread_id" _ (fun kv => Some (ms_thread_id kv.2))); [done|]. intros [i m] s Hin%numbered_in [= <-]. by apply Hm.
    + apply (to_run _ (fun kv => ms_run_id kv.2)); [done|]. intros [i m] Hin%numbered_in. by apply Hm.
Qed.

Lemma run_events_valid : table_valid st "run_events" Schema.run_events.
Proof.
  apply (table_fits "run_events" Schema.run_events (event_cells created_at) (numbered (d_run_events d)) eq_refl); [intros x _; fits|..].
  - apply Forall_singleton. apply (unique_rows _ fst (fun k => [VInt (Z.of_nat k)])); [done| |apply numbered_nodup]. intros k k' [= ?%Nat2Z.inj]. done.
  - apply Forall_singleton. apply (to_run _ (fun kv => ev_run_id kv.2)); [done|]. intros [i e] Hin%numbered_in. by apply (ws_events _ Hd).
Qed.

(** Every constraint of schema.py holds of what is stored. *)
Lemma stored_valid : valid st.
Proof.
  unfold valid. cbn [d_schema stored]. unfold Schema.metadata.
  repeat (apply map_Forall_insert_2; [first [apply providers_valid|apply agents_valid|apply llm_providers_valid|apply threads_valid|apply runs_valid|apply thread_messages_valid]|]).
  apply map_Forall_singleton, run_events_valid.
Qed.
End valid.
(** ** What every write keeps *)

(** Nothing but a row's own, unconstrained columns changed. *)
Definition alike `{Countable K} {V} (R : V -> V -> Prop) (m m' : gmap K V) : Prop := forall k, option_Forall2 R (m !! k) (m' !! k).

Lemma alike_refl `{Countable K} {V} (R : V -> V -> Prop) `{!Reflexive R} (m : gmap K V) : alike R m m.
Proof. intros k. by destruct (m !! k); constructor. Qed.

Lemma alike_alter `{Countable K} {V} (R : V -> V -> Prop) `{!Reflexive R} f k (m : gmap K V) :
  (forall v, R v (f v)) -> alike R m (alter f k m).
Proof. intros Hf j. rewrite lookup_alter. case_decide; subst; [|apply alike_refl; tc_solve]. destruct (m !! j); by constructor. Qed.

Lemma alike_back `{Countable K} {V} (R : V -> V -> Prop) (m m' : gmap K V) k v' :
  alike R m m' -> m' !! k = Some v' -> exists v, m !! k = Some v /\ R v v'.
Proof. intros Ha Hv. specialize (Ha k). rewrite Hv in Ha. inversion Ha as [v ? HR|]; subst. by eauto. Qed.

Lemma alike_some `{Countable K} {V} (R : V -> V -> Prop) (m m' : gmap K V) k : alike R m m' -> is_Some (m !! k) <-> is_Some (m' !! k).
Proof. intros Ha. specialize (Ha k). inversion Ha; split; intros [? ?]; by eauto. Qed.

Definition same_fingerprint (p p' : ProviderRow) : Prop := pv_fingerprint p' = pv_fingerprint p.
Definition same_thread (t t' : ThreadRow) : Prop := th_agent t' = th_agent t /\ th_parent_thread_id t' = th_parent_thread_id t.
Definition same_run (r r' : RunRecord) : Prop := rr_thread_id r' = rr_thread_id r /\ rr_agent r' = rr_agent r.

#[local] Instance same_fingerprint_refl : Reflexive same_fingerprint.
Proof. done. Qed.
#[local] Instance same_thread_refl : Reflexive same_thread.
Proof. done. Qed.
#[local] Instance same_run_refl : Reflexive same_run.
Proof. done. Qed.

Lemma well_stored_alike d d' : well_stored d ->
  alike same_fingerprint (d_providers d) (d_providers d') ->
  alike (fun _ _ => True) (d_agents d) (d_agents d') -> alike (fun _ _ => True) (d_llm_providers d) (d_llm_providers d') ->
  alike same_thread (d_threads d) (d_threads d') -> alike same_run (d_runs d) (d_runs d') ->
  d_thread_messages d' = d_thread_messages d -> d_run_events d' = d_run_events d -> well_stored d'.
Proof.
  intros Hd Hp Ha Hl Ht Hr Hm He. constructor.
  - intros k k' p p' Hk Hk' E. destruct (alike_back _ _ _ _ _ Hp Hk) as (q&Hq&E1), (alike_back _ _ _ _ _ Hp Hk') as (q'&Hq'&E2).
    apply (ws_fingerprints _ Hd k k' q q' Hq Hq'). unfold same_fingerprint in E1, E2. congruence.
  - intros a. rewrite <- (alike_some _ _ _ _ Ha), <- (alike_some _ _ _ _ Hp). apply (ws_agents _ Hd).
  - intros a. rewrite <- (alike_some _ _ _ _ Hl), <- (alike_some _ _ _ _ Hp). apply (ws_llms _ Hd).
  - intros k t Hk. destruct (alike_back _ _ _ _ _ Ht Hk) as (q&Hq&[-> _]). rewrite <- (alike_some _ _ _ _ Ha). by apply (ws_threads _ Hd k).
  - intros k t p Hk E. destruct (alike_back _ _ _ _ _ Ht Hk) as (q&Hq&[_ E']). rewrite <- (alike_some _ _ _ _ Ht).
    apply (ws_parents _ Hd k q); congruence.
  - intros k r Hk. destruct (alike_back _ _ _ _ _ Hr Hk) as (q&Hq&[-> ->]). rewrite <- (alike_some _ _ _ _ Ht), <- (alike_some _ _ _ _ Ha).
    by apply (ws_runs _ Hd k).
  - intros m. rewrite Hm, <- (alike_some _ _ _ _ Ht), <- (alike_some _ _ _ _ Hr). apply (ws_messages _ Hd).
  - rewrite Hm. apply (ws_message_ids _ Hd).
  - intros e. rewrite He, <- (alike_some _ _ _ _ Hr). apply (ws_events _ Hd).
Qed.

Lemma insert_some `{Countable K} {V} (m : gmap K V) i v k : is_Some (m !! k) -> is_Some (<[i := v]> m !! k).
Proof. intros. by apply lookup_insert_is_Some'; right. Qed.

Lemma insert_here `{Countable K} {V} (m : gmap K V) i v : is_Some (<[i := v]> m !! i).
Proof. rewrite lookup_insert_eq. by eexists. Qed.

#[local] Hint Resolve insert_some insert_here : core.

(** Rows added to one table, the others as they were. *)
Lemma well_stored_provider d k p : well_stored d -> d_providers d !! k = None ->
  (forall k' p', d_providers d !! k' = Some p' -> pv_fingerprint p' <> pv_fingerprint p) -> well_stored (set_d_providers (<[k := p]> (d_providers d)) d).
Proof.
  intros Hd Hn Hf. constructor; cbn; [|intros; apply insert_some; by apply (ws_agents _ Hd)|intros; apply insert_some; by apply (ws_llms _ Hd)|apply Hd..].
  intros j j' q q'. rewrite !lookup_insert. repeat case_decide; subst; intros Hj Hj' E; simplify_eq; [done| | |by apply (ws_fingerprints _ Hd j j' q q')].
  - by destruct (Hf _ _ Hj').
  - by destruct (Hf _ _ Hj).
Qed.

Lemma well_stored_agent d a row : well_stored d -> is_Some (d_providers d !! ref_provider_key a) ->
  well_stored (set_d_agents (<[a := row]> (d_agents d)) d).
Proof.
  intros Hd Hp. constructor; cbn; try apply Hd.
  - intros b. rewrite lookup_insert. case_decide; subst; [done|apply Hd].
  - intros k t Hk. apply insert_some. by apply (ws_threads _ Hd k).
  - intros k r Hk. destruct (ws_runs _ Hd k r Hk). auto.
Qed.

Lemma well_stored_llm d a row : well_stored d -> is_Some (d_providers d !! ref_provider_key a) ->
  well_stored (set_d_llm_providers (<[a := row]> (d_llm_providers d)) d).
Proof.
  intros Hd Hp. constructor; cbn; try apply Hd. intros b. rewrite lookup_insert. case_decide; subst; [done|apply Hd].
Qed.

Lemma well_stored_thread d k t : well_stored d -> is_Some (d_agents d !! th_agent t) ->
  (forall p, th_parent_thread_id t = Some p -> is_Some (d_threads d !! p) \/ p = k) ->
  well_stored (set_d_threads (<[k := t]> (d_threads d)) d).
Proof.
  intros Hd Ha Hp. constructor; cbn; try apply Hd.
  - intros j u. rewrite lookup_insert. case_decide; subst; [by intros [= <-]|apply Hd].
  - intros j u p. rewrite lookup_insert. case_decide; subst.
    + intros [= <-] E. destruct (Hp p E) as [?| ->]; auto.
    + intros Hj E. apply insert_some. by apply (ws_parents _ Hd j u).
  - intros j r Hj. destruct (ws_runs _ Hd j r Hj). auto.
  - intros m Hm. destruct (ws_messages _ Hd m Hm) as (?&?&?). auto.
Qed.

Lemma well_stored_run d k r : well_stored d -> is_Some (d_threads d !! rr_thread_id r) -> is_Some (d_agents d !! rr_agent r) ->
  well_stored (set_d_runs (<[k := r]> (d_runs d)) d).
Proof.
  intros Hd Ht Ha. constructor; cbn; try apply Hd.
  - intros j u. rewrite lookup_insert. case_decide; subst; [by intros [= <-]|apply Hd].
  - intros m Hm. destruct (ws_messages _ Hd m Hm) as (?&?&?). auto.
  - intros e He. apply insert_some. by apply (ws_events _ Hd).
Qed.

Lemma well_stored_message d m s : well_stored d -> is_Some (d_threads d !! ms_thread_id m) -> is_Some (d_runs d !! ms_run_id m) ->
  ms_message_id m = JStr s -> message_key m ∉ map message_key (d_thread_messages d) ->
  well_stored (set_d_thread_messages (d_thread_messages d ++ [m]) d).
Proof.
  intros Hd Ht Hr Hs Hn. constructor; cbn; try apply Hd.
  - intros m' [Hm| ->%list_elem_of_singleton]%elem_of_app; [by apply Hd|by eauto].
  - rewrite map_app. apply NoDup_app. split; [apply Hd|]. split; [|apply NoDup_singleton].
    intros x Hx ->%list_elem_of_singleton. done.
Qed.

Lemma well_stored_event d e : well_stored d -> is_Some (d_runs d !! ev_run_id e) ->
  well_stored (set_d_run_events (d_run_events d ++ [e]) d).
Proof. intros Hd Hr. constructor; cbn; try apply Hd. intros e' [He| ->%list_elem_of_singleton]%elem_of_app; [by apply Hd|done]. Qed.

Lemma well_stored_empty : well_stored empty_db.
Proof. constructor; cbn; try (intros; by destruct_or?; rewrite ?lookup_empty in *; set_solver). all: try apply NoDup_nil_2. Qed.

(** ** The writes of repo.py *)

Definition string_id (m : dict) : Prop := exists s, item "id" m = Ok (JStr s).

Inductive wrote (d d' : db) : Prop :=
| wrote_agents now k fp batch name refs : Repo.register_agents now k fp batch name d = Ok (refs, d') -> wrote d d'
| wrote_llms now k fp names metadata refs : Repo.register_llm_providers now k fp names metadata d = Ok (refs, d') -> wrote d d'
| wrote_agents_seen now k names : d' = Repo.touch_agents now k names d -> wrote d d'
| wrote_llms_seen now k names : d' = Repo.touch_llm_providers now k names d -> wrote d d'
| wrote_name now k name : d' = Repo.set_provider_name now k name d -> wrote d d'
| wrote_llm_gone a : d' = (Repo.delete_llm_provider a d).2 -> wrote d d'
| wrote_agent_gone a b : Repo.delete_agent a d = Ok (b, d') -> wrote d d'
| wrote_thread now new_id a t parent metadata make head t' :
    Repo.ensure_thread now new_id a t parent metadata make head d = Ok (t', d') -> wrote d d'
| wrote_run now id t a input chain : Repo.create_run now id t a input chain d = Ok d' -> wrote d d'
| wrote_messages t run l : Forall string_id l -> Repo.append_thread_messages t run l d = Ok d' -> wrote d d'
| wrote_event run seq e : Repo.append_run_event run seq e d = Ok d' -> wrote d d'
| wrote_cancel run by_whom : d' = Repo.record_cancel_request run by_whom d -> wrote d d'
| wrote_status now run s b : Repo.mark_run_status now run s d = Ok (b, d') -> wrote d d'
| wrote_activity now run : d' = Repo.touch_run_activity now run d -> wrote d d'
| wrote_orphans now : d' = (Repo.fail_orphaned_runs now d).2 -> wrote d d'.

(** A write that leaves the rows of every other table as they were. *)
Ltac alikes := first [done|by apply alike_refl; tc_solve|idtac].

#[local] Instance true_preorder {V} : PreOrder (fun _ _ : V => True).
Proof. by split. Qed.

Lemma provider_ok now k fp d d' : well_stored d -> Repo.ensure_provider now k fp d = Ok d' ->
  well_stored d' /\ is_Some (d_providers d' !! k).
Proof.
  intros Hd. unfold Repo.ensure_provider. destruct (d_providers d !! k) as [p|] eqn:Hk; [intros [= <-]; by rewrite Hk|].
  destruct (existsb _ _) eqn:Hx; [done|]. intros [= <-]. cbn. split; [|auto]. apply well_stored_provider; [done|done|].
  intros k' p' Hk' E. apply not_true_iff_false in Hx. apply Hx. apply existsb_exists. exists (k', p'). cbn in *. split.
  - by apply list_elem_of_In, elem_of_map_to_list.
  - rewrite E. apply String.eqb_refl.
Qed.

Lemma named_ok now k n d : well_stored d -> well_stored (Repo.set_provider_name now k n d).
Proof. intros Hd. apply (well_stored_alike d); cbn; [done| |alikes..]. by apply alike_alter; [tc_solve|]. Qed.

Lemma named_providers now k n d j : is_Some (d_providers (Repo.set_provider_name now k n d) !! j) <-> is_Some (d_providers d !! j).
Proof. cbn. rewrite lookup_alter. case_decide; subst; [|done]. by rewrite fmap_is_Some. Qed.

Lemma agent_ok now k a d d' : well_stored d /\ is_Some (d_providers d !! k) -> Repo.register_agent now k a d = Ok d' ->
  well_stored d' /\ is_Some (d_providers d' !! k).
Proof.
  intros [Hd Hk]. unfold Repo.register_agent. destruct (Repo.agent_card a) as [card|]; [|done]. cbn. intros [= <-]. cbn.
  split; [|done]. by apply well_stored_agent.
Qed.

Lemma agents_ok now k fp batch name d refs d' : well_stored d -> Repo.register_agents now k fp batch name d = Ok (refs, d') -> well_stored d'.
Proof.
  intros Hd. unfold Repo.register_agents. destruct (Repo.ensure_provider now k fp d) as [d1|] eqn:H1; [|done]. cbn.
  apply provider_ok in H1 as [Hd1 Hk1]; [|done].
  assert (forall d2, well_stored d2 /\ is_Some (d_providers d2 !! k) ->
    forall d3, fold_res (Repo.register_agent now k) batch d2 = Ok d3 -> well_stored d3) as Hf.
  { intros d2 H2 d3 H3. eapply (fold_res_inv (fun d => well_stored d /\ is_Some (d_providers d !! k))); [exact H2| |exact H3].
    intros x b b' _ Hb. by apply agent_ok. }
  destruct (fold_res _ _ _) as [d3|] eqn:H3; [|done]. cbn. intros [= _ <-]. refine (Hf _ _ _ H3).
  destruct name; [|done]. split; [by apply named_ok|by apply named_providers].
Qed.

Lemma llms_ok now k fp names metadata d refs d' : well_stored d -> Repo.register_llm_providers now k fp names metadata d = Ok (refs, d') -> well_stored d'.
Proof.
  intros Hd. unfold Repo.register_llm_providers. destruct (Repo.ensure_provider now k fp d) as [d1|] eqn:H1; [|done]. cbn.
  apply provider_ok in H1 as [Hd1 Hk1]; [|done]. intros [= _ <-]. clear Hd. revert d1 Hd1 Hk1. induction names as [|n names IH]; intros d1 Hd1 Hk1; [done|].
  cbn. apply IH; [|done]. by apply well_stored_llm.
Qed.

Lemma touched_alike {K} `{Countable K} {V} (R : V -> V -> Prop) `{!PreOrder R} {N} (f : V -> V) (key : N -> K) names (m : gmap K V) :
  (forall v, R v (f v)) -> alike R m (foldl (fun m n => alter f (key n) m) m names).
Proof.
  intros Hf. revert m. induction names as [|n names IH]; intros m; cbn; [apply alike_refl; tc_solve|]. intros k.
  pose proof (alike_alter R f (key n) m Hf k) as H1. specialize (IH (alter f (key n) m) k).
  inversion H1 as [v w HR E1 E2|E1 E2]; rewrite <- E2 in IH; inversion IH; constructor. by etrans.
Qed.

Lemma agent_gone_ok a d b d' : well_stored d -> Repo.delete_agent a d = Ok (b, d') -> well_stored d'.
Proof.
  intros Hd. unfold Repo.delete_agent. destruct (_ || _) eqn:E; [done|]. apply orb_false_iff in E as [Ht Hr]. intros [= _ <-].
  apply Nat.ltb_ge in Ht, Hr. assert (forall k t, d_threads d !! k = Some t -> th_agent t <> a) as Ht'.
  { intros k t Hk Ha. assert ((k, t) ∈ filter (fun kv => mkRef (th_provider_key kv.2) (th_agent_name kv.2) = a) (map_to_list (d_threads d))) as Hin.
    { apply list_elem_of_filter. split; [exact Ha|by apply elem_of_map_to_list]. }
    unfold Repo.count_threads_for_agent in Ht. destruct (filter _ _); [set_solver|cbn in Ht; lia]. }
  assert (forall k r, d_runs d !! k = Some r -> rr_agent r <> a) as Hr'.
  { intros k r Hk Ha. assert (r ∈ filter (fun r => rr_agent r = a /\ true = true) (Repo.all_runs d)) as Hin.
    { apply list_elem_of_filter. split; [done|]. apply list_elem_of_fmap. exists (k, r). split; [done|by apply elem_of_map_to_list]. }
    unfold Repo.count_runs_for_agent in Hr. destruct (filter _ _); [set_solver|cbn in Hr; lia]. }
  constructor; cbn; try apply Hd.
  - intros x [row Hx]. apply lookup_delete_Some in Hx as [_ Hx]. apply (ws_agents _ Hd). by eexists.
  - intros k t Hk. rewrite lookup_delete_ne; [by apply (ws_threads _ Hd k)|]. intros ->. by eapply Ht'.
  - intros k r Hk. destruct (ws_runs _ Hd k r Hk). rewrite lookup_delete_ne; [done|]. intros ->. by eapply Hr'.
Qed.

Lemma llm_gone_ok a d : well_stored d -> well_stored (Repo.delete_llm_provider a d).2.
Proof. intros Hd. constructor; cbn; try apply Hd. intros x [row Hx]. apply lookup_delete_Some in Hx as [_ Hx]. apply (ws_llms _ Hd). by eexists. Qed.

Lemma new_thread_ok now new_id a parent metadata head d t d' : well_stored d ->
  Repo.create_thread now new_id a parent metadata head d = Ok (t, d') -> well_stored d'.
Proof.
  intros Hd. unfold Repo.create_thread. rewrite !guard_or_ok. intros (Hn&Ha%bool_decide_eq_true&Hp&[= _ <-]).
  apply well_stored_thread; [done|by destruct a|]. cbn. intros p ->. apply orb_true_iff in Hp as [Hp%bool_decide_eq_true|Hp%String.eqb_eq]; auto.
Qed.

Lemma thread_ok now new_id a t parent metadata make head d t' d' : well_stored d ->
  Repo.ensure_thread now new_id a t parent metadata make head d = Ok (t', d') -> well_stored d'.
Proof.
  intros Hd. unfold Repo.ensure_thread. destruct t as [t|]; [|by apply new_thread_ok].
  destruct (Repo.get_thread t d) as [row|]; [|by destruct make; [apply new_thread_ok|]].
  case_bool_decide; [done|]. destruct (match th_head_key row with Some _ => _ | None => _ end); [done|]. intros [= _ <-].
  apply (well_stored_alike d); cbn; [done|alikes..]. by apply alike_alter; [tc_solve|].
Qed.

Lemma run_ok now id t a input chain d d' : well_stored d -> Repo.create_run now id t a input chain d = Ok d' -> well_stored d'.
Proof.
  intros Hd. unfold Repo.create_run. rewrite !guard_or_ok. intros (_&Ht%bool_decide_eq_true&Ha%bool_decide_eq_true&[= <-]).
  apply well_stored_run; [done|done|by destruct a].
Qed.

Lemma message_ok t run m d d' : string_id m -> well_stored d -> Repo.append_thread_message t run m d = Ok d' -> well_stored d'.
Proof.
  intros [s Hs] Hd. unfold Repo.append_thread_message. rewrite Hs. cbn -[json_eqb]. rewrite !guard_or_ok.
  intros (Hn%negb_true_iff&[Ht%bool_decide_eq_true Hr%bool_decide_eq_true]%andb_true_iff&[= <-]).
  apply (well_stored_message _ _ s); [done..|]. intros (m'&He&Hin)%list_elem_of_fmap. apply not_true_iff_false in Hn. apply Hn.
  apply existsb_exists. exists m'. split; [by apply list_elem_of_In|]. injection He as -> <-. cbn. rewrite String.eqb_refl. cbn.
  apply String.eqb_refl.
Qed.

Lemma messages_ok t run l d d' : Forall string_id l -> well_stored d -> Repo.append_thread_messages t run l d = Ok d' -> well_stored d'.
Proof.
  intros Hl Hd. apply (fold_res_inv well_stored); [done|]. intros m b b' Hm Hb. apply message_ok; [|done]. rewrite Forall_forall in Hl. by apply Hl.
Qed.

Lemma event_ok run seq e d d' : well_stored d -> Repo.append_run_event run seq e d = Ok d' -> well_stored d'.
Proof. intros Hd. unfold Repo.append_run_event. rewrite guard_or_ok. intros (Hr%bool_decide_eq_true&[= <-]). by apply well_stored_event. Qed.

Lemma status_ok now run s d b d' : well_stored d -> Repo.mark_run_status now run s d = Ok (b, d') -> well_stored d'.
Proof.
  intros Hd (r&Hr&[(_&_& ->)|[_ ->]])%RepoFacts.mark_ok; [|done]. destruct (ws_runs _ Hd run r Hr). apply well_stored_run; [done|..].
  - by destruct s.
  - by destruct s.
Qed.

Lemma orphans_alike now d : alike same_run (d_runs d) (d_runs (Repo.fail_orphaned_runs now d).2).
Proof. intros k. rewrite RepoFacts.orphans_lookup. destruct (d_runs d !! k) as [r|]; cbn; constructor. by case_bool_decide. Qed.

Lemma wrote_ok d d' : well_stored d -> wrote d d' -> well_stored d'.
Proof.
  intros Hd [now k fp batch name refs H|now k fp names me refs H|now k names ->|now k names ->|now k name ->|a ->|a b H|now new_id a t pa me make head t' H
    |now id t a input chain H|t run l Hl H|run seq e H|run who ->|now run s b H|now run ->|now ->].
  - by eapply agents_ok.
  - by eapply llms_ok.
  - apply (well_stored_alike d); cbn; [done|alikes..]. by apply (touched_alike (fun _ _ => True)).
  - apply (well_stored_alike d); cbn; [done|alikes..]. by apply (touched_alike (fun _ _ => True)).
  - by apply named_ok.
  - by apply llm_gone_ok.
  - by eapply agent_gone_ok.
  - by eapply thread_ok.
  - by eapply run_ok.
  - by eapply messages_ok.
  - by eapply event_ok.
  - apply (well_stored_alike d); cbn; [done|alikes..]. by apply alike_alter; [tc_solve|].
  - by eapply status_ok.
  - apply (well_stored_alike d); cbn; [done|alikes..]. by apply alike_alter; [tc_solve|].
  - apply (well_stored_alike d); cbn; [done|alikes..]. apply orphans_alike.
Qed.


Module Witness.

(** An agent registered, a thread opened, a run created, said to, offered, run. *)
Definition agent : AgentRef := mkRef "K" "a".
Definition registered : db :=
  match Repo.register_agents 1 "K" "fp" [Repo.mkRegistration "a" "an agent" [] JNull true] (Some "P") empty_db with Ok (_, d) => d | Err _ => empty_db end.
Definition opened : db :=
  match Repo.ensure_thread 2 "t" agent None None JNull true (Some "H") registered with Ok (_, d) => d | Err _ => registered end.
Definition queued_run : db := match Repo.create_run 3 "r" "t" agent [] None opened with Ok d => d | Err _ => opened end.
Definition said : db :=
  match Repo.append_thread_messages "t" "r" [[("id", JStr "m1"); ("role", JStr "user")]; [("id", JStr "m2"); ("role", JStr "user")]] queued_run with
  | Ok d => d | Err _ => queued_run end.
Definition offered : db := match Repo.mark_run_status 4 "r" offering said with Ok (_, d) => d | Err _ => said end.
Definition heard : db := match Repo.append_run_event "r" 1 [("type", JStr "RUN_STARTED")] offered with Ok d => d | Err _ => offered end.

Lemma heard_written : rtc wrote empty_db heard.
Proof.
  eapply rtc_l with (y := registered);
    [eapply (wrote_agents _ _ 1%Z "K" "fp" [Repo.mkRegistration "a" "an agent" [] JNull true] (Some "P")); vm_compute; reflexivity|].
  eapply rtc_l with (y := opened); [eapply (wrote_thread _ _ 2%Z "t" agent None None JNull true (Some "H")); vm_compute; reflexivity|].
  eapply rtc_l with (y := queued_run); [apply (wrote_run _ _ 3%Z "r" "t" agent [] None); vm_compute; reflexivity|].
  eapply rtc_l with (y := said).
  { apply (wrote_messages _ _ "t" "r" [[("id", JStr "m1"); ("role", JStr "user")]; [("id", JStr "m2"); ("role", JStr "user")]]);
      [|vm_compute; reflexivity]. repeat constructor; by eexists. }
  eapply rtc_l with (y := offered); [eapply (wrote_status _ _ 4%Z "r" offering); vm_compute; reflexivity|].
  eapply rtc_l with (y := heard); [|apply rtc_refl]. apply (wrote_event _ _ "r" 1 [("type", JStr "RUN_STARTED")]). vm_compute. reflexivity.
Defined.


(** The schema does refuse: a run whose status is no status, a message of no run. *)
Lemma bad_rows_are_refused :
  bool_decide (valid (stored 5 (set_d_runs ∅ heard))) = false /\
  bool_decide (valid (stored 5 (set_d_thread_messages (d_thread_messages heard ++ d_thread_messages heard) heard))) = false.
Proof. split; vm_compute; reflexivity. Qed.

End Witness.

End StoredOk.
