(* ===== verification/Lineage.v ===== *)
(** * Lineages end, and agree about their root

    A run names its parent when it is created; the loops of [Repo] that walk
    parents and newest children carry fuel.  Ids are minted after the request
    that names a parent arrived, so no run is named before it exists: then a
    rank grows along every step, the fuel [fuel_of] always suffices, and every
    run of a lineage leads back to the run it started from. *)

From S2P Require Import Prelude Errors Json Models Crypto Repo RepoFacts.

Module Lineage.
Import Repo RepoFacts.

Definition keyed (d : db) : Prop := forall id r, d_runs d !! id = Some r -> rr_run_id r = id.

Definition ranked (rank : string -> nat) (d : db) : Prop := forall id r p,
  d_runs d !! id = Some r -> rr_parent_run_id r = Some p -> is_Some (d_runs d !! p) -> rank p < rank id.

(** A write that gives a new run an id no run names as its parent yet. *)
Definition minted (d d' : db) : Prop :=
  db_step d d' /\
  forall id, d_runs d !! id = None -> is_Some (d_runs d' !! id) ->
    forall k r, d_runs d' !! k = Some r -> rr_parent_run_id r <> Some id.

Definition lineage_ok (d : db) : Prop := keyed d /\ exists rank, ranked rank d.

(** ** The invariant *)

Lemma run_step_ids r r' : run_step r r' ->
  rr_run_id r' = rr_run_id r /\ rr_parent_run_id r' = rr_parent_run_id r.
Proof. intros [->|now s l _ _ ->|who ->|now ->|now _ ->]; try done. by destruct s. Qed.

(** A step keeps every run and adds at most one. *)
Lemma db_step_new d d' : db_step d d' -> exists new,
  forall id r', d_runs d' !! id = Some r' -> d_runs d !! id = None -> id = new /\ rr_run_id r' = id.
Proof.
  intros [now i t a inp ch Hs|now i s b Hs|i who ->|now i ->|now ->|Hs].
  - apply create_ok in Hs as (Hn&r&Heq&Hid&_). exists i. intros id r'. rewrite Heq, lookup_insert.
    case_decide; subst; [by intros [= <-]|congruence].
  - exists "". apply mark_ok in Hs as (r&Hr&[(_&_&->)|[_ ->]]); [|congruence]. intros id r'. cbn.
    rewrite lookup_insert. case_decide; congruence.
  - exists "". intros id r'. cbn. rewrite lookup_alter. destruct (decide (i = id)) as [->|]; [|congruence].
    intros Hr' Hn. by rewrite Hn in Hr'.
  - exists "". intros id r'. cbn. rewrite lookup_alter. destruct (decide (i = id)) as [->|]; [|congruence].
    intros Hr' Hn. by rewrite Hn in Hr'.
  - exists "". intros id r'. rewrite orphans_lookup. intros Hr' Hn. by rewrite Hn in Hr'.
  - exists "". rewrite Hs. congruence.
Qed.

Definition max_rank (rank : string -> nat) (d : db) : nat :=
  foldr (fun kv n => Nat.max (rank kv.1) n) 0 (map_to_list (d_runs d)).

Lemma max_rank_le rank d id : is_Some (d_runs d !! id) -> rank id <= max_rank rank d.
Proof.
  intros [r Hr%elem_of_map_to_list]. unfold max_rank. revert Hr. generalize (map_to_list (d_runs d)).
  intros l. induction l as [|[k x] l IH]; [by intros ?%not_elem_of_nil|]. cbn.
  intros [[= <- <-]|Hl]%elem_of_cons; [lia|]. specialize (IH Hl). lia.
Qed.

Lemma minted_ok d d' : minted d d' -> lineage_ok d -> lineage_ok d'.
Proof.
  intros [Hs Hmint] (Hk&rank&Hr). destruct (db_step_new _ _ Hs) as [new Hnew].
  assert (Hold : forall id r', d_runs d' !! id = Some r' -> is_Some (d_runs d !! id) ->
    exists r, d_runs d !! id = Some r /\ rr_run_id r' = rr_run_id r /\ rr_parent_run_id r' = rr_parent_run_id r).
  { intros id r' Hr' [r Hid]. destruct (db_step_run _ _ _ _ Hs Hid) as (r1&Hr1&Hst). simplify_eq.
    apply run_step_ids in Hst. eauto. }
  split.
  - intros id r' Hr'. destruct (d_runs d !! id) as [r|] eqn:Hid; [|by eapply Hnew].
    destruct (Hold _ _ Hr' ltac:(by eexists)) as (r0&Hr0&->&_). by eapply Hk.
  - exists (fun k => if decide (is_Some (d_runs d !! k)) then rank k else S (max_rank rank d)).
    intros id r' p Hr' Hp Hsome. destruct (decide (is_Some (d_runs d !! p))) as [Hpd|Hpd].
    + destruct (decide (is_Some (d_runs d !! id))) as [Hid|Hid].
      * destruct (Hold _ _ Hr' Hid) as (r&Hrd&_&Heq). eapply Hr; [exact Hrd|congruence|done].
      * apply max_rank_le with (rank := rank) in Hpd. lia.
    + apply eq_None_not_Some in Hpd. by destruct (Hmint p Hpd Hsome _ _ Hr').
Qed.

Lemma minted_reachable_ok d : rtc minted empty_db d -> lineage_ok d.
Proof.
  revert d. refine (rtc_ind_r lineage_ok empty_db _ _).
  - split; [intros id r|exists (fun _ => 0); intros id r p]; cbn; by rewrite lookup_empty.
  - intros d1 d2 _ Hm Hok. by eapply minted_ok.
Qed.

(** ** The measures *)

Lemma filter_length_lt {A} (P Q : A -> Prop) `{!forall x, Decision (P x), !forall x, Decision (Q x)} l x :
  (forall y, P y -> Q y) -> x ∈ l -> Q x -> ~ P x -> length (filter P l) < length (filter Q l).
Proof.
  intros HPQ Hx HQ HP.
  assert (Hle : forall l, length (filter P l) <= length (filter Q l)).
  { clear -HPQ. induction l as [|y l IH]; [done|]. rewrite !filter_cons. repeat case_decide; cbn; try lia. naive_solver. }
  induction l as [|y l IH]; [by apply not_elem_of_nil in Hx|]. rewrite !filter_cons.
  apply elem_of_cons in Hx as [<-|Hx].
  - rewrite decide_False, decide_True by done. cbn. specialize (Hle l). lia.
  - specialize (IH Hx). repeat case_decide; cbn; try lia. naive_solver.
Qed.

Section ranks.
Context (d : db) (rank : string -> nat).
Hypothesis Hk : keyed d.
Hypothesis Hr : ranked rank d.

Definition above (n : nat) : nat := length (filter (fun r => n < rank (rr_run_id r)) (all_runs d)).
Definition below (n : nat) : nat := length (filter (fun r => rank (rr_run_id r) < n) (all_runs d)).

Definition stored (r : RunRecord) : Prop := d_runs d !! rr_run_id r = Some r.

Lemma stored_all r : stored r <-> r ∈ all_runs d.
Proof.
  unfold stored, all_runs. rewrite list_elem_of_fmap. split.
  - intros Hs%elem_of_map_to_list. by exists (rr_run_id r, r).
  - intros ([k r']&->&Hs%elem_of_map_to_list). cbn in *. by rewrite (Hk _ _ Hs).
Qed.

Lemma measures_bounded n : above n <= size (d_runs d) /\ below n <= size (d_runs d).
Proof.
  assert (Hl : length (all_runs d) = size (d_runs d)) by (unfold all_runs; rewrite length_fmap; apply length_map_to_list).
  rewrite <- Hl. split; apply length_filter.
Qed.

Lemma get_stored id r : get_run id d = Some r -> stored r.
Proof. intros Hg. unfold stored. by rewrite (Hk _ _ Hg). Qed.

Lemma newest_child_stored id c : newest_child id d = Some c -> stored c /\ rr_parent_run_id c = Some id.
Proof.
  unfold newest_child. intros Hc%last_Some_elem_of. apply list_elem_of_filter in Hc as [Hp Hc]. split; [|done].
  apply stored_all. unfold runs_sorted in Hc. by rewrite (merge_sort_Permutation run_le) in Hc.
Qed.

Lemma child_above cur c : stored cur -> newest_child (rr_run_id cur) d = Some c ->
  stored c /\ above (rank (rr_run_id c)) < above (rank (rr_run_id cur)).
Proof.
  intros Hcur Hc. apply newest_child_stored in Hc as [Hs Hp]. split; [done|].
  assert (rank (rr_run_id cur) < rank (rr_run_id c)) by (eapply Hr; [exact Hs|done|by eexists]).
  eapply (filter_length_lt _ _ _ c); [intros y ?; cbn in *; lia|by apply stored_all|done|lia].
Qed.

Lemma parent_below cur p parent : stored cur -> rr_parent_run_id cur = Some p -> get_run p d = Some parent ->
  stored parent /\ below (rank (rr_run_id parent)) < below (rank (rr_run_id cur)).
Proof.
  intros Hcur Hp Hg. pose proof (get_stored _ _ Hg) as Hs. split; [done|].
  assert (rank p < rank (rr_run_id cur)) by (eapply Hr; [exact Hcur|done|by eexists]).
  rewrite (Hk _ _ Hg). eapply (filter_length_lt _ _ _ parent); [intros y ?; cbn in *; lia|by apply stored_all| |].
  - by rewrite (Hk _ _ Hg).
  - rewrite (Hk _ _ Hg). lia.
Qed.

(** ** The walks end *)

Lemma lineage_from_total fuel cur : stored cur -> above (rank (rr_run_id cur)) < fuel ->
  exists l t, lineage_from fuel d cur = Some l /\ head l = Some cur /\ last l = Some t /\
    tail_from fuel d cur = Some t /\ newest_child (rr_run_id t) d = None.
Proof.
  revert cur. induction fuel as [|fuel IH]; intros cur Hs Hf; [lia|]. cbn.
  destruct (newest_child (rr_run_id cur) d) as [c|] eqn:Hc; [|by exists [cur], cur].
  destruct (child_above _ _ Hs Hc) as [Hsc Hlt]. destruct (IH c Hsc ltac:(lia)) as (l&t&Hl&Hh&Ht&Htl&Hn).
  exists (cur :: l), t. rewrite Hl. split_and!; [done|done| |done|done].
  destruct l; [done|exact Ht].
Qed.

Lemma root_from_total fuel cur : stored cur -> below (rank (rr_run_id cur)) < fuel ->
  exists root, root_from fuel d cur = Some root.
Proof.
  revert cur. induction fuel as [|fuel IH]; intros cur Hs Hf; [lia|]. cbn.
  destruct (rr_parent_run_id cur) as [p|] eqn:Hp; [|by eexists].
  destruct (get_run p d) as [parent|] eqn:Hg; [|by eexists].
  destruct (parent_below _ _ _ Hs Hp Hg) as [Hsp Hlt]. apply IH; [done|lia].
Qed.

Lemma root_from_mono fuel cur root : root_from fuel d cur = Some root -> root_from (S fuel) d cur = Some root.
Proof.
  revert cur. induction fuel as [|fuel IH]; intros cur; [done|]. intros Hf. change (root_from (S (S fuel)) d cur) with
    (match rr_parent_run_id cur with None => Some (rr_run_id cur) | Some p =>
       match get_run p d with None => Some (rr_run_id cur) | Some parent => root_from (S fuel) d parent end end).
  cbn in Hf. destruct (rr_parent_run_id cur); [|done]. destruct (get_run _ d); [by apply IH|done].
Qed.

(** A child has its parent's root. *)
Lemma child_root cur c root : stored cur -> newest_child (rr_run_id cur) d = Some c ->
  root_of cur d = Some root -> root_of c d = Some root.
Proof.
  intros Hs Hc Hroot. destruct (newest_child_stored _ _ Hc) as [Hsc Hp].
  unfold root_of, fuel_of in *. cbn. rewrite Hp. unfold get_run. rewrite Hs.
  destruct (parent_below c _ cur Hsc Hp Hs) as [_ Hlt]. destruct (measures_bounded (rank (rr_run_id c))) as [_ Hb].
  destruct (root_from_total (size (d_runs d)) cur Hs ltac:(lia)) as [x Hx].
  rewrite Hx. apply root_from_mono in Hx. congruence.
Qed.

Lemma lineage_roots fuel cur l root : stored cur -> lineage_from fuel d cur = Some l -> root_of cur d = Some root ->
  forall m, m ∈ l -> stored m /\ root_of m d = Some root.
Proof.
  revert cur l. induction fuel as [|fuel IH]; intros cur l Hs; [done|]. cbn.
  destruct (newest_child (rr_run_id cur) d) as [c|] eqn:Hc.
  - destruct (lineage_from fuel d c) as [l'|] eqn:Hl; [|done]. cbn. intros [= <-] Hroot m [->|Hm]%elem_of_cons; [done|].
    destruct (newest_child_stored _ _ Hc) as [Hsc _]. eapply (IH c); [done|done|by apply (child_root cur)|done].
  - intros [= <-] Hroot m ->%list_elem_of_singleton. done.
Qed.
End ranks.

(** C10. Lineages end: in a database whose run ids were minted, walking from
    any run to its newest children terminates within the fuel, the tail is the
    last run of the lineage and has no child, and walking to the root
    terminates too. *)
Theorem lineages_end d id r : rtc minted empty_db d -> get_run id d = Some r ->
  exists l t root, lineage id d = Some l /\ head l = Some r /\ last l = Some t /\
    lineage_tail id d = Some (Some t) /\ newest_child (rr_run_id t) d = None /\ root_of r d = Some root.
Proof.
  intros (Hk&rank&Hr)%minted_reachable_ok Hg. pose proof (get_stored d Hk _ _ Hg) as Hs.
  destruct (measures_bounded d rank (rank (rr_run_id r))) as [Ha Hb].
  destruct (lineage_from_total d rank Hk Hr (fuel_of d) r Hs) as (l&t&Hl&Hh&Ht&Htl&Hn); [unfold fuel_of; lia|].
  destruct (root_from_total d rank Hk Hr (fuel_of d) r Hs) as [root Hroot]; [unfold fuel_of; lia|].
  exists l, t, root. unfold lineage, lineage_tail. rewrite Hg, Htl. done.
Qed.

(** A task has one id: every run of the lineage of a run without parent
    has that run as its root, so the id a caller holds (and signs over) is the
    same whichever run of the conversation is asking. *)
Theorem one_root_per_lineage d id r l : rtc minted empty_db d ->
  get_run id d = Some r -> rr_parent_run_id r = None -> lineage id d = Some l ->
  forall m, m ∈ l -> root_of m d = Some id.
Proof.
  intros (Hk&rank&Hr)%minted_reachable_ok Hg Hp Hl m Hm. pose proof (get_stored d Hk _ _ Hg) as Hs.
  assert (Hroot : root_of r d = Some id) by (unfold root_of, fuel_of; cbn; rewrite Hp; f_equal; by apply Hk).
  unfold lineage in Hl. rewrite Hg in Hl. by eapply (lineage_roots d rank Hk Hr).
Qed.

(** ** A conversation of two runs *)
Module Witness.
Import RepoFacts.Witness.

Definition e1 : db := getd (create_run 1 "r1" "t" agent [] None base).
Definition e2 : db := getd (create_run 2 "r2" "t" agent [("parentRunId", JStr "r1")] None e1).
Definition run_of (d : db) (id : string) : RunRecord := default (row_of d2) (d_runs d !! id).

Lemma minted_create now id inp d d' : create_run now id "t" agent inp None d = Ok d' ->
  opt_str (get "parentRunId" inp) <> Some id ->
  forallb (fun kv => negb (bool_decide (rr_parent_run_id kv.2 = Some id))) (map_to_list (d_runs d)) = true ->
  minted d d'.
Proof.
  intros Hc Hne Hall. split; [by eapply step_create|]. apply create_ok in Hc as (Hn&r&Heq&_&_&_&_&_&_&Hpar&_).
  rewrite Heq. intros id' Hn' Hs k r0. destruct (decide (id = id')) as [<-|Hid].
  - rewrite lookup_insert. case_decide; [intros [= <-]; congruence|]. intros Hr0%elem_of_map_to_list Hbad.
    rewrite forallb_forall in Hall. apply list_elem_of_In, Hall in Hr0. cbn in Hr0.
    by rewrite bool_decide_eq_true_2 in Hr0.
  - rewrite lookup_insert_ne in Hs by done. rewrite Hn' in Hs. by destruct Hs.
Qed.

Lemma e2_minted : rtc minted empty_db e2.
Proof.
  eapply rtc_l; [split; [by apply (step_other _ base)|]|].
  { intros id _ Hs k r. unfold base. cbn. by rewrite lookup_empty. }
  eapply rtc_l; [apply (minted_create 1 "r1" [] base e1); [vm_compute; reflexivity|done|vm_compute; reflexivity]|].
  apply rtc_once, (minted_create 2 "r2" [("parentRunId", JStr "r1")] e1 e2); [vm_compute; reflexivity|done|vm_compute; reflexivity].
Qed.

Lemma lineages_end_witness : exists l t root, lineage "r1" e2 = Some l /\ head l = Some (run_of e2 "r1") /\ last l = Some t /\
  lineage_tail "r1" e2 = Some (Some t) /\ newest_child (rr_run_id t) e2 = None /\ root_of (run_of e2 "r1") e2 = Some root.
Proof. apply (lineages_end e2 "r1" (run_of e2 "r1")); [exact e2_minted|vm_compute; reflexivity]. Defined.

Lemma one_root_per_lineage_witness : root_of (run_of e2 "r2") e2 = Some "r1".
Proof.
  apply (one_root_per_lineage e2 "r1" (run_of e2 "r1") [run_of e2 "r1"; run_of e2 "r2"]);
    [exact e2_minted|vm_compute; reflexivity..|]. right. left.
Defined.
End Witness.
End Lineage.
