(* ===== verification/Coop.v ===== *)
(** * Cooperative tasks

    asyncio runs one coroutine at a time and switches only where an [await]
    suspends.  A [comp] is a coroutine over a shared world: it runs to its end
    or to the next suspension in one step, and a suspended one is resumed on
    whatever world the others left.  The second half is a rely-guarantee
    program logic for such tasks and its soundness for a system of one task
    per name plus atomic calls from outside. *)

From S2P Require Import Prelude.

Section coop.
Context {W : Type}.

Inductive susp (A : Type) : Type :=
| Done (a : A)
| Yield (k : W -> W * susp A).
Arguments Done {A} _.
Arguments Yield {A} _.

Definition comp (A : Type) : Type := W -> W * susp A.

Definition ret {A} (a : A) : comp A := fun w => (w, Done a).

Fixpoint sbind {A B} (s : susp A) (f : A -> comp B) (w : W) : W * susp B :=
  match s with
  | Done a => f a w
  | Yield k => (w, Yield (fun w' => let '(w1, s1) := k w' in sbind s1 f w1))
  end.

(** [c] then [f]: what follows [c]'s last suspension runs on without another. *)
Definition cbind {A B} (c : comp A) (f : A -> comp B) : comp B :=
  fun w => let '(w1, s) := c w in sbind s f w1.

(** An [await] that suspends. *)
Definition suspend : comp () := fun w => (w, Yield (fun w' => (w', Done ()))).

Definition reads {A} (f : W -> A) : comp A := fun w => (w, Done (f w)).
Definition modify (f : W -> W) : comp () := fun w => (f w, Done ()).

(** A coroutine over a part of the world, run on the whole. *)
Fixpoint run_alone {A} (sched : list (W -> W)) (s : susp A) (w : W) : W * susp A :=
  match s, sched with
  | Done a, _ => (w, Done a)
  | Yield k, [] => (w, Yield k)
  | Yield k, other :: sched => let '(w', s') := k (other w) in run_alone sched s' w'
  end.

(** ** Program logic

    [R] is what the others may do while the task is suspended, [G] what one
    of its own segments does to the others, [I] what holds at every
    suspension. *)
Section logic.
Context (I : W -> Prop) (R G : W -> W -> Prop).

Fixpoint post {A} (s : susp A) (Q : A -> W -> W -> Prop) (w0 w : W) : Prop :=
  match s with
  | Done a => Q a w0 w
  | Yield k => G w0 w /\ I w /\
      forall w', R w w' -> I w' -> let '(w1, s1) := k w' in post s1 Q w' w1
  end.

(** In a segment begun in [w0], running [c] from [w] ends in [Q]. *)
Definition wp {A} (c : comp A) (Q : A -> W -> W -> Prop) (w0 w : W) : Prop :=
  let '(w1, s) := c w in post s Q w0 w1.

Lemma post_mono {A} (s : susp A) (Q Q' : A -> W -> W -> Prop) w0 w :
  (forall a v0 v, Q a v0 v -> Q' a v0 v) -> post s Q w0 w -> post s Q' w0 w.
Proof.
  intros HQ. revert s w0 w. fix IH 1. intros [a|k] w0 w; simpl; [apply HQ|].
  intros (HG & HI & Hk). split; [done|]. split; [done|]. intros w' HR HI'.
  specialize (Hk w' HR HI'). destruct (k w') as [w1 s1]. by apply IH.
Qed.

Lemma wp_mono {A} (c : comp A) (Q Q' : A -> W -> W -> Prop) w0 w :
  (forall a v0 v, Q a v0 v -> Q' a v0 v) -> wp c Q w0 w -> wp c Q' w0 w.
Proof. unfold wp. destruct (c w). apply post_mono. Qed.

Lemma post_bind {A B} (s : susp A) (f : A -> comp B) Q w0 w :
  post s (fun a v0 v => wp (f a) Q v0 v) w0 w -> let '(w1, s1) := sbind s f w in post s1 Q w0 w1.
Proof.
  revert s w0 w. fix IH 1. intros [a|k] w0 w; simpl; [done|].
  intros (HG & HI & Hk). split; [done|]. split; [done|]. intros w' HR HI'.
  specialize (Hk w' HR HI'). destruct (k w') as [w1 s1]. by apply IH.
Qed.

Lemma wp_bind {A B} (c : comp A) (f : A -> comp B) Q w0 w :
  wp c (fun a v0 v => wp (f a) Q v0 v) w0 w -> wp (cbind c f) Q w0 w.
Proof. unfold wp at 1 3, cbind. destruct (c w) as [w1 s]. apply post_bind. Qed.

Lemma wp_ret {A} (a : A) (Q : A -> W -> W -> Prop) w0 w : Q a w0 w -> wp (ret a) Q w0 w.
Proof. done. Qed.

Lemma wp_modify f (Q : () -> W -> W -> Prop) w0 w : Q () w0 (f w) -> wp (modify f) Q w0 w.
Proof. done. Qed.

Lemma wp_reads {A} (f : W -> A) (Q : A -> W -> W -> Prop) w0 w : Q (f w) w0 w -> wp (reads f) Q w0 w.
Proof. done. Qed.

Lemma wp_suspend (Q : () -> W -> W -> Prop) w0 w :
  G w0 w -> I w -> (forall w', R w w' -> I w' -> Q () w' w') -> wp suspend Q w0 w.
Proof. intros HG HI HQ. split; [done|]. split; [done|]. exact HQ. Qed.
End logic.

(** ** A system of tasks

    [body t w] is the coroutine task [t] starts when it is idle and has
    something to do in [w]. *)
Section system.
Context {T : Type} `{Countable T}.
Context (body : T -> W -> option (comp ())) (outside : W -> W -> Prop).

Notation state := (W * gmap T (susp ()))%type.

(** What a task does when a segment returns: gone if [Done], parked if not. *)
Definition park (t : T) (s : susp ()) (m : gmap T (susp ())) : gmap T (susp ()) :=
  match s with Done _ => delete t m | Yield _ => <[t := s]> m end.

Inductive sys_step : state -> state -> Prop :=
| sys_outside w w' m : outside w w' -> sys_step (w, m) (w', m)
| sys_start t c w w' s m :
    m !! t = None -> body t w = Some c -> c w = (w', s) ->
    sys_step (w, m) (w', park t s m)
| sys_resume t k w w' s m :
    m !! t = Some (Yield k) -> k w = (w', s) ->
    sys_step (w, m) (w', park t s m).

Context (I : W -> Prop) (L : T -> W -> Prop) (R : T -> W -> W -> Prop) (G : T -> W -> W -> Prop).
Context `{!forall t, PreOrder (R t)}.
Context (G_R : forall t t' w w', t <> t' -> G t w w' -> R t' w w').
Context (outside_ok : forall w w', outside w w' -> I w -> I w' /\ forall t, R t w w').
Context (L_stable : forall t w w', I w -> I w' -> R t w w' -> L t w -> L t w').
Context (body_ok : forall t c w, I w -> L t w -> body t w = Some c ->
  wp I (R t) (G t) c (fun _ w0 w' => G t w0 w' /\ I w' /\ L t w') w w).

Definition done_ok (t : T) (_ : ()) (w0 w : W) : Prop := G t w0 w /\ I w /\ L t w.

(** A parked task still on its way to [done_ok]. *)
Definition pending (t : T) (s : susp ()) (w : W) : Prop :=
  match s with
  | Done _ => False
  | Yield k => forall w', R t w w' -> I w' ->
      let '(w1, s1) := k w' in post I (R t) (G t) s1 (done_ok t) w' w1
  end.

Definition sys_inv (st : state) : Prop :=
  I st.1 /\ forall t, match st.2 !! t with
                 | None => L t st.1
                 | Some s => pending t s st.1
                 end.

Lemma pending_stable t s w w' : R t w w' -> pending t s w -> pending t s w'.
Proof.
  destruct s as [a|k]; simpl; [done|]. intros HR Hk w1 HR1 HI1. apply Hk; [|done]. by etrans.
Qed.

(** A segment of [t] that ends well keeps the whole system's invariant. *)
Lemma segment_ok t w0 w s m :
  I w0 -> (forall t', t' <> t -> match m !! t' with None => L t' w0 | Some s' => pending t' s' w0 end) ->
  post I (R t) (G t) s (done_ok t) w0 w -> sys_inv (w, park t s m).
Proof.
  intros HI0 Hothers Hs.
  assert (HG : G t w0 w /\ I w) by (destruct s as [a|k]; simpl in Hs; [destruct Hs as (?&?&?)|destruct Hs as (?&?&?)]; done).
  destruct HG as [HG HI]. split; [done|]. intros t'. simpl.
  destruct (decide (t' = t)) as [->|Hne].
  - destruct s as [a|k]; simpl.
    + rewrite lookup_delete_eq. by destruct Hs as (_ & _ & ?).
    + rewrite lookup_insert_eq. simpl. by destruct Hs as (_ & _ & ?).
  - assert (Hm : park t s m !! t' = m !! t')
      by (destruct s; simpl; [rewrite lookup_delete_ne|rewrite lookup_insert_ne]; done).
    rewrite Hm. specialize (Hothers t' Hne). assert (HR : R t' w0 w) by (eapply G_R; [|done]; congruence).
    destruct (m !! t') as [s1|]; [exact (pending_stable _ s1 _ _ HR Hothers)|exact (L_stable _ _ _ HI0 HI HR Hothers)].
Qed.

Lemma sys_step_inv st st' : sys_step st st' -> sys_inv st -> sys_inv st'.
Proof.
  intros [w w' m Hout|t c w w' s m Hm Hb Hc|t k w w' s m Hm Hk] [HI Ht]; simpl in *.
  - destruct (outside_ok _ _ Hout HI) as [HI' HR]. split; [done|]. intros t. simpl. specialize (Ht t).
    destruct (m !! t) as [s1|]; [exact (pending_stable _ s1 _ _ (HR t) Ht)|exact (L_stable _ _ _ HI HI' (HR t) Ht)].
  - pose proof (Ht t) as HL. rewrite Hm in HL. pose proof (body_ok _ _ _ HI HL Hb) as Hwp.
    unfold wp in Hwp. rewrite Hc in Hwp. eapply segment_ok; [exact HI| |exact Hwp].
    intros t' _. apply Ht.
  - pose proof (Ht t) as HP. rewrite Hm in HP. simpl in HP.
    specialize (HP w ltac:(reflexivity) HI). rewrite Hk in HP. eapply segment_ok; [exact HI| |exact HP].
    intros t' _. apply Ht.
Qed.

Lemma sys_reachable_inv st st' : rtc sys_step st st' -> sys_inv st -> sys_inv st'.
Proof. induction 1; eauto using sys_step_inv. Qed.
End system.
End coop.

Arguments susp _ _ : clear implicits.
Arguments comp _ _ : clear implicits.
Arguments Done {W A} _.
Arguments Yield {W A} _.

Declare Scope comp_scope.
Delimit Scope comp_scope with comp.
Notation "x <- c ;; k" := (cbind c (fun x => k)) (at level 100, c at next level, right associativity) : comp_scope.
Notation "c ;; k" := (cbind c (fun _ => k)) (at level 100, right associativity) : comp_scope.

(** ** Focusing on a part of the world *)
Section focus.
Context {W V : Type} (view : W -> option V) (put : V -> W -> W).

(** Run a coroutine over [V] where the world keeps its [V]; one whose part is
    missing is over. *)
Fixpoint focus_susp (s : susp V ()) : susp W () :=
  match s with
  | Done a => Done a
  | Yield k => Yield (fun w =>
      match view w with
      | None => (w, Done ())
      | Some v => let '(v', s') := k v in (put v' w, focus_susp s')
      end)
  end.

Definition focus (c : comp V ()) : comp W () := fun w =>
  match view w with
  | None => (w, Done ())
  | Some v => let '(v', s') := c v in (put v' w, focus_susp s')
  end.
End focus.
