(* ===== verification/BrokerState.v ===== *)
(** * The broker's state (funduq/broker.py)

    Its commands, inbox messages, runs, thread and provider handlers as the
    dataclasses have them, and the broker's own dicts.  A [Run] object is
    known by its run id (ids are minted fresh, one [Run] per id): [b_heap]
    holds every [Run] ever created, [b_runs] the ids of the dict [_runs] in
    its order.  A thread handler whose task runs is an entry of [b_threads].

    [b_now] is what the clock says.  A spawned task is the run's field that
    holds it: [Pending id] until it fires or is cancelled.  [r_out_queue] is
    everything put on the run's queue and [r_taken] how much its consumer
    has taken. *)

From S2P Require Import Prelude Errors Json Models.

Module Broker.

(** ** The record vocabulary *)

Inductive command : Type :=
| Offer
| Claim
| RelayEvent (event : json)
| FinishStream
| RequestCancel
| Fail (code : string) (message : option string).

(** An [accepted] as [answer_offer] is given it: an object with a string
    [reason], or anything else by its truth. *)
Inductive verdict : Type :=
| Refusal (reason : string)
| Answer (accepted : bool).

Inductive message : Type :=
| Queued_ (run : string)
| Answered_ (run_id provider_key : string) (accepted : verdict)
| Said_ (run_id origin : string) (cmd : command)
| Trusted_ (run_id : string) (cmd : command)
| CancelAsked_ (run_id : string)
| OfferLapsed_ (run_id : string) (offer_id : nat)
| Undelivered_ (run_id : string)
| Poke_.

Inductive out_item : Type :=
| Item (event : json)
| END_OF_STREAM.

#[global] Instance out_item_eq_dec : EqDecision out_item.
Proof. solve_decision. Defined.

(** ** Connections, compared by identity ([conn_id]) *)

Record ConnectedProvider : Type := mkConn {
  conn_id : nat;
  public_key : string;
  max_concurrent_runs : option Z;
}.

(** Python's [is]. *)
Definition is_conn (a b : option ConnectedProvider) : bool :=
  match a, b with
  | None, None => true
  | Some x, Some y => Nat.eqb (conn_id x) (conn_id y)
  | _, _ => false
  end.

(** A spawned [asyncio.Task] holding the offer id it was started with. *)
Inductive task : Type :=
| Pending (offer_id : nat)
| Finished.

Inductive abnormal : Type :=
| misdeclared
| abandoned
| undelivered
| unanswered.

#[global] Instance abnormal_eq_dec : EqDecision abnormal.
Proof. solve_decision. Defined.

Definition _COUNTERS : list abnormal := [misdeclared; abandoned; undelivered; unanswered].

(** ** One run, from queued to forgotten *)

Record Run : Type := mkRun {
  r_run_id : string;
  r_agent : AgentRef;
  r_thread_id : string;
  r_input_json : dict;
  r_queued_at : Z;
  r_seq : Z;
  r_addressed_run_id : option string;
  r_offered_to : option string;
  r_offered_conn : option ConnectedProvider;
  r_offer_id : nat;
  r_verdict_open : bool;
  r_offer_timer : option task;
  r_handover_task : option task;
  r_is_interjection : bool;
  r_claimed_by : option string;
  r_noted_abnormal : bool;
  r_poison : option string;
  r_cancel_notify : option ConnectedProvider;
  r_cancel_requested : bool;
  r_saw_run_finished : bool;
  r_saw_run_error : bool;
  r_out_queue : list out_item;
  r_taken : nat;
  r_stream_open : bool;
  r_settled : bool;
}.

Definition set_r_seq (v : Z) (x : Run) : Run :=
  mkRun (r_run_id x) (r_agent x) (r_thread_id x) (r_input_json x) (r_queued_at x) v (r_addressed_run_id x) (r_offered_to x) (r_offered_conn x) (r_offer_id x) (r_verdict_open x) (r_offer_timer x) (r_handover_task x) (r_is_interjection x) (r_claimed_by x) (r_noted_abnormal x) (r_poison x) (r_cancel_notify x) (r_cancel_requested x) (r_saw_run_finished x) (r_saw_run_error x) (r_out_queue x) (r_taken x) (r_stream_open x) (r_settled x).

Definition set_r_offered_to (v : option string) (x : Run) : Run :=
  mkRun (r_run_id x) (r_agent x) (r_thread_id x) (r_input_json x) (r_queued_at x) (r_seq x) (r_addressed_run_id x) v (r_offered_conn x) (r_offer_id x) (r_verdict_open x) (r_offer_timer x) (r_handover_task x) (r_is_interjection x) (r_claimed_by x) (r_noted_abnormal x) (r_poison x) (r_cancel_notify x) (r_cancel_requested x) (r_saw_run_finished x) (r_saw_run_error x) (r_out_queue x) (r_taken x) (r_stream_open x) (r_settled x).

Definition set_r_offered_conn (v : option ConnectedProvider) (x : Run) : Run :=
  mkRun (r_run_id x) (r_agent x) (r_thread_id x) (r_input_json x) (r_queued_at x) (r_seq x) (r_addressed_run_id x) (r_offered_to x) v (r_offer_id x) (r_verdict_open x) (r_offer_timer x) (r_handover_task x) (r_is_interjection x) (r_claimed_by x) (r_noted_abnormal x) (r_poison x) (r_cancel_notify x) (r_cancel_requested x) (r_saw_run_finished x) (r_saw_run_error x) (r_out_queue x) (r_taken x) (r_stream_open x) (r_settled x).

Definition set_r_offer_id (v : nat) (x : Run) : Run :=
  mkRun (r_run_id x) (r_agent x) (r_thread_id x) (r_input_json x) (r_queued_at x) (r_seq x) (r_addressed_run_id x) (r_offered_to x) (r_offered_conn x) v (r_verdict_open x) (r_offer_timer x) (r_handover_task x) (r_is_interjection x) (r_claimed_by x) (r_noted_abnormal x) (r_poison x) (r_cancel_notify x) (r_cancel_requested x) (r_saw_run_finished x) (r_saw_run_error x) (r_out_queue x) (r_taken x) (r_stream_open x) (r_settled x).

Definition set_r_verdict_open (v : bool) (x : Run) : Run :=
  mkRun (r_run_id x) (r_agent x) (r_thread_id x) (r_input_json x) (r_queued_at x) (r_seq x) (r_addressed_run_id x) (r_offered_to x) (r_offered_conn x) (r_offer_id x) v (r_offer_timer x) (r_handover_task x) (r_is_interjection x) (r_claimed_by x) (r_noted_abnormal x) (r_poison x) (r_cancel_notify x) (r_cancel_requested x) (r_saw_run_finished x) (r_saw_run_error x) (r_out_queue x) (r_taken x) (r_stream_open x) (r_settled x).

Definition set_r_offer_timer (v : option task) (x : Run) : Run :=
  mkRun (r_run_id x) (r_agent x) (r_thread_id x) (r_input_json x) (r_queued_at x) (r_seq x) (r_addressed_run_id x) (r_offered_to x) (r_offered_conn x) (r_offer_id x) (r_verdict_open x) v (r_handover_task x) (r_is_interjection x) (r_claimed_by x) (r_noted_abnormal x) (r_poison x) (r_cancel_notify x) (r_cancel_requested x) (r_saw_run_finished x) (r_saw_run_error x) (r_out_queue x) (r_taken x) (r_stream_open x) (r_settled x).

Definition set_r_handover_task (v : option task) (x : Run) : Run :=
  mkRun (r_run_id x) (r_agent x) (r_thread_id x) (r_input_json x) (r_queued_at x) (r_seq x) (r_addressed_run_id x) (r_offered_to x) (r_offered_conn x) (r_offer_id x) (r_verdict_open x) (r_offer_timer x) v (r_is_interjection x) (r_claimed_by x) (r_noted_abnormal x) (r_poison x) (r_cancel_notify x) (r_cancel_requested x) (r_saw_run_finished x) (r_saw_run_error x) (r_out_queue x) (r_taken x) (r_stream_open x) (r_settled x).

Definition set_r_is_interjection (v : bool) (x : Run) : Run :=
  mkRun (r_run_id x) (r_agent x) (r_thread_id x) (r_input_json x) (r_queued_at x) (r_seq x) (r_addressed_run_id x) (r_offered_to x) (r_offered_conn x) (r_offer_id x) (r_verdict_open x) (r_offer_timer x) (r_handover_task x) v (r_claimed_by x) (r_noted_abnormal x) (r_poison x) (r_cancel_notify x) (r_cancel_requested x) (r_saw_run_finished x) (r_saw_run_error x) (r_out_queue x) (r_taken x) (r_stream_open x) (r_settled x).

Definition set_r_claimed_by (v : option string) (x : Run) : Run :=
  mkRun (r_run_id x) (r_agent x) (r_thread_id x) (r_input_json x) (r_queued_at x) (r_seq x) (r_addressed_run_id x) (r_offered_to x) (r_offered_conn x) (r_offer_id x) (r_verdict_open x) (r_offer_timer x) (r_handover_task x) (r_is_interjection x) v (r_noted_abnormal x) (r_poison x) (r_cancel_notify x) (r_cancel_requested x) (r_saw_run_finished x) (r_saw_run_error x) (r_out_queue x) (r_taken x) (r_stream_open x) (r_settled x).

Definition set_r_noted_abnormal (v : bool) (x : Run) : Run :=
  mkRun (r_run_id x) (r_agent x) (r_thread_id x) (r_input_json x) (r_queued_at x) (r_seq x) (r_addressed_run_id x) (r_offered_to x) (r_offered_conn x) (r_offer_id x) (r_verdict_open x) (r_offer_timer x) (r_handover_task x) (r_is_interjection x) (r_claimed_by x) v (r_poison x) (r_cancel_notify x) (r_cancel_requested x) (r_saw_run_finished x) (r_saw_run_error x) (r_out_queue x) (r_taken x) (r_stream_open x) (r_settled x).

Definition set_r_poison (v : option string) (x : Run) : Run :=
  mkRun (r_run_id x) (r_agent x) (r_thread_id x) (r_input_json x) (r_queued_at x) (r_seq x) (r_addressed_run_id x) (r_offered_to x) (r_offered_conn x) (r_offer_id x) (r_verdict_open x) (r_offer_timer x) (r_handover_task x) (r_is_interjection x) (r_claimed_by x) (r_noted_abnormal x) v (r_cancel_notify x) (r_cancel_requested x) (r_saw_run_finished x) (r_saw_run_error x) (r_out_queue x) (r_taken x) (r_stream_open x) (r_settled x).

Definition set_r_cancel_notify (v : option ConnectedProvider) (x : Run) : Run :=
  mkRun (r_run_id x) (r_agent x) (r_thread_id x) (r_input_json x) (r_queued_at x) (r_seq x) (r_addressed_run_id x) (r_offered_to x) (r_offered_conn x) (r_offer_id x) (r_verdict_open x) (r_offer_timer x) (r_handover_task x) (r_is_interjection x) (r_claimed_by x) (r_noted_abnormal x) (r_poison x) v (r_cancel_requested x) (r_saw_run_finished x) (r_saw_run_error x) (r_out_queue x) (r_taken x) (r_stream_open x) (r_settled x).

Definition set_r_cancel_requested (v : bool) (x : Run) : Run :=
  mkRun (r_run_id x) (r_agent x) (r_thread_id x) (r_input_json x) (r_queued_at x) (r_seq x) (r_addressed_run_id x) (r_offered_to x) (r_offered_conn x) (r_offer_id x) (r_verdict_open x) (r_offer_timer x) (r_handover_task x) (r_is_interjection x) (r_claimed_by x) (r_noted_abnormal x) (r_poison x) (r_cancel_notify x) v (r_saw_run_finished x) (r_saw_run_error x) (r_out_queue x) (r_taken x) (r_stream_open x) (r_settled x).

Definition set_r_saw_run_finished (v : bool) (x : Run) : Run :=
  mkRun (r_run_id x) (r_agent x) (r_thread_id x) (r_input_json x) (r_queued_at x) (r_seq x) (r_addressed_run_id x) (r_offered_to x) (r_offered_conn x) (r_offer_id x) (r_verdict_open x) (r_offer_timer x) (r_handover_task x) (r_is_interjection x) (r_claimed_by x) (r_noted_abnormal x) (r_poison x) (r_cancel_notify x) (r_cancel_requested x) v (r_saw_run_error x) (r_out_queue x) (r_taken x) (r_stream_open x) (r_settled x).

Definition set_r_saw_run_error (v : bool) (x : Run) : Run :=
  mkRun (r_run_id x) (r_agent x) (r_thread_id x) (r_input_json x) (r_queued_at x) (r_seq x) (r_addressed_run_id x) (r_offered_to x) (r_offered_conn x) (r_offer_id x) (r_verdict_open x) (r_offer_timer x) (r_handover_task x) (r_is_interjection x) (r_claimed_by x) (r_noted_abnormal x) (r_poison x) (r_cancel_notify x) (r_cancel_requested x) (r_saw_run_finished x) v (r_out_queue x) (r_taken x) (r_stream_open x) (r_settled x).

Definition set_r_out_queue (v : list out_item) (x : Run) : Run :=
  mkRun (r_run_id x) (r_agent x) (r_thread_id x) (r_input_json x) (r_queued_at x) (r_seq x) (r_addressed_run_id x) (r_offered_to x) (r_offered_conn x) (r_offer_id x) (r_verdict_open x) (r_offer_timer x) (r_handover_task x) (r_is_interjection x) (r_claimed_by x) (r_noted_abnormal x) (r_poison x) (r_cancel_notify x) (r_cancel_requested x) (r_saw_run_finished x) (r_saw_run_error x) v (r_taken x) (r_stream_open x) (r_settled x).

Definition set_r_taken (v : nat) (x : Run) : Run :=
  mkRun (r_run_id x) (r_agent x) (r_thread_id x) (r_input_json x) (r_queued_at x) (r_seq x) (r_addressed_run_id x) (r_offered_to x) (r_offered_conn x) (r_offer_id x) (r_verdict_open x) (r_offer_timer x) (r_handover_task x) (r_is_interjection x) (r_claimed_by x) (r_noted_abnormal x) (r_poison x) (r_cancel_notify x) (r_cancel_requested x) (r_saw_run_finished x) (r_saw_run_error x) (r_out_queue x) v (r_stream_open x) (r_settled x).

Definition set_r_stream_open (v : bool) (x : Run) : Run :=
  mkRun (r_run_id x) (r_agent x) (r_thread_id x) (r_input_json x) (r_queued_at x) (r_seq x) (r_addressed_run_id x) (r_offered_to x) (r_offered_conn x) (r_offer_id x) (r_verdict_open x) (r_offer_timer x) (r_handover_task x) (r_is_interjection x) (r_claimed_by x) (r_noted_abnormal x) (r_poison x) (r_cancel_notify x) (r_cancel_requested x) (r_saw_run_finished x) (r_saw_run_error x) (r_out_queue x) (r_taken x) v (r_settled x).

Definition set_r_settled (v : bool) (x : Run) : Run :=
  mkRun (r_run_id x) (r_agent x) (r_thread_id x) (r_input_json x) (r_queued_at x) (r_seq x) (r_addressed_run_id x) (r_offered_to x) (r_offered_conn x) (r_offer_id x) (r_verdict_open x) (r_offer_timer x) (r_handover_task x) (r_is_interjection x) (r_claimed_by x) (r_noted_abnormal x) (r_poison x) (r_cancel_notify x) (r_cancel_requested x) (r_saw_run_finished x) (r_saw_run_error x) (r_out_queue x) (r_taken x) (r_stream_open x) v.

Definition new_run (run_id : string) (agent : AgentRef) (thread_id : string) (input_json : dict)
    (queued_at seq : Z) (addressed_run_id : option string) : Run :=
  mkRun run_id agent thread_id input_json queued_at seq addressed_run_id None None 0 false None None
    false None false None None false false false [] 0 false false.

(** ** One provider key's presence *)

Record ProviderHandler : Type := mkProvider {
  p_public_key : string;
  p_connection : option ConnectedProvider;
  p_declared : option Z;
  p_in_flight : Z;
  p_counters : list (abnormal * nat);
}.

Definition set_p_connection (v : option ConnectedProvider) (x : ProviderHandler) : ProviderHandler :=
  mkProvider (p_public_key x) v (p_declared x) (p_in_flight x) (p_counters x).

Definition set_p_declared (v : option Z) (x : ProviderHandler) : ProviderHandler :=
  mkProvider (p_public_key x) (p_connection x) v (p_in_flight x) (p_counters x).

Definition set_p_in_flight (v : Z) (x : ProviderHandler) : ProviderHandler :=
  mkProvider (p_public_key x) (p_connection x) (p_declared x) v (p_counters x).

Definition set_p_counters (v : list (abnormal * nat)) (x : ProviderHandler) : ProviderHandler :=
  mkProvider (p_public_key x) (p_connection x) (p_declared x) (p_in_flight x) v.

Definition new_provider (public_key : string) : ProviderHandler :=
  mkProvider public_key None None 0 (map (fun c => (c, 0)) _COUNTERS).

Definition has_room (p : ProviderHandler) : bool :=
  match p_declared p with None => true | Some n => (p_in_flight p <? n)%Z end.

Definition counter (event : abnormal) (p : ProviderHandler) : nat := default 0 (aget event (p_counters p)).

Definition bump (event : abnormal) (p : ProviderHandler) : ProviderHandler :=
  set_p_counters (aset event (S (counter event p)) (p_counters p)) p.

(** ** One thread's owner *)

Record ThreadHandler : Type := mkThread {
  t_thread_id : string;
  t_agent : AgentRef;
  t_inbox : list message;
  t_queue : list string;
  t_live : list string;
}.

Definition set_t_inbox (v : list message) (x : ThreadHandler) : ThreadHandler :=
  mkThread (t_thread_id x) (t_agent x) v (t_queue x) (t_live x).

Definition set_t_queue (v : list string) (x : ThreadHandler) : ThreadHandler :=
  mkThread (t_thread_id x) (t_agent x) (t_inbox x) v (t_live x).

Definition set_t_live (v : list string) (x : ThreadHandler) : ThreadHandler :=
  mkThread (t_thread_id x) (t_agent x) (t_inbox x) (t_queue x) v.

(** ** The broker *)

Record broker : Type := mkBroker {
  b_heap : gmap string Run;
  b_runs : list string;
  b_run_threads : gmap string string;
  b_threads : gmap string ThreadHandler;
  b_serving : list (AgentRef * string);
  b_providers : gmap string ProviderHandler;
  b_agent_threads : gmap AgentRef (gset string);
  b_unserved_since : gmap AgentRef Z;
  b_handlers : gset string;
  b_quality_tolerance : option nat;
  b_work_to_do : bool;
  b_running : bool;
  b_now : Z;
}.

Definition set_b_heap (v : gmap string Run) (x : broker) : broker :=
  mkBroker v (b_runs x) (b_run_threads x) (b_threads x) (b_serving x) (b_providers x) (b_agent_threads x) (b_unserved_since x) (b_handlers x) (b_quality_tolerance x) (b_work_to_do x) (b_running x) (b_now x).

Definition set_b_runs (v : list string) (x : broker) : broker :=
  mkBroker (b_heap x) v (b_run_threads x) (b_threads x) (b_serving x) (b_providers x) (b_agent_threads x) (b_unserved_since x) (b_handlers x) (b_quality_tolerance x) (b_work_to_do x) (b_running x) (b_now x).

Definition set_b_run_threads (v : gmap string string) (x : broker) : broker :=
  mkBroker (b_heap x) (b_runs x) v (b_threads x) (b_serving x) (b_providers x) (b_agent_threads x) (b_unserved_since x) (b_handlers x) (b_quality_tolerance x) (b_work_to_do x) (b_running x) (b_now x).

Definition set_b_threads (v : gmap string ThreadHandler) (x : broker) : broker :=
  mkBroker (b_heap x) (b_runs x) (b_run_threads x) v (b_serving x) (b_providers x) (b_agent_threads x) (b_unserved_since x) (b_handlers x) (b_quality_tolerance x) (b_work_to_do x) (b_running x) (b_now x).

Definition set_b_serving (v : list (AgentRef * string)) (x : broker) : broker :=
  mkBroker (b_heap x) (b_runs x) (b_run_threads x) (b_threads x) v (b_providers x) (b_agent_threads x) (b_unserved_since x) (b_handlers x) (b_quality_tolerance x) (b_work_to_do x) (b_running x) (b_now x).

Definition set_b_providers (v : gmap string ProviderHandler) (x : broker) : broker :=
  mkBroker (b_heap x) (b_runs x) (b_run_threads x) (b_threads x) (b_serving x) v (b_agent_threads x) (b_unserved_since x) (b_handlers x) (b_quality_tolerance x) (b_work_to_do x) (b_running x) (b_now x).

Definition set_b_agent_threads (v : gmap AgentRef (gset string)) (x : broker) : broker :=
  mkBroker (b_heap x) (b_runs x) (b_run_threads x) (b_threads x) (b_serving x) (b_providers x) v (b_unserved_since x) (b_handlers x) (b_quality_tolerance x) (b_work_to_do x) (b_running x) (b_now x).

Definition set_b_unserved_since (v : gmap AgentRef Z) (x : broker) : broker :=
  mkBroker (b_heap x) (b_runs x) (b_run_threads x) (b_threads x) (b_serving x) (b_providers x) (b_agent_threads x) v (b_handlers x) (b_quality_tolerance x) (b_work_to_do x) (b_running x) (b_now x).

Definition set_b_handlers (v : gset string) (x : broker) : broker :=
  mkBroker (b_heap x) (b_runs x) (b_run_threads x) (b_threads x) (b_serving x) (b_providers x) (b_agent_threads x) (b_unserved_since x) v (b_quality_tolerance x) (b_work_to_do x) (b_running x) (b_now x).

Definition set_b_quality_tolerance (v : option nat) (x : broker) : broker :=
  mkBroker (b_heap x) (b_runs x) (b_run_threads x) (b_threads x) (b_serving x) (b_providers x) (b_agent_threads x) (b_unserved_since x) (b_handlers x) v (b_work_to_do x) (b_running x) (b_now x).

Definition set_b_work_to_do (v : bool) (x : broker) : broker :=
  mkBroker (b_heap x) (b_runs x) (b_run_threads x) (b_threads x) (b_serving x) (b_providers x) (b_agent_threads x) (b_unserved_since x) (b_handlers x) (b_quality_tolerance x) v (b_running x) (b_now x).

Definition set_b_running (v : bool) (x : broker) : broker :=
  mkBroker (b_heap x) (b_runs x) (b_run_threads x) (b_threads x) (b_serving x) (b_providers x) (b_agent_threads x) (b_unserved_since x) (b_handlers x) (b_quality_tolerance x) (b_work_to_do x) v (b_now x).

Definition set_b_now (v : Z) (x : broker) : broker :=
  mkBroker (b_heap x) (b_runs x) (b_run_threads x) (b_threads x) (b_serving x) (b_providers x) (b_agent_threads x) (b_unserved_since x) (b_handlers x) (b_quality_tolerance x) (b_work_to_do x) (b_running x) v.

Definition empty_broker (quality_tolerance : option nat) : broker :=
  mkBroker ∅ [] ∅ ∅ [] ∅ ∅ ∅ ∅ quality_tolerance false false 0.

End Broker.
