(* ===== verification/BrokerOps.v ===== *)
(** * The broker's synchronous operations (funduq/broker.py)

    Doors, roster, capacity, the clock: everything that runs without an
    [await], as functions on the broker's state. *)

From S2P Require Import Prelude Errors Json Models.
From S2P Require Export BrokerState.

Module BrokerOps.
Import Broker.

(** ** Reaching the objects *)

Definition upd_run (run_id : string) (f : Run -> Run) (b : broker) : broker :=
  set_b_heap (alter f run_id (b_heap b)) b.

Definition upd_thread (thread_id : string) (f : ThreadHandler -> ThreadHandler) (b : broker) : broker :=
  set_b_threads (alter f thread_id (b_threads b)) b.

(** [self._provider(key)], made on first sight, then changed by [f]. *)
Definition _provider (key : string) (b : broker) : ProviderHandler :=
  default (new_provider key) (b_providers b !! key).

Definition upd_provider (key : string) (f : ProviderHandler -> ProviderHandler) (b : broker) : broker :=
  set_b_providers (<[key := f (_provider key b)]> (b_providers b)) b.

(** [handler.inbox.put_nowait(m)]. *)
Definition put_nowait (thread_id : string) (m : message) : broker -> broker :=
  upd_thread thread_id (fun h => set_t_inbox (t_inbox h ++ [m]) h).

(** The first occurrence, as [list.remove] and [deque.remove]. *)
Fixpoint remove1 (x : string) (l : list string) : list string :=
  match l with
  | [] => []
  | y :: l' => if decide (x = y) then l' else y :: remove1 x l'
  end.

(** ** The doors *)

Definition _post (run_id : string) (m : message) (b : broker) : bool * broker :=
  match b_run_threads b !! run_id with
  | None => (false, b)
  | Some t => (true, put_nowait t m b)
  end.

Definition answer_offer (run_id : string) (accepted : verdict) (provider_key : string) : broker -> bool * broker :=
  _post run_id (Answered_ run_id provider_key accepted).

Definition report_event (run_id : string) (event : json) (origin : string) : broker -> bool * broker :=
  _post run_id (Said_ run_id origin (RelayEvent event)).

Definition finish_stream (run_id origin : string) : broker -> bool * broker :=
  _post run_id (Said_ run_id origin FinishStream).

Definition push (run_id : string) (cmd : command) : broker -> bool * broker :=
  _post run_id (Trusted_ run_id cmd).

Definition note_undelivered (run_id : string) : broker -> bool * broker :=
  _post run_id (Undelivered_ run_id).

(** [self._runs.get(run_id)]. *)
Definition tracked (run_id : string) (b : broker) : option Run :=
  if bool_decide (run_id ∈ b_runs b) then b_heap b !! run_id else None.

Definition request_cancel (run_id : string) (b : broker) : bool * broker :=
  match tracked run_id b with
  | None => (false, b)
  | Some _ => _post run_id (CancelAsked_ run_id) (upd_run run_id (set_r_cancel_requested true) b)
  end.

(** ** Intake *)

Definition _thread_handler (thread_id : string) (agent : AgentRef) (b : broker) : broker :=
  match b_threads b !! thread_id with
  | Some _ => b
  | None =>
      set_b_threads (<[thread_id := mkThread thread_id agent [] [] []]> (b_threads b))
        (set_b_agent_threads
           (<[agent := {[thread_id]} ∪ default ∅ (b_agent_threads b !! agent)]> (b_agent_threads b)) b)
  end.

Definition enqueue_run (run_id : string) (agent : AgentRef) (thread_id : string) (input_json : dict)
    (seq : Z) (addressed_run_id : option string) (b : broker) : py broker :=
  if b_running b then
    let run := new_run run_id agent thread_id input_json (b_now b) seq addressed_run_id in
    let b := _thread_handler thread_id agent b in
    let b := set_b_heap (<[run_id := run]> (b_heap b)) b in
    let b := set_b_runs (if bool_decide (run_id ∈ b_runs b) then b_runs b else b_runs b ++ [run_id]) b in
    let b := set_b_run_threads (<[run_id := thread_id]> (b_run_threads b)) b in
    let b := set_b_handlers ({[run_id]} ∪ b_handlers b) b in
    Ok (put_nowait thread_id (Queued_ run_id) b)
  else Err RuntimeError.

(** ** Pokes *)

Definition _poke_threads (b : broker) : broker :=
  set_b_threads ((fun h => set_t_inbox (t_inbox h ++ [Poke_]) h) <$> b_threads b) b.

Definition _poke_agent (agent : AgentRef) (b : broker) : broker :=
  foldl (fun b t => put_nowait t Poke_ b) b (elements (default ∅ (b_agent_threads b !! agent))).

(** ** The roster *)

Definition serving (agent : AgentRef) (b : broker) : option ConnectedProvider :=
  match aget agent (b_serving b) with
  | None => None
  | Some key => match b_providers b !! key with Some p => p_connection p | None => None end
  end.

Definition agents_served_by (key : string) (b : broker) : list AgentRef :=
  (filter (fun kv => kv.2 = key) (b_serving b)).*1.

Definition register_one (b : broker) (kv : AgentRef * ConnectedProvider) : broker :=
  let '(ref, connection) := kv in
  let b := set_b_serving (aset ref (public_key connection) (b_serving b)) b in
  let b := upd_provider (public_key connection) (fun p =>
             set_p_declared (max_concurrent_runs connection) (set_p_connection (Some connection) p)) b in
  set_b_unserved_since (delete ref (b_unserved_since b)) b.

Definition register_provider (mapping : list (AgentRef * ConnectedProvider)) (b : broker) : broker :=
  let b := foldl register_one b mapping in
  let b := set_b_work_to_do true b in
  foldl (fun b kv => _poke_agent kv.1 b) b mapping.

(** Fail every run of [ref] that a provider holds. *)
Definition fail_held (ref : AgentRef) (b : broker) (run_id : string) : broker :=
  match b_heap b !! run_id with
  | Some run =>
      if bool_decide (r_agent run <> ref) || bool_decide (r_claimed_by run = None) then b
      else (push run_id (Fail "provider_left_holding_it" None) b).2
  | None => b
  end.

Definition unregister_one (b : broker) (ref : AgentRef) : broker :=
  match aget ref (b_serving b) with
  | None => b
  | Some _ =>
      let b := set_b_serving (adel ref (b_serving b)) b in
      let b := set_b_unserved_since (<[ref := b_now b]> (b_unserved_since b)) b in
      let b := foldl (fail_held ref) b (b_runs b) in
      _poke_agent ref b
  end.

Definition unregister_provider (agents : list AgentRef) (b : broker) : broker :=
  foldl unregister_one b agents.

Definition _note_abnormal (key : string) (event : abnormal) (b : broker) : broker :=
  let b := upd_provider key (bump event) b in
  match b_quality_tolerance b with
  | None => b
  | Some tolerance =>
      if Nat.ltb (counter event (_provider key b)) tolerance then b
      else match agents_served_by key b with
           | [] => b
           | agents => unregister_provider agents b
           end
  end.

Definition _note_misdeclared (provider_key : string) (b : broker) : broker :=
  if has_room (_provider provider_key b) then _note_abnormal provider_key misdeclared b else b.

(** ** Capacity *)

(** [if provider.in_flight > 0: provider.in_flight -= 1]. *)
Definition free_place (p : ProviderHandler) : ProviderHandler :=
  if (0 <? p_in_flight p)%Z then set_p_in_flight (p_in_flight p - 1)%Z p else p.

Definition _release (run_id : string) (b : broker) : broker :=
  match b_heap b !! run_id with
  | None => b
  | Some run =>
      let b := upd_run run_id (fun r => set_r_offered_conn None (set_r_offered_to None r)) b in
      match r_offered_to run with
      | Some key =>
          match b_providers b !! key with
          | Some p => set_b_providers (<[key := free_place p]> (b_providers b)) b
          | None => b
          end
      | None => b
      end
  end.

(** ** Dropping a run; the listeners are called by [Dispatch._forget]. *)
Definition forget (run_id : string) (b : broker) : broker :=
  let was := tracked run_id b in
  let b := set_b_runs (remove1 run_id (b_runs b)) b in
  let b := set_b_run_threads (delete run_id (b_run_threads b)) b in
  let b := set_b_handlers (b_handlers b ∖ {[run_id]}) b in
  match was with
  | None => b
  | Some run =>
      let b := upd_run run_id (set_r_settled true) b in
      let b := if bool_decide (r_offered_to run = None) then b else _release run_id b in
      _poke_threads (set_b_work_to_do true b)
  end.

(** ** Observation *)

Definition get (run_id : string) (b : broker) : option Run := tracked run_id b.

Definition subscribe (run_id : string) (b : broker) : py (bool * broker) :=
  match tracked run_id b with
  | None => Ok (false, b)
  | Some run =>
      if r_stream_open run then Err StreamTaken
      else Ok (true, upd_run run_id (set_r_stream_open true) b)
  end.

(** One turn of [_drain_run]'s loop: the item taken, if there is one. *)
Definition drain (r : Run) : Run :=
  match r_out_queue r !! r_taken r with
  | None => r
  | Some END_OF_STREAM => set_r_stream_open false (set_r_taken (S (r_taken r)) r)
  | Some (Item _) => set_r_taken (S (r_taken r)) r
  end.

Definition active_run_ids (b : broker) : list string := b_runs b.

(** [quality()]: in_flight, declared and the counters, per key. *)
Definition quality (key : string) (b : broker) : option (Z * option Z * list nat) :=
  (fun p => (p_in_flight p, p_declared p, map (fun c => counter c p) _COUNTERS)) <$> b_providers b !! key.

(** ** The clock *)

Definition expires (timeout : Z) (b : broker) (run : Run) : bool :=
  bool_decide (r_claimed_by run = None) && bool_decide (r_offered_to run = None) &&
  bool_decide (serving (r_agent run) b = None) &&
  (match b_unserved_since b !! r_agent run with
   | Some since => Z.max (r_queued_at run) since
   | None => r_queued_at run
   end <=? b_now b - timeout)%Z.

Definition expire_one (timeout : Z) (st : list string * broker) (run_id : string) : list string * broker :=
  let '(expired, b) := st in
  match b_heap b !! run_id with
  | Some run => if expires timeout b run
                then (expired ++ [run_id], (push run_id (Fail "no_provider_took_it" None) b).2)
                else (expired, b)
  | None => (expired, b)
  end.

Definition expire_queued (timeout : Z) (b : broker) : list string * broker :=
  foldl (expire_one timeout) ([], b) (b_runs b).

(** One turn of [run_forever] up to its wait. *)
Definition sweep (timeout : Z) (b : broker) : broker :=
  _poke_threads (set_b_work_to_do false (expire_queued timeout b).2).

(** [start()]. *)
Definition start (b : broker) : broker :=
  if b_running b then b else set_b_running true (set_b_work_to_do false b).

End BrokerOps.
