(* ===== verification/Dispatch.v ===== *)
(** * The thread handler (funduq/broker.py)

    The coroutines of the broker as cooperative tasks over the world: the
    broker and the store its record handlers write.  A thread's task runs one
    message of its inbox at a time; it suspends only inside a record handler,
    and everything else in the process runs there. *)

From S2P Require Import Prelude Errors Json Models Coop.
From S2P Require Export BrokerState BrokerOps.

Module Dispatch.
Import Broker BrokerOps.

Record world (S : Type) : Type := mkWorld { w_broker : broker; w_store : S }.
Arguments mkWorld {S} _ _.
Arguments w_broker {S} _.
Arguments w_store {S} _.

(** What the broker needs of the code around it: the record handlers
    ([HandlerMap], over the [Run] they are given and the store), the forget
    listener, and AG-UI's validation of the input ([None], or its error). *)
Class Seams (S : Type) : Type := {
  handler_of : command -> comp (Run * S) ();
  forget_listener : string -> S -> S;
  run_agent_input_error : dict -> option string;
}.

Section dispatch.
Context {S : Type} `{!Seams S}.
Notation world := (world S).
Notation coro := (comp world).

Definition on_broker (f : broker -> broker) (w : world) : world := mkWorld (f (w_broker w)) (w_store w).

Definition do (f : broker -> broker) : coro () := modify (on_broker f).

(** Read the run and go on with it. *)
Definition with_run (run_id : string) (k : Run -> coro ()) : coro () := fun w =>
  match b_heap (w_broker w) !! run_id with
  | Some run => k run w
  | None => (w, Done ())
  end.

Definition with_thread (thread_id : string) (k : ThreadHandler -> coro ()) : coro () := fun w =>
  match b_threads (w_broker w) !! thread_id with
  | Some h => k h w
  | None => (w, Done ())
  end.

Definition with_broker (k : broker -> coro ()) : coro () := fun w => k (w_broker w) w.

Definition when (c : bool) (k : coro ()) : coro () := if c then k else ret ().

Open Scope comp_scope.

(** ** The record *)

Definition run_view (run_id : string) (w : world) : option (Run * S) :=
  (fun run => (run, w_store w)) <$> b_heap (w_broker w) !! run_id.

Definition run_put (run_id : string) (rs : Run * S) (w : world) : world :=
  mkWorld (set_b_heap (<[run_id := rs.1]> (b_heap (w_broker w))) (w_broker w)) rs.2.

(** Exceptions of a handler are logged and go no further, so a handler is a
    coroutine that just ends. *)
Definition _record (run_id : string) (cmd : command) : coro () :=
  with_broker (fun b =>
    when (bool_decide (run_id ∈ b_handlers b))
      (focus (run_view run_id) (run_put run_id) (handler_of cmd))).

Definition _forget (run_id : string) : coro () :=
  modify (fun w => mkWorld (forget run_id (w_broker w)) (forget_listener run_id (w_store w))).

(** The settled run, before it is forgotten. *)
Definition end_stream (run : Run) : Run :=
  set_r_offer_timer None (set_r_out_queue (r_out_queue run ++ [END_OF_STREAM]) (set_r_settled true run)).

Definition drop_from (run_id : string) (h : ThreadHandler) : ThreadHandler :=
  set_t_queue (remove1 run_id (t_queue h)) (set_t_live (remove1 run_id (t_live h)) h).

Definition _settle (thread_id run_id : string) : coro () :=
  do (upd_run run_id end_stream) ;;
  do (upd_thread thread_id (drop_from run_id)) ;;
  _forget run_id.

(** Record one last command, and settle. *)
Definition record_and_settle (thread_id run_id : string) (cmd : command) : coro () :=
  _record run_id cmd ;; _settle thread_id run_id.

Definition _record_and_maybe_settle (thread_id run_id : string) (cmd : command) : coro () :=
  _record run_id cmd ;;
  with_run run_id (fun run =>
    match r_poison run with
    | Some poison => record_and_settle thread_id run_id (Fail "provider_sent_malformed_event" (Some poison))
    | None => match cmd with FinishStream => _settle thread_id run_id | _ => ret () end
    end).

(** ** Offers *)

(** [deque.insert(min(1, len), run)]. *)
Definition insert_second (run_id : string) (q : list string) : list string :=
  match q with [] => [run_id] | x :: q' => x :: run_id :: q' end.

(** The place taken: reserved on the provider, waiting for its verdict. *)
Definition take_place (run_id : string) (connection : ConnectedProvider) (interjection : bool) (b : broker) : broker :=
  upd_provider (public_key connection) (fun p => set_p_in_flight (p_in_flight p + 1)%Z p)
    (upd_run run_id (fun r =>
       set_r_verdict_open true (set_r_offer_id (r_offer_id r + 1) (set_r_is_interjection interjection
         (set_r_offered_conn (Some connection) (set_r_offered_to (Some (public_key connection)) r))))) b).

(** The two tasks an offer spawns: the hand-over and the clock. *)
Definition spawn_offer (r : Run) : Run :=
  set_r_offer_timer (Some (Pending (r_offer_id r))) (set_r_handover_task (Some (Pending (r_offer_id r))) r).

(** No connection, or no room: a turn waits, an interjection queues behind the head. *)
Definition no_place (thread_id run_id : string) (interjection : bool) : coro () :=
  when interjection
    (do (upd_thread thread_id (fun h => set_t_queue (insert_second run_id (t_queue h)) h))).

Definition _offer (thread_id run_id : string) (interjection : bool) : coro () :=
  with_run run_id (fun run => with_broker (fun b =>
    match serving (r_agent run) b with
    | None => no_place thread_id run_id interjection
    | Some connection =>
        if negb (has_room (_provider (public_key connection) b))
        then no_place thread_id run_id interjection
        else
          match run_agent_input_error (r_input_json run) with
          | Some e =>
              record_and_settle thread_id run_id
                (Fail "input_does_not_validate"
                   (Some ("input does not validate as RunAgentInput: " +:+ e)))
          | None =>
              do (take_place run_id connection interjection) ;;
              _record run_id Offer ;;
              do (upd_run run_id spawn_offer)
          end
    end)).

Definition settled_in (b : broker) (run_id : string) : bool :=
  match b_heap b !! run_id with Some run => r_settled run | None => false end.

Fixpoint drop_settled (b : broker) (q : list string) : list string :=
  match q with
  | [] => []
  | x :: q' => if settled_in b x then drop_settled b q' else q
  end.

Definition _advance (thread_id : string) : coro () :=
  with_broker (fun b => do (upd_thread thread_id (fun h => set_t_queue (drop_settled b (t_queue h)) h))) ;;
  with_thread thread_id (fun h =>
    match t_queue h with
    | [] => ret ()
    | run_id :: _ => with_run run_id (fun run =>
        if bool_decide (r_claimed_by run <> None) || r_verdict_open run || bool_decide (r_offered_to run <> None)
        then ret ()
        else _offer thread_id run_id false)
    end).

(** The queued runs behind the head that name it. *)
Definition names_head (b : broker) (head : string) (x : string) : bool :=
  match b_heap b !! x with
  | Some run => bool_decide (r_addressed_run_id run = Some head) && negb (r_settled run)
  | None => false
  end.

Definition joining (b : broker) (head : string) (q : list string) : list string :=
  filter (fun x => names_head b head x = true) (tail q).

(** Each is in the queue when its turn in the loop comes, so [remove] never raises. *)
Fixpoint offer_each (thread_id : string) (l : list string) : coro () :=
  match l with
  | [] => ret ()
  | x :: l' =>
      do (upd_thread thread_id (fun h => set_t_queue (remove1 x (t_queue h)) h)) ;;
      _offer thread_id x true ;;
      offer_each thread_id l'
  end.

Definition _release_interjections (thread_id head : string) : coro () :=
  with_thread thread_id (fun h => with_broker (fun b =>
    offer_each thread_id (joining b head (t_queue h)))).

(** ** One message *)

(** [handler.live.get(run_id)]. *)
Definition with_live (thread_id run_id : string) (k : Run -> coro ()) : coro () :=
  with_thread thread_id (fun h =>
    when (bool_decide (run_id ∈ t_live h)) (with_run run_id k)).

Definition add_live (run_id : string) (h : ThreadHandler) : ThreadHandler :=
  set_t_live (if bool_decide (run_id ∈ t_live h) then t_live h else t_live h ++ [run_id]) h.

(** The run joins the turn under way: the head is claimed and is the run it names. *)
Definition joins_head (b : broker) (run : Run) (q : list string) : bool :=
  match q with
  | [] => false
  | head :: _ => match b_heap b !! head with
                 | Some hr => bool_decide (r_claimed_by hr <> None) &&
                              bool_decide (r_addressed_run_id run = Some head)
                 | None => false
                 end
  end.

Definition _on_queued (thread_id run_id : string) : coro () :=
  do (upd_thread thread_id (add_live run_id)) ;;
  with_thread thread_id (fun h => with_run run_id (fun run => with_broker (fun b =>
    if joins_head b run (t_queue h) then _offer thread_id run_id true
    else do (upd_thread thread_id (fun h => set_t_queue (t_queue h ++ [run_id]) h))))).

Definition _on_answered (thread_id run_id provider_key : string) (accepted : verdict) : coro () :=
  with_live thread_id run_id (fun run =>
    if negb (r_verdict_open run) || bool_decide (r_offered_to run <> Some provider_key) then ret ()
    else
      do (upd_run run_id (fun r => set_r_offer_timer None (set_r_verdict_open false r))) ;;
      match accepted with
      | Refusal reason =>
          do (_release run_id) ;;
          record_and_settle thread_id run_id (Fail "provider_refused" (Some reason))
      | Answer false =>
          do (_release run_id) ;;
          if r_cancel_requested run then record_and_settle thread_id run_id RequestCancel
          else
            do (_note_misdeclared provider_key) ;;
            record_and_settle thread_id run_id (Fail "provider_declined" None)
      | Answer true =>
          do (upd_run run_id (fun r =>
                set_r_cancel_notify (r_offered_conn r) (set_r_claimed_by (Some provider_key) r))) ;;
          _record run_id Claim ;;
          with_run run_id (fun run => with_broker (fun b =>
            if negb (is_conn (serving (r_agent run) b) (r_offered_conn run))
            then do (fun b => (push run_id (Fail "provider_left_holding_it" None) b).2)
            else
              when (negb (r_is_interjection run)) (_release_interjections thread_id run_id) ;;
              with_run run_id (fun run => when (r_cancel_requested run) (_record run_id RequestCancel))))
      end).

Definition _on_said (thread_id run_id origin : string) (cmd : command) : coro () :=
  with_live thread_id run_id (fun run =>
    if bool_decide (r_claimed_by run <> Some origin) then ret ()
    else _record_and_maybe_settle thread_id run_id cmd).

Definition _on_cancel_asked (thread_id run_id : string) : coro () :=
  with_live thread_id run_id (fun run =>
    do (upd_run run_id (set_r_cancel_requested true)) ;;
    if r_verdict_open run then ret ()
    else if bool_decide (r_claimed_by run <> None) then _record run_id RequestCancel
    else record_and_settle thread_id run_id RequestCancel).

Definition _on_undelivered (thread_id run_id : string) : coro () :=
  with_live thread_id run_id (fun run =>
    match r_claimed_by run with
    | Some key =>
        when (negb (r_noted_abnormal run))
          (do (upd_run run_id (set_r_noted_abnormal true)) ;; do (_note_abnormal key undelivered))
    | None => ret ()
    end).

Definition _on_trusted (thread_id run_id : string) (cmd : command) : coro () :=
  with_live thread_id run_id (fun run =>
    match cmd with
    | RequestCancel => _on_cancel_asked thread_id run_id
    | Fail _ _ =>
        match r_claimed_by run with
        | Some key =>
            when (negb (r_noted_abnormal run))
              (do (upd_run run_id (set_r_noted_abnormal true)) ;; do (_note_abnormal key abandoned))
        | None => ret ()
        end ;;
        record_and_settle thread_id run_id cmd
    | _ => _record_and_maybe_settle thread_id run_id cmd
    end).

Definition lapse (r : Run) : Run :=
  set_r_handover_task None (set_r_offer_timer None (set_r_verdict_open false r)).

Definition _on_offer_lapsed (thread_id run_id : string) (offer_id : nat) : coro () :=
  with_live thread_id run_id (fun run =>
    if negb (r_verdict_open run) || negb (Nat.eqb (r_offer_id run) offer_id) then ret ()
    else
      do (upd_run run_id lapse) ;;
      match r_offered_to run with Some key => do (_note_abnormal key unanswered) | None => ret () end ;;
      do (_release run_id) ;;
      if r_cancel_requested run then record_and_settle thread_id run_id RequestCancel
      else record_and_settle thread_id run_id (Fail "provider_did_not_answer" None)).

Definition _on_message (thread_id : string) (m : message) : coro () :=
  match m with
  | Queued_ run_id => _on_queued thread_id run_id
  | Answered_ run_id key accepted => _on_answered thread_id run_id key accepted
  | Said_ run_id origin cmd => _on_said thread_id run_id origin cmd
  | Trusted_ run_id cmd => _on_trusted thread_id run_id cmd
  | CancelAsked_ run_id => _on_cancel_asked thread_id run_id
  | OfferLapsed_ run_id offer_id => _on_offer_lapsed thread_id run_id offer_id
  | Undelivered_ run_id => _on_undelivered thread_id run_id
  | Poke_ => ret ()
  end ;;
  _advance thread_id.

(** ** The task: a message, then the end of the loop's turn *)

(** The [finally] of [_thread_main]. *)
Definition leave (thread_id : string) (b : broker) : broker :=
  match b_threads b !! thread_id with
  | None => b
  | Some h =>
      let b := match b_agent_threads b !! t_agent h with
               | None => b
               | Some bound =>
                   let bound := bound ∖ {[thread_id]} in
                   set_b_agent_threads
                     (if bool_decide (bound = ∅) then delete (t_agent h) (b_agent_threads b)
                      else <[t_agent h := bound]> (b_agent_threads b)) b
               end in
      set_b_threads (delete thread_id (b_threads b)) b
  end.

Definition maybe_leave (thread_id : string) : coro () :=
  with_thread thread_id (fun h =>
    when (bool_decide (t_live h = []) && bool_decide (t_inbox h = [])) (do (leave thread_id))).

Definition pop_inbox (h : ThreadHandler) : ThreadHandler := set_t_inbox (tail (t_inbox h)) h.

(** One turn of [_thread_main]'s loop; [None] while the inbox is empty.  A
    turn whose message is there does not wait for it, so a turn may begin in
    the segment that ended the last: to separate them only adds schedules. *)
Definition thread_turn (thread_id : string) (w : world) : option (coro ()) :=
  match b_threads (w_broker w) !! thread_id with
  | Some h =>
      match t_inbox h with
      | m :: _ => Some (do (upd_thread thread_id pop_inbox) ;; _on_message thread_id m ;; maybe_leave thread_id)
      | [] => None
      end
  | None => None
  end.

End dispatch.
End Dispatch.
