(* ===== verification/Handlers.v ===== *)
(** * The record handlers (funduq/handlers.py)

    What each command on a run's record writes: the run's status and its
    events in the database, and what its stream shows.  They are coroutines
    over the run and the store; a database transaction is one step, with a
    suspension on each side of it. *)

From S2P Require Import Prelude Errors Json Models Coop Crypto Repo BrokerState Dispatch.

Module Handlers.
Import Broker.

(** AG-UI's validation, [ag_ui.core]: the events it accepts, the type tags it
    knows, and its verdict on a run's input. *)
Class AGUI : Type := {
  valid_event : json -> bool;
  known_event_type : string -> bool;
  input_error : dict -> option string;
}.

Record KyokBinding : Type := mkKyokBinding {
  kb_llm_provider : AgentRef;
  kb_context : json;
  kb_actor_chain : option (list string);
}.

(** What the handlers and the listener write: the database, the relay's
    bindings, and the changes subscribers were told of. *)
Record store : Type := mkStore {
  s_db : db;
  s_bindings : gmap string KyokBinding;
  s_changes : list (string * run_status);
  s_now : Z;
}.

Definition set_s_db (v : db) (x : store) : store := mkStore v (s_bindings x) (s_changes x) (s_now x).
Definition set_s_bindings (v : gmap string KyokBinding) (x : store) : store :=
  mkStore (s_db x) v (s_changes x) (s_now x).
Definition set_s_changes (v : list (string * run_status)) (x : store) : store :=
  mkStore (s_db x) (s_bindings x) v (s_now x).

(** [Funduq.mark_run_status]: write, commit, and tell subscribers if it applied. *)
Definition mark_run_status (run_id : string) (status : run_status) (s : store) : py (bool * store) :=
  '(applied, d) ← Repo.mark_run_status (s_now s) run_id status (s_db s);
  let s := set_s_db d s in
  Ok (applied, match applied with
               | true => set_s_changes (s_changes s ++ [(run_id, status)]) s
               | false => s
               end).

Definition mark (run_id : string) (status : run_status) (s : store) : py store :=
  '(_, s') ← mark_run_status run_id status s; Ok s'.

Definition on_db (f : db -> py db) (s : store) : py store := d ← f (s_db s); Ok (set_s_db d s).

(** A [RUN_ERROR] funduq itself authors. *)
Definition run_error (message : string) (code : string) : dict :=
  [("type", JStr RUN_ERROR); ("message", JStr message); ("code", JStr code)].

Notation handler := (comp (Run * store) ()).
Open Scope comp_scope.

Definition on_run (f : Run -> Run) : handler := modify (fun rs => (f rs.1, rs.2)).

(** One committed transaction; one that raises is rolled back, and the
    handler ends there (the broker logs it). *)
Definition transaction (f : store -> py store) (next : handler) : handler :=
  suspend ;;
  fun rs => match f rs.2 with
            | Ok s' => (suspend ;; next) (rs.1, s')
            | Err _ => (rs, Done ())
            end.

Definition reading_run (k : Run -> handler) : handler := fun rs => k rs.1 rs.

Definition put (event : dict) : handler :=
  on_run (fun r => set_r_out_queue (r_out_queue r ++ [Item (JObj event)]) r).

Definition next_seq (r : Run) : Run := set_r_seq (r_seq r + 1) r.

Definition _handle_offer : handler :=
  reading_run (fun run => transaction (mark (r_run_id run) offering) (ret ())).

Definition _handle_claim : handler :=
  reading_run (fun run => transaction (mark (r_run_id run) running) (ret ())).

Section agui.
Context `{!AGUI}.

(** [type_tag] is a string AG-UI does not know: an extension's event, relayed unvalidated. *)
Definition unknown_type (event : json) : bool :=
  match event with
  | JObj e => match get "type" e with JStr t => negb (known_event_type t) | _ => false end
  | _ => false
  end.

Definition saw (event : dict) (r : Run) : Run :=
  if has_type RUN_FINISHED event then set_r_saw_run_finished true r
  else if has_type RUN_ERROR event then set_r_saw_run_error true r
  else r.

Definition _handle_relay (event : json) : handler :=
  if negb (unknown_type event) && negb (valid_event event)
  then on_run (set_r_poison (Some "provider sent a malformed AG-UI event"))
  else
    match event with
    | JObj e =>
        on_run (fun r => next_seq (saw e r)) ;;
        reading_run (fun run =>
          transaction (fun s =>
            on_db (fun d => d ← Repo.append_run_event (r_run_id run) (r_seq run) e d;
                            Ok (Repo.touch_run_activity (s_now s) (r_run_id run) d)) s)
            (put e))
    | _ => ret () (* event.get raises *)
    end.
End agui.

Definition final_status (run : Run) : run_status :=
  if r_saw_run_finished run then completed
  else if r_cancel_requested run then cancelled
  else failed.

Definition ended_without_finishing : dict :=
  run_error "the agent's stream ended without finishing" "provider_stream_ended_without_finishing".

Definition _handle_finish : handler :=
  reading_run (fun run =>
    let status := final_status run in
    if bool_decide (status = failed) && negb (r_saw_run_error run) then
      on_run next_seq ;;
      transaction (fun s =>
          s ← on_db (Repo.append_run_event (r_run_id run) (r_seq run + 1) ended_without_finishing) s;
          mark (r_run_id run) status s)
        (put ended_without_finishing)
    else transaction (mark (r_run_id run) status) (ret ())).

(** What [cancel_notify] answers is logged and changes nothing. *)
Definition _handle_cancel : handler :=
  reading_run (fun run =>
    match r_claimed_by run with
    | None => transaction (mark (r_run_id run) cancelled) (ret ())
    | Some _ =>
        transaction (mark (r_run_id run) cancelling)
          (match r_cancel_notify run with Some _ => suspend | None => ret () end)
    end).

Definition _handle_fail (code : string) (message : option string) : handler :=
  let event := run_error match message with
                         | Some m => if String.eqb m "" then code else m
                         | None => code
                         end code in
  on_run next_seq ;;
  reading_run (fun run =>
    transaction (fun s =>
        s ← on_db (Repo.append_run_event (r_run_id run) (r_seq run) event) s;
        mark (r_run_id run) failed s)
      (put event)).

Definition make_handlers `{!AGUI} (cmd : command) : handler :=
  match cmd with
  | Offer => _handle_offer
  | Claim => _handle_claim
  | RelayEvent event => _handle_relay event
  | FinishStream => _handle_finish
  | RequestCancel => _handle_cancel
  | Fail code message => _handle_fail code message
  end.

(** [KyokRelay.discard], the broker's forget listener. *)
Definition discard (run_id : string) (s : store) : store :=
  set_s_bindings (delete run_id (s_bindings s)) s.

#[export] Instance store_seams `{!AGUI} : Dispatch.Seams store := {
  Dispatch.handler_of := make_handlers;
  Dispatch.forget_listener := discard;
  Dispatch.run_agent_input_error := input_error;
}.

(** A run funduq has just failed gets its terminal [RUN_ERROR], whether or
    not the broker still tracks it. *)
Definition close_with_terminal_event (run_id code : string) (w : Dispatch.world store)
    : py (Dispatch.world store) :=
  let '(tracked, b) := BrokerOps.push run_id (Fail code None) (Dispatch.w_broker w) in
  if tracked then Ok (Dispatch.mkWorld b (Dispatch.w_store w))
  else
    let s := Dispatch.w_store w in
    let events := Repo.get_run_events run_id 0 (s_db s) in
    if existsb (has_type RUN_ERROR) events then Ok w
    else
      s' ← on_db (fun d => Repo.append_run_event run_id (Repo.get_last_event_seq run_id d + 1)
                             (run_error code code) d) s;
      Ok (Dispatch.mkWorld (Dispatch.w_broker w) s').

End Handlers.
