(* ===== verification/BrokerInv.v ===== *)
(** * What holds of the broker between any two steps

    The recorder's contract, the global invariant, what each thread's owner
    knows of its own runs, what it may do to the others, and the lemma that
    everything which is not a thread handler's own work is [quiet]: it
    respects all of them. *)

From S2P Require Import Prelude Errors Json Models Coop BrokerState BrokerOps Dispatch.

Module BrokerInv.
Import Broker BrokerOps Dispatch.

(** ** Who writes which field of a run *)

(** Written by the run's owner alone. *)
Definition dispatch_of (r : Run) :=
  (r_run_id r, r_agent r, r_thread_id r, r_input_json r, r_addressed_run_id r,
   r_offered_to r, r_offered_conn r, r_offer_id r, r_verdict_open r, r_is_interjection r,
   r_claimed_by r, r_noted_abnormal r, r_cancel_notify r, r_settled r).

(** Written by the record handlers. *)
Definition record_of (r : Run) :=
  (r_seq r, r_poison r, r_saw_run_finished r, r_saw_run_error r, r_out_queue r).

(** The rest (the cancel mark, the stream's consumer, the spawned tasks) may
    change under anyone's hands, but a cancel mark stays. *)
Definition tapped (r r' : Run) : Prop :=
  dispatch_of r' = dispatch_of r /\ record_of r' = record_of r /\
  (r_cancel_requested r = true -> r_cancel_requested r' = true).

(** A record handler's own work on a run. *)
Definition recorded (r r' : Run) : Prop :=
  dispatch_of r' = dispatch_of r /\
  (exists items, r_out_queue r' = r_out_queue r ++ map Item items) /\
  (r_cancel_requested r = true -> r_cancel_requested r' = true).

#[export] Instance tapped_preorder : PreOrder tapped.
Proof. split; [intros r; by split_and!|]. intros r1 r2 r3 (?&?&?) (?&?&?). split_and!; [congruence|congruence|auto]. Qed.

#[export] Instance recorded_preorder : PreOrder recorded.
Proof.
  split; [intros r; split_and!; [done|by exists []; rewrite app_nil_r|done]|].
  intros r1 r2 r3 (H1&[l1 H2]&H3) (H4&[l2 H5]&H6). split_and!; [congruence| |auto].
  exists (l1 ++ l2). by rewrite H5, H2, map_app, app_assoc.
Qed.

Lemma tapped_recorded r r' : tapped r r' -> recorded r r'.
Proof.
  intros (H1&H2&H3). split_and!; [done| |done]. exists []. rewrite app_nil_r. unfold record_of in H2. congruence.
Qed.

(** ** The recorder's contract *)

Definition final (s : run_status) : bool :=
  match s with completed | failed | cancelled => true | _ => false end.

(** The events put on the run's stream. *)
Definition said (r : Run) : list json :=
  omap (fun i => match i with Item e => Some e | END_OF_STREAM => None end) (r_out_queue r).

(** The status a run is at when [cmd] may be put on its record. *)
Definition allowed (cmd : command) (r : Run) (st : run_status) : Prop :=
  match cmd with
  | Offer => st = queued
  | Claim => st = offering
  | RelayEvent _ => final st = false
  | FinishStream => st = running \/ st = cancelling
  | RequestCancel => match r_claimed_by r with
                     | None => st = queued \/ st = offering
                     | Some _ => st = running \/ st = cancelling
                     end
  | Fail _ _ => final st = false
  end.

(** The status it leaves, and whether it may have poisoned the run. *)
Definition becomes (cmd : command) (r : Run) (st : run_status) (r' : Run) (st' : run_status) : Prop :=
  match cmd with
  | Offer => st' = offering
  | Claim => st' = running
  | RelayEvent _ => st' = st
  | FinishStream => final st' = true
  | RequestCancel => match r_claimed_by r with
                     | None => st' = cancelled
                     | Some _ => st' = cancelling
                     end
  | Fail _ _ => st' = failed
  end /\
  match cmd with RelayEvent _ => True | _ => r_poison r' = r_poison r end.

(** A run's entry on the record: its status and what is kept of its events. *)
Section contract.
Context {S L : Type} `{!Seams S} (entry_of : string -> S -> option (run_status * L)) (in_step : Z -> list json -> L -> Prop).

(** While a record handler is suspended: the run is its owner's, its entry the recorder's. *)
Definition others_rec (v v' : Run * S) : Prop :=
  tapped v.1 v'.1 /\ entry_of (r_run_id v.1) v'.2 = entry_of (r_run_id v.1) v.2.

(** A record handler touches its run's record and no other run's entry. *)
Definition own_rec (v v' : Run * S) : Prop :=
  recorded v.1 v'.1 /\ forall id, id <> r_run_id v.1 -> entry_of id v'.2 = entry_of id v.2.

(** What is kept of a run's events is what its stream was told. *)
Definition agrees (r : Run) (l : L) : Prop := in_step (r_seq r) (said r) l.

Definition handler_spec (cmd : command) (r : Run) (st : run_status) : () -> Run * S -> Run * S -> Prop :=
  fun _ v0 v => own_rec v0 v /\ exists st' l', entry_of (r_run_id r) v.2 = Some (st', l') /\ becomes cmd r st v.1 st' /\ agrees v.1 l'.
End contract.

Class RecorderLaws (S : Type) `{!Seams S} : Type := {
  kept : Type;
  entry_of : string -> S -> option (run_status * kept);
  in_step : Z -> list json -> kept -> Prop;
  entry_of_forget id id' s : entry_of id (forget_listener id' s) = entry_of id s;
  handler_ok cmd r s st l :
    entry_of (r_run_id r) s = Some (st, l) -> allowed cmd r st -> agrees in_step r l ->
    wp (fun _ => True) (others_rec entry_of) (own_rec entry_of)
      (handler_of cmd) (handler_spec entry_of in_step cmd r st) (r, s) (r, s);
}.

(** An entry, and an entry that agrees with the run's stream. *)
Notation entry_t := (run_status * kept)%type.
Notation agreeing r l := (agrees in_step r l).

(** ** The invariant *)

Section inv.
Context {S : Type} `{!Seams S} `{!RecorderLaws S}.
Notation world := (world S).
Implicit Types (w : world) (b : broker) (r : Run) (h : ThreadHandler).

Definition entry (id : string) (w : world) : option (run_status * kept) := entry_of id (w_store w).
Definition status (id : string) (w : world) : option run_status := fst <$> entry id w.


Definition holds (b : broker) (key id : string) : bool :=
  match b_heap b !! id with Some r => bool_decide (r_offered_to r = Some key) | None => false end.

(** How many tracked runs have a place reserved on [key]. *)
Definition held (key : string) (b : broker) : Z :=
  Z.of_nat (length (filter (fun id => holds b key id = true) (b_runs b))).

Definition in_flight (key : string) (b : broker) : Z :=
  match b_providers b !! key with Some p => p_in_flight p | None => 0 end.

Definition stream_ok (r : Run) : Prop :=
  exists items, r_out_queue r = map Item items ++ (if r_settled r then [END_OF_STREAM] else []).

(** A run nobody has done anything with yet. *)
Definition fresh (r : Run) : Prop :=
  r_offered_to r = None /\ r_verdict_open r = false /\ r_claimed_by r = None /\ r_offer_id r = 0 /\
  r_poison r = None.

Definition queued_ids (inbox : list message) : list string :=
  omap (fun m => match m with Queued_ id => Some id | _ => None end) inbox.

(** What anyone may post: anything but a new run or an unattributed command. *)
Definition benign (m : message) : bool :=
  match m with
  | Queued_ _ => false
  | Said_ _ _ cmd => match cmd with RelayEvent _ | FinishStream => true | _ => false end
  | Trusted_ _ cmd => match cmd with Fail _ _ => true | _ => false end
  | _ => true
  end.

Definition serving_ok (b : broker) : Prop := forall ref key,
  aget ref (b_serving b) = Some key ->
  exists p c, b_providers b !! key = Some p /\ p_connection p = Some c /\ public_key c = key.

Record inv (w : world) : Prop := {
  i_nodup : NoDup (b_runs (w_broker w));
  i_ids id r : b_heap (w_broker w) !! id = Some r -> r_run_id r = id;
  i_tracked id : id ∈ b_runs (w_broker w) -> exists r,
    b_heap (w_broker w) !! id = Some r /\ r_settled r = false /\
    b_run_threads (w_broker w) !! id = Some (r_thread_id r) /\ id ∈ b_handlers (w_broker w);
  i_untracked id : id ∉ b_runs (w_broker w) -> b_run_threads (w_broker w) !! id = None;
  i_settled id r : b_heap (w_broker w) !! id = Some r -> id ∉ b_runs (w_broker w) ->
    r_settled r = true /\ r_offered_to r = None /\ exists st l, entry id w = Some (st, l) /\ final st = true /\ agreeing r l;
  i_places key : in_flight key (w_broker w) = held key (w_broker w);
  i_keys id r key : b_heap (w_broker w) !! id = Some r -> r_offered_to r = Some key ->
    is_Some (b_providers (w_broker w) !! key);
  i_serving : serving_ok (w_broker w);
  i_stream id r : b_heap (w_broker w) !! id = Some r -> stream_ok r;
  i_once id r : b_heap (w_broker w) !! id = Some r -> r_offer_id r <= 1;
  i_owner id r : id ∈ b_runs (w_broker w) -> b_heap (w_broker w) !! id = Some r ->
    exists h, b_threads (w_broker w) !! r_thread_id r = Some h /\ (id ∈ t_live h \/ id ∈ queued_ids (t_inbox h));
  i_live t h id : b_threads (w_broker w) !! t = Some h -> id ∈ t_live h ->
    id ∈ b_runs (w_broker w) /\ exists r, b_heap (w_broker w) !! id = Some r /\ r_thread_id r = t;
  i_live_nodup t h : b_threads (w_broker w) !! t = Some h -> NoDup (t_live h);
  i_queued t h id : b_threads (w_broker w) !! t = Some h -> id ∈ queued_ids (t_inbox h) ->
    id ∈ b_runs (w_broker w) /\ id ∉ t_live h /\
    exists r l, b_heap (w_broker w) !! id = Some r /\ r_thread_id r = t /\ fresh r /\
      entry id w = Some (queued, l) /\ agreeing r l;
  i_queued_nodup t h : b_threads (w_broker w) !! t = Some h -> NoDup (queued_ids (t_inbox h));
  i_inbox t h m : b_threads (w_broker w) !! t = Some h -> m ∈ t_inbox h ->
    benign m = true \/ exists id, m = Queued_ id;
}.

(** ** What the owner of a thread knows when it is idle *)

Definition status_fits (r : Run) (e : option entry_t) : Prop :=
  match e with
  | None => False
  | Some (st, l) =>
      match r_offered_to r, r_verdict_open r with
      | None, _ => st = queued
      | Some _, true => st = offering
      | Some _, false => st = running \/ st = cancelling
      end /\ agreeing r l
  end.

Definition run_ok (q : list string) (id : string) (r : Run) : Prop :=
  r_poison r = None /\
  match r_offered_to r with
  | None => r_verdict_open r = false /\ r_claimed_by r = None /\ r_offer_id r = 0 /\ id ∈ q
  | Some key =>
      r_offer_id r = 1 /\
      r_claimed_by r = (if r_verdict_open r then None else Some key) /\
      (if r_is_interjection r then id ∉ q else head q = Some id)
  end.

(** All of it but for the run [x] being worked on. *)
Definition local_but (P : string -> Prop) (t : string) (w : world) : Prop :=
  forall h, b_threads (w_broker w) !! t = Some h ->
    NoDup (t_queue h) /\ (forall id, id ∈ t_queue h -> id ∈ t_live h) /\
    forall id r, id ∈ t_live h -> ~ P id -> b_heap (w_broker w) !! id = Some r ->
      run_ok (t_queue h) id r /\ status_fits r (entry id w).

Definition local (t : string) (w : world) : Prop := local_but (fun _ => False) t w.

(** ** Rely and guarantee *)

Definition threads_kept (o o' : option ThreadHandler) : Prop :=
  match o, o' with
  | Some h, Some h' => t_queue h' = t_queue h /\ t_live h' = t_live h /\
                       exists ms, t_inbox h' = t_inbox h ++ ms
  | None, Some h' => t_queue h' = [] /\ t_live h' = []
  | None, None => True
  | Some _, None => False
  end.

(** Runs selected by [P] stay as their owner left them. *)
Definition runs_kept (P : Run -> Prop) (w w' : world) : Prop :=
  forall id r, b_heap (w_broker w) !! id = Some r -> P r ->
    exists r', b_heap (w_broker w') !! id = Some r' /\ tapped r r' /\
      (id ∈ b_runs (w_broker w') <-> id ∈ b_runs (w_broker w)) /\ entry id w' = entry id w.

(** What everyone else may do while the owner of [t] is suspended. *)
Definition rely (t : string) (w w' : world) : Prop :=
  runs_kept (fun r => r_thread_id r = t) w w' /\
  threads_kept (b_threads (w_broker w) !! t) (b_threads (w_broker w') !! t).

(** What a step of [t]'s owner does to everyone else. *)
Definition guar (t : string) (w w' : world) : Prop :=
  runs_kept (fun r => r_thread_id r <> t) w w' /\
  forall t', t' <> t -> threads_kept (b_threads (w_broker w) !! t') (b_threads (w_broker w') !! t').

Lemma dispatch_thread r r' : dispatch_of r' = dispatch_of r -> r_thread_id r' = r_thread_id r.
Proof. unfold dispatch_of. congruence. Qed.

#[export] Instance threads_kept_preorder : PreOrder threads_kept.
Proof.
  split.
  - intros [h|]; simpl; [|done]. split_and!; [done|done|]. exists []. by rewrite app_nil_r.
  - intros [h1|] [h2|] [h3|]; simpl; try done.
    + intros (?&?&ms1&Hm1) (?&?&ms2&Hm2). split_and!; [congruence|congruence|].
      exists (ms1 ++ ms2). by rewrite Hm2, Hm1, app_assoc.
    + intros (?&?) (?&?&_). split; congruence.
Qed.

Lemma runs_kept_trans (P : Run -> Prop) w1 w2 w3 :
  (forall r r', tapped r r' -> P r -> P r') -> runs_kept P w1 w2 -> runs_kept P w2 w3 -> runs_kept P w1 w3.
Proof.
  intros HP H12 H23 id r1 Hr1 HPr. destruct (H12 _ _ Hr1 HPr) as (r2&Hr2&Ht12&Hin12&Hs12).
  destruct (H23 _ _ Hr2) as (r3&Hr3&Ht23&Hin23&Hs23); [by eapply HP|].
  exists r3. split_and!; [done|by etrans|by rewrite Hin23|congruence].
Qed.

Lemma runs_kept_refl P w : runs_kept P w w.
Proof. intros id r Hr _. exists r. by split_and!. Qed.

#[export] Instance rely_preorder t : PreOrder (rely t).
Proof.
  split; [intros w; split; [apply runs_kept_refl|done]|].
  intros w1 w2 w3 [H1 H2] [H3 H4]. split; [|by etrans]. eapply runs_kept_trans; [|done..].
  intros r r' [Hd _] <-. by apply dispatch_thread.
Qed.

#[export] Instance guar_preorder t : PreOrder (guar t).
Proof.
  split; [intros w; split; [apply runs_kept_refl|done]|].
  intros w1 w2 w3 [H1 H2] [H3 H4]. split; [|intros t' Hne; etrans; eauto]. eapply runs_kept_trans; [|done..].
  intros r r' [Hd _]. by rewrite (dispatch_thread _ _ Hd).
Qed.

Lemma guar_rely t t' w w' : t <> t' -> guar t w w' -> rely t' w w'.
Proof.
  intros Hne [H1 H2]. split; [|apply H2; congruence]. intros id r Hr Ht. apply (H1 id r Hr). congruence.
Qed.

(** ** Facts a run's owner keeps across others' steps *)

Lemma tapped_run_ok q id r r' : tapped r r' -> run_ok q id r -> run_ok q id r'.
Proof.
  intros (Hd&Hr&_). unfold dispatch_of in Hd. unfold record_of in Hr. unfold run_ok. simplify_eq.
  assert (r_offered_to r' = r_offered_to r) as -> by congruence.
  assert (r_poison r' = r_poison r) as -> by congruence.
  assert (r_verdict_open r' = r_verdict_open r) as -> by congruence.
  assert (r_claimed_by r' = r_claimed_by r) as -> by congruence.
  assert (r_offer_id r' = r_offer_id r) as -> by congruence.
  assert (r_is_interjection r' = r_is_interjection r) as -> by congruence. done.
Qed.

Lemma tapped_agrees r r' l : tapped r r' -> agreeing r l -> agreeing r' l.
Proof.
  intros (_&Hr&_). unfold record_of in Hr. unfold agrees, said.
  assert (r_seq r' = r_seq r) as -> by congruence. assert (r_out_queue r' = r_out_queue r) as -> by congruence. done.
Qed.

Lemma tapped_status_fits r r' e : tapped r r' -> status_fits r e -> status_fits r' e.
Proof.
  intros Ht. destruct e as [[st l]|]; [|done]. intros [Hfit Ha]. split; [|by eapply tapped_agrees].
  destruct Ht as (Hd&_). unfold dispatch_of in Hd.
  assert (r_offered_to r' = r_offered_to r) as -> by congruence.
  assert (r_verdict_open r' = r_verdict_open r) as -> by congruence. done.
Qed.

Lemma local_stable P t w w' : inv w -> rely t w w' -> local_but P t w -> local_but P t w'.
Proof.
  intros HI [Hruns Hth] HL h' Hh'. rewrite Hh' in Hth.
  destruct (b_threads (w_broker w) !! t) as [h|] eqn:Hh; simpl in Hth.
  - destruct Hth as (Hq&Hl&_). destruct (HL h Hh) as (Hnd&Hsub&Hok). rewrite Hq, Hl. split_and!; [done|done|].
    intros id r' Hid HP Hr'. destruct (i_live _ HI _ _ _ Hh Hid) as (_&r&Hr&Ht).
    destruct (Hruns id r Hr Ht) as (r''&Hr''&Htap&_&Hst). simplify_eq.
    destruct (Hok _ _ Hid HP Hr) as [Hrun Hfit]. rewrite Hst. eauto using tapped_run_ok, tapped_status_fits.
  - destruct Hth as [Hq Hl]. rewrite Hq, Hl. split_and!; [constructor|by intros id ?%not_elem_of_nil|].
    by intros id r ?%not_elem_of_nil.
Qed.

End inv.
End BrokerInv.
