(* ===== verification/BrokerQuiet.v ===== *)
(** * Quiet steps of the broker

    Posts, pokes, registrations, withdrawals, counters, cancel marks, the
    stream's consumer, timers and the sweep leave every run where its owner
    put it: they are [quiet], and a quiet step keeps the invariant and
    respects every owner. *)

From S2P Require Import Prelude Errors Json Models Coop BrokerState BrokerOps Dispatch BrokerInv.

Module BrokerQuiet.
Import Broker BrokerOps Dispatch BrokerInv.

(** An inbox that gained harmless messages. *)
Definition grown (h h' : ThreadHandler) : Prop :=
  t_queue h' = t_queue h /\ t_live h' = t_live h /\
  exists ms, t_inbox h' = t_inbox h ++ ms /\ Forall (fun m => benign m = true) ms.

#[export] Instance grown_preorder : PreOrder grown.
Proof.
  split.
  - intros h. split_and!; [done|done|]. exists []. split; [by rewrite app_nil_r|constructor].
  - intros h1 h2 h3 (?&?&ms1&Hm1&Hb1) (?&?&ms2&Hm2&Hb2). split_and!; [congruence|congruence|].
    exists (ms1 ++ ms2). split; [by rewrite Hm2, Hm1, app_assoc|]. by apply Forall_app.
Qed.

Record quiet (b b' : broker) : Prop := {
  q_runs : b_runs b' = b_runs b;
  q_run_threads : b_run_threads b' = b_run_threads b;
  q_handlers : b_handlers b' = b_handlers b;
  q_heap id : option_Forall2 tapped (b_heap b !! id) (b_heap b' !! id);
  q_threads t : option_Forall2 grown (b_threads b !! t) (b_threads b' !! t);
  q_in_flight key : in_flight key b' = in_flight key b;
  q_keys key : is_Some (b_providers b !! key) -> is_Some (b_providers b' !! key);
  q_serving : serving_ok b -> serving_ok b';
}.

Lemma option_Forall2_refl {A} (R : relation A) `{!Reflexive R} (o : option A) : option_Forall2 R o o.
Proof. by destruct o; constructor. Qed.

Lemma option_Forall2_trans {A} (R : relation A) `{!Transitive R} (o1 o2 o3 : option A) :
  option_Forall2 R o1 o2 -> option_Forall2 R o2 o3 -> option_Forall2 R o1 o3.
Proof. destruct 1; inversion_clear 1; constructor. by etrans. Qed.

#[export] Instance quiet_preorder : PreOrder quiet.
Proof.
  split.
  - intros b. constructor; try done; intros; by apply option_Forall2_refl; apply _.
  - intros b1 b2 b3 [] []. constructor; try congruence; eauto using option_Forall2_trans, PreOrder_Transitive.
    + intros id. eapply option_Forall2_trans; [apply _|eauto..].
    + intros id. eapply option_Forall2_trans; [apply _|eauto..].
Qed.

(** The parts an operation does not touch. *)
Ltac quiet_frame :=
  constructor; try done; try (intros; apply option_Forall2_refl; apply _).

(** ** The operations that are quiet *)

Lemma quiet_upd_run id f b : (forall r, tapped r (f r)) -> quiet b (upd_run id f b).
Proof.
  intros Hf. quiet_frame.
  - intros id'. cbn. rewrite lookup_alter. case_decide; subst; [|by apply option_Forall2_refl; apply _].
    destruct (b_heap b !! id'); constructor. apply Hf.
Qed.

Lemma quiet_put t m b : benign m = true -> quiet b (put_nowait t m b).
Proof.
  intros Hm. quiet_frame.
  - intros t'. cbn. rewrite lookup_alter. case_decide; subst; [|by apply option_Forall2_refl; apply _].
    destruct (b_threads b !! t'); constructor. split_and!; [done|done|]. exists [m]. split; [done|by constructor].
Qed.

Lemma quiet_post id m b : benign m = true -> quiet b (_post id m b).2.
Proof. intros Hm. unfold _post. case_match; cbn; [by apply quiet_put|done]. Qed.

Lemma quiet_poke_threads b : quiet b (_poke_threads b).
Proof.
  quiet_frame.
  - intros t. cbn. rewrite lookup_fmap. destruct (b_threads b !! t); constructor.
    split_and!; [done|done|]. exists [Poke_]. split; [done|by repeat constructor].
Qed.

Lemma quiet_foldl {A} (f : broker -> A -> broker) l b :
  (forall b x, quiet b (f b x)) -> quiet b (foldl f b l).
Proof. intros Hf. revert b. induction l as [|x l IH]; intros b; cbn; [done|]. etrans; [apply Hf|apply IH]. Qed.

Lemma quiet_poke_agent a b : quiet b (_poke_agent a b).
Proof. apply quiet_foldl. intros. by apply quiet_put. Qed.

(** Changing a provider's presence, not its places. *)
Lemma quiet_upd_provider key f b :
  (forall p, p_in_flight (f p) = p_in_flight p) ->
  (forall p c, p_connection p = Some c -> public_key c = key ->
     exists c', p_connection (f p) = Some c' /\ public_key c' = key) ->
  quiet b (upd_provider key f b).
Proof.
  intros Hf Hc. quiet_frame.
  - intros key'. unfold in_flight. cbn. rewrite lookup_insert. case_decide; subst; [|done].
    rewrite Hf. unfold _provider. by destruct (b_providers b !! key').
  - intros key' Hk. cbn. rewrite lookup_insert. by case_decide.
  - intros Hs ref key' Hg. destruct (Hs ref key' Hg) as (p&c&Hp&Hpc&Hck). cbn. rewrite lookup_insert.
    case_decide; subst; [|by eauto]. unfold _provider. rewrite Hp. cbn.
    destruct (Hc p c Hpc eq_refl) as (c'&?&?). eauto.
Qed.

Lemma quiet_set_serving v b :
  (serving_ok b -> serving_ok (set_b_serving v b)) -> quiet b (set_b_serving v b).
Proof. intros Hv. quiet_frame. Qed.

Lemma quiet_same b b' :
  b_runs b' = b_runs b -> b_run_threads b' = b_run_threads b -> b_handlers b' = b_handlers b ->
  b_heap b' = b_heap b -> b_threads b' = b_threads b -> b_providers b' = b_providers b ->
  b_serving b' = b_serving b -> quiet b b'.
Proof.
  intros H1 H2 H3 H4 H5 H6 H7. quiet_frame.
  - intros id. rewrite H4. by apply option_Forall2_refl; apply _.
  - intros t. rewrite H5. by apply option_Forall2_refl; apply _.
  - intros key. unfold in_flight. by rewrite H6.
  - intros key. by rewrite H6.
  - unfold serving_ok. by rewrite H6, H7.
Qed.

(** The connection is written before the serving key is looked at: one step. *)
Lemma quiet_register_one b kv : quiet b (register_one b kv).
Proof.
  destruct kv as [ref c]. unfold register_one. quiet_frame.
  - intros key. unfold in_flight. cbn. rewrite lookup_insert. case_decide; subst; [|done].
    cbn. unfold _provider. cbn. by destruct (b_providers b !! _).
  - intros key Hk. cbn. rewrite lookup_insert. by case_decide.
  - intros Hs ref' key Hg. cbn in *. rewrite aget_aset in Hg. rewrite lookup_insert.
    destruct (decide (public_key c = key)) as [<-|Hne]; [by eexists _, c|].
    case_decide; simplify_eq. eauto.
Qed.

Lemma quiet_register_provider mapping b : quiet b (register_provider mapping b).
Proof.
  unfold register_provider. etrans; [exact (quiet_foldl register_one mapping b quiet_register_one)|].
  etrans; [by apply (quiet_same _ (set_b_work_to_do true (foldl register_one b mapping)))|].
  apply quiet_foldl. intros; apply quiet_poke_agent.
Qed.

Lemma quiet_fail_held ref b id : quiet b (fail_held ref b id).
Proof. unfold fail_held. cases; [by apply quiet_post|done..]. Qed.

Lemma quiet_unregister_one b ref : quiet b (unregister_one b ref).
Proof.
  unfold unregister_one. case_match; [|done].
  etrans; [|apply quiet_poke_agent]. etrans; [|exact (quiet_foldl (fail_held ref) _ _ (quiet_fail_held ref))].
  transitivity (set_b_serving (adel ref (b_serving b)) b); [|by apply quiet_same].
  apply quiet_set_serving. intros Hs ref' key Hg. cbn in *.
  rewrite aget_adel in Hg. case_decide; [done|]. by apply (Hs ref').
Qed.

Lemma quiet_unregister agents b : quiet b (unregister_provider agents b).
Proof. exact (quiet_foldl unregister_one _ _ quiet_unregister_one). Qed.

Lemma quiet_note_abnormal key ev b : quiet b (_note_abnormal key ev b).
Proof.
  unfold _note_abnormal. etrans; [apply (quiet_upd_provider key (bump ev)); [done|eauto]|].
  repeat case_match; try done. apply quiet_unregister.
Qed.

Lemma quiet_note_misdeclared key b : quiet b (_note_misdeclared key b).
Proof. unfold _note_misdeclared. case_match; [apply quiet_note_abnormal|done]. Qed.

Lemma quiet_request_cancel id b : quiet b (request_cancel id b).2.
Proof.
  unfold request_cancel. case_match; [|done].
  etrans; [by apply (quiet_upd_run id (set_r_cancel_requested true))|by apply quiet_post].
Qed.

Lemma quiet_subscribe id b x b' : subscribe id b = Ok (x, b') -> quiet b b'.
Proof. unfold subscribe. intros H. cases; try done. by apply quiet_upd_run. Qed.

Lemma quiet_expire_queued timeout b : quiet b (expire_queued timeout b).2.
Proof.
  unfold expire_queued. set (l := b_runs b). clearbody l.
  assert (H : forall e b0, quiet b b0 -> quiet b (foldl (expire_one timeout) (e, b0) l).2); [|by apply H].
  induction l as [|x l IH]; intros e b0 Hb; [done|]. cbn [foldl]. unfold expire_one at 2.
  destruct (b_heap b0 !! x) as [r|]; [|by apply IH]. destruct (expires timeout b0 r); apply IH; [|done].
  etrans; [done|by apply quiet_post].
Qed.

Lemma quiet_sweep timeout b : quiet b (sweep timeout b).
Proof.
  unfold sweep. transitivity (expire_queued timeout b).2; [apply quiet_expire_queued|].
  transitivity (set_b_work_to_do false (expire_queued timeout b).2); [by apply quiet_same|].
  apply quiet_poke_threads.
Qed.

Lemma quiet_start b : quiet b (start b).
Proof. unfold start. destruct (b_running b); [done|by apply quiet_same]. Qed.

(** ** A quiet step keeps the invariant and every owner's knowledge *)

Section quiet_steps.
Context {S : Type} `{!Seams S} `{!RecorderLaws S}.
Implicit Types (s : S).

Lemma tapped_inv r r' : tapped r r' ->
  r_run_id r' = r_run_id r /\ r_thread_id r' = r_thread_id r /\ r_offered_to r' = r_offered_to r /\
  r_settled r' = r_settled r /\ r_out_queue r' = r_out_queue r.
Proof. intros (Hd&Hr&_). unfold dispatch_of in Hd. unfold record_of in Hr. split_and!; congruence. Qed.

Lemma quiet_heap b b' id r : quiet b b' -> b_heap b !! id = Some r ->
  exists r', b_heap b' !! id = Some r' /\ tapped r r'.
Proof.
  intros Hq Hr. pose proof (q_heap _ _ Hq id) as H. rewrite Hr in H.
  inversion H as [? r' Ht|]; subst. eauto.
Qed.

Lemma quiet_heap_back b b' id r' : quiet b b' -> b_heap b' !! id = Some r' ->
  exists r, b_heap b !! id = Some r /\ tapped r r'.
Proof.
  intros Hq Hr. pose proof (q_heap _ _ Hq id) as H. rewrite Hr in H.
  inversion H as [r ? Ht|]; subst. eauto.
Qed.

Lemma quiet_thread_back b b' t h' : quiet b b' -> b_threads b' !! t = Some h' ->
  exists h, b_threads b !! t = Some h /\ grown h h'.
Proof.
  intros Hq Hr. pose proof (q_threads _ _ Hq t) as H. rewrite Hr in H.
  inversion H as [h ? Ht|]; subst. eauto.
Qed.

Lemma quiet_held b b' key : quiet b b' -> held key b' = held key b.
Proof.
  intros Hq. unfold held. rewrite (q_runs _ _ Hq). do 2 f_equal. apply list_filter_iff. intros id.
  unfold holds. pose proof (q_heap _ _ Hq id) as H. inversion H as [r r' Ht Hr Hr'|]; [|done].
  apply tapped_inv in Ht as (_&_&->&_). done.
Qed.

Lemma queued_ids_app l1 l2 : queued_ids (l1 ++ l2) = queued_ids l1 ++ queued_ids l2.
Proof. unfold queued_ids. by rewrite omap_app. Qed.

Lemma queued_ids_benign ms : Forall (fun m => benign m = true) ms -> queued_ids ms = [].
Proof. induction 1 as [|m ms Hm _ IH]; [done|]. cbn. destruct m; try done; exact IH. Qed.

Lemma grown_queued h h' : grown h h' -> queued_ids (t_inbox h') = queued_ids (t_inbox h).
Proof. intros (_&_&ms&->&Hb). by rewrite queued_ids_app, (queued_ids_benign _ Hb), app_nil_r. Qed.

Lemma quiet_inv b b' s : quiet b b' -> inv (mkWorld b s) -> inv (mkWorld b' s).
Proof.
  intros Hq []. constructor; cbn in *; rewrite ?(q_runs _ _ Hq), ?(q_run_threads _ _ Hq), ?(q_handlers _ _ Hq).
  - done.
  - intros id r' Hr'. destruct (quiet_heap_back _ _ _ _ Hq Hr') as (r&Hr&(->&_)%tapped_inv). eauto.
  - intros id Hin. destruct (i_tracked0 id Hin) as (r&Hr&Hs&Ht&Hh).
    destruct (quiet_heap _ _ _ _ Hq Hr) as (r'&Hr'&(_&Ht'&_&Hs'&_)%tapped_inv). exists r'.
    split_and!; [done|congruence|congruence|done].
  - eauto.
  - intros id r' Hr' Hin. destruct (quiet_heap_back _ _ _ _ Hq Hr') as (r&Hr&Htap).
    destruct (i_settled0 _ _ Hr Hin) as (?&?&st&l&?&?&?). destruct (tapped_inv _ _ Htap) as (_&_&->&->&_).
    split_and!; [done|done|]. exists st, l. split_and!; [done|done|]. by eapply tapped_agrees.
  - intros key. by rewrite (q_in_flight _ _ Hq), (quiet_held _ _ _ Hq).
  - intros id r' key Hr'. destruct (quiet_heap_back _ _ _ _ Hq Hr') as (r&Hr&(_&_&->&_)%tapped_inv).
    intros Ho. eapply (q_keys _ _ Hq), i_keys0; eauto.
  - by apply (q_serving _ _ Hq).
  - intros id r' Hr'. destruct (quiet_heap_back _ _ _ _ Hq Hr') as (r&Hr&(_&_&_&Hs&Ho)%tapped_inv).
    unfold stream_ok. rewrite Hs, Ho. eapply i_stream0; eauto.
  - intros id r' Hr'. destruct (quiet_heap_back _ _ _ _ Hq Hr') as (r&Hr&Hd&_).
    unfold dispatch_of in Hd. assert (r_offer_id r' = r_offer_id r) as -> by congruence. eauto.
  - intros id r' Hin Hr'. destruct (quiet_heap_back _ _ _ _ Hq Hr') as (r&Hr&(_&->&_)%tapped_inv).
    destruct (i_owner0 _ _ Hin Hr) as (h&Hh&Hor). pose proof (q_threads _ _ Hq (r_thread_id r)) as H.
    rewrite Hh in H. inversion H as [? h' Hg|]; subst. exists h'. split; [done|].
    rewrite (grown_queued _ _ Hg). destruct Hg as (_&->&_). done.
  - intros t h' id Hh'. destruct (quiet_thread_back _ _ _ _ Hq Hh') as (h&Hh&(_&->&_)). intros Hid.
    destruct (i_live0 _ _ _ Hh Hid) as (?&r&Hr&Ht). split; [done|].
    destruct (quiet_heap _ _ _ _ Hq Hr) as (r'&Hr'&(_&Ht'&_)%tapped_inv). exists r'. split; congruence.
  - intros t h' Hh'. destruct (quiet_thread_back _ _ _ _ Hq Hh') as (h&Hh&(_&->&_)). eauto.
  - intros t h' id Hh'. destruct (quiet_thread_back _ _ _ _ Hq Hh') as (h&Hh&Hg).
    rewrite (grown_queued _ _ Hg). destruct Hg as (_&->&_). intros Hid.
    destruct (i_queued0 _ _ _ Hh Hid) as (?&?&r&l&Hr&Ht&Hf&Hst&Ha). split_and!; [done..|].
    destruct (quiet_heap _ _ _ _ Hq Hr) as (r'&Hr'&Htap). exists r', l. split; [done|].
    pose proof (tapped_agrees _ _ _ Htap Ha).
    destruct Htap as (Hd&Hrec&_). unfold dispatch_of in Hd. unfold record_of in Hrec. unfold fresh in *.
    split; [congruence|]. simplify_eq. split; [intuition congruence|done].
  - intros t h' Hh'. destruct (quiet_thread_back _ _ _ _ Hq Hh') as (h&Hh&Hg).
    rewrite (grown_queued _ _ Hg). eauto.
  - intros t h' m Hh'. destruct (quiet_thread_back _ _ _ _ Hq Hh') as (h&Hh&(_&_&ms&->&Hb)).
    intros [Hm|Hm]%elem_of_app; [eauto|]. left. rewrite Forall_forall in Hb. by apply Hb.
Qed.

Lemma quiet_runs_kept P b b' s : quiet b b' -> runs_kept P (mkWorld b s) (mkWorld b' s).
Proof.
  intros Hq id r Hr _. destruct (quiet_heap _ _ _ _ Hq Hr) as (r'&Hr'&Ht). exists r'. cbn.
  by rewrite (q_runs _ _ Hq).
Qed.

Lemma quiet_threads_kept b b' t : quiet b b' -> threads_kept (b_threads b !! t) (b_threads b' !! t).
Proof.
  intros Hq. pose proof (q_threads _ _ Hq t) as H. inversion H as [h h' (?&?&ms&?&_)|]; cbn; eauto.
Qed.

Lemma quiet_rely b b' s t : quiet b b' -> rely t (mkWorld b s) (mkWorld b' s).
Proof. intros Hq. split; [by apply quiet_runs_kept|by apply quiet_threads_kept]. Qed.

Lemma quiet_guar b b' s t : quiet b b' -> guar t (mkWorld b s) (mkWorld b' s).
Proof. intros Hq. split; [by apply quiet_runs_kept|intros t' _; by apply quiet_threads_kept]. Qed.

End quiet_steps.
End BrokerQuiet.
