(* ===== verification/BrokerMid.v ===== *)
(** * In the middle of a message

    [mid]: the owner of a thread is at work on one of its runs, everything
    else being in order.  Lemmas for each thing it may do to that run:
    record a command (suspending), change its own fields, reserve or give
    back a place, move it in the queue, settle it. *)

From S2P Require Import Prelude Errors Json Models Coop BrokerState BrokerOps Dispatch BrokerInv BrokerQuiet.

Module BrokerMid.
Import Broker BrokerOps Dispatch BrokerInv BrokerQuiet.

Section mid.
Context {S : Type} `{!Seams S} `{!RecorderLaws S}.
Context (t : string).
Notation world := (world S).
Implicit Types (w : world) (b : broker) (r : Run) (h : ThreadHandler) (st : run_status).

Record mid (x : string) (r : Run) (h : ThreadHandler) (w0 w : world) : Prop := {
  m_inv : inv w;
  m_guar : guar t w0 w;
  m_thread : b_threads (w_broker w) !! t = Some h;
  m_run : b_heap (w_broker w) !! x = Some r;
  m_mine : r_thread_id r = t;
  m_live : x ∈ t_live h;
  m_local : local_but (eq x) t w;
}.

(** The thread's other runs are as they were. *)
Definition others (x : string) (w w' : world) : Prop :=
  runs_kept (fun r => r_thread_id r = t /\ r_run_id r <> x) w w'.

Definition same_lists (h h' : ThreadHandler) : Prop := t_queue h' = t_queue h /\ t_live h' = t_live h.

Lemma others_trans x w1 w2 w3 : others x w1 w2 -> others x w2 w3 -> others x w1 w3.
Proof.
  apply runs_kept_trans. intros r r' (->&->&_)%tapped_inv. done.
Qed.

Lemma same_lists_trans h1 h2 h3 : same_lists h1 h2 -> same_lists h2 h3 -> same_lists h1 h3.
Proof. intros [] []. split; congruence. Qed.

Lemma mid_tracked x r h w0 w : mid x r h w0 w -> x ∈ b_runs (w_broker w).
Proof. intros []. by destruct (i_live _ m_inv0 _ _ _ m_thread0 m_live0). Qed.

Lemma mid_id x r h w0 w : mid x r h w0 w -> r_run_id r = x.
Proof. intros []. by eapply i_ids. Qed.

Lemma mid_unsettled x r h w0 w : mid x r h w0 w -> r_settled r = false.
Proof.
  intros Hm. pose proof (mid_tracked _ _ _ _ _ Hm) as Hin. destruct Hm.
  destruct (i_tracked _ m_inv0 _ Hin) as (r'&Hr'&?&_). congruence.
Qed.

Lemma mid_recorded x r h w0 w : mid x r h w0 w -> x ∈ b_handlers (w_broker w).
Proof.
  intros Hm. pose proof (mid_tracked _ _ _ _ _ Hm) as Hin. destruct Hm.
  by destruct (i_tracked _ m_inv0 _ Hin) as (r'&_&_&_&?).
Qed.

(** A live run is not also waiting in an inbox. *)
Lemma mid_not_queued x r h w0 w t' h' :
  mid x r h w0 w -> b_threads (w_broker w) !! t' = Some h' -> x ∉ queued_ids (t_inbox h').
Proof.
  intros [] Hh' Hq. destruct (i_queued _ m_inv0 _ _ _ Hh' Hq) as (_&Hnl&r'&_&Hr'&Ht'&_).
  simplify_eq. done.
Qed.

Lemma mid_start x r h w : inv w -> b_threads (w_broker w) !! t = Some h -> b_heap (w_broker w) !! x = Some r ->
  x ∈ t_live h -> local_but (eq x) t w -> mid x r h w w.
Proof.
  intros HI Hh Hr Hx HL. constructor; try done.
  destruct (i_live _ HI _ _ _ Hh Hx) as (_&r'&?&?). congruence.
Qed.

(** ** Changing the run *)

(** A change of run [x] and of the store, with no place moved and only items put. *)
Definition put_run (x : string) (r' : Run) (s' : S) (w : world) : world :=
  mkWorld (set_b_heap (<[x := r']> (b_heap (w_broker w))) (w_broker w)) s'.

Definition fixed_of (r : Run) := (r_run_id r, r_thread_id r, r_settled r, r_offered_to r, r_offer_id r).

Lemma held_put x r r' key w s' :
  b_heap (w_broker w) !! x = Some r -> r_offered_to r' = r_offered_to r ->
  held key (w_broker (put_run x r' s' w)) = held key (w_broker w).
Proof.
  intros Hr Ho. unfold held. cbn. do 2 f_equal. apply list_filter_iff. intros id. unfold holds. cbn.
  rewrite lookup_insert. case_decide; subst; [|done]. by rewrite Hr, Ho.
Qed.

Lemma put_inv x r r' h s' w0 w :
  mid x r h w0 w -> fixed_of r' = fixed_of r ->
  (exists items, r_out_queue r' = r_out_queue r ++ map Item items) ->
  (forall id, id <> x -> entry_of id s' = entry_of id (w_store w)) -> inv (put_run x r' s' w).
Proof.
  intros Hm Hf Hout Hs. pose proof (mid_tracked _ _ _ _ _ Hm) as Hin. pose proof (mid_unsettled _ _ _ _ _ Hm) as Hus.
  pose proof (mid_id _ _ _ _ _ Hm) as Hid. pose proof (fun t' h' => mid_not_queued _ _ _ _ _ t' h' Hm) as Hnq.
  destruct Hm as [[] _ Hh Hr Ht Hx _]. unfold fixed_of in Hf.
  assert (Hput : forall id r1, <[x:=r']> (b_heap (w_broker w)) !! id = Some r1 ->
    exists r0, b_heap (w_broker w) !! id = Some r0 /\ r_run_id r1 = r_run_id r0 /\ r_thread_id r1 = r_thread_id r0 /\
      r_settled r1 = r_settled r0 /\ r_offered_to r1 = r_offered_to r0 /\ (id <> x -> r1 = r0)).
  { intros id r1. rewrite lookup_insert. case_decide; subst.
    - intros [= <-]. exists r. split_and!; try congruence.
    - intros Hr1. by exists r1. }
  assert (Hback : forall id r0, b_heap (w_broker w) !! id = Some r0 -> exists r1, <[x:=r']> (b_heap (w_broker w)) !! id = Some r1 /\
      r_thread_id r1 = r_thread_id r0 /\ r_settled r1 = r_settled r0 /\ (id <> x -> r1 = r0)).
  { intros id r0 Hr0. rewrite lookup_insert. case_decide; subst; [|by exists r0].
    exists r'. split_and!; try congruence. }
  constructor; cbn; try done.
  - intros id r1 (r0&Hr0&->&_)%Hput. eauto.
  - intros id Hi. destruct (i_tracked0 id Hi) as (r0&Hr0&?&?&?). destruct (Hback _ _ Hr0) as (r1&?&?&?&_).
    exists r1. split_and!; try congruence.
  - intros id r1 (r0&Hr0&_&_&->&->&Heq)%Hput Hn. assert (id <> x) by congruence. rewrite Heq by done.
    unfold entry. cbn. rewrite Hs by done. by apply i_settled0.
  - intros key. etrans; [exact (i_places0 key)|]. symmetry. apply (held_put x r r' key w s' Hr). congruence.
  - intros id r1 key (r0&Hr0&_&_&_&->&_)%Hput. eauto.
  - intros id r1. rewrite lookup_insert. case_decide; subst; [|eauto]. intros [= <-].
    destruct Hout as [items Ho]. destruct (i_stream0 _ _ Hr) as [items0 Ho0]. unfold stream_ok.
    assert (r_settled r' = false) as -> by congruence. rewrite Hus, app_nil_r in Ho0. exists (items0 ++ items).
    by rewrite Ho, Ho0, app_nil_r, map_app.
  - intros id r1. rewrite lookup_insert. case_decide; subst; [|eauto]. intros [= <-].
    assert (r_offer_id r' = r_offer_id r) as -> by congruence. eauto.
  - intros id r1 Hi (r0&Hr0&_&->&_)%Hput. eauto.
  - intros t' h' id Hh' Hl. destruct (i_live0 _ _ _ Hh' Hl) as (?&r0&Hr0&?). destruct (Hback _ _ Hr0) as (r1&?&?&_&_).
    split; [done|]. exists r1. split; congruence.
  - intros t' h' id Hh' Hq. assert (id <> x) by (intros ->; eapply Hnq; eauto).
    destruct (i_queued0 _ _ _ Hh' Hq) as (?&?&r0&l&Hr0&?&?&?). destruct (Hback _ _ Hr0) as (r1&?&?&_&Heq).
    unfold entry. cbn. rewrite Hs by done. rewrite Heq in * by done. split_and!; [done..|]. by exists r0, l.
Qed.

Lemma put_guar x r r' h s' w0 w :
  mid x r h w0 w -> (forall id, id <> x -> entry_of id s' = entry_of id (w_store w)) ->
  guar t w (put_run x r' s' w).
Proof.
  intros [] Hs. split; [|intros t' _; reflexivity]. intros id r0 Hr0 Hne. exists r0. cbn.
  assert (id <> x) by (intros ->; congruence). rewrite lookup_insert_ne by done.
  split_and!; [done|done|done|by apply Hs].
Qed.

Lemma put_others x r r' h s' w0 w :
  mid x r h w0 w -> (forall id, id <> x -> entry_of id s' = entry_of id (w_store w)) ->
  others x w (put_run x r' s' w).
Proof.
  intros Hm Hs id r0 Hr0 [_ Hne]. exists r0. cbn. pose proof (i_ids _ (m_inv _ _ _ _ _ Hm) _ _ Hr0) as Hid.
  rewrite lookup_insert_ne by congruence. split_and!; [done|done|done|]. apply Hs. congruence.
Qed.

Lemma put_local x r' s' w : (forall id, id <> x -> entry_of id s' = entry_of id (w_store w)) ->
  local_but (eq x) t w -> local_but (eq x) t (put_run x r' s' w).
Proof.
  intros Hs HL h Hh. destruct (HL h Hh) as (Hnd&Hsub&Hok). split_and!; [done|done|]. cbn.
  intros id r0 Hl Hne. rewrite lookup_insert_ne by done. intros Hr0. unfold entry. cbn. rewrite Hs by congruence. eauto.
Qed.

Lemma mid_put x r r' h s' w0 w :
  mid x r h w0 w -> fixed_of r' = fixed_of r ->
  (exists items, r_out_queue r' = r_out_queue r ++ map Item items) ->
  (forall id, id <> x -> entry_of id s' = entry_of id (w_store w)) ->
  mid x r' h w0 (put_run x r' s' w) /\ others x w (put_run x r' s' w).
Proof.
  intros Hm Hf Hout Hs. split; [|by eapply put_others].
  pose proof (put_inv _ _ _ _ _ _ _ Hm Hf Hout Hs). pose proof (put_guar _ _ r' _ _ _ _ Hm Hs).
  destruct Hm. constructor; cbn; try done.
  - by etrans.
  - by rewrite lookup_insert_eq.
  - unfold fixed_of in Hf. congruence.
  - by apply put_local.
Qed.

(** The owner's own fields. *)
Lemma mid_upd x r h w0 w (f : Run -> Run) :
  mid x r h w0 w -> fixed_of (f r) = fixed_of r -> r_out_queue (f r) = r_out_queue r ->
  mid x (f r) h w0 (on_broker (upd_run x f) w) /\ others x w (on_broker (upd_run x f) w) /\
  entry x (on_broker (upd_run x f) w) = entry x w.
Proof.
  intros Hm Hf Ho.
  assert (on_broker (upd_run x f) w = put_run x (f r) (w_store w) w) as ->.
  { unfold on_broker, put_run, upd_run. do 2 f_equal. apply map_eq. intros id. rewrite lookup_alter, lookup_insert.
    case_decide; subst; [|done]. by rewrite (m_run _ _ _ _ _ Hm). }
  destruct (mid_put x r (f r) h (w_store w) w0 w Hm Hf) as [??]; [exists []; by rewrite app_nil_r|done|]. done.
Qed.

(** ** Others' steps *)

Lemma mid_rely x r h w0 w w' :
  mid x r h w0 w -> rely t w w' -> inv w' ->
  exists r' h', mid x r' h' w' w' /\ tapped r r' /\ same_lists h h' /\ others x w w' /\ entry x w' = entry x w.
Proof.
  intros Hm HR HI. pose proof (local_stable _ _ _ _ (m_inv _ _ _ _ _ Hm) HR (m_local _ _ _ _ _ Hm)) as HL.
  destruct Hm as [HI0 HG Hh Hr Ht Hx _]. destruct HR as [Hruns Hth].
  destruct (Hruns x r Hr Ht) as (r'&Hr'&Htap&_&Hst). rewrite Hh in Hth.
  destruct (b_threads (w_broker w') !! t) as [h'|] eqn:Hh'; [|done]. destruct Hth as (Hq&Hl&_).
  exists r', h'. split_and!; try done.
  - apply mid_start; [done..| |done]. by rewrite Hl.
  - intros id r0 Hr0 [? _]. by apply Hruns.
Qed.

Lemma mid_quiet x r h w0 w b' :
  mid x r h w0 w -> quiet (w_broker w) b' ->
  exists r' h', mid x r' h' w0 (mkWorld b' (w_store w)) /\ tapped r r' /\ same_lists h h' /\
    others x w (mkWorld b' (w_store w)).
Proof.
  destruct w as [b s]. intros Hm Hq. cbn in *.
  pose proof (quiet_inv _ _ s Hq (m_inv _ _ _ _ _ Hm)) as HI'.
  pose proof (quiet_rely _ _ s t Hq) as HR. pose proof (quiet_guar _ _ s t Hq) as HG.
  destruct (mid_rely _ _ _ _ _ _ Hm HR HI') as (r'&h'&Hm'&Ht&Hl&Ho&_). exists r', h'. split_and!; [|done..].
  destruct Hm', Hm. constructor; try done. by etrans.
Qed.

(** ** Recording a command *)

Definition after_record (x : string) (cmd : command) (r : Run) (h : ThreadHandler) st (w : world)
    (Q : () -> world -> world -> Prop) : Prop :=
  forall w1 w2 r' h' st' l', mid x r' h' w1 w2 -> recorded r r' -> entry x w2 = Some (st', l') -> agreeing r' l' ->
    becomes cmd r st r' st' -> same_lists h h' -> others x w w2 -> Q () w1 w2.

Lemma post_focus x cmd r0 st h0 wb Q s : forall r h v w0 w1,
  mid x r h w0 w1 -> recorded r0 r -> same_lists h0 h -> others x wb w1 -> r_run_id r0 = x ->
  post (fun _ => True) (others_rec entry_of) (own_rec entry_of) s (handler_spec entry_of in_step cmd r0 st)
    (r, w_store w1) v ->
  after_record x cmd r0 h0 st wb Q ->
  post inv (rely t) (guar t) (focus_susp (run_view x) (run_put x) s) Q w0 (run_put x v w1).
Proof.
  revert s. fix IH 1. intros s r h v w0 w1 Hm Hrec Hl Ho Hid Hpost HQ.
  assert (Hown : own_rec entry_of (r, w_store w1) v) by (destruct s as [[]|k]; simpl in Hpost; apply Hpost).
  destruct Hown as [Hvr Hvs]. pose proof (mid_id _ _ _ _ _ Hm) as Hrid. simpl in Hvr, Hvs. rewrite Hrid in Hvs.
  assert (Hf : fixed_of v.1 = fixed_of r).
  { destruct Hvr as (Hd&_&_). unfold dispatch_of in Hd. unfold fixed_of. congruence. }
  destruct (mid_put x r v.1 h v.2 w0 w1 Hm Hf (proj1 (proj2 Hvr)) Hvs) as [Hm' Ho'].
  change (put_run x v.1 v.2 w1) with (run_put x v w1) in *.
  destruct s as [[]|k]; simpl in Hpost |- *.
  - destruct Hpost as (_&st'&l'&Hst'&Hb&Ha'). eapply HQ; [exact Hm'|by etrans|by rewrite <- Hid|done|done|done|by eapply others_trans].
  - destruct Hpost as (_&_&Hk). split; [exact (m_guar _ _ _ _ _ Hm')|]. split; [exact (m_inv _ _ _ _ _ Hm')|].
    intros w' HR HI'. destruct (mid_rely _ _ _ _ _ _ Hm' HR HI') as (r'&h'&Hm2&Htap&Hl'&Ho2&Hst2).
    unfold run_view at 1. rewrite (m_run _ _ _ _ _ Hm2). cbn [fmap option_fmap option_map].
    specialize (Hk (r', w_store w')). destruct (k (r', w_store w')) as [v' s'] eqn:Hkv.
    assert (Hth : others_rec entry_of v (r', w_store w')).
    { split; [done|]. simpl. rewrite (mid_id _ _ _ _ _ Hm'). exact Hst2. }
    specialize (Hk Hth I).
    eapply (IH s' r' h'); [exact Hm2| | | |done|exact Hk|exact HQ].
    + etrans; [exact Hrec|]. etrans; [exact Hvr|]. by apply tapped_recorded.
    + by eapply same_lists_trans.
    + eapply others_trans; [exact Ho|]. by eapply others_trans.
Qed.

Lemma wp_record x cmd r h st l w0 w Q :
  mid x r h w0 w -> entry x w = Some (st, l) -> allowed cmd r st -> agreeing r l -> after_record x cmd r h st w Q ->
  wp inv (rely t) (guar t) (_record x cmd) Q w0 w.
Proof.
  intros Hm Hst Hall Hag HQ. pose proof (mid_id _ _ _ _ _ Hm) as Hid. unfold _record, with_broker, wp.
  rewrite bool_decide_eq_true_2 by by eapply mid_recorded. cbn [when].
  unfold focus, run_view at 1. rewrite (m_run _ _ _ _ _ Hm). cbn [fmap option_fmap option_map].
  assert (Hst0 : entry_of (r_run_id r) (w_store w) = Some (st, l)) by (rewrite Hid; exact Hst).
  pose proof (handler_ok cmd r (w_store w) st l Hst0 Hall Hag) as Hh.
  unfold wp in Hh. destruct (handler_of cmd (r, w_store w)) as [v s].
  eapply post_focus; [exact Hm|reflexivity|done|apply runs_kept_refl|exact Hid|exact Hh|exact HQ].
Qed.

(** ** Places *)

Definition b2z (c : bool) : Z := if c then 1 else 0.

Lemma count_flip (p q : string -> bool) x l :
  NoDup l -> x ∈ l -> (forall y, y <> x -> p y = q y) ->
  (Z.of_nat (length (filter (fun y => p y = true) l)) + b2z (q x) =
   Z.of_nat (length (filter (fun y => q y = true) l)) + b2z (p x))%Z.
Proof.
  intros Hnd Hx Hpq. induction l as [|y l IH]; [by apply not_elem_of_nil in Hx|].
  apply NoDup_cons in Hnd as [Hy Hnd]. rewrite !filter_cons.
  destruct (decide (y = x)) as [->|Hne].
  - assert (filter (fun y => p y = true) l = filter (fun y => q y = true) l) as ->.
    { clear IH Hx. induction l as [|z l IHl]; [done|].
      rewrite !filter_cons. apply not_elem_of_cons in Hy as [Hz Hy]. apply NoDup_cons in Hnd as [_ Hnd].
      rewrite (Hpq z) by congruence. by rewrite IHl. }
    unfold b2z. destruct (p x), (q x); simpl; repeat case_decide; simpl; try congruence; lia.
  - apply elem_of_cons in Hx as [?|Hx]; [congruence|]. specialize (IH Hnd Hx). rewrite (Hpq y Hne).
    case_decide; simpl; lia.
Qed.

Definition moved (x : string) (r' : Run) (ps : gmap string ProviderHandler) (b : broker) : broker :=
  set_b_providers ps (set_b_heap (<[x := r']> (b_heap b)) b).

Definition offered_on (r : Run) (key : string) : Z := b2z (bool_decide (r_offered_to r = Some key)).

Lemma holds_offered b x r key : b_heap b !! x = Some r -> b2z (holds b key x) = offered_on r key.
Proof. intros Hr. unfold holds, offered_on. by rewrite Hr. Qed.

(** The run's place changes hands, and the providers' counts with it. *)
Lemma mid_moved x r r' h w0 w ps :
  mid x r h w0 w ->
  (r_run_id r', r_thread_id r', r_settled r', r_out_queue r') =
    (r_run_id r, r_thread_id r, r_settled r, r_out_queue r) ->
  (forall key, in_flight key (moved x r' ps (w_broker w)) + offered_on r key =
               in_flight key (w_broker w) + offered_on r' key)%Z ->
  (forall key, is_Some (b_providers (w_broker w) !! key) -> is_Some (ps !! key)) ->
  (forall key, r_offered_to r' = Some key -> is_Some (ps !! key)) -> r_offer_id r' <= 1 ->
  serving_ok (moved x r' ps (w_broker w)) ->
  mid x r' h w0 (on_broker (moved x r' ps) w) /\ others x w (on_broker (moved x r' ps) w).
Proof.
  intros Hm Hf Hfl Hps Hkey Honce Hserv.
  pose proof (mid_tracked _ _ _ _ _ Hm) as Hin.
  (* first change the run but for its place, then the rest of the invariant is about the place alone *)
  set (r1 := set_r_offer_id (r_offer_id r) (set_r_offered_to (r_offered_to r) r')).
  destruct (mid_put x r r1 h (w_store w) w0 w Hm) as [Hm1 Ho1]; [unfold fixed_of; simpl; congruence| |done|].
  { exists []. simpl. rewrite app_nil_r. congruence. }
  assert (Hheld : forall key, (held key (moved x r' ps (w_broker w)) + offered_on r key =
                               held key (w_broker w) + offered_on r' key)%Z).
  { intros key. unfold held. rewrite <- (holds_offered _ _ _ key (m_run _ _ _ _ _ Hm)).
    rewrite <- (holds_offered (moved x r' ps (w_broker w)) x r' key) by (cbn; apply lookup_insert_eq).
    rewrite count_flip with (p := holds (moved x r' ps (w_broker w)) key) (q := holds (w_broker w) key);
      [done|apply (i_nodup _ (m_inv _ _ _ _ _ Hm))|done|].
    intros y Hy. unfold holds. cbn. by rewrite lookup_insert_ne. }
  split.
  - destruct Hm1 as [[] HG Hh _ Ht Hx HL]. cbn in *.
    assert (Hlk : forall id, <[x:=r']> (b_heap (w_broker w)) !! id =
        (fun r0 => if decide (id = x) then r' else r0) <$> <[x:=r1]> (b_heap (w_broker w)) !! id).
    { intros id. rewrite !lookup_insert. repeat case_decide; subst; try done.
      by destruct (b_heap (w_broker w) !! id). }
    assert (Hown : r_run_id r' = x) by (pose proof (mid_id _ _ _ _ _ Hm); congruence).
    constructor; [constructor| | | | | |]; cbn; try done.
    + intros id r0. rewrite lookup_insert. case_decide; subst; [intros [= <-]; done|].
      intros Hr0. apply i_ids0. by rewrite lookup_insert_ne.
    + intros id Hi. destruct (i_tracked0 id Hi) as (r0&Hr0&?&?&?). rewrite Hlk, Hr0. eexists. split; [done|].
      case_decide; [|done]. subst. rewrite lookup_insert_eq in Hr0. injection Hr0 as <-. done.
    + intros id r0. rewrite lookup_insert. case_decide; subst; [done|]. intros Hr0. apply i_settled0.
      by rewrite lookup_insert_ne.
    + intros key. specialize (Hheld key). specialize (Hfl key).
      pose proof (i_places _ (m_inv _ _ _ _ _ Hm) key). lia.
    + intros id r0 key. rewrite lookup_insert. case_decide; subst; [intros [= <-]; apply Hkey|].
      intros Hr0 Hk. apply Hps. eapply i_keys0; [|done]. by rewrite lookup_insert_ne.
    + intros id r0. rewrite lookup_insert. case_decide; subst; [intros [= <-]|].
      * exact (i_stream0 _ r1 (lookup_insert_eq _ _ _)).
      * intros Hr0. apply (i_stream0 id). by rewrite lookup_insert_ne.
    + intros id r0. rewrite lookup_insert. case_decide; subst; [intros [= <-]; done|].
      intros Hr0. apply (i_once0 id). by rewrite lookup_insert_ne.
    + intros id r0 Hi. rewrite lookup_insert. case_decide; subst; [intros [= <-]|].
      * exact (i_owner0 _ r1 Hi (lookup_insert_eq _ _ _)).
      * intros Hr0. apply (i_owner0 id r0 Hi). by rewrite lookup_insert_ne.
    + intros t' h' id Hh' Hl. destruct (i_live0 _ _ _ Hh' Hl) as (?&r0&Hr0&?). split; [done|].
      rewrite Hlk, Hr0. eexists. split; [done|]. case_decide; [|done]. subst.
      rewrite lookup_insert_eq in Hr0. injection Hr0 as <-. done.
    + intros t' h' id Hh' Hq. destruct (decide (id = x)) as [->|Hne].
      { by edestruct (mid_not_queued _ _ _ _ _ t' h' Hm Hh'). }
      destruct (i_queued0 _ _ _ Hh' Hq) as (?&?&r0&l&Hr0&?). split_and!; [done..|].
      rewrite Hlk, Hr0. eexists _, l. split; [done|]. by rewrite decide_False.
    + etrans; [exact (m_guar _ _ _ _ _ Hm)|]. split; [|intros; reflexivity].
      intros id r0 Hr0 Hne. exists r0. cbn. rewrite lookup_insert_ne; [done|].
      intros ->. pose proof (m_run _ _ _ _ _ Hm). pose proof (m_mine _ _ _ _ _ Hm). congruence.
    + by rewrite lookup_insert_eq.
    + intros h1 Hh1. destruct (m_local _ _ _ _ _ Hm h1 Hh1) as (Hnd&Hsub&Hok). split_and!; [done|done|]. cbn.
      intros id r0 Hid Hne. rewrite lookup_insert_ne by done. apply Hok; done.
  - intros id r0 Hr0 [_ Hne]. exists r0. cbn. pose proof (i_ids _ (m_inv _ _ _ _ _ Hm) _ _ Hr0).
    rewrite lookup_insert_ne by congruence. done.
Qed.

End mid.
End BrokerMid.
