(* ===== verification/BrokerMoves.v ===== *)
(** * Reserving, giving back and settling

    The owner's moves of [BrokerMid] as the broker makes them: [take_place],
    [_release], queue changes and [_settle]. *)

From S2P Require Import Prelude Errors Json Models Coop BrokerState BrokerOps Dispatch BrokerInv BrokerQuiet BrokerMid.

Module BrokerMoves.
Import Broker BrokerOps Dispatch BrokerInv BrokerQuiet BrokerMid.

(** ** Lists *)

Lemma elem_of_remove1 x y l : NoDup l -> y ∈ remove1 x l <-> y ∈ l /\ y <> x.
Proof.
  induction 1 as [|z l Hz Hnd IH]; cbn [remove1].
  - split; [by intros ?%not_elem_of_nil|by intros [?%not_elem_of_nil _]].
  - case_decide; subst; [|rewrite elem_of_cons, IH, elem_of_cons; naive_solver].
    rewrite elem_of_cons. split; [|naive_solver]. intros Hy. split; [by right|]. by intros ->.
Qed.

Lemma remove1_subset x y l : y ∈ remove1 x l -> y ∈ l.
Proof.
  induction l as [|z l IH]; cbn [remove1]; [done|]. case_decide; [by right|].
  intros [->|?]%elem_of_cons; [by left|right; auto].
Qed.

Lemma NoDup_remove1 x l : NoDup l -> NoDup (remove1 x l).
Proof.
  induction 1 as [|z l Hz Hnd IH]; cbn [remove1]; [constructor|]. case_decide; [done|].
  constructor; [|done]. by intros ?%remove1_subset.
Qed.

Lemma head_remove1 x y l : y <> x -> head l = Some y -> head (remove1 x l) = Some y.
Proof. destruct l as [|z l]; cbn; [done|]. intros Hne [= ->]. by rewrite decide_False. Qed.

Lemma remove1_notin x l : x ∉ l -> remove1 x l = l.
Proof.
  induction l as [|z l IH]; cbn; [done|]. intros [??]%not_elem_of_cons. rewrite decide_False by done. f_equal. auto.
Qed.

Section moves.
Context {S : Type} `{!Seams S} `{!RecorderLaws S}.
Context (t : string).
Notation world := (world S).
Implicit Types (w : world) (b : broker) (r : Run) (h : ThreadHandler) (st : run_status) (e : option entry_t).

(** ** Places *)

Definition placed (connection : ConnectedProvider) (interjection : bool) (r : Run) : Run :=
  set_r_verdict_open true (set_r_offer_id (r_offer_id r + 1) (set_r_is_interjection interjection
    (set_r_offered_conn (Some connection) (set_r_offered_to (Some (public_key connection)) r)))).

Lemma alter_insert_run (f : Run -> Run) x (m : gmap string Run) r :
  m !! x = Some r -> alter f x m = <[x := f r]> m.
Proof.
  intros Hr. apply map_eq. intros id. rewrite lookup_alter, lookup_insert.
  case_decide; subst; [by rewrite Hr|done].
Qed.

Lemma serving_ok_upd b b' key f :
  b_serving b' = b_serving b -> b_providers b' = <[key := f (_provider key b)]> (b_providers b) ->
  (forall p, p_connection (f p) = p_connection p) -> serving_ok b -> serving_ok b'.
Proof.
  intros Hs Hp Hf Hok ref k. rewrite Hs. intros Hg. destruct (Hok _ _ Hg) as (p&c&Hk&Hc&?).
  rewrite Hp, lookup_insert. case_decide; subst; [|eauto]. unfold _provider. rewrite Hk. simpl.
  exists (f p), c. by rewrite Hf.
Qed.

Lemma mid_take_place x r h w0 w c i :
  mid t x r h w0 w -> r_offered_to r = None -> r_offer_id r = 0 ->
  mid t x (placed c i r) h w0 (on_broker (take_place x c i) w) /\
  others t x w (on_broker (take_place x c i) w) /\
  entry x (on_broker (take_place x c i) w) = entry x w.
Proof.
  intros Hm Ho Hzero. set (f := fun p => set_p_in_flight (p_in_flight p + 1)%Z p).
  set (ps := <[public_key c := f (_provider (public_key c) (w_broker w))]> (b_providers (w_broker w))).
  assert (on_broker (take_place x c i) w = on_broker (moved x (placed c i r) ps) w) as Heq.
  { unfold on_broker, take_place, moved, upd_run, upd_provider, ps, f, _provider. cbn.
    by rewrite (alter_insert_run _ _ _ _ (m_run _ _ _ _ _ _ Hm)). }
  rewrite Heq. unfold entry. cbn [w_store on_broker]. split_and!; [| |done];
  (eapply (mid_moved t x r (placed c i r) h w0 w ps Hm);
   [done| | | |cbn; lia|apply (serving_ok_upd (w_broker w) _ (public_key c) f); [done..|apply (m_inv _ _ _ _ _ _ Hm)]]).
  all: try (intros key; cbn; unfold ps; rewrite lookup_insert; by case_decide).
  all: try (intros key; cbn; intros [= <-]; unfold ps; rewrite lookup_insert_eq; done).
  all: intros key; unfold in_flight, offered_on; cbn; rewrite Ho; unfold ps; rewrite lookup_insert;
    rewrite (bool_decide_eq_false_2 (None = Some key)) by done;
    destruct (decide (public_key c = key)) as [<-|Hne];
    [rewrite bool_decide_eq_true_2 by done; unfold f, _provider; destruct (b_providers (w_broker w) !! _); simpl; lia
    |rewrite bool_decide_eq_false_2 by congruence; simpl; lia].
Qed.

Definition unplaced (r : Run) : Run := set_r_offered_conn None (set_r_offered_to None r).

(** A held place is counted, so giving it back always does. *)
Lemma held_pos x r h w0 w key : mid t x r h w0 w -> r_offered_to r = Some key ->
  exists p, b_providers (w_broker w) !! key = Some p /\ (0 < p_in_flight p)%Z.
Proof.
  intros Hm Ho. pose proof (m_inv _ _ _ _ _ _ Hm) as HI.
  destruct (i_keys _ HI _ _ _ (m_run _ _ _ _ _ _ Hm) Ho) as [p Hp]. exists p. split; [done|].
  pose proof (i_places _ HI key) as Hpl. unfold in_flight in Hpl. rewrite Hp in Hpl. rewrite Hpl.
  assert (x ∈ filter (fun id => holds (w_broker w) key id = true) (b_runs (w_broker w))) as Hin.
  { apply list_elem_of_filter. split; [|by eapply mid_tracked]. unfold holds.
    rewrite (m_run _ _ _ _ _ _ Hm). by apply bool_decide_eq_true_2. }
  unfold held. destruct (filter _ _); [by apply not_elem_of_nil in Hin|]. simpl. lia.
Qed.

Lemma mid_release x r h w0 w :
  mid t x r h w0 w ->
  mid t x (unplaced r) h w0 (on_broker (_release x) w) /\
  others t x w (on_broker (_release x) w) /\ entry x (on_broker (_release x) w) = entry x w.
Proof.
  intros Hm. pose proof (m_run _ _ _ _ _ _ Hm) as Hr.
  set (ps := match r_offered_to r with
             | Some key => match b_providers (w_broker w) !! key with
                           | Some p => <[key := free_place p]> (b_providers (w_broker w))
                           | None => b_providers (w_broker w) end
             | None => b_providers (w_broker w) end).
  assert (on_broker (_release x) w = on_broker (moved x (unplaced r) ps) w) as Heq.
  { unfold on_broker, _release, moved, ps, upd_run. rewrite Hr. cbn.
    rewrite (alter_insert_run _ _ _ _ Hr). cbn. destruct (r_offered_to r) as [key|]; [|by destruct (w_broker w)].
    destruct (b_providers (w_broker w) !! key); [done|by destruct (w_broker w)]. }
  rewrite Heq. unfold entry. cbn [w_store on_broker].
  assert (Hps : forall key', is_Some (b_providers (w_broker w) !! key') -> is_Some (ps !! key')).
  { intros key' Hk. unfold ps. destruct (r_offered_to r) as [key|]; [|done].
    destruct (b_providers (w_broker w) !! key); [|done]. rewrite lookup_insert. by case_decide. }
  assert (Hserv : serving_ok (moved x (unplaced r) ps (w_broker w))).
  { pose proof (i_serving _ (m_inv _ _ _ _ _ _ Hm)) as Hs. unfold ps. destruct (r_offered_to r) as [key|]; [|done].
    destruct (b_providers (w_broker w) !! key) as [p|] eqn:Hp; [|done].
    apply (serving_ok_upd (w_broker w) _ key free_place); [done| | |done].
    - unfold _provider. by rewrite Hp.
    - intros q. unfold free_place. by case_match. }
  assert (Hfl : forall key, (in_flight key (moved x (unplaced r) ps (w_broker w)) + offered_on r key =
    in_flight key (w_broker w) + offered_on (unplaced r) key)%Z).
  { intros key. unfold offered_on at 2. cbn. destruct (r_offered_to r) as [key0|] eqn:Ho.
    - destruct (held_pos _ _ _ _ _ _ Hm Ho) as (p&Hp&Hpos). unfold ps, in_flight, offered_on. cbn.
      rewrite Ho, Hp, lookup_insert. destruct (decide (key0 = key)) as [<-|Hne].
      + rewrite Hp, bool_decide_eq_true_2 by done. unfold free_place. apply Z.ltb_lt in Hpos. rewrite Hpos.
        simpl. lia.
      + rewrite bool_decide_eq_false_2 by congruence. simpl. lia.
    - unfold ps, in_flight, offered_on. cbn. rewrite Ho. simpl. lia. }
  pose proof (i_once _ (m_inv _ _ _ _ _ _ Hm) _ _ Hr) as Honce.
  split_and!; [| |done]; eapply (mid_moved t x r (unplaced r) h w0 w ps Hm); done.
Qed.

(** ** The queue *)

Lemma runs_kept_same P (w w' : world) :
  b_heap (w_broker w') = b_heap (w_broker w) -> b_runs (w_broker w') = b_runs (w_broker w) ->
  (forall id, entry id w' = entry id w) -> runs_kept P w w'.
Proof. intros Hh Hr Hs id r Hid _. exists r. by rewrite Hh, Hr, Hs. Qed.

Lemma mid_queue x r h w0 w q :
  mid t x r h w0 w -> NoDup q -> (forall id, id ∈ q -> id ∈ t_live h) ->
  (forall id, id <> x -> id ∈ q <-> id ∈ t_queue h) ->
  (forall id, id <> x -> head (t_queue h) = Some id -> head q = Some id) ->
  mid t x r (set_t_queue q h) w0 (on_broker (upd_thread t (set_t_queue q)) w) /\
  others t x w (on_broker (upd_thread t (set_t_queue q)) w) /\
  entry x (on_broker (upd_thread t (set_t_queue q)) w) = entry x w.
Proof.
  intros Hm Hnd Hsub Hiff Hhead. pose proof (m_thread _ _ _ _ _ _ Hm) as Hh.
  assert (Hth : forall t', alter (set_t_queue q) t (b_threads (w_broker w)) !! t' =
    if decide (t = t') then Some (set_t_queue q h) else b_threads (w_broker w) !! t').
  { intros t'. rewrite lookup_alter. case_decide; subst; [by rewrite Hh|done]. }
  assert (Hsame : forall t' h', alter (set_t_queue q) t (b_threads (w_broker w)) !! t' = Some h' ->
    exists h0, b_threads (w_broker w) !! t' = Some h0 /\ t_inbox h' = t_inbox h0 /\ t_live h' = t_live h0).
  { intros t' h'. rewrite Hth. case_decide; [|by exists h']. subst. intros [= <-]. by exists h. }
  split_and!; [| |done].
  - destruct Hm as [[] HG _ Hr Ht Hx HL]. constructor; cbn; try done.
    + constructor; cbn; try done.
      * intros id r0 Hi Hr0. destruct (i_owner0 _ _ Hi Hr0) as (h0&Hh0&Hor). rewrite Hth.
        case_decide; [|by exists h0]. exists (set_t_queue q h). split; [done|].
        assert (h0 = h) as -> by congruence. done.
      * intros t' h' id (h0&Hh0&_&->)%Hsame. eauto.
      * intros t' h' (h0&Hh0&_&->)%Hsame. eauto.
      * intros t' h' id (h0&Hh0&->&->)%Hsame. eauto.
      * intros t' h' (h0&Hh0&->&_)%Hsame. eauto.
      * intros t' h' m (h0&Hh0&->&_)%Hsame. eauto.
    + etrans; [exact HG|]. split; [by apply runs_kept_same|]. intros t' Hne. cbn. by rewrite lookup_alter_ne by congruence.
    + by rewrite Hth, decide_True.
    + intros h1. cbn. rewrite Hth, decide_True by done. intros [= <-]. cbn.
      destruct (HL h Hh) as (_&_&Hok). split_and!; [done|done|].
      intros id r0 Hid Hne Hr0. destruct (Hok _ _ Hid Hne Hr0) as [Hrun Hfit]. split; [|done].
      destruct Hrun as [Hp Hrun]. split; [done|]. destruct (r_offered_to r0).
      * destruct Hrun as (?&?&Hq). split_and!; [done|done|]. case_match; [by rewrite Hiff by congruence|].
        apply Hhead; [congruence|done].
      * destruct Hrun as (?&?&?&?). split_and!; [done..|]. by rewrite Hiff by congruence.
  - by apply runs_kept_same.
Qed.

(** The work on [x] is over and it is in order: the owner is done. *)
Lemma mid_done x r h e w0 w :
  mid t x r h w0 w -> run_ok (t_queue h) x r -> entry x w = e -> status_fits r e ->
  guar t w0 w /\ inv w /\ local t w.
Proof.
  intros [] Hok Hst Hfit. split_and!; [done|done|]. intros h1 Hh1. destruct (m_local0 h1 Hh1) as (?&?&Hl).
  split_and!; [done|done|]. intros id r0 Hid _ Hr0. destruct (decide (x = id)) as [->|]; [|auto].
  simplify_eq. done.
Qed.

(** ** Settling *)

(** What the broker is after a run was dropped from it. *)
Record dropped (x : string) (r : Run) (h : ThreadHandler) (b b' : broker) : Prop := {
  dr_runs : b_runs b' = remove1 x (b_runs b);
  dr_run_threads : b_run_threads b' = delete x (b_run_threads b);
  dr_handlers : b_handlers b' = b_handlers b ∖ {[x]};
  dr_heap : exists r', b_heap b' = <[x := r']> (b_heap b) /\ r_run_id r' = r_run_id r /\ r_thread_id r' = r_thread_id r /\
    r_settled r' = true /\ r_offered_to r' = None /\ r_offer_id r' = r_offer_id r /\ r_out_queue r' = r_out_queue r ++ [END_OF_STREAM] /\ r_seq r' = r_seq r;
  dr_threads : b_threads b' = <[t := drop_from x h]> (b_threads b);
  dr_in_flight key : (in_flight key b' + offered_on r key = in_flight key b)%Z;
  dr_keys key : is_Some (b_providers b !! key) -> is_Some (b_providers b' !! key);
  dr_serving : serving_ok b';
}.

Lemma ended_agrees r r' l : r_out_queue r' = r_out_queue r ++ [END_OF_STREAM] -> r_seq r' = r_seq r -> agreeing r l -> agreeing r' l.
Proof. unfold agrees, said. intros -> ->. by rewrite omap_app, app_nil_r. Qed.

Lemma dropped_held x r h w0 w b' key : mid t x r h w0 w -> dropped x r h (w_broker w) b' ->
  (held key b' + offered_on r key = held key (w_broker w))%Z.
Proof.
  intros Hm []. destruct dr_heap0 as (r'&Hheap&_&_&_&Hoff&_&_).
  pose proof (i_nodup _ (m_inv _ _ _ _ _ _ Hm)) as Hnd. pose proof (mid_tracked _ _ _ _ _ _ Hm) as Hin.
  rewrite <- (holds_offered _ _ _ key (m_run _ _ _ _ _ _ Hm)). unfold held. rewrite dr_runs0.
  assert (Hh : forall y, y <> x -> holds b' key y = holds (w_broker w) key y).
  { intros y Hy. unfold holds. by rewrite Hheap, lookup_insert_ne. }
  set (p := holds b' key) in *. set (q := holds (w_broker w) key) in *. clearbody p q.
  clear -Hnd Hin Hh. induction Hnd as [|y l Hy Hnd IH]; [by apply not_elem_of_nil in Hin|].
  cbn [remove1]. rewrite !filter_cons. destruct (decide (x = y)) as [<-|Hne].
  - assert (filter (fun y => p y = true) l = filter (fun y => q y = true) l) as ->.
    { clear IH Hin. induction l as [|z l IHl]; [done|]. rewrite !filter_cons.
      apply not_elem_of_cons in Hy as [Hz Hy]. apply NoDup_cons in Hnd as [_ Hnd].
      rewrite (Hh z) by congruence. by rewrite IHl. }
    unfold b2z. destruct (q x); simpl; repeat case_decide; simpl; try congruence; lia.
  - apply elem_of_cons in Hin as [?|Hin]; [congruence|]. specialize (IH Hin). rewrite filter_cons.
    rewrite (Hh y) by congruence. case_decide; simpl; lia.
Qed.

Lemma dropped_thread x r h w0 w b' t' h' : mid t x r h w0 w -> dropped x r h (w_broker w) b' ->
  b_threads b' !! t' = Some h' -> exists h0, b_threads (w_broker w) !! t' = Some h0 /\ t_inbox h' = t_inbox h0 /\
    t_live h' = (if decide (t = t') then remove1 x (t_live h0) else t_live h0).
Proof.
  intros Hm []. rewrite dr_threads0, lookup_insert. case_decide; subst; [|by exists h'].
  intros [= <-]. exists h. by rewrite (m_thread _ _ _ _ _ _ Hm).
Qed.

Lemma dropped_inv x r h st l w0 w b' s' :
  mid t x r h w0 w -> entry x w = Some (st, l) -> final st = true -> agreeing r l -> dropped x r h (w_broker w) b' ->
  (forall id, entry_of id s' = entry_of id (w_store w)) -> inv (mkWorld b' s').
Proof.
  intros Hm Hst Hfin Hag Hd Hs. pose proof (fun key => dropped_held _ _ _ _ _ _ key Hm Hd) as Hheld.
  pose proof (fun t' h' => dropped_thread _ _ _ _ _ _ t' h' Hm Hd) as Hback.
  pose proof (mid_tracked _ _ _ _ _ _ Hm) as Hin. pose proof (mid_id _ _ _ _ _ _ Hm) as Hid.
  pose proof (mid_unsettled _ _ _ _ _ _ Hm) as Hus.
  pose proof (fun t' h' => mid_not_queued _ _ _ _ _ _ t' h' Hm) as Hnq.
  destruct Hd, dr_heap0 as (r'&Hheap&Hi'&Ht'&Hs'&Ho'&Honce'&Hq'&Hseq').
  destruct Hm as [[] HG Hh Hr Ht Hx HL].
  assert (Hruns : forall id, id ∈ b_runs b' <-> id ∈ b_runs (w_broker w) /\ id <> x).
  { intros id. rewrite dr_runs0. by apply elem_of_remove1. }
  assert (Hlook : forall id, id <> x -> b_heap b' !! id = b_heap (w_broker w) !! id).
  { intros id Hne. rewrite Hheap. by apply lookup_insert_ne. }
  assert (Hlive : forall t' h' id, b_threads b' !! t' = Some h' -> id ∈ t_live h' ->
    id <> x /\ exists h0, b_threads (w_broker w) !! t' = Some h0 /\ id ∈ t_live h0).
  { intros t' h' id Hh' Hl. destruct (Hback _ _ Hh') as (h0&Hh0&_&Hl0). rewrite Hl0 in Hl. case_decide.
    - apply elem_of_remove1 in Hl as [??]; [eauto|]. by eapply i_live_nodup0.
    - split; [|eauto]. intros ->. destruct (i_live0 _ _ _ Hh0 Hl) as (_&r0&?&?). congruence. }
  constructor; cbn; rewrite ?dr_run_threads0, ?dr_handlers0; try done.
  - rewrite dr_runs0. by apply NoDup_remove1.
  - intros id r0. rewrite Hheap, lookup_insert. case_decide; subst; [intros [= <-]; congruence|eauto].
  - intros id [Hi Hne]%Hruns. destruct (i_tracked0 id Hi) as (r0&?&?&?&?). exists r0.
    rewrite Hlook, lookup_delete_ne by done. split_and!; [done..|]. set_solver.
  - intros id Hn. rewrite lookup_delete. case_decide; [done|]. apply i_untracked0. rewrite Hruns in Hn.
    intros Hi. apply Hn. by split; [|congruence].
  - intros id r0 Hr0 Hn. unfold entry. cbn. rewrite Hs. destruct (decide (id = x)) as [->|Hne].
    + rewrite Hheap, lookup_insert_eq in Hr0. injection Hr0 as <-. split_and!; [done|done|]. exists st, l. split_and!; [done|done|]. by eapply ended_agrees.
    + apply i_settled0; [by rewrite <- Hlook|]. rewrite Hruns in Hn. tauto.
  - intros key. specialize (Hheld key). specialize (dr_in_flight0 key). specialize (i_places0 key). lia.
  - intros id r0 key. rewrite Hheap, lookup_insert. case_decide; [intros [= <-]; congruence|].
    intros Hr0 Ho0. eauto.
  - intros id r0. rewrite Hheap, lookup_insert. case_decide; [|eauto]. intros [= <-].
    destruct (i_stream0 _ _ Hr) as [items Hit]. rewrite Hus, app_nil_r in Hit. exists items. by rewrite Hs', Hq', Hit.
  - intros id r0. rewrite Hheap, lookup_insert. case_decide; [|eauto]. intros [= <-]. rewrite Honce'. eauto.
  - intros id r0 [Hi Hne]%Hruns. rewrite Hlook by done. intros Hr0.
    destruct (i_owner0 _ _ Hi Hr0) as (h0&Hh0&Hor). rewrite dr_threads0, lookup_insert.
    case_decide; [|by exists h0]. eexists; split; [done|]. assert (h0 = h) as -> by congruence. cbn.
    destruct Hor as [Hl|?]; [left|by right]. apply elem_of_remove1; [by eapply i_live_nodup0|done].
  - intros t' h' id Hh' Hl. destruct (Hlive _ _ _ Hh' Hl) as (Hne&h0&Hh0&Hl0).
    destruct (i_live0 _ _ _ Hh0 Hl0) as (?&?). rewrite Hruns, Hlook by done. done.
  - intros t' h' Hh'. destruct (Hback _ _ Hh') as (h0&Hh0&_&->). case_decide; [apply NoDup_remove1|]; eauto.
  - intros t' h' id Hh' Hq. pose proof (fun H => proj1 (Hlive _ _ id Hh' H)) as Hl'.
    destruct (Hback _ _ Hh') as (h0&Hh0&Hinb&Hl0). rewrite Hinb in Hq.
    assert (id <> x) by (intros ->; eapply Hnq; eauto).
    destruct (i_queued0 _ _ _ Hh0 Hq) as (?&?&?). unfold entry. cbn. rewrite Hs, Hruns, Hlook by done.
    split_and!; [done|done| |done]. rewrite Hl0. case_decide; [|done]. by intros ?%remove1_subset.
  - intros t' h' Hh'. destruct (Hback _ _ Hh') as (h0&Hh0&->&_). eauto.
  - intros t' h' m Hh'. destruct (Hback _ _ Hh') as (h0&Hh0&->&_). eauto.
Qed.

(** The broker [forget] leaves, before it signals the sweep. *)
Definition dropped_broker (x : string) (b : broker) : broker :=
  let b := upd_thread t (drop_from x) (upd_run x end_stream b) in
  let b := set_b_runs (remove1 x (b_runs b)) b in
  let b := set_b_run_threads (delete x (b_run_threads b)) b in
  let b := set_b_handlers (b_handlers b ∖ {[x]}) b in
  let b := upd_run x (set_r_settled true) b in
  match b_heap b !! x with
  | Some r => if bool_decide (r_offered_to r = None) then b else _release x b
  | None => b
  end.

Lemma forget_eq x r h w0 w : mid t x r h w0 w ->
  forget x (upd_thread t (drop_from x) (upd_run x end_stream (w_broker w))) =
  _poke_threads (set_b_work_to_do true (dropped_broker x (w_broker w))).
Proof.
  intros Hm. unfold forget, tracked, dropped_broker. cbn [b_runs upd_thread upd_run set_b_threads set_b_heap].
  rewrite bool_decide_eq_true_2 by (by eapply mid_tracked). cbn.
  rewrite !(alter_insert_run _ _ _ _ (m_run _ _ _ _ _ _ Hm)), !lookup_insert_eq.
  rewrite (alter_insert_run _ _ _ _ (lookup_insert_eq _ _ _)), lookup_insert_eq. done.
Qed.

Lemma dropped_broker_ok x r h w0 w : mid t x r h w0 w -> dropped x r h (w_broker w) (dropped_broker x (w_broker w)).
Proof.
  intros Hm. pose proof (m_run _ _ _ _ _ _ Hm) as Hr. pose proof (m_thread _ _ _ _ _ _ Hm) as Hh.
  assert (Hheap : alter (set_r_settled true) x (alter end_stream x (b_heap (w_broker w))) =
                  <[x := set_r_settled true (end_stream r)]> (b_heap (w_broker w))).
  { rewrite (alter_insert_run _ _ _ _ Hr), (alter_insert_run _ _ _ _ (lookup_insert_eq _ _ _)). apply insert_insert_eq. }
  unfold dropped_broker. cbn. rewrite Hheap, lookup_insert_eq. cbn.
  assert (Hth : alter (drop_from x) t (b_threads (w_broker w)) = <[t := drop_from x h]> (b_threads (w_broker w))).
  { apply map_eq. intros t'. rewrite lookup_alter, lookup_insert. case_decide; subst; [by rewrite Hh|done]. }
  assert (Hgo : forall ps rz,
    (forall key, (match ps !! key with Some p => p_in_flight p | None => 0 end + offered_on r key =
       in_flight key (w_broker w)))%Z ->
    (forall key, is_Some (b_providers (w_broker w) !! key) -> is_Some (ps !! key)) ->
    (forall b', b_serving b' = b_serving (w_broker w) -> b_providers b' = ps -> serving_ok b') ->
    r_run_id rz = r_run_id r -> r_thread_id rz = r_thread_id r -> r_settled rz = true -> r_offered_to rz = None ->
    r_offer_id rz = r_offer_id r -> r_out_queue rz = r_out_queue r ++ [END_OF_STREAM] -> r_seq rz = r_seq r ->
    forall b', b_runs b' = remove1 x (b_runs (w_broker w)) -> b_run_threads b' = delete x (b_run_threads (w_broker w)) ->
    b_handlers b' = b_handlers (w_broker w) ∖ {[x]} -> b_heap b' = <[x := rz]> (b_heap (w_broker w)) ->
    b_threads b' = <[t := drop_from x h]> (b_threads (w_broker w)) -> b_providers b' = ps ->
    b_serving b' = b_serving (w_broker w) -> dropped x r h (w_broker w) b').
  { intros ps rz Hfl Hk Hs ??????? b' ????? Hp Hsv. constructor; try done.
    - exists rz. done.
    - intros key. unfold in_flight at 1. rewrite Hp. apply Hfl.
    - intros key. rewrite Hp. apply Hk.
    - by apply Hs. }
  destruct (r_offered_to r) as [key|] eqn:Ho.
  - destruct (held_pos _ _ _ _ _ _ Hm Ho) as (p&Hp&Hpos).
    rewrite bool_decide_eq_false_2 by done. unfold _release. cbn. rewrite Hheap, lookup_insert_eq. cbn.
    rewrite Ho, Hp.
    eapply (Hgo (<[key := free_place p]> (b_providers (w_broker w))) (unplaced (set_r_settled true (end_stream r))));
      try done; [| | |cbn; by rewrite Hheap, (alter_insert_run _ _ _ _ (lookup_insert_eq _ _ _)), insert_insert_eq].
    + intros k. unfold in_flight, offered_on. rewrite Ho, lookup_insert. destruct (decide (key = k)) as [<-|Hne].
      * rewrite Hp, bool_decide_eq_true_2 by done. unfold free_place. apply Z.ltb_lt in Hpos. rewrite Hpos. simpl. lia.
      * rewrite bool_decide_eq_false_2 by congruence. simpl. lia.
    + intros k Hk. rewrite lookup_insert. by case_decide.
    + intros b' Hs Hps. apply (serving_ok_upd (w_broker w) b' key free_place); [done| | |].
      * rewrite Hps. unfold _provider. by rewrite Hp.
      * intros q. unfold free_place. by case_match.
      * apply (i_serving _ (m_inv _ _ _ _ _ _ Hm)).
  - rewrite bool_decide_eq_true_2 by done. eapply (Hgo (b_providers (w_broker w)) (set_r_settled true (end_stream r))); try done.
    + intros k. unfold in_flight, offered_on. rewrite Ho. simpl. lia.
    + intros b' Hs Hp. unfold serving_ok. rewrite Hs, Hp. apply (i_serving _ (m_inv _ _ _ _ _ _ Hm)).
Qed.

Definition ended_run (x : string) h (w0 w w' : world) : Prop :=
  guar t w0 w' /\ inv w' /\ local t w' /\ others t x w w' /\
  exists h', b_threads (w_broker w') !! t = Some h' /\
    t_queue h' = remove1 x (t_queue h) /\ t_live h' = remove1 x (t_live h).

Definition after_settle (x : string) h (w0 w w' : world) : Prop :=
  ended_run x h w0 w w' /\ entry x w' = entry x w.

Lemma settle_after x r h st l w0 w :
  mid t x r h w0 w -> entry x w = Some (st, l) -> final st = true -> agreeing r l ->
  after_settle x h w0 w (mkWorld (forget x (upd_thread t (drop_from x) (upd_run x end_stream (w_broker w))))
                           (forget_listener x (w_store w))).
Proof.
  intros Hm Hst Hfin Hag. rewrite (forget_eq _ _ _ _ _ Hm).
  set (b3 := dropped_broker x (w_broker w)). set (s' := forget_listener x (w_store w)).
  pose proof (dropped_broker_ok _ _ _ _ _ Hm) as Hd. fold b3 in Hd.
  assert (Hs : forall id, entry_of id s' = entry_of id (w_store w)) by (intros; apply entry_of_forget).
  pose proof (dropped_inv _ _ _ _ _ _ _ _ s' Hm Hst Hfin Hag Hd Hs) as HI.
  assert (Hq : quiet b3 (_poke_threads (set_b_work_to_do true b3))).
  { transitivity (set_b_work_to_do true b3); [by apply quiet_same|apply quiet_poke_threads]. }
  pose proof (quiet_inv _ _ s' Hq HI) as HI'. pose proof (quiet_rely _ _ s' t Hq) as HR.
  destruct (dr_heap _ _ _ _ _ Hd) as (rz&Hheap&_).
  assert (Hin : forall id, id <> x -> id ∈ b_runs b3 <-> id ∈ b_runs (w_broker w)).
  { intros id Hne. rewrite (dr_runs _ _ _ _ _ Hd), elem_of_remove1; [tauto|apply (i_nodup _ (m_inv _ _ _ _ _ _ Hm))]. }
  assert (Hoth : forall P : Run -> Prop, (forall id r0, b_heap (w_broker w) !! id = Some r0 -> P r0 -> id <> x) ->
    runs_kept P w (mkWorld (_poke_threads (set_b_work_to_do true b3)) s')).
  { intros P HP id r0 Hr0 HPr. pose proof (HP _ _ Hr0 HPr) as Hne.
    destruct (quiet_heap _ _ id r0 Hq) as (r1&Hr1&Ht1).
    { rewrite Hheap, lookup_insert_ne; done. }
    exists r1. cbn in Hr1 |- *. split_and!; [done|done|by apply Hin|apply Hs]. }
  assert (HL : local t (mkWorld b3 s')).
  { intros h1. cbn. rewrite (dr_threads _ _ _ _ _ Hd), lookup_insert_eq. intros [= <-]. cbn.
    destruct (m_local _ _ _ _ _ _ Hm _ (m_thread _ _ _ _ _ _ Hm)) as (Hnd&Hsub&Hok).
    pose proof (i_live_nodup _ (m_inv _ _ _ _ _ _ Hm) _ _ (m_thread _ _ _ _ _ _ Hm)) as Hndl.
    split_and!; [by apply NoDup_remove1| |].
    - intros id. rewrite !elem_of_remove1 by done. intros [? ?]. auto.
    - intros id r0 [Hid Hne]%elem_of_remove1 _; [|done]. rewrite Hheap, lookup_insert_ne by done. intros Hr0.
      destruct (Hok id r0 Hid ltac:(congruence) Hr0) as [[Hp Hrun] Hfit]. unfold entry in *. cbn. rewrite Hs.
      split; [|done]. split; [done|]. destruct (r_offered_to r0).
      + destruct Hrun as (?&?&Hh). split_and!; [done|done|]. case_match; [by intros ?%remove1_subset|].
        by apply head_remove1.
      + rewrite elem_of_remove1 by done. naive_solver. }
  split; [|apply Hs]. split_and!.
  - etrans; [exact (m_guar _ _ _ _ _ _ Hm)|]. split.
    + apply Hoth. intros id r0 Hr0 Hne ->. pose proof (m_run _ _ _ _ _ _ Hm). pose proof (m_mine _ _ _ _ _ _ Hm).
      congruence.
    + intros t' Hne. transitivity (b_threads b3 !! t'); [|exact (quiet_threads_kept _ _ t' Hq)].
      rewrite (dr_threads _ _ _ _ _ Hd), lookup_insert_ne by congruence. done.
  - exact HI'.
  - eapply local_stable; [exact HI|exact HR|exact HL].
  - apply Hoth. intros id r0 Hr0 [_ Hne]. pose proof (i_ids _ (m_inv _ _ _ _ _ _ Hm) _ _ Hr0). congruence.
  - cbn. rewrite lookup_fmap, (dr_threads _ _ _ _ _ Hd), lookup_insert_eq. cbn. eexists. split; [done|]. done.
Qed.

Lemma wp_settle x r h st l w0 w Q :
  mid t x r h w0 w -> entry x w = Some (st, l) -> final st = true -> agreeing r l ->
  (forall w', after_settle x h w0 w w' -> Q () w0 w') ->
  wp inv (rely t) (guar t) (_settle t x) Q w0 w.
Proof. intros Hm Hst Hfin Hag HQ. exact (HQ _ (settle_after _ _ _ _ _ _ _ Hm Hst Hfin Hag)). Qed.

End moves.
End BrokerMoves.
