(* ===== verification/BrokerTurn.v ===== *)
(** * Every message keeps the broker in order

    One rule per coroutine of the thread handler: begun in order, it ends in
    order, whatever the rest of the process does at its suspensions. *)

From S2P Require Import Prelude Errors Json Models Coop BrokerState BrokerOps Dispatch BrokerInv BrokerQuiet BrokerMid BrokerMoves.

Module BrokerTurn.
Import Broker BrokerOps Dispatch BrokerInv BrokerQuiet BrokerMid BrokerMoves.

(** The owner's fields, one equation each. *)
Lemma dispatch_fields r r' : dispatch_of r' = dispatch_of r ->
  r_offered_to r' = r_offered_to r /\ r_offered_conn r' = r_offered_conn r /\ r_offer_id r' = r_offer_id r /\
  r_verdict_open r' = r_verdict_open r /\ r_is_interjection r' = r_is_interjection r /\
  r_claimed_by r' = r_claimed_by r /\ r_noted_abnormal r' = r_noted_abnormal r.
Proof. unfold dispatch_of. intros [=]. done. Qed.

Lemma recorded_run_ok q id r r' :
  dispatch_of r' = dispatch_of r -> r_poison r' = None -> run_ok q id r -> run_ok q id r'.
Proof.
  intros (H1&_&H3&H4&H5&H6&_)%dispatch_fields Hp [_ Hok]. split; [done|]. by rewrite H1, H3, H4, H5, H6.
Qed.


Section turn.
Context {S : Type} `{!Seams S} `{!RecorderLaws S}.
Context (t : string).
Notation world := (world S).
Notation coro := (comp world).
Notation WP := (wp inv (rely t) (guar t)).
Implicit Types (w : world) (b : broker) (r : Run) (h : ThreadHandler) (st : run_status) (l : kept).

Lemma fits_not_final r st l : status_fits r (Some (st, l)) -> final st = false.
Proof. intros [Hst _]. repeat case_match; destruct_or?; by simplify_eq. Qed.

(** Everything in order, the thread's task still there. *)
Definition in_order (w0 w : world) : Prop :=
  guar t w0 w /\ inv w /\ local t w /\ is_Some (b_threads (w_broker w) !! t).

Definition Q_order : () -> world -> world -> Prop := fun _ => in_order.

(** ** Rules for the coroutine combinators *)

Lemma wp_seq (c k : coro ()) Q w0 w : WP c (fun _ v0 v => WP k Q v0 v) w0 w -> WP (cbind c (fun _ => k)) Q w0 w.
Proof. apply (wp_bind _ _ _ c (fun _ => k)). Qed.

Lemma wp_do (f : broker -> broker) (Q : () -> world -> world -> Prop) w0 w : Q () w0 (on_broker f w) -> WP (do f) Q w0 w.
Proof. done. Qed.

Lemma wp_with_run x r k (Q : () -> world -> world -> Prop) w0 w :
  b_heap (w_broker w) !! x = Some r -> WP (k r) Q w0 w -> WP (with_run x k) Q w0 w.
Proof. intros Hr Hk. unfold with_run, wp in *. by rewrite Hr. Qed.

Lemma wp_with_thread h k (Q : () -> world -> world -> Prop) w0 w :
  b_threads (w_broker w) !! t = Some h -> WP (k h) Q w0 w -> WP (with_thread t k) Q w0 w.
Proof. intros Hr Hk. unfold with_thread, wp in *. by rewrite Hr. Qed.

Lemma wp_with_broker k (Q : () -> world -> world -> Prop) w0 w : WP (k (w_broker w)) Q w0 w -> WP (with_broker k) Q w0 w.
Proof. done. Qed.

(** The live run a message names, in order so far. *)
Lemma wp_with_live x k (Q : () -> world -> world -> Prop) w0 w :
  in_order w0 w ->
  (forall r h st l, mid t x r h w0 w -> run_ok (t_queue h) x r -> entry x w = Some (st, l) -> status_fits r (Some (st, l)) ->
     WP (k r) Q w0 w) ->
  Q () w0 w -> WP (with_live t x k) Q w0 w.
Proof.
  intros (HG&HI&HL&[h Hh]) Hk HQ. unfold with_live. eapply wp_with_thread; [done|].
  case_bool_decide as Hx; cbn [when]; [|exact HQ].
  destruct (i_live _ HI _ _ _ Hh Hx) as (_&r&Hr&Ht). eapply wp_with_run; [done|].
  destruct (HL h Hh) as (Hnd&Hsub&Hok). destruct (Hok x r Hx ltac:(by intros []) Hr) as [Hrun Hfit].
  destruct (entry x w) as [[st l]|] eqn:Hst; [|done].
  apply (Hk r h st l); [|done..]. constructor; try done.
  intros h1 Hh1. destruct (HL h1 Hh1) as (?&?&Hok1). split_and!; [done|done|]. intros; apply Hok1; [done|by intros []|done].
Qed.

Lemma mid_order x r h e w0 w :
  mid t x r h w0 w -> run_ok (t_queue h) x r -> entry x w = e -> status_fits r e -> in_order w0 w.
Proof.
  intros Hm Hok Hst Hfit. destruct (mid_done t x r h e w0 w Hm Hok Hst Hfit) as (?&?&?).
  split_and!; [done..|]. rewrite (m_thread _ _ _ _ _ _ Hm). by eexists.
Qed.

Lemma settle_order x h w0 w w' : ended_run t x h w0 w w' -> in_order w0 w'.
Proof. intros (?&?&?&_&h'&Hh'&_). split_and!; [done..|]. rewrite Hh'. by eexists. Qed.

(** ** Ending a run *)

Definition ending (cmd : command) (r : Run) : Prop :=
  match cmd with Fail _ _ => True | RequestCancel => r_claimed_by r = None | _ => False end.

Lemma wp_record_and_settle x cmd r h st l w0 w Q :
  mid t x r h w0 w -> entry x w = Some (st, l) -> allowed cmd r st -> agreeing r l -> ending cmd r ->
  (forall w1 w2, ended_run t x h w1 w w2 -> Q () w1 w2) ->
  WP (record_and_settle t x cmd) Q w0 w.
Proof.
  intros Hm Hst Hall Hag Hend HQ. apply wp_seq. eapply wp_record; [done..|].
  intros w1 w2 r' h' st' l' Hm' Hrec Hst' Hag' [Hb Hp] [Hlq Hll] Ho.
  assert (final st' = true) as Hfin.
  { destruct cmd; cbn in Hend; try done; cbn in Hb; [rewrite Hend in Hb|]; by subst. }
  eapply wp_settle; [done..|]. intros w' [(HG&HI&HL&Ho'&h2&Hh2&Hq2&Hl2) Hst2]. apply HQ.
  split_and!; [done|done|done|by eapply others_trans|]. exists h2. by rewrite Hq2, Hl2, Hlq, Hll.
Qed.

(** ** Offers *)

Definition unoffered (r : Run) : Prop :=
  r_offered_to r = None /\ r_verdict_open r = false /\ r_claimed_by r = None /\ r_offer_id r = 0 /\ r_poison r = None.

(** What an offer, made or not, leaves of the thread. *)
Definition after_offer (x : string) (h : ThreadHandler) (w1 w w2 : world) : Prop :=
  in_order w1 w2 /\ others t x w w2 /\
  exists h', b_threads (w_broker w2) !! t = Some h' /\ (forall y, y <> x -> y ∈ t_live h -> y ∈ t_live h') /\
    (t_queue h' = t_queue h \/ t_queue h' = insert_second x (t_queue h) \/ t_queue h' = remove1 x (t_queue h)).

Lemma no_place_ok x (i : bool) r h l w0 w :
  mid t x r h w0 w -> unoffered r -> entry x w = Some (queued, l) -> agreeing r l ->
  (if i then x ∉ t_queue h else head (t_queue h) = Some x) ->
  WP (no_place t x i) (fun _ w1 w2 => after_offer x h w1 w w2) w0 w.
Proof.
  intros Hm (Ho&Hv&Hc&Hid&Hp) Hst Hag Hq. destruct (m_local _ _ _ _ _ _ Hm _ (m_thread _ _ _ _ _ _ Hm)) as (Hnd&Hsub&_).
  assert (Hfit : status_fits r (Some (queued, l))) by (unfold status_fits; by rewrite Ho).
  unfold no_place. destruct i; cbn [when].
  - apply wp_do.
    assert (Hel : forall y, y ∈ insert_second x (t_queue h) <-> y = x \/ y ∈ t_queue h).
    { intros y. destruct (t_queue h) as [|z q]; cbn; set_solver. }
    assert (Hq' : on_broker (upd_thread t (fun h0 => set_t_queue (insert_second x (t_queue h0)) h0)) w =
                  on_broker (upd_thread t (set_t_queue (insert_second x (t_queue h)))) w).
    { unfold on_broker, upd_thread. do 2 f_equal. apply map_eq. intros t'. rewrite !lookup_alter.
      case_decide; subst; [|done]. by rewrite (m_thread _ _ _ _ _ _ Hm). }
    rewrite Hq'.
    destruct (mid_queue t x r h w0 w (insert_second x (t_queue h)) Hm) as (Hm'&Ho'&Hst').
    + destruct (t_queue h) as [|z q]; cbn; [by repeat constructor; apply not_elem_of_nil|].
      apply NoDup_cons in Hnd as [??]. apply not_elem_of_cons in Hq as [??].
      apply NoDup_cons. split; [rewrite elem_of_cons; intros [?|?]; [congruence|done]|]. by apply NoDup_cons.
    + intros y [->|?]%Hel; [apply (m_live _ _ _ _ _ _ Hm)|auto].
    + intros y Hy. rewrite Hel. naive_solver.
    + intros y Hy. by destruct (t_queue h).
    + split_and!; [|done|].
      * eapply (mid_order x r); [exact Hm'| |rewrite Hst'; exact Hst|exact Hfit]. split; [done|]. rewrite Ho. cbn.
        split_and!; try done. apply Hel. by left.
      * exists (set_t_queue (insert_second x (t_queue h)) h). cbn. split_and!; [|done|by right; left].
        apply (m_thread _ _ _ _ _ _ Hm').
  - split_and!.
    + eapply (mid_order x r); [exact Hm| |exact Hst|exact Hfit]. split; [done|]. rewrite Ho. split_and!; try done.
      by destruct (t_queue h) as [|z q]; simplify_eq/=; left.
    + apply runs_kept_refl.
    + exists h. split_and!; [apply (m_thread _ _ _ _ _ _ Hm)|done|by left].
Qed.

Lemma wp_offer x (i : bool) r h l w0 w Q :
  mid t x r h w0 w -> unoffered r -> entry x w = Some (queued, l) -> agreeing r l ->
  (if i then x ∉ t_queue h else head (t_queue h) = Some x) ->
  (forall w1 w2, after_offer x h w1 w w2 -> Q () w1 w2) ->
  WP (_offer t x i) Q w0 w.
Proof.
  intros Hm Hun Hst Hag Hq HQ. unfold _offer. eapply wp_with_run; [apply (m_run _ _ _ _ _ _ Hm)|].
  apply wp_with_broker.
  assert (Hno : WP (no_place t x i) Q w0 w).
  { eapply wp_mono; [|by eapply no_place_ok]. intros []. exact HQ. }
  destruct (serving (r_agent r) (w_broker w)) as [c|]; [|done].
  destruct (has_room (_provider (public_key c) (w_broker w))); cbn [negb]; [|done].
  destruct (run_agent_input_error (r_input_json r)) as [e|].
  - eapply wp_record_and_settle; [done|done|done|done|done|]. intros w1 w2 Has. apply HQ. split_and!.
    + by eapply settle_order.
    + by destruct Has as (_&_&_&?&_).
    + destruct Has as (_&_&_&_&h'&Hh'&Hq'&Hl'). exists h'. split_and!; [done| |by right; right].
      intros y Hy Hyl. rewrite Hl', elem_of_remove1; [done|].
      apply (i_live_nodup _ (m_inv _ _ _ _ _ _ Hm) _ _ (m_thread _ _ _ _ _ _ Hm)).
  - apply wp_seq, wp_do. destruct Hun as (Ho&Hv&Hc&Hid&Hp).
    destruct (mid_take_place t x r h w0 w c i Hm Ho Hid) as (Hm1&Ho1&Hst1).
    apply wp_seq. eapply wp_record; [exact Hm1|by rewrite Hst1|done|exact Hag|].
    intros w1 w2 r' h' st' l' Hm2 (Hd&_&_) Hst2 Hag2 [-> Hp2] [Hlq Hll] Ho2. apply wp_do.
    destruct (mid_upd t x r' h' w1 w2 spawn_offer Hm2) as (Hm3&Ho3&Hst3); [done|done|].
    apply HQ. apply dispatch_fields in Hd as (Hd1&Hd2&Hd3&Hd4&Hd5&Hd6&Hd7). cbn in Hd1, Hd2, Hd3, Hd4, Hd5, Hd6, Hp2.
    split_and!.
    + eapply (mid_order x (spawn_offer r')); [exact Hm3| |rewrite Hst3; exact Hst2|].
      * split; [cbn; congruence|]. cbn. rewrite Hd1, Hd3, Hd4, Hd5, Hd6, Hc, Hid, Hlq. split_and!; [done|done|].
        by destruct i.
      * split; [cbn; by rewrite Hd1, Hd4|exact Hag2].
    + eapply others_trans; [exact Ho1|]. by eapply others_trans.
    + exists h'. split_and!; [apply (m_thread _ _ _ _ _ _ Hm3)|intros y _; by rewrite Hll|left; done].
Qed.

(** ** The end of every message: the head's offer *)

Lemma upd_thread_same h (f : ThreadHandler -> ThreadHandler) w :
  b_threads (w_broker w) !! t = Some h -> f h = h -> on_broker (upd_thread t f) w = w.
Proof.
  intros Hh Hf. destruct w as [b s]. unfold on_broker, upd_thread. cbn in *. f_equal.
  assert (alter f t (b_threads b) = b_threads b) as ->; [|by destruct b].
  apply map_eq. intros t'. rewrite lookup_alter. case_decide; subst; [|done]. rewrite Hh. cbn. by rewrite Hf.
Qed.

Lemma drop_settled_same b q : (forall y, y ∈ q -> settled_in b y = false) -> drop_settled b q = q.
Proof. destruct q as [|y q]; [done|]. intros Hq. cbn. rewrite Hq; [done|by left]. Qed.

Lemma local_mid x r h w0 w : in_order w0 w -> b_threads (w_broker w) !! t = Some h -> x ∈ t_live h ->
  b_heap (w_broker w) !! x = Some r ->
  mid t x r h w0 w /\ run_ok (t_queue h) x r /\ exists st l, entry x w = Some (st, l) /\ status_fits r (Some (st, l)).
Proof.
  intros (HG&HI&HL&_) Hh Hx Hr. destruct (HL h Hh) as (Hnd&Hsub&Hok).
  destruct (i_live _ HI _ _ _ Hh Hx) as (_&r1&Hr1&Ht).
  destruct (Hok x r Hx ltac:(by intros []) Hr) as [Hrun Hfit]. split; [|split; [exact Hrun|]].
  - assert (r_thread_id r = t) by congruence. constructor; try done. intros h1 Hh1. destruct (HL h1 Hh1) as (?&?&Hok1). split_and!; [done|done|].
    intros; apply Hok1; [done|by intros []|done].
  - destruct (entry x w) as [[st l]|] eqn:Hst; [eauto|done].
Qed.

Lemma live_run w0 w h x : in_order w0 w -> b_threads (w_broker w) !! t = Some h -> x ∈ t_live h ->
  exists r, b_heap (w_broker w) !! x = Some r.
Proof. intros (_&HI&_) Hh Hx. destruct (i_live _ HI _ _ _ Hh Hx) as (_&r&Hr&_). eauto. Qed.

Lemma run_ok_unoffered q x r : run_ok q x r -> r_offered_to r = None -> unoffered r /\ x ∈ q.
Proof. intros [Hp Hok] Ho. rewrite Ho in Hok. unfold unoffered. naive_solver. Qed.

Lemma unoffered_queued r st l : r_offered_to r = None -> status_fits r (Some (st, l)) -> st = queued /\ agreeing r l.
Proof. intros Ho. unfold status_fits. by rewrite Ho. Qed.

Lemma wp_advance w0 w : in_order w0 w -> WP (_advance t) Q_order w0 w.
Proof.
  intros Hord. destruct (Hord) as (HG&HI&HL&[h Hh]). unfold _advance. apply wp_seq, wp_with_broker, wp_do.
  destruct (HL h Hh) as (Hnd&Hsub&Hok).
  assert (Hall : forall y, y ∈ t_queue h -> settled_in (w_broker w) y = false).
  { intros y Hy. destruct (i_live _ HI _ _ _ Hh (Hsub _ Hy)) as (Hin&r&Hr&_). unfold settled_in. rewrite Hr.
    destruct (i_tracked _ HI _ Hin) as (r1&?&?&_). congruence. }
  rewrite (upd_thread_same h) by (done || (cbn; rewrite (drop_settled_same _ _ Hall); by destruct h)).
  eapply wp_with_thread; [done|]. destruct (t_queue h) as [|x q] eqn:Hq; [done|].
  assert (Hx : x ∈ t_live h) by (apply Hsub; by left).
  destruct (live_run _ _ _ _ Hord Hh Hx) as [r Hr]. eapply wp_with_run; [done|].
  destruct (local_mid _ _ _ _ _ Hord Hh Hx Hr) as (Hm&Hrun&st&l&Hst&Hfit).
  case_bool_decide as Hc; [done|]. destruct (r_verdict_open r) eqn:Hv; [done|].
  case_bool_decide as Ho; cbn [orb]; [done|].
  assert (Hno : r_offered_to r = None) by (destruct (r_offered_to r); [destruct Ho; done|done]).
  destruct (run_ok_unoffered _ _ _ Hrun Hno) as [Hun _]. apply unoffered_queued in Hfit as [-> Hag]; [|done].
  eapply wp_offer; [exact Hm|done|done|done|by rewrite Hq|]. by intros w1 w2 (?&_).
Qed.

(** ** Interjections released beside the claimed head *)

Definition head_kept (x : string) (r : Run) (w : world) : Prop :=
  exists h r', b_threads (w_broker w) !! t = Some h /\ x ∈ t_live h /\ head (t_queue h) = Some x /\
    b_heap (w_broker w) !! x = Some r' /\ tapped r r'.

Lemma wp_offer_each x r (l : list string) Q : forall w0 w,
  in_order w0 w -> head_kept x r w -> NoDup l ->
  (forall h y, b_threads (w_broker w) !! t = Some h -> y ∈ l -> y ∈ t_queue h /\ y <> x) ->
  (forall w1 w2, in_order w1 w2 -> head_kept x r w2 -> Q () w1 w2) ->
  WP (offer_each t l) Q w0 w.
Proof.
  induction l as [|y l IH]; intros w0 w Hord Hkept Hndl Hl HQ; cbn [offer_each]; [by apply HQ|].
  apply NoDup_cons in Hndl as [Hy Hndl]. destruct Hkept as (h&rx&Hh&Hx&Hhead&Hrx&Htap).
  destruct (Hl h y Hh ltac:(by left)) as [Hyq Hyx].
  destruct (Hord) as (_&HI&HL&_). destruct (HL h Hh) as (Hnd&Hsub&_).
  destruct (live_run _ _ _ _ Hord Hh (Hsub _ Hyq)) as [ry Hry].
  destruct (local_mid _ _ _ _ _ Hord Hh (Hsub _ Hyq) Hry) as (Hm&[Hp Hrun]&st&lg&Hst&Hfit).
  assert (Hno : r_offered_to ry = None).
  { destruct (r_offered_to ry) as [k|]; [|done]. destruct Hrun as (_&_&Hrun). case_match; [done|congruence]. }
  destruct (run_ok_unoffered _ _ _ (conj Hp Hrun) Hno) as [Hun _]. apply unoffered_queued in Hfit as [-> Hag]; [|done].
  apply wp_seq, wp_do.
  assert (Hq' : on_broker (upd_thread t (fun h0 => set_t_queue (remove1 y (t_queue h0)) h0)) w =
                on_broker (upd_thread t (set_t_queue (remove1 y (t_queue h)))) w).
  { unfold on_broker, upd_thread. do 2 f_equal. apply map_eq. intros t'. rewrite !lookup_alter.
    case_decide; subst; [|done]. by rewrite Hh. }
  rewrite Hq'.
  destruct (mid_queue t y ry h w0 w (remove1 y (t_queue h)) Hm) as (Hm1&Ho1&Hst1).
  { by apply NoDup_remove1. } { intros z ?%remove1_subset. auto. }
  { intros z Hz. rewrite elem_of_remove1 by done. tauto. } { intros z Hz. by apply head_remove1. }
  set (w1 := on_broker (upd_thread t (set_t_queue (remove1 y (t_queue h)))) w) in *.
  apply wp_seq. eapply wp_offer; [exact Hm1|exact Hun|by rewrite Hst1|exact Hag| |].
  { cbn. rewrite elem_of_remove1 by done. naive_solver. }
  intros w2 w3 (Hord3&Ho3&h3&Hh3&Hl3&Hq3). cbn in Hl3, Hq3.
  assert (Hhead1 : head (remove1 y (t_queue h)) = Some x) by (apply head_remove1; congruence).
  assert (Hqueue : head (t_queue h3) = Some x /\ forall z, z <> y -> z ∈ t_queue h -> z ∈ t_queue h3).
  { assert (Hz : forall z, z <> y -> z ∈ t_queue h -> z ∈ remove1 y (t_queue h)) by (intros; by apply elem_of_remove1).
    destruct Hq3 as [->|[->| ->]]; [done| |].
    - destruct (remove1 y (t_queue h)) as [|a q] eqn:Hrm; [done|]. cbn in *. split; [done|].
      intros z Hzy Hzq. specialize (Hz z Hzy Hzq). set_solver.
    - split; [apply head_remove1; congruence|]. intros z Hzy Hzq. apply elem_of_remove1; [by apply NoDup_remove1|auto]. }
  destruct Hqueue as [Hhead3 Hin3].
  apply (IH w2 w3); [done| |done| |done].
  - assert (Hidx : r_run_id rx = x) by (by eapply i_ids).
    assert (Hrt : r_thread_id rx = t) by (destruct (i_live _ HI _ _ _ Hh Hx) as (_&rr&?&?); congruence).
    destruct (others_trans _ _ _ _ _ Ho1 Ho3 x rx Hrx ltac:(split; congruence)) as (r3&Hr3&Htap3&_&_).
    exists h3, r3. split_and!; [done|by apply Hl3|done|done|by etrans].
  - intros h4 z Hh4 Hz. simplify_eq. destruct (Hl h z Hh ltac:(by right)) as [??].
    split; [|done]. apply Hin3; [|done]. by intros ->.
Qed.

Lemma wp_release_interjections x r Q w0 w :
  in_order w0 w -> head_kept x r w ->
  (forall w1 w2, in_order w1 w2 -> head_kept x r w2 -> Q () w1 w2) ->
  WP (_release_interjections t x) Q w0 w.
Proof.
  intros Hord Hk HQ. destruct (Hk) as (h&r'&Hh&Hx&Hhead&Hr&_). unfold _release_interjections.
  eapply wp_with_thread; [done|]. apply wp_with_broker.
  destruct (Hord) as (_&_&HL&_). destruct (HL h Hh) as (Hnd&_&_).
  destruct (t_queue h) as [|z q] eqn:Hq; [done|]. cbn in Hhead. injection Hhead as ->.
  apply NoDup_cons in Hnd as [Hxq Hndq].
  eapply wp_offer_each; [done|done| | |done].
  - unfold joining. by apply NoDup_filter.
  - intros h1 y Hh1 [_ Hy]%list_elem_of_filter. simplify_eq. rewrite Hq. cbn in Hy. split; [by right|]. by intros ->.
Qed.

End turn.
End BrokerTurn.
