(* ===== verification/BrokerSafe.v ===== *)
(** * The thread handler is safe

    Each [_on_*] handler, a whole turn of a thread's task, and the system of
    all of them with everything the outside does: the invariant of
    [BrokerInv] holds between any two steps. *)

From S2P Require Import Prelude Errors Json Models Coop BrokerState BrokerOps Dispatch BrokerInv BrokerQuiet BrokerMid BrokerMoves BrokerTurn.

Module BrokerSafe.
Import Broker BrokerOps Dispatch BrokerInv BrokerQuiet BrokerMid BrokerMoves BrokerTurn.

Section safe.
Context {S : Type} `{!Seams S} `{!RecorderLaws S}.
Section handlers.
Context (t : string).
Notation world := (world S).
Notation coro := (comp world).
Notation WP := (wp inv (rely t) (guar t)).
Notation in_order := (in_order t).
Notation Q_order := (Q_order t).
Implicit Types (w : world) (b : broker) (r : Run) (h : ThreadHandler) (st : run_status) (l : kept).

Lemma ended x h w (Q : () -> world -> world -> Prop) : (forall w1 w2, in_order w1 w2 -> Q () w1 w2) ->
  forall w1 w2, ended_run t x h w1 w w2 -> Q () w1 w2.
Proof. intros HQ w1 w2 Ha. apply HQ. by eapply settle_order. Qed.

Lemma claimed_offered q x r key : run_ok q x r -> r_claimed_by r = Some key ->
  r_offered_to r = Some key /\ r_verdict_open r = false.
Proof.
  intros [_ Hok] Hc. destruct (r_offered_to r) as [k|]; [|by destruct Hok as (_&?&_); congruence].
  destruct Hok as (_&Hc'&_). destruct (r_verdict_open r); [congruence|]. split; congruence.
Qed.

Lemma verdict_offered q x r : run_ok q x r -> r_verdict_open r = true ->
  (exists key, r_offered_to r = Some key) /\ r_claimed_by r = None.
Proof.
  intros [_ Hok] Hv. destruct (r_offered_to r) as [k|]; [|by destruct Hok as (?&_); congruence].
  destruct Hok as (_&Hc'&_). rewrite Hv in Hc'. eauto.
Qed.

Lemma claimed_fits q x r st l key : run_ok q x r -> r_claimed_by r = Some key -> status_fits r (Some (st, l)) ->
  st = running \/ st = cancelling.
Proof.
  intros Hok Hc. destruct (claimed_offered _ _ _ _ Hok Hc) as [Ho Hv]. unfold status_fits. rewrite Ho, Hv.
  by intros [? _].
Qed.

Lemma verdict_fits q x r st l : run_ok q x r -> r_verdict_open r = true -> status_fits r (Some (st, l)) ->
  st = offering /\ agreeing r l.
Proof.
  intros Hok Hv. destruct (verdict_offered _ _ _ Hok Hv) as [[k Ho] _]. unfold status_fits. by rewrite Ho, Hv.
Qed.

(** ** Reports and funduq's own commands *)

Lemma wp_record_and_maybe_settle x cmd r h st l key w0 w :
  mid t x r h w0 w -> run_ok (t_queue h) x r -> entry x w = Some (st, l) -> agreeing r l -> r_claimed_by r = Some key ->
  st = running \/ st = cancelling -> (exists e, cmd = RelayEvent e) \/ cmd = FinishStream ->
  WP (_record_and_maybe_settle t x cmd) Q_order w0 w.
Proof.
  intros Hm Hok Hst Hag Hc Hrun Hcmd. apply wp_seq.
  assert (Hall : allowed cmd r st) by (destruct Hcmd as [[e ->]| ->], Hrun as [->| ->]; cbn; auto).
  eapply wp_record; [done..|]. intros w1 w2 r' h' st' l' Hm' (Hd&_&_) Hst' Hag' [Hb Hp] [Hlq Hll] Ho.
  eapply wp_with_run; [apply (m_run _ _ _ _ _ _ Hm')|].
  destruct Hcmd as [[e ->]| ->].
  - cbn in Hb. subst st'. destruct (r_poison r') as [words|] eqn:Hpoison.
    + eapply wp_record_and_settle; [exact Hm'|done| |done|done|].
      { cbn. by destruct Hrun as [->| ->]. }
      by apply ended.
    + rewrite <- Hlq in Hok. pose proof (recorded_run_ok _ _ _ _ Hd Hpoison Hok) as Hok'.
      eapply mid_order; [exact Hm'|done|exact Hst'|].
      destruct (claimed_offered _ _ _ _ Hok Hc) as [Ho' Hv]. apply dispatch_fields in Hd as (H1&_&_&H4&_).
      split; [|done]. by rewrite H1, H4, Ho', Hv.
  - rewrite Hp, (proj1 Hok). eapply wp_settle; [exact Hm'|done|done|done|]. intros w' [Ha _]. by eapply settle_order.
Qed.

Lemma wp_on_said x origin cmd w0 w : in_order w0 w -> benign (Said_ x origin cmd) = true ->
  WP (_on_said t x origin cmd) Q_order w0 w.
Proof.
  intros Hord Hb. eapply wp_with_live; [done| |done]. intros r h st l Hm Hok Hst Hfit.
  case_bool_decide as Hc; [by eapply mid_order|].
  assert (r_claimed_by r = Some origin) as Hc' by (destruct (decide (r_claimed_by r = Some origin)); tauto).
  eapply wp_record_and_maybe_settle; [done|done|done|apply Hfit|done|by eapply claimed_fits|].
  destruct cmd; try done; eauto.
Qed.

(** A change of the run's own marks and a quiet step, then on. *)
Lemma mid_noted x r h w0 w (f : broker -> broker) :
  mid t x r h w0 w -> (forall b, quiet b (f b)) ->
  exists r' h', mid t x r' h' w0 (on_broker f (on_broker (upd_run x (set_r_noted_abnormal true)) w)) /\
    same_lists h h' /\ others t x w (on_broker f (on_broker (upd_run x (set_r_noted_abnormal true)) w)) /\
    r_claimed_by r' = r_claimed_by r /\ r_offered_to r' = r_offered_to r /\ r_verdict_open r' = r_verdict_open r /\
    (forall q, run_ok q x r -> run_ok q x r') /\ (forall l, agreeing r l -> agreeing r' l).
Proof.
  intros Hm Hq. destruct (mid_upd t x r h w0 w (set_r_noted_abnormal true) Hm) as (Hm1&Ho1&_); [done|done|].
  destruct (mid_quiet t _ _ _ _ _ _ Hm1 (Hq _)) as (r'&h'&Hm2&Htap&Hl&Ho2).
  exists r', h'. split_and!; [exact Hm2|done|by eapply others_trans| | | | |].
  all: pose proof Htap as (Hd&_&_); apply dispatch_fields in Hd as (H1&_&_&H4&_&H6&_); cbn in *; try congruence.
  - intros q Hok. eapply tapped_run_ok; [done|exact Hok].
  - intros l Hag. eapply tapped_agrees; [done|exact Hag].
Qed.

Lemma wp_on_trusted x cmd w0 w : in_order w0 w -> benign (Trusted_ x cmd) = true ->
  WP (_on_trusted t x cmd) Q_order w0 w.
Proof.
  intros Hord Hb. destruct cmd as [| | | | |code words]; try done.
  eapply wp_with_live; [done| |done]. intros r h st l Hm Hok Hst Hfit. apply wp_seq.
  assert (Hend : forall r' h' w', mid t x r' h' w0 w' -> entry x w' = Some (st, l) -> agreeing r' l ->
    WP (record_and_settle t x (Fail code words)) Q_order w0 w').
  { intros r' h' w' Hm' Hst' Hag'. eapply wp_record_and_settle; [done|done|by eapply fits_not_final|done|done|]. by apply ended. }
  destruct (r_claimed_by r) as [key|]; [|eapply Hend; [done|done|apply Hfit]].
  destruct (r_noted_abnormal r); cbn [negb when]; [eapply Hend; [done|done|apply Hfit]|].
  apply wp_seq, wp_do, wp_do.
  destruct (mid_noted x r h w0 w _ Hm (quiet_note_abnormal key abandoned)) as (r'&h'&Hm'&_&_&_&_&_&_&Hag').
  eapply Hend; [done|done|apply Hag', Hfit].
Qed.

Lemma wp_on_undelivered x w0 w : in_order w0 w -> WP (_on_undelivered t x) Q_order w0 w.
Proof.
  intros Hord. eapply wp_with_live; [done| |done]. intros r h st l Hm Hok Hst Hfit.
  destruct (r_claimed_by r) as [key|] eqn:Hc; [|by eapply mid_order].
  destruct (r_noted_abnormal r); cbn [negb when]; [by eapply mid_order|].
  apply wp_seq, wp_do, wp_do.
  destruct (mid_noted x r h w0 w _ Hm (quiet_note_abnormal key undelivered)) as (r'&h'&Hm'&[Hlq _]&_&_&H1&H4&Hok'&Hag').
  eapply mid_order; [exact Hm'|rewrite Hlq; by apply Hok'|exact Hst|].
  destruct Hfit as [Hfit Hag]. split; [by rewrite H1, H4|by apply Hag'].
Qed.

Lemma wp_on_cancel_asked x w0 w : in_order w0 w -> WP (_on_cancel_asked t x) Q_order w0 w.
Proof.
  intros Hord. eapply wp_with_live; [done| |done]. intros r h st l Hm Hok Hst Hfit.
  apply wp_seq, wp_do.
  destruct (mid_upd t x r h w0 w (set_r_cancel_requested true) Hm) as (Hm1&Ho1&Hst1); [done|done|].
  assert (Hok1 : run_ok (t_queue h) x (set_r_cancel_requested true r)) by exact Hok.
  destruct (r_verdict_open r) eqn:Hv; [eapply mid_order; [exact Hm1|done|rewrite Hst1; exact Hst|exact Hfit]|].
  case_bool_decide as Hc.
  - destruct (r_claimed_by r) as [key|] eqn:Hc'; [|done].
    pose proof (claimed_fits _ _ _ _ _ _ Hok Hc' Hfit) as Hrun.
    eapply wp_record; [exact Hm1|by rewrite Hst1|cbn; by rewrite Hc'|exact (proj2 Hfit)|].
    intros w1 w2 r' h' st' l' Hm' (Hd&_&_) Hst' Hag' [Hb Hp] [Hlq Hll] Ho. cbn in Hb, Hp. rewrite Hc' in Hb. subst st'.
    destruct (claimed_offered _ _ _ _ Hok Hc') as [Ho' _].
    eapply mid_order; [exact Hm'| |exact Hst'|].
    + rewrite Hlq. eapply recorded_run_ok; [exact Hd| |exact Hok1]. rewrite Hp. apply Hok.
    + apply dispatch_fields in Hd as (H1&_&_&H4&_). split; [|done]. rewrite H1, H4. cbn. rewrite Ho', Hv. auto.
  - assert (r_claimed_by r = None) as Hc' by (destruct (r_claimed_by r); [destruct Hc; done|done]).
    eapply wp_record_and_settle; [exact Hm1|by rewrite Hst1| |exact (proj2 Hfit)|done|by apply ended].
    cbn. rewrite Hc'. left. destruct Hok as [_ Hok], Hfit as [Hfit _].
    destruct (r_offered_to r); [|done]. destruct Hok as (_&Hcl&_). rewrite Hv in Hcl. congruence.
Qed.

(** An outstanding offer that ends without a claim: its place is given back and the run ends. *)
Lemma wp_on_offer_lapsed x offer_id w0 w : in_order w0 w -> WP (_on_offer_lapsed t x offer_id) Q_order w0 w.
Proof.
  intros Hord. eapply wp_with_live; [done| |done]. intros r h st l Hm Hok Hst Hfit.
  destruct (r_verdict_open r) eqn:Hv; cbn [negb orb]; [|by eapply mid_order].
  destruct (Nat.eqb (r_offer_id r) offer_id); cbn [negb]; [|by eapply mid_order].
  destruct (verdict_fits _ _ _ _ _ Hok Hv Hfit) as [-> Hag]. destruct (verdict_offered _ _ _ Hok Hv) as [[key Ho] Hc].
  apply wp_seq, wp_do. rewrite Ho. apply wp_seq, wp_do, wp_seq, wp_do.
  destruct (mid_upd t x r h w0 w lapse Hm) as (Hm1&Ho1&Hst1); [done|done|].
  destruct (mid_quiet t _ _ _ _ _ _ Hm1 (quiet_note_abnormal key unanswered _)) as (r2&h2&Hm2&Htap&_&_). pose proof (tapped_agrees _ _ _ Htap Hag) as Hag2. destruct Htap as (Hd&_&_).
  change (mkWorld _ _) with (on_broker (_note_abnormal key unanswered) (on_broker (upd_run x lapse) w)) in Hm2.
  destruct (mid_release t _ _ _ _ _ Hm2) as (Hm3&_&Hst3).
  apply dispatch_fields in Hd as (_&_&_&_&_&H6&_). cbn in H6.
  destruct (r_cancel_requested r); (eapply wp_record_and_settle; [exact Hm3|rewrite Hst3; exact Hst| |exact Hag2| |by apply ended]);
    cbn; rewrite ?H6, ?Hc; auto.
Qed.

(** ** The verdict *)

Lemma wp_on_answered x key accepted w0 w : in_order w0 w -> WP (_on_answered t x key accepted) Q_order w0 w.
Proof.
  intros Hord. eapply wp_with_live; [done| |done]. intros r h st l Hm Hok Hst Hfit.
  destruct (r_verdict_open r) eqn:Hv; cbn [negb orb]; [|by eapply mid_order].
  case_bool_decide as Hkey; [by eapply mid_order|].
  assert (r_offered_to r = Some key) as Ho by (destruct (decide (r_offered_to r = Some key)); tauto).
  destruct (verdict_fits _ _ _ _ _ Hok Hv Hfit) as [-> Hag]. destruct (verdict_offered _ _ _ Hok Hv) as [_ Hc].
  apply wp_seq, wp_do.
  set (f := fun r0 => set_r_offer_timer None (set_r_verdict_open false r0)).
  destruct (mid_upd t x r h w0 w f Hm) as (Hm1&Ho1&Hst1); [done|done|].
  destruct (mid_release t _ _ _ _ _ Hm1) as (Hm2&_&Hst2).
  destruct accepted as [reason|[|]].
  - apply wp_seq, wp_do. eapply wp_record_and_settle; [exact Hm2|by rewrite Hst2, Hst1|done|exact Hag|done|by apply ended].
  - apply wp_seq, wp_do.
    set (g := fun r0 => set_r_cancel_notify (r_offered_conn r0) (set_r_claimed_by (Some key) r0)).
    destruct (mid_upd t x _ h w0 _ g Hm1) as (Hm3&Ho3&Hst3); [done|done|].
    apply wp_seq. eapply wp_record; [exact Hm3|by rewrite Hst3, Hst1|done|exact Hag|].
    intros w1 w2 r4 h4 st4 l4 Hm4 (Hd&_&_) Hst4 Hag4 [-> Hp4] [Hlq Hll] Ho4. cbn in Hp4.
    apply dispatch_fields in Hd as (H1&H2&H3&H4&H5&H6&_). cbn in H1, H2, H3, H4, H5, H6.
    assert (Hok4 : run_ok (t_queue h4) x r4).
    { destruct Hok as [Hp Hok]. split; [congruence|]. rewrite H1, H3, H4, H5, H6, Ho, Hlq. rewrite Ho in Hok.
      naive_solver. }
    assert (Hfit4 : status_fits r4 (Some (running, l4))) by (split; [rewrite H1, H4, Ho; auto|done]).
    assert (Hord4 : in_order w1 w2) by (by eapply mid_order).
    eapply wp_with_run; [apply (m_run _ _ _ _ _ _ Hm4)|]. apply wp_with_broker.
    destruct (is_conn _ _); cbn [negb].
    + assert (Hcancel : forall w5 w6, in_order w5 w6 -> (exists h6 r6, b_threads (w_broker w6) !! t = Some h6 /\
        x ∈ t_live h6 /\ b_heap (w_broker w6) !! x = Some r6 /\ r_claimed_by r6 = Some key) ->
        WP (with_run x (fun run => when (r_cancel_requested run) (_record x RequestCancel))) Q_order w5 w6).
      { intros w5 w6 Hord6 (h6&r6&Hh6&Hx6&Hr6&Hc6). eapply wp_with_run; [done|].
        destruct (r_cancel_requested r6); cbn [when]; [|done].
        destruct (local_mid t _ _ _ _ _ Hord6 Hh6 Hx6 Hr6) as (Hm6&Hok6&st6&l6&Hst6&Hfit6).
        pose proof (claimed_fits _ _ _ _ _ _ Hok6 Hc6 Hfit6) as Hrun6.
        eapply wp_record; [exact Hm6|done|cbn; by rewrite Hc6|exact (proj2 Hfit6)|].
        intros w7 w8 r8 h8 st8 l8 Hm8 (Hd8&_&_) Hst8 Hag8 [Hb8 Hp8] [Hlq8 _] _. cbn in Hb8, Hp8. rewrite Hc6 in Hb8. subst st8.
        destruct (claimed_offered _ _ _ _ Hok6 Hc6) as [Ho6 Hv6].
        eapply mid_order; [exact Hm8| |exact Hst8|].
        - rewrite Hlq8. eapply recorded_run_ok; [exact Hd8| |exact Hok6]. rewrite Hp8. apply Hok6.
        - apply dispatch_fields in Hd8 as (G1&_&_&G4&_). split; [|done]. rewrite G1, G4, Ho6, Hv6. auto. }
      apply wp_seq. destruct (r_is_interjection r4) eqn:Hint; cbn [negb when].
      * apply Hcancel; [done|]. exists h4, r4. split_and!; [apply Hm4|apply Hm4|apply Hm4|done].
      * eapply (wp_release_interjections t x r4); [done| |].
        -- exists h4, r4. split_and!; [apply Hm4|apply Hm4| |apply Hm4|done].
           destruct Hok4 as [_ Hok4]. rewrite H1, Ho, Hint in Hok4. naive_solver.
        -- intros w5 w6 Hord6 (h6&r6&Hh6&Hx6&_&Hr6&Htap). apply Hcancel; [done|]. exists h6, r6. split_and!; [done..|].
           destruct Htap as (Hd6&_&_). apply dispatch_fields in Hd6 as (_&_&_&_&_&->&_). done.
    + apply wp_do.
      destruct (mid_quiet t _ _ _ _ _ _ Hm4 (quiet_post x (Trusted_ x (Fail "provider_left_holding_it" None)) _ eq_refl))
        as (r5&h5&Hm5&Htap&[Hlq5 _]&_).
      eapply mid_order; [exact Hm5| |exact Hst4|].
      * rewrite Hlq5. by eapply tapped_run_ok.
      * by eapply tapped_status_fits.
  - apply wp_seq, wp_do.
    destruct (r_cancel_requested r).
    + eapply wp_record_and_settle; [exact Hm2|by rewrite Hst2, Hst1| |exact Hag|done|by apply ended]. cbn. rewrite Hc. auto.
    + apply wp_seq, wp_do.
      destruct (mid_quiet t _ _ _ _ _ _ Hm2 (quiet_note_misdeclared key _)) as (r3&h3&Hm3&Htap&_&_).
      eapply wp_record_and_settle; [exact Hm3|rewrite <- Hst, <- Hst1, <- Hst2; reflexivity|done| |done|by apply ended].
      by eapply tapped_agrees.
Qed.

(** ** Taking a message out of the inbox *)

Lemma upd_thread_lookup h (f : ThreadHandler -> ThreadHandler) b t' : b_threads b !! t = Some h ->
  b_threads (upd_thread t f b) !! t' = if decide (t = t') then Some (f h) else b_threads b !! t'.
Proof. intros Hh. cbn. rewrite lookup_alter. case_decide; subst; [by rewrite Hh|done]. Qed.

Lemma upd_thread_guar h (f : ThreadHandler -> ThreadHandler) w : b_threads (w_broker w) !! t = Some h ->
  guar t w (on_broker (upd_thread t f) w).
Proof.
  intros Hh. split; [by apply runs_kept_same|]. intros t' Hne. cbn [w_broker on_broker].
  rewrite (upd_thread_lookup h) by done. by rewrite decide_False.
Qed.

Lemma pop_benign h m rest w : inv w -> local t w -> b_threads (w_broker w) !! t = Some h -> t_inbox h = m :: rest ->
  benign m = true -> in_order w (on_broker (upd_thread t pop_inbox) w).
Proof.
  intros HI HL Hh Hin Hm.
  assert (Hq : queued_ids rest = queued_ids (t_inbox h)) by (rewrite Hin; destruct m; try done).
  assert (Hback : forall t' h', b_threads (upd_thread t pop_inbox (w_broker w)) !! t' = Some h' ->
    exists h0, b_threads (w_broker w) !! t' = Some h0 /\ t_live h' = t_live h0 /\
      queued_ids (t_inbox h') = queued_ids (t_inbox h0) /\ (forall m0, m0 ∈ t_inbox h' -> m0 ∈ t_inbox h0)).
  { intros t' h'. rewrite (upd_thread_lookup h) by done. case_decide; subst; [|by exists h'].
    intros [= <-]. exists h.
    unfold pop_inbox. cbn [t_live t_inbox set_t_inbox]. rewrite Hin. cbn [tail]. split_and!; [done|done|by rewrite Hq, Hin|].
    by right. }
  split_and!.
  - by eapply upd_thread_guar.
  - destruct HI. constructor; try done.
    + intros id r Hi Hr. destruct (i_owner0 _ _ Hi Hr) as (h0&Hh0&Hor). cbn [w_broker on_broker].
      rewrite (upd_thread_lookup h) by done. case_decide; [|by exists h0]. eexists; split; [done|].
      assert (h0 = h) as -> by congruence. unfold pop_inbox. cbn [t_live t_inbox set_t_inbox]. rewrite Hin. cbn [tail]. by rewrite Hq.
    + intros t' h' id (h0&Hh0&->&_)%Hback. eauto.
    + intros t' h' (h0&Hh0&->&_)%Hback. eauto.
    + intros t' h' id (h0&Hh0&->&->&_)%Hback. eauto.
    + intros t' h' (h0&Hh0&_&->&_)%Hback. eauto.
    + intros t' h' m0 (h0&Hh0&_&_&Hm0)%Hback. eauto.
  - intros h1. cbn [w_broker on_broker]. rewrite (upd_thread_lookup h), decide_True by done. intros [= <-]. exact (HL h Hh).
  - cbn [w_broker on_broker]. rewrite (upd_thread_lookup h), decide_True by done. by eexists.
Qed.

Lemma pop_queued h x rest w : inv w -> local t w -> b_threads (w_broker w) !! t = Some h ->
  t_inbox h = Queued_ x :: rest ->
  let w' := on_broker (upd_thread t (add_live x)) (on_broker (upd_thread t pop_inbox) w) in
  exists r h' l, mid t x r h' w w' /\ unoffered r /\ entry x w' = Some (queued, l) /\ agreeing r l /\ x ∉ t_queue h'.
Proof.
  intros HI HL Hh Hin. cbn zeta. set (w' := on_broker _ _).
  destruct (i_queued _ HI _ _ x Hh) as (Hx&Hnl&r&l&Hr&Ht&Hfresh&Hst&Hag); [rewrite Hin; by left|].
  pose proof (i_queued_nodup _ HI _ _ Hh) as Hnd. rewrite Hin in Hnd. apply NoDup_cons in Hnd as [Hxr Hnd].
  set (h' := set_t_live (t_live h ++ [x]) (set_t_inbox rest h)).
  assert (Hth : forall t', b_threads (w_broker w') !! t' = if decide (t = t') then Some h' else b_threads (w_broker w) !! t').
  { intros t'. unfold w'. cbn [w_broker on_broker]. rewrite (upd_thread_lookup (pop_inbox h)).
    - case_decide; [|rewrite (upd_thread_lookup h) by done; by rewrite decide_False].
      unfold add_live, pop_inbox. cbn. rewrite Hin, bool_decide_eq_false_2 by done. done.
    - rewrite (upd_thread_lookup h) by done. by rewrite decide_True. }
  destruct (HL h Hh) as (Hndq&Hsub&Hok).
  exists r, h', l. split_and!; [|exact Hfresh|exact Hst|exact Hag|cbn; auto].
  assert (HG : guar t w w').
  { split; [by apply runs_kept_same|]. intros t' Hne. rewrite Hth, decide_False by done. done. }
  constructor; [|done| |done|done|cbn; set_solver|].
  - destruct HI. constructor; try done.
    + intros id r0 Hi Hr0. destruct (i_owner0 _ _ Hi Hr0) as (h0&Hh0&Hor). rewrite Hth. case_decide; [|by exists h0].
      exists h'. split; [done|]. assert (h0 = h) as -> by congruence. cbn. rewrite Hin in Hor. cbn in Hor. set_solver.
    + intros t' h1 id. rewrite Hth. case_decide; subst; [|eauto]. intros [= <-]. cbn.
      intros [Hl| ->%list_elem_of_singleton]%elem_of_app; [by eapply i_live0|]. eauto.
    + intros t' h1. rewrite Hth. case_decide; subst; [|eauto]. intros [= <-]. cbn. apply NoDup_app.
      split_and!; [by eapply i_live_nodup0| |apply NoDup_singleton]. intros y Hy ->%list_elem_of_singleton. done.
    + intros t' h1 id. rewrite Hth. case_decide; subst; [|eauto]. intros [= <-]. cbn. intros Hid.
      destruct (i_queued0 _ _ id Hh) as (?&?&?); [rewrite Hin; by right|]. split_and!; [done| |done].
      rewrite elem_of_app, list_elem_of_singleton. intros [?| ->]; [done|]. by apply Hxr.
    + intros t' h1. rewrite Hth. case_decide; subst; [|eauto]. by intros [= <-].
    + intros t' h1 m. rewrite Hth. case_decide; subst; [|eauto]. intros [= <-]. cbn. intros Hm.
      eapply i_inbox0; [exact Hh|]. rewrite Hin. by right.
  - by rewrite Hth, decide_True.
  - intros h1. rewrite Hth, decide_True by done. intros [= <-]. cbn. split_and!; [done|set_solver|].
    intros id r0 [Hl| ->%list_elem_of_singleton]%elem_of_app Hne Hr0; [|done]. apply Hok; [done|by intros []|done].
Qed.

Lemma wp_on_queued h x rest w : inv w -> local t w -> b_threads (w_broker w) !! t = Some h ->
  t_inbox h = Queued_ x :: rest ->
  WP (_on_queued t x) Q_order w (on_broker (upd_thread t pop_inbox) w).
Proof.
  intros HI HL Hh Hin. destruct (pop_queued h x rest w HI HL Hh Hin) as (r&h'&l&Hm&Hun&Hst&Hag&Hq).
  apply wp_seq, wp_do. eapply wp_with_thread; [apply Hm|]. eapply wp_with_run; [apply Hm|]. apply wp_with_broker.
  destruct (joins_head _ r (t_queue h')).
  - eapply wp_offer; [exact Hm|done|done|done|done|]. by intros w1 w2 (?&_).
  - apply wp_do. set (w' := on_broker _ _) in *.
    assert (on_broker (upd_thread t (fun h0 => set_t_queue (t_queue h0 ++ [x]) h0)) w' =
            on_broker (upd_thread t (set_t_queue (t_queue h' ++ [x]))) w') as ->.
    { unfold on_broker, upd_thread. do 2 f_equal. apply map_eq. intros t'. rewrite !lookup_alter.
      case_decide; subst; [|done]. by rewrite (m_thread _ _ _ _ _ _ Hm). }
    destruct (m_local _ _ _ _ _ _ Hm _ (m_thread _ _ _ _ _ _ Hm)) as (Hnd&Hsub&_).
    destruct (mid_queue t x r h' w w' (t_queue h' ++ [x]) Hm) as (Hm'&_&Hst').
    + apply NoDup_app. split_and!; [done| |apply NoDup_singleton]. by intros y Hy ->%list_elem_of_singleton.
    + intros y [Hy| ->%list_elem_of_singleton]%elem_of_app; [auto|apply (m_live _ _ _ _ _ _ Hm)].
    + intros y Hy. rewrite elem_of_app, list_elem_of_singleton. naive_solver.
    + intros y Hy. by destruct (t_queue h').
    + destruct Hun as (Ho&?&?&?&?). eapply mid_order; [exact Hm'| |rewrite Hst'; exact Hst|].
      * split; [done|]. rewrite Ho. split_and!; try done. cbn. set_solver.
      * split; [by rewrite Ho|done].
Qed.

(** ** A whole turn *)

Lemma wp_maybe_leave w0 w : in_order w0 w ->
  WP (maybe_leave t) (fun _ v0 v => guar t v0 v /\ inv v /\ local t v) w0 w.
Proof.
  intros (HG&HI&HL&[h Hh]). eapply wp_with_thread; [done|].
  case_bool_decide as Hlive; cbn [andb when]; [|done]. case_bool_decide as Hin; cbn [when]; [|done].
  apply wp_do. set (w' := on_broker (leave t) w).
  assert (Hsame : b_heap (w_broker w') = b_heap (w_broker w) /\ b_runs (w_broker w') = b_runs (w_broker w) /\
    b_run_threads (w_broker w') = b_run_threads (w_broker w) /\ b_handlers (w_broker w') = b_handlers (w_broker w) /\
    b_providers (w_broker w') = b_providers (w_broker w) /\ b_serving (w_broker w') = b_serving (w_broker w) /\
    b_threads (w_broker w') = delete t (b_threads (w_broker w))).
  { unfold w', leave. cbn. rewrite Hh. by destruct (b_agent_threads (w_broker w) !! t_agent h). }
  destruct Hsame as (E1&E2&E3&E4&E5&E6&E7).
  assert (Hback : forall t' h', b_threads (w_broker w') !! t' = Some h' -> b_threads (w_broker w) !! t' = Some h').
  { intros t' h'. rewrite E7. by intros [_ ?]%lookup_delete_Some. }
  assert (Hst : forall id, entry id w' = entry id w) by done.
  split_and!.
  - etrans; [exact HG|]. split; [by apply runs_kept_same|]. intros t' Hne. rewrite E7, lookup_delete_ne by done. done.
  - destruct HI. constructor; rewrite ?E1, ?E2, ?E3, ?E4; try done.
    + intros key. specialize (i_places0 key). unfold in_flight, held, holds in *. by rewrite E1, E2, E5.
    + intros id r key. rewrite E5. eauto.
    + unfold serving_ok. by rewrite E5, E6.
    + intros id r Hi Hr. destruct (i_owner0 _ _ Hi Hr) as (h0&Hh0&Hor). exists h0. split; [|done].
      rewrite E7, lookup_delete_ne; [done|]. intros Heq. rewrite <- Heq in Hh0. assert (h0 = h) as -> by congruence.
      rewrite Hlive, Hin in Hor. destruct Hor as [Hor|Hor]; by apply not_elem_of_nil in Hor.
    + intros t' h' id Hh'%Hback. eauto.
    + intros t' h' Hh'%Hback. eauto.
    + intros t' h' id Hh'%Hback. eauto.
    + intros t' h' Hh'%Hback. eauto.
    + intros t' h' m Hh'%Hback. eauto.
  - intros h1. rewrite E7, lookup_delete_eq. done.
Qed.

Lemma wp_turn c w : inv w -> local t w -> thread_turn t w = Some c ->
  WP c (fun _ v0 v => guar t v0 v /\ inv v /\ local t v) w w.
Proof.
  intros HI HL. unfold thread_turn. destruct (b_threads (w_broker w) !! t) as [h|] eqn:Hh; [|done].
  destruct (t_inbox h) as [|m rest] eqn:Hin; [done|]. intros [= <-]. apply wp_seq, wp_do, wp_seq.
  apply (wp_mono inv (rely t) (guar t) _ Q_order); [intros [] v0 v; apply wp_maybe_leave|].
  apply wp_seq, (wp_mono inv (rely t) (guar t) _ Q_order); [intros [] v0 v; apply wp_advance|].
  destruct (i_inbox _ HI _ _ m Hh) as [Hm|[x ->]]; [rewrite Hin; by left| |by eapply wp_on_queued].
  pose proof (pop_benign h m rest w HI HL Hh Hin Hm) as Hord.
  destruct m as [x|x key acc|x origin cmd|x cmd|x|x oid|x|]; try done.
  - by apply wp_on_answered.
  - by apply wp_on_said.
  - by apply wp_on_trusted.
  - by apply wp_on_cancel_asked.
  - by apply wp_on_offer_lapsed.
  - by apply wp_on_undelivered.
Qed.

End handlers.
End safe.
End BrokerSafe.
