(* ===== verification/System.v ===== *)
(** * The broker in its process

    Everything that reaches the broker from outside its thread handlers, one
    atomic call each, the system of all thread tasks with these calls, and
    the invariant of every reachable state. *)

From S2P Require Import Prelude Errors Json Models Coop.
From S2P Require Import BrokerState BrokerOps Dispatch BrokerInv BrokerQuiet BrokerMid BrokerMoves BrokerTurn BrokerSafe.

Module System.
Import Broker BrokerOps Dispatch BrokerInv BrokerQuiet BrokerMid BrokerMoves BrokerTurn BrokerSafe.

Inductive call (S : Type) : Type :=
(* what connections and hosts call *)
| AnswerOffer (run_id : string) (accepted : verdict) (provider_key : string)
| ReportEvent (run_id : string) (event : json) (origin : string)
| FinishRun (run_id origin : string)
| PushFail (run_id code : string) (message : option string)
| NoteUndelivered (run_id : string)
| AskCancel (run_id : string)
| RegisterProvider (mapping : list (AgentRef * ConnectedProvider))
| UnregisterProvider (agents : list AgentRef)
(* the consumer of a run's stream *)
| Subscribe (run_id : string)
| TakeItem (run_id : string)
| CloseStream (run_id : string)
(* the tasks an offer spawned *)
| ClockFires (run_id : string)
| HandOverReturns (run_id : string)
| HandOverRaises (run_id : string)
(* the sweep, the lifecycle, time *)
| Sweep (timeout : Z)
| Start
| Tick (now : Z)
(* a new run, and any other write to the store *)
| Enqueue (run_id : string) (agent : AgentRef) (thread_id : string) (input_json : dict) (seq : Z)
    (addressed_run_id : option string)
| WriteStore (s : S).
Arguments AnswerOffer {S} _ _ _.
Arguments ReportEvent {S} _ _ _.
Arguments FinishRun {S} _ _.
Arguments PushFail {S} _ _ _.
Arguments NoteUndelivered {S} _.
Arguments AskCancel {S} _.
Arguments RegisterProvider {S} _.
Arguments UnregisterProvider {S} _.
Arguments Subscribe {S} _.
Arguments TakeItem {S} _.
Arguments CloseStream {S} _.
Arguments ClockFires {S} _.
Arguments HandOverReturns {S} _.
Arguments HandOverRaises {S} _.
Arguments Sweep {S} _.
Arguments Start {S}.
Arguments Tick {S} _.
Arguments Enqueue {S} _ _ _ _ _ _.
Arguments WriteStore {S} _.

(** [_offer_clock] wakes: the message carries the offer id it was started with. *)
Definition _offer_clock (run_id : string) (b : broker) : broker :=
  match b_heap b !! run_id with
  | Some run =>
      match r_offer_timer run with
      | Some (Pending offer_id) =>
          put_nowait (r_thread_id run) (OfferLapsed_ run_id offer_id)
            (upd_run run_id (set_r_offer_timer (Some Finished)) b)
      | _ => b
      end
  | None => b
  end.

(** [_hand_over] ends: [deliver] returned, or raised. *)
Definition _hand_over (raised : bool) (run_id : string) (b : broker) : broker :=
  match b_heap b !! run_id with
  | Some run =>
      match r_handover_task run with
      | Some (Pending offer_id) =>
          let b := upd_run run_id (set_r_handover_task (Some Finished)) b in
          if raised then put_nowait (r_thread_id run) (OfferLapsed_ run_id offer_id) b else b
      | _ => b
      end
  | None => b
  end.

Section system.
Context {S : Type} `{!Seams S} `{!RecorderLaws S}.
Notation world := (world S).

Definition exec (c : call S) (w : world) : world :=
  let b := w_broker w in
  let on b' := mkWorld b' (w_store w) in
  match c with
  | AnswerOffer run_id accepted key => on (answer_offer run_id accepted key b).2
  | ReportEvent run_id event origin => on (report_event run_id event origin b).2
  | FinishRun run_id origin => on (finish_stream run_id origin b).2
  | PushFail run_id code message => on (push run_id (Fail code message) b).2
  | NoteUndelivered run_id => on (note_undelivered run_id b).2
  | AskCancel run_id => on (request_cancel run_id b).2
  | RegisterProvider mapping => on (register_provider mapping b)
  | UnregisterProvider agents => on (unregister_provider agents b)
  | Subscribe run_id => match subscribe run_id b with Ok (_, b') => on b' | Err _ => w end
  | TakeItem run_id => on (upd_run run_id drain b)
  | CloseStream run_id => on (upd_run run_id (set_r_stream_open false) b)
  | ClockFires run_id => on (_offer_clock run_id b)
  | HandOverReturns run_id => on (_hand_over false run_id b)
  | HandOverRaises run_id => on (_hand_over true run_id b)
  | Sweep timeout => on (sweep timeout b)
  | Start => on (start b)
  | Tick now => on (set_b_now now b)
  | Enqueue run_id agent thread_id input_json seq addressed =>
      match enqueue_run run_id agent thread_id input_json seq addressed b with
      | Ok b' => on b'
      | Err _ => w
      end
  | WriteStore s => mkWorld b s
  end.

(** A new run has a fresh id, its row is queued and its numbering starts where
    its record does; nobody else writes the entry of a run the broker has. *)
Definition permitted (c : call S) (w : world) : Prop :=
  match c with
  | Enqueue run_id _ _ _ seq _ =>
      b_heap (w_broker w) !! run_id = None /\ exists l, entry run_id w = Some (queued, l) /\ in_step seq [] l
  | WriteStore s => forall id, is_Some (b_heap (w_broker w) !! id) -> entry_of id s = entry id w
  | _ => True
  end.

Definition outside (w w' : world) : Prop := exists c, permitted c w /\ w' = exec c w.

(** The broker when it is made. *)
Definition initial (tolerance : option nat) (s : S) : world * gmap string (susp world ()) :=
  (mkWorld (empty_broker tolerance) s, ∅).

Definition step := sys_step thread_turn outside.
Definition reachable (st : world * gmap string (susp world ())) : Prop :=
  exists tolerance s, rtc step (initial tolerance s) st.

(** ** Calls that are quiet *)

Lemma quiet_offer_clock id b : quiet b (_offer_clock id b).
Proof.
  unfold _offer_clock. repeat case_match; try done.
  etrans; [by apply (quiet_upd_run id (set_r_offer_timer (Some Finished)))|by apply quiet_put].
Qed.

Lemma quiet_hand_over c id b : quiet b (_hand_over c id b).
Proof.
  unfold _hand_over. repeat case_match; try done; [|by apply quiet_upd_run].
  etrans; [by apply (quiet_upd_run id (set_r_handover_task (Some Finished)))|by apply quiet_put].
Qed.

Lemma drain_tapped r : tapped r (drain r).
Proof. unfold drain. by repeat case_match. Qed.

Definition makes_run (c : call S) : bool :=
  match c with Enqueue _ _ _ _ _ _ | WriteStore _ => true | _ => false end.

Lemma exec_quiet c w : makes_run c = false ->
  exists b', exec c w = mkWorld b' (w_store w) /\ quiet (w_broker w) b'.
Proof.
  destruct c; try done; intros _; cbn; try (eexists; split; [done|]);
    auto using quiet_request_cancel, quiet_register_provider, quiet_unregister,
      quiet_offer_clock, quiet_hand_over, quiet_sweep, quiet_start.
  all: try by apply quiet_post.
  - destruct (subscribe run_id (w_broker w)) as [[x b']|] eqn:Hs.
    + exists b'. split; [done|]. by eapply quiet_subscribe.
    + exists (w_broker w). split; [by destruct w|done].
  - apply quiet_upd_run, drain_tapped.
  - by apply quiet_upd_run.
  - by apply quiet_same.
Qed.

(** ** A new run *)

Section enqueue.
Context (x : string) (agent : AgentRef) (t : string) (input : dict) (seq : Z) (addressed : option string).
Context (w w' : world).
Hypothesis Hinv : inv w.
Hypothesis Hfresh : b_heap (w_broker w) !! x = None.
Context (lx : kept).
Hypothesis Hqueued : entry x w = Some (queued, lx).
Hypothesis Hstart : in_step seq [] lx.
Hypothesis Henq : exists b', enqueue_run x agent t input seq addressed (w_broker w) = Ok b' /\ w' = mkWorld b' (w_store w).

Let r := new_run x agent t input (b_now (w_broker w)) seq addressed.
Let h0 := default (mkThread t agent [] [] []) (b_threads (w_broker w) !! t).
Let h1 := set_t_inbox (t_inbox h0 ++ [Queued_ x]) h0.

Lemma enq_new : x ∉ b_runs (w_broker w).
Proof. intros Hx. destruct (i_tracked _ Hinv _ Hx) as (r0&?&_). congruence. Qed.

Lemma enq_fields :
  b_heap (w_broker w') = <[x := r]> (b_heap (w_broker w)) /\
  b_runs (w_broker w') = b_runs (w_broker w) ++ [x] /\
  b_run_threads (w_broker w') = <[x := t]> (b_run_threads (w_broker w)) /\
  b_handlers (w_broker w') = {[x]} ∪ b_handlers (w_broker w) /\
  b_providers (w_broker w') = b_providers (w_broker w) /\ b_serving (w_broker w') = b_serving (w_broker w) /\
  w_store w' = w_store w /\
  forall t', b_threads (w_broker w') !! t' = if decide (t = t') then Some h1 else b_threads (w_broker w) !! t'.
Proof.
  destruct Henq as (b'&He&->). unfold enqueue_run in He. destruct (b_running (w_broker w)); [|done].
  injection He as <-. pose proof enq_new as Hx. unfold _thread_handler, h1, h0.
  assert (Hth : forall (th : gmap string ThreadHandler) h t', th !! t = Some h ->
    alter (fun h2 => set_t_inbox (t_inbox h2 ++ [Queued_ x]) h2) t th !! t' =
    if decide (t = t') then Some (set_t_inbox (t_inbox h ++ [Queued_ x]) h) else th !! t').
  { intros th h t' Hh. rewrite lookup_alter. destruct (decide (t = t')) as [<-|]; [by rewrite Hh|done]. }
  destruct (b_threads (w_broker w) !! t) as [h|] eqn:Hh; cbn; rewrite bool_decide_eq_false_2 by done;
    split_and!; try done; intros t'.
  - by rewrite (Hth _ h).
  - rewrite (Hth _ (mkThread t agent [] [] [])) by apply lookup_insert_eq. destruct (decide (t = t')); [done|]. by rewrite lookup_insert_ne.
Qed.

Lemma enq_old id r0 : b_heap (w_broker w) !! id = Some r0 -> id <> x /\ b_heap (w_broker w') !! id = Some r0.
Proof.
  intros Hr0. assert (id <> x) by congruence. destruct enq_fields as (->&_). by rewrite lookup_insert_ne.
Qed.

Lemma enq_runs id : id ∈ b_runs (w_broker w') <-> id ∈ b_runs (w_broker w) \/ id = x.
Proof. destruct enq_fields as (_&->&_). by rewrite elem_of_app, list_elem_of_singleton. Qed.

Lemma enq_entry id : entry id w' = entry id w.
Proof. destruct enq_fields as (_&_&_&_&_&_&E&_). unfold entry. by rewrite E. Qed.

Lemma enq_thread_back t' h' : b_threads (w_broker w') !! t' = Some h' ->
  (t' <> t /\ b_threads (w_broker w) !! t' = Some h') \/
  (t' = t /\ h' = h1 /\ (b_threads (w_broker w) !! t = Some h0 \/ h0 = mkThread t agent [] [] [])).
Proof.
  destruct enq_fields as (_&_&_&_&_&_&_&->). destruct (decide (t = t')) as [<-|]; [|by left].
  intros [= <-]. right. unfold h0. destruct (b_threads (w_broker w) !! t); auto.
Qed.

Lemma enq_queued : queued_ids (t_inbox h1) = queued_ids (t_inbox h0) ++ [x].
Proof. unfold h1. cbn [t_inbox set_t_inbox]. by rewrite queued_ids_app. Qed.

(** The handler that takes the new run, when it was there before. *)
Lemma enq_handler P : P (mkThread t agent [] [] []) -> (forall h, b_threads (w_broker w) !! t = Some h -> P h) -> P h0.
Proof. unfold h0. intros H1 H2. destruct (b_threads (w_broker w) !! t) eqn:E; [by apply H2|done]. Qed.

Lemma enq_held key : held key (w_broker w') = held key (w_broker w).
Proof.
  unfold held. destruct enq_fields as (Hheap&->&_). rewrite filter_app.
  assert (filter (fun id => holds (w_broker w') key id = true) [x] = []) as ->.
  { rewrite filter_cons, filter_nil. unfold holds. rewrite Hheap, lookup_insert_eq. cbn. by rewrite bool_decide_eq_false_2. }
  rewrite app_nil_r.
  assert (Hall : forall id, id ∈ b_runs (w_broker w) -> holds (w_broker w') key id = holds (w_broker w) key id).
  { intros id Hid. destruct (i_tracked _ Hinv _ Hid) as (r0&Hr0&_). unfold holds.
    destruct (enq_old _ _ Hr0) as [_ ->]. by rewrite Hr0. }
  do 2 f_equal. generalize (b_runs (w_broker w)) Hall. intros l. induction l as [|y l IH]; intros Hl; [done|].
  rewrite !filter_cons. rewrite (Hl y) by by left. rewrite IH; [done|]. intros id Hid. apply Hl. by right.
Qed.

Lemma enq_inv : inv w'.
Proof.
  pose proof enq_fields as (Eheap&Eruns&Ert&Ehd&Epr&Esv&_&Eth). pose proof enq_new as Hx.
  pose proof enq_runs as Hruns. pose proof enq_old as Hold.
  assert (Hback : forall id r0, b_heap (w_broker w') !! id = Some r0 ->
    (id = x /\ r0 = r) \/ (id <> x /\ b_heap (w_broker w) !! id = Some r0)).
  { intros id r0. rewrite Eheap, lookup_insert. case_decide; [left|right]; [split; congruence|split; [congruence|done]]. }
  assert (Hlive0 : forall id, id ∈ t_live h0 -> id ∈ b_runs (w_broker w) /\ exists r0, b_heap (w_broker w) !! id = Some r0 /\ r_thread_id r0 = t).
  { apply enq_handler; [by intros id ?%not_elem_of_nil|]. intros h Hh id. by apply (i_live _ Hinv). }
  assert (Hq0 : forall id, id ∈ queued_ids (t_inbox h0) -> id ∈ b_runs (w_broker w) /\ id ∉ t_live h0 /\
    exists r0 l, b_heap (w_broker w) !! id = Some r0 /\ r_thread_id r0 = t /\ fresh r0 /\ entry id w = Some (queued, l) /\ agreeing r0 l).
  { apply (enq_handler (fun h => forall id, id ∈ queued_ids (t_inbox h) -> id ∈ b_runs (w_broker w) /\ id ∉ t_live h /\ _)).
    - by intros id ?%not_elem_of_nil.
    - intros h Hh id. by apply (i_queued _ Hinv). }
  constructor.
  - rewrite Eruns. apply NoDup_app. split_and!; [apply (i_nodup _ Hinv)| |apply NoDup_singleton].
    by intros y Hy ->%list_elem_of_singleton.
  - intros id r0 [[-> ->]|[_ Hr0]]%Hback; [done|by eapply i_ids].
  - intros id [Hid| ->]%Hruns.
    + destruct (i_tracked _ Hinv _ Hid) as (r0&Hr0&?&?&?). destruct (Hold _ _ Hr0) as [Hne Hr0'].
      exists r0. rewrite Ert, Ehd, lookup_insert_ne by congruence. split_and!; [done..|set_solver].
    + exists r. rewrite Eheap, Ert, Ehd, !lookup_insert_eq. split_and!; [done..|set_solver].
  - intros id Hn. rewrite Hruns in Hn. rewrite Ert, lookup_insert_ne by (intros ->; tauto).
    apply (i_untracked _ Hinv). tauto.
  - intros id r0 [[-> ->]|[_ Hr0]]%Hback Hn; rewrite Hruns in Hn; [tauto|].
    rewrite enq_entry. apply (i_settled _ Hinv); tauto.
  - intros key. rewrite enq_held, <- (i_places _ Hinv). unfold in_flight. by rewrite Epr.
  - intros id r0 key [[-> ->]|[_ Hr0]]%Hback; [done|]. rewrite Epr. by eapply i_keys.
  - unfold serving_ok. rewrite Epr, Esv. apply (i_serving _ Hinv).
  - intros id r0 [[-> ->]|[_ Hr0]]%Hback; [by exists []|by eapply i_stream].
  - intros id r0 [[-> ->]|[_ Hr0]]%Hback; [cbn; lia|by eapply i_once].
  - intros id r0 Hid [[-> ->]|[Hne Hr0]]%Hback; rewrite Eth.
    + cbn. rewrite decide_True by done. exists h1. split; [done|]. right. rewrite enq_queued. set_solver.
    + apply Hruns in Hid as [Hid|?]; [|done]. destruct (i_owner _ Hinv _ _ Hid Hr0) as (h&Hh&Hor).
      destruct (decide (t = r_thread_id r0)) as [Heq|]; [|by exists h]. rewrite <- Heq in Hh. exists h1. split; [done|]. rewrite enq_queued.
      assert (h0 = h) as E by (unfold h0; by rewrite Hh). change (t_live h1) with (t_live h0). rewrite E. set_solver.
  - intros t' h' id [[_ Hh']|(->&->&_)]%enq_thread_back Hl.
    + destruct (i_live _ Hinv _ _ _ Hh' Hl) as (?&r0&Hr0&?). split; [apply Hruns; by left|]. exists r0.
      by split; [apply Hold|].
    + destruct (Hlive0 _ Hl) as (?&r0&Hr0&?). split; [apply Hruns; by left|]. exists r0. by split; [apply Hold|].
  - intros t' h' [[_ Hh']|(->&->&_)]%enq_thread_back; [by eapply i_live_nodup|].
    change (t_live h1) with (t_live h0). apply enq_handler; [constructor|]. intros h. by apply (i_live_nodup _ Hinv).
  - intros t' h' id [[_ Hh']|(->&->&_)]%enq_thread_back Hq.
    + destruct (i_queued _ Hinv _ _ _ Hh' Hq) as (?&?&r0&l&Hr0&?). rewrite enq_entry.
      split_and!; [apply Hruns; by left|done|]. exists r0, l. by split; [apply Hold|].
    + rewrite enq_entry. change (t_live h1) with (t_live h0). rewrite enq_queued in Hq.
      apply elem_of_app in Hq as [Hq| ->%list_elem_of_singleton].
      * destruct (Hq0 _ Hq) as (?&?&r0&l&Hr0&?). split_and!; [apply Hruns; by left|done|]. exists r0, l.
        by split; [apply Hold|].
      * split_and!; [apply Hruns; by right| |].
        -- intros [? _]%Hlive0. done.
        -- exists r, lx. rewrite Eheap, lookup_insert_eq. done.
  - intros t' h' [[_ Hh']|(->&->&_)]%enq_thread_back; [by eapply i_queued_nodup|]. rewrite enq_queued.
    apply NoDup_app. split_and!; [|by intros y [? _]%Hq0 ->%list_elem_of_singleton|apply NoDup_singleton].
    apply (enq_handler (fun h => NoDup (queued_ids (t_inbox h)))); [constructor|]. intros h. by apply (i_queued_nodup _ Hinv).
  - intros t' h' m [[_ Hh']|(->&->&_)]%enq_thread_back; [by eapply i_inbox|].
    intros [Hm| ->%list_elem_of_singleton]%elem_of_app; [|by right; exists x]. revert Hm.
    apply (enq_handler (fun h => m ∈ t_inbox h -> _)); [by intros ?%not_elem_of_nil|].
    intros h Hh Hm. by eapply i_inbox.
Qed.

Lemma enq_rely t' : rely t' w w'.
Proof.
  pose proof enq_fields as (_&_&_&_&_&_&_&Eth). split.
  - intros id r0 Hr0 _. destruct (enq_old _ _ Hr0) as [Hne Hr0']. exists r0. split_and!; [done|done| |apply enq_entry].
    rewrite enq_runs. tauto.
  - rewrite Eth. destruct (decide (t = t')) as [<-|]; [|done]. unfold h1, h0.
    destruct (b_threads (w_broker w) !! t) as [h|]; cbn; [|done]. split_and!; [done|done|]. by exists [Queued_ x].
Qed.
End enqueue.

Lemma outside_ok w w' : outside w w' -> inv w -> inv w' /\ forall t, rely t w w'.
Proof.
  intros (c&Hp&->) HI. destruct (makes_run c) eqn:Hc.
  - destruct c; try done; cbn in Hp |- *.
    + destruct Hp as (Hf&l&Hq&Hst).
      destruct (enqueue_run run_id agent thread_id input_json seq addressed_run_id (w_broker w)) as [b'|] eqn:He;
        [|by split; [|intros; reflexivity]].
      split; [|intros t']; [eapply (enq_inv run_id agent thread_id input_json seq addressed_run_id w _ HI Hf l Hq Hst)|
        eapply (enq_rely run_id agent thread_id input_json seq addressed_run_id w _ HI Hf)]; eauto.
    + assert (Hs : forall id, is_Some (b_heap (w_broker w) !! id) -> entry id (mkWorld (w_broker w) s) = entry id w) by done.
      split.
      * destruct HI. constructor; try done.
        -- intros id r Hr Hn. rewrite Hs by by eexists. eauto.
        -- intros t h id Hh Hq. destruct (i_queued0 _ _ _ Hh Hq) as (?&?&r&l&Hr&?). rewrite Hs by by eexists. eauto 10.
      * intros t. split; [|done]. intros id r Hr _. exists r. split_and!; [done..|]. apply Hs. by eexists.
  - destruct (exec_quiet c w Hc) as (b'&->&Hq). destruct w as [b s]. cbn in *.
    split; [by eapply quiet_inv|intros t; by apply quiet_rely].
Qed.

Lemma initial_inv tolerance s :
  sys_inv inv (fun t => local t) rely (fun t => guar t) (initial tolerance s).
Proof.
  split.
  - constructor; cbn; intros *; rewrite ?lookup_empty; try done; try apply NoDup_nil_2;
      by intros ?%not_elem_of_nil.
  - intros t. cbn. rewrite lookup_empty. intros h. cbn. by rewrite lookup_empty.
Qed.

(** Between any two steps of the process the invariant holds, and every idle
    thread's runs are in order. *)
Lemma reachable_inv st : reachable st ->
  inv st.1 /\ forall t, st.2 !! t = None -> local t st.1.
Proof.
  intros (tolerance&s&Hst).
  assert (sys_inv inv (fun t => local t) rely (fun t => guar t) st) as [HI Ht].
  { eapply (sys_reachable_inv thread_turn outside inv (fun t => local t) rely (fun t => guar t));
      [apply guar_rely|apply outside_ok| | |exact Hst|apply initial_inv].
    - intros t w w' HI _ HR HL. by eapply local_stable.
    - intros t c w. apply wp_turn. }
  split; [done|]. intros t Hn. specialize (Ht t). by rewrite Hn in Ht.
Qed.

End system.
End System.
