(* ===== verification/HandlersOk.v ===== *)
(** * The record handlers keep the recorder's contract

    [Handlers] discharges [BrokerInv.RecorderLaws]: each handler writes the
    status its command says, of its own run only, puts on the run's stream
    exactly the events it put on the record, under consecutive numbers, and
    touches nothing that is its owner's. *)

From S2P Require Import Prelude Errors Json Models Coop Crypto Repo BrokerState Dispatch Handlers BrokerInv.

Module HandlersOk.
Import Broker Dispatch Handlers BrokerInv.

(** What is kept of a run's events: each with its number. *)
Definition events_in_db (id : string) (s : store) : list (Z * json) :=
  (fun e => (ev_seq e, JObj (ev_event e))) <$> filter (fun e => ev_run_id e = id) (d_run_events (s_db s)).

(** The stream's events, numbered from one. *)
Definition numbered (events : list json) : list (Z * json) := imap (fun i e => (Z.of_nat i + 1, e)%Z) events.

Definition entry_in_db (id : string) (s : store) : option (run_status * list (Z * json)) :=
  (fun row => (rr_status row, events_in_db id s)) <$> d_runs (s_db s) !! id.

Definition numbers (seq : Z) (events : list json) (l : list (Z * json)) : Prop :=
  l = numbered events /\ seq = Z.of_nat (length events).

Notation rely_rec := (others_rec entry_in_db).
Notation guar_rec := (own_rec entry_in_db).
Notation WP := (wp (fun _ => True) rely_rec guar_rec).
Notation spec := (handler_spec entry_in_db numbers).
Notation in_step_with r l := (agrees numbers r l).

#[export] Instance others_rec_refl : Reflexive rely_rec.
Proof. intros v. split; reflexivity. Qed.

Lemma own_rec_refl v : guar_rec v v.
Proof. split; [reflexivity|done]. Qed.

(** The next event has the next number. *)
Lemma numbers_next seq events l e : numbers seq events l -> numbers (seq + 1) (events ++ [e]) (l ++ [(seq + 1, e)%Z]).
Proof.
  intros [-> ->]. unfold numbers, numbered. rewrite imap_app, length_app. cbn. split; [|lia]. do 3 f_equal. lia.
Qed.

Lemma said_put r e : said (set_r_out_queue (r_out_queue r ++ [Item e]) r) = said r ++ [e].
Proof. unfold said. cbn. by rewrite omap_app. Qed.

Lemma omap_items items : omap (fun i => match i with Item e => Some e | END_OF_STREAM => None end) (map Item items) = items.
Proof. induction items as [|e items IH]; [done|]. cbn. by rewrite IH. Qed.

(** Rows under increasing numbers are read back in their order. *)
Lemma numbered_sorted events n rows :
  (fun e => (ev_seq e, JObj (ev_event e))) <$> rows = imap (fun i e => (Z.of_nat (n + i) + 1, e)%Z) events ->
  StronglySorted (fun a b => ~ Repo.ev_le b a) rows /\ Forall (fun e => Z.of_nat n < ev_seq e)%Z rows /\ JObj ∘ ev_event <$> rows = events.
Proof.
  revert n rows. induction events as [|e events IH]; intros n [|row rows]; try done; cbn.
  - intros _. split_and!; constructor.
  - intros [= Hseq He Hrest]. destruct (IH (S n) rows) as (Hs&Hf&Hm).
    { rewrite Hrest. apply imap_ext. intros i x _. cbn. do 2 f_equal. lia. }
    split_and!.
    + constructor; [done|]. eapply Forall_impl; [exact Hf|]. intros x Hx. unfold Repo.ev_le. cbn in Hx. lia.
    + constructor; [lia|]. eapply Forall_impl; [exact Hf|]. cbn. lia.
    + f_equal; [done|exact Hm].
Qed.

#[local] Instance ev_le_trans : Transitive Repo.ev_le.
Proof. intros a b c. unfold Repo.ev_le. lia. Qed.
#[local] Instance ev_le_total : Total Repo.ev_le.
Proof. intros a b. unfold Repo.ev_le. lia. Qed.

Lemma recorded_as_numbered id s seq events l : events_in_db id s = l -> numbers seq events l ->
  JObj <$> Repo.get_run_events id 0 (s_db s) = events /\ seq = Z.of_nat (length events).
Proof.
  intros Hl [Hn ->]. split; [|done]. unfold events_in_db in Hl. rewrite Hn in Hl.
  destruct (numbered_sorted events 0 _ Hl) as (Hs&Hf&Hm). unfold Repo.get_run_events.
  assert (filter (fun e => ev_run_id e = id /\ (0 < ev_seq e)%Z) (d_run_events (s_db s)) = filter (fun e => ev_run_id e = id) (d_run_events (s_db s))) as ->.
  { apply filter_ext_in. intros e Hin. split; [by intros [? _]|]. intros Hid. split; [done|].
    rewrite Forall_forall in Hf. apply Hf. by apply list_elem_of_filter. }
  rewrite (merge_sort_sorted Repo.ev_le) by exact Hs. by rewrite <- list_fmap_compose.
Qed.

(** A run about to record [e] under its next number. *)
Definition one_behind (e : json) (r : Run) (l : list (Z * json)) : Prop :=
  exists l0, l = l0 ++ [(r_seq r, e)] /\ numbers (r_seq r - 1) (said r) l0.

Lemma one_behind_put e r l : one_behind e r l -> in_step_with (set_r_out_queue (r_out_queue r ++ [Item e]) r) l.
Proof.
  intros (l0&->&Hn). unfold agrees. rewrite said_put. cbn. replace (r_seq r) with (r_seq r - 1 + 1)%Z by lia.
  by apply numbers_next.
Qed.

Lemma tapped_one_behind e r r' l : tapped r r' -> one_behind e r l -> one_behind e r' l.
Proof.
  intros (_&H&_). unfold record_of in H. unfold one_behind, said.
  assert (r_seq r' = r_seq r) as -> by congruence. assert (r_out_queue r' = r_out_queue r) as -> by congruence. done.
Qed.

Lemma tapped_in_step r r' l : tapped r r' -> in_step_with r l -> in_step_with r' l.
Proof.
  intros (_&H&_). unfold record_of in H. unfold agrees, said.
  assert (r_seq r' = r_seq r) as -> by congruence. assert (r_out_queue r' = r_out_queue r) as -> by congruence. done.
Qed.

(** ** What a transaction does to entries *)

Definition entry_kept (id : string) (s s' : store) : Prop := entry_in_db id s' = entry_in_db id s.

Lemma mark_sets run_id status s old l legal :
  entry_in_db run_id s = Some (old, l) -> Repo.LEGAL_STATUS_TRANSITIONS status = Some legal -> old ∈ legal ->
  exists s', mark run_id status s = Ok s' /\ entry_in_db run_id s' = Some (status, l) /\
    forall id, id <> run_id -> entry_kept id s s'.
Proof.
  unfold entry_kept, entry_in_db. intros Hold Hl Hin. destruct (d_runs (s_db s) !! run_id) as [row|] eqn:Hrow; [|done].
  injection Hold as <- <-. unfold mark, mark_run_status, Repo.mark_run_status. rewrite Hl, Hrow.
  rewrite bool_decide_eq_true_2 by done. eexists. split; [reflexivity|]. cbn. split.
  - rewrite lookup_insert_eq. cbn. do 2 f_equal. unfold Repo.status_update. by destruct status.
  - intros id Hne. by rewrite lookup_insert_ne.
Qed.

Lemma mark_skips run_id status s old l legal :
  entry_in_db run_id s = Some (old, l) -> Repo.LEGAL_STATUS_TRANSITIONS status = Some legal -> old ∉ legal ->
  exists s', mark run_id status s = Ok s' /\ forall id, entry_kept id s s'.
Proof.
  unfold entry_kept, entry_in_db. intros Hold Hl Hin. destruct (d_runs (s_db s) !! run_id) as [row|] eqn:Hrow; [|done].
  injection Hold as <- <-. unfold mark, mark_run_status, Repo.mark_run_status. rewrite Hl, Hrow.
  rewrite bool_decide_eq_false_2 by done. eexists. split; [reflexivity|done].
Qed.

Lemma append_ok run_id seq event s st l : entry_in_db run_id s = Some (st, l) ->
  exists s', on_db (Repo.append_run_event run_id seq event) s = Ok s' /\
    entry_in_db run_id s' = Some (st, l ++ [(seq, JObj event)]) /\ forall id, id <> run_id -> entry_kept id s s'.
Proof.
  unfold entry_kept, entry_in_db. intros Hold. destruct (d_runs (s_db s) !! run_id) as [row|] eqn:Hrow; [|done].
  injection Hold as <- <-. unfold on_db, Repo.append_run_event. rewrite Hrow, bool_decide_eq_true_2 by by eexists.
  eexists. split; [reflexivity|]. unfold events_in_db. cbn. rewrite Hrow. split.
  - cbn. by rewrite filter_app, filter_cons_True, filter_nil, fmap_app.
  - intros id Hne. by rewrite filter_app, filter_cons_False, filter_nil, app_nil_r.
Qed.

(** ** The rule of a transaction *)

Lemma wp_transaction f next Q r s v0 e :
  guar_rec v0 (r, s) -> entry_in_db (r_run_id r) s = Some e ->
  (forall s1, entry_in_db (r_run_id r) s1 = Some e ->
     exists s2 new, f s1 = Ok s2 /\ entry_in_db (r_run_id r) s2 = Some new /\
       (forall id, id <> r_run_id r -> entry_kept id s1 s2) /\
       forall r3 s3, tapped r r3 -> entry_in_db (r_run_id r) s3 = Some new -> WP next Q (r3, s3) (r3, s3)) ->
  WP (transaction f next) Q v0 (r, s).
Proof.
  intros HG Hold Hf. apply wp_bind. apply wp_suspend; [done|done|]. intros [r1 s1] [Htap Hst] _. cbn in Htap, Hst.
  rewrite Hold in Hst. destruct (Hf s1 Hst) as (s2&new&Hf2&Hnew&Hothers&Hnext).
  unfold wp. cbn. rewrite Hf2.
  assert (Hid : r_run_id r1 = r_run_id r) by (destruct Htap as (Hd&_); unfold dispatch_of in Hd; congruence).
  change (WP (suspend ;; next)%comp Q (r1, s1) (r1, s2)). apply wp_bind. apply wp_suspend; [|done|].
  - split; [reflexivity|]. cbn. by rewrite Hid.
  - intros [r3 s3] [Htap3 Hst3] _. cbn in Htap3, Hst3. rewrite Hid, Hnew in Hst3. apply Hnext; [|done].
    by etrans.
Qed.

Lemma tapped_poison r r' : tapped r r' -> r_poison r' = r_poison r.
Proof. intros (_&H&_). unfold record_of in H. congruence. Qed.

(** The end of a handler that only marks a status, or only puts an event. *)
Lemma handler_end cmd r st r' s' st' l' :
  entry_in_db (r_run_id r) s' = Some (st', l') -> becomes cmd r st r' st' -> in_step_with r' l' ->
  WP (ret ()) (spec cmd r st) (r', s') (r', s').
Proof. intros Hst Hb Ha. split; [apply own_rec_refl|]. by exists st', l'. Qed.

Lemma put_recorded r e : recorded r (set_r_out_queue (r_out_queue r ++ [Item (JObj e)]) r).
Proof. split_and!; [done| |done]. by exists [JObj e]. Qed.

Lemma handler_put cmd r st r' s' st' l' e :
  entry_in_db (r_run_id r) s' = Some (st', l') -> one_behind (JObj e) r' l' ->
  becomes cmd r st (set_r_out_queue (r_out_queue r' ++ [Item (JObj e)]) r') st' ->
  WP (put e) (spec cmd r st) (r', s') (r', s').
Proof. intros Hst Ho Hb. split; [split; [apply put_recorded|done]|]. exists st', l'. split_and!; [done|done|by apply one_behind_put]. Qed.

Lemma next_seq_recorded r : recorded r (next_seq r).
Proof. split_and!; [done| |done]. exists []. by rewrite app_nil_r. Qed.

Lemma saw_recorded e r : recorded r (next_seq (saw e r)).
Proof. unfold saw. repeat case_match; (split_and!; [done| |done]; exists []; by rewrite app_nil_r). Qed.

Lemma behind_next e r l : in_step_with r l -> one_behind e (next_seq r) (l ++ [(r_seq (next_seq r), e)]).
Proof. intros Ha. exists l. split; [done|]. cbn. replace (r_seq r + 1 - 1)%Z with (r_seq r) by lia. exact Ha. Qed.

(** A handler that marks one status, which applies from [old]. *)
Lemma wp_mark cmd r s old l status legal next :
  entry_in_db (r_run_id r) s = Some (old, l) -> Repo.LEGAL_STATUS_TRANSITIONS status = Some legal -> old ∈ legal ->
  (forall r3 s3, tapped r r3 -> entry_in_db (r_run_id r) s3 = Some (status, l) ->
     WP next (spec cmd r old) (r3, s3) (r3, s3)) ->
  WP (transaction (mark (r_run_id r) status) next) (spec cmd r old) (r, s) (r, s).
Proof.
  intros Hst Hl Hin Hnext. eapply wp_transaction; [apply own_rec_refl|done|]. intros s1 Hs1.
  destruct (mark_sets _ _ _ _ _ _ Hs1 Hl Hin) as (s2&Hm&Hn&Ho). exists s2, (status, l). split_and!; [done|done|done|]. exact Hnext.
Qed.

(** An event and a status, in one transaction. *)
Lemma wp_append_mark cmd r s old l status legal e :
  in_step_with r l -> entry_in_db (r_run_id r) s = Some (old, l) ->
  Repo.LEGAL_STATUS_TRANSITIONS status = Some legal -> old ∈ legal ->
  (forall r3, r_poison r3 = r_poison r -> becomes cmd r old r3 status) ->
  WP (transaction (fun s => s ← on_db (Repo.append_run_event (r_run_id r) (r_seq (next_seq r)) e) s; mark (r_run_id r) status s) (put e))
    (spec cmd r old) (r, s) (next_seq r, s).
Proof.
  intros Ha Hst Hl Hin Hb. eapply (wp_transaction _ _ _ _ _ _ (old, l)); [split; [apply next_seq_recorded|done]|done|].
  change (r_run_id (next_seq r)) with (r_run_id r). intros s1 Hs1.
  destruct (append_ok _ (r_seq (next_seq r)) e _ _ _ Hs1) as (sa&Ha1&Hsa&Hoa).
  destruct (mark_sets _ _ _ _ _ _ Hsa Hl Hin) as (s2&Hm&Hn&Ho).
  exists s2, (status, l ++ [(r_seq (next_seq r), JObj e)]). rewrite Ha1. cbn [mbind result_bind].
  split_and!; [done|done|intros id Hne; unfold entry_kept in *; by rewrite Ho, Hoa|].
  intros r3 s3 Htap Hs3. eapply handler_put; [exact Hs3| |].
  - eapply tapped_one_behind; [exact Htap|]. by apply behind_next.
  - apply Hb. cbn. by rewrite (tapped_poison _ _ Htap).
Qed.

Lemma wp_reading k (Q : () -> Run * store -> Run * store -> Prop) v0 r s : WP (k r) Q v0 (r, s) -> WP (reading_run k) Q v0 (r, s).
Proof. done. Qed.

Lemma wp_on_run f (c : handler) (Q : () -> Run * store -> Run * store -> Prop) v0 r s :
  WP c Q v0 (f r, s) -> WP (on_run f ;; c)%comp Q v0 (r, s).
Proof. done. Qed.

(** ** Each handler *)

Section handlers.
Context `{!AGUI}.

Lemma relay_ok event r s st l : entry_in_db (r_run_id r) s = Some (st, l) -> in_step_with r l ->
  WP (_handle_relay event) (spec (RelayEvent event) r st) (r, s) (r, s).
Proof.
  intros Hst Ha. unfold _handle_relay. destruct (negb (unknown_type event) && negb (valid_event event)).
  - split; [split; [|done]|by exists st, l]. split_and!; [done| |done]. exists []. by rewrite app_nil_r.
  - destruct event as [| | | | |e]; try (split; [apply own_rec_refl|by exists st, l]).
    apply wp_on_run, wp_reading.
    assert (Hid : r_run_id (saw e r) = r_run_id r /\ r_seq (saw e r) = r_seq r /\ said (saw e r) = said r)
      by (unfold saw; by repeat case_match).
    destruct Hid as (Hid&Hseq&Hsaid). assert (Ha1 : in_step_with (saw e r) l) by (unfold agrees; by rewrite Hseq, Hsaid).
    eapply wp_transaction; [split; [apply saw_recorded|done]|cbn; by rewrite Hid|].
    change (r_run_id (next_seq (saw e r))) with (r_run_id (saw e r)). rewrite Hid. intros s1 Hs1.
    destruct (append_ok _ (r_seq (next_seq (saw e r))) e _ _ _ Hs1) as (sa&Hsa&Hea&Hoa).
    unfold on_db in *. destruct (Repo.append_run_event _ _ _ _) as [d|] eqn:Hd; [|done]. cbn in Hsa. injection Hsa as <-.
    eexists _, (st, l ++ [(r_seq (next_seq (saw e r)), JObj e)]). split_and!; [reflexivity| | |].
    + unfold entry_in_db, events_in_db in *. cbn in *. rewrite lookup_alter_eq.
      destruct (d_runs d !! r_run_id r); [|done]. exact Hea.
    + intros id Hne. pose proof (Hoa id Hne) as Hk. unfold entry_kept in *. rewrite <- Hk.
      unfold entry_in_db, events_in_db. cbn. by rewrite lookup_alter_ne.
    + intros r3 s3 Htap Hs3. eapply handler_put; [exact Hs3| |by split].
      eapply tapped_one_behind; [exact Htap|]. by apply behind_next.
Qed.

Lemma finish_ok r s st l : entry_in_db (r_run_id r) s = Some (st, l) -> st = running \/ st = cancelling -> in_step_with r l ->
  WP _handle_finish (spec FinishStream r st) (r, s) (r, s).
Proof.
  intros Hst Hrun Ha. unfold _handle_finish. apply wp_reading. cbn zeta.
  assert (Hl : exists legal, Repo.LEGAL_STATUS_TRANSITIONS (final_status r) = Some legal /\ st ∈ legal /\ final (final_status r) = true).
  { unfold final_status. destruct (r_saw_run_finished r); [|destruct (r_cancel_requested r)];
      (eexists; split; [reflexivity|]; split; [|done]; destruct Hrun as [->| ->]; set_solver). }
  destruct Hl as (legal&Hl&Hin&Hfin).
  destruct (bool_decide (final_status r = failed) && negb (r_saw_run_error r)).
  - apply wp_on_run. eapply wp_append_mark; [done|done|done|done|]. by intros.
  - eapply wp_mark; [done..|]. intros r3 s3 Htap Hs3. eapply handler_end; [done| |by eapply tapped_in_step].
    split; [done|]. by apply tapped_poison.
Qed.

Lemma cancel_ok r s st l : entry_in_db (r_run_id r) s = Some (st, l) -> allowed RequestCancel r st -> in_step_with r l ->
  WP _handle_cancel (spec RequestCancel r st) (r, s) (r, s).
Proof.
  intros Hst Hall Ha. unfold _handle_cancel. apply wp_reading. cbn in Hall. destruct (r_claimed_by r) as [key|] eqn:Hc.
  - assert (Hnext : forall r3 s3, tapped r r3 -> entry_in_db (r_run_id r) s3 = Some (cancelling, l) ->
      WP (match r_cancel_notify r with Some _ => suspend | None => ret () end)
         (spec RequestCancel r st) (r3, s3) (r3, s3)).
    { intros r3 s3 Htap Hs3. assert (Hid : r_run_id r3 = r_run_id r) by (destruct Htap as (Hd&_); unfold dispatch_of in Hd; congruence).
      assert (Hb : forall r4, tapped r r4 -> becomes RequestCancel r st r4 cancelling).
      { intros r4 Ht4. split; [by rewrite Hc|]. by apply tapped_poison. }
      destruct (r_cancel_notify r).
      - apply wp_suspend; [apply own_rec_refl|done|]. intros [r4 s4] [Htap4 Hs4] _. cbn in Htap4, Hs4.
        split; [apply own_rec_refl|]. exists cancelling, l. rewrite Hid, Hs3 in Hs4. assert (tapped r r4) by by etrans.
        split_and!; [done|by apply Hb|by eapply tapped_in_step].
      - eapply handler_end; [done|by apply Hb|by eapply tapped_in_step]. }
    destruct Hall as [->| ->].
    + eapply wp_mark; [done|reflexivity|set_solver|done].
    + eapply wp_transaction; [apply own_rec_refl|done|]. intros s1 Hs1.
      destruct (mark_skips (r_run_id r) cancelling s1 cancelling l [running] Hs1 eq_refl) as (s2&Hm&Ho); [set_solver|].
      exists s2, (cancelling, l). split_and!; [done|unfold entry_kept in *; by rewrite Ho|intros id _; apply Ho|exact Hnext].
  - eapply wp_mark; [done|reflexivity|destruct Hall as [->| ->]; set_solver|].
    intros r3 s3 Htap Hs3. eapply handler_end; [done| |by eapply tapped_in_step]. split; [by rewrite Hc|]. by apply tapped_poison.
Qed.

Lemma fail_ok code words r s st l : entry_in_db (r_run_id r) s = Some (st, l) -> final st = false -> in_step_with r l ->
  WP (_handle_fail code words) (spec (Fail code words) r st) (r, s) (r, s).
Proof.
  intros Hst Hfin Ha. unfold _handle_fail. set (e := run_error _ _).
  apply wp_on_run, wp_reading. change (r_run_id (next_seq r)) with (r_run_id r).
  eapply (wp_append_mark _ r); [done|done|reflexivity|destruct st; try done; set_solver|]. by intros.
Qed.

(** Offering and claiming only mark the status. *)
Lemma only_mark_ok cmd r s old l status legal :
  entry_in_db (r_run_id r) s = Some (old, l) -> Repo.LEGAL_STATUS_TRANSITIONS status = Some legal -> old ∈ legal ->
  in_step_with r l -> (forall r3, r_poison r3 = r_poison r -> becomes cmd r old r3 status) ->
  WP (transaction (mark (r_run_id r) status) (ret ())) (spec cmd r old) (r, s) (r, s).
Proof.
  intros Hst Hl Hin Ha Hb. eapply wp_mark; [done..|]. intros r3 s3 Htap Hs3.
  eapply handler_end; [done|by apply Hb, tapped_poison|by eapply tapped_in_step].
Qed.

Lemma make_handlers_ok cmd r s st l :
  entry_in_db (r_run_id r) s = Some (st, l) -> allowed cmd r st -> in_step_with r l ->
  WP (make_handlers cmd) (spec cmd r st) (r, s) (r, s).
Proof.
  intros Hst Hall Ha. destruct cmd; cbn [make_handlers].
  - cbn in Hall. subst st. apply wp_reading. eapply only_mark_ok; [done|reflexivity|set_solver|done|done].
  - cbn in Hall. subst st. apply wp_reading. eapply only_mark_ok; [done|reflexivity|set_solver|done|done].
  - by eapply relay_ok.
  - by eapply finish_ok.
  - by eapply cancel_ok.
  - by eapply fail_ok.
Qed.

#[export] Instance store_laws : RecorderLaws store := {
  entry_of := entry_in_db;
  in_step := numbers;
  entry_of_forget id id' s := eq_refl;
  handler_ok := make_handlers_ok;
}.
End handlers.

End HandlersOk.
