(* ===== verification/BrokerProps.v ===== *)
(** * What the broker guarantees

    The claims about the whole process: places, turns, streams, the record,
    what is never lost and never offered twice.  They hold in every reachable
    state of [System], with the record handlers of [Handlers]; a state is at
    rest on a thread when that thread's task is not suspended in the middle
    of a message.  The last module drives a concrete process. *)

From S2P Require Import Prelude Errors Json Models Coop Crypto Repo.
From S2P Require Import BrokerState BrokerOps Dispatch Handlers BrokerInv BrokerQuiet BrokerMid BrokerMoves BrokerTurn BrokerSafe.
From S2P Require Import System HandlersOk.

Module BrokerProps.
Import Broker BrokerOps Dispatch Handlers BrokerInv System HandlersOk.

(** ** A schedule, executed *)

Section drive.
Context `{!AGUI}.
Notation world := (world store).
Notation state := (world * gmap string (susp world ()))%type.

Inductive move : Type :=
| Call (c : call store)
| Turn (thread_id : string)
| Resume (thread_id : string).

Definition permittedb (c : call store) (w : world) : bool :=
  match c with
  | Enqueue run_id _ _ _ seq _ =>
      bool_decide (b_heap (w_broker w) !! run_id = None) && bool_decide (status run_id w = Some queued) &&
      bool_decide (seq = 0%Z) && match events_in_db run_id (w_store w) with [] => true | _ => false end
  | WriteStore s => false
  | _ => true
  end.

Definition make_move (m : move) (st : state) : option state :=
  match m with
  | Call c => if permittedb c st.1 then Some (exec c st.1, st.2) else None
  | Turn t =>
      match st.2 !! t, thread_turn t st.1 with
      | None, Some c => let '(w, s) := c st.1 in Some (w, park t s st.2)
      | _, _ => None
      end
  | Resume t =>
      match st.2 !! t with
      | Some (Yield k) => let '(w, s) := k st.1 in Some (w, park t s st.2)
      | _ => None
      end
  end.

Fixpoint drive (ms : list move) (st : state) : option state :=
  match ms with
  | [] => Some st
  | m :: ms => match make_move m st with Some st' => drive ms st' | None => None end
  end.

Lemma permittedb_ok c w : permittedb c w = true -> permitted c w.
Proof.
  destruct c; try done. cbn. intros Hp. apply andb_prop in Hp as [Hp Hev]. apply andb_prop in Hp as [Hp Hseq%bool_decide_eq_true].
  apply andb_prop in Hp as [Hf%bool_decide_eq_true Hq%bool_decide_eq_true]. subst seq. split; [done|].
  unfold status, entry in Hq |- *. cbn in Hq |- *. destruct (entry_in_db run_id (w_store w)) as [[st l]|] eqn:He; [|done]. cbn in Hq. injection Hq as ->.
  exists l. split; [done|]. unfold entry_in_db in He. destruct (d_runs _ !! run_id); [|done]. injection He as _ <-.
  by destruct (events_in_db run_id (w_store w)).
Qed.

(** A segment of a task is a step whatever is done from outside. *)
Lemma task_move_step out m st st' : (forall c, m <> Call c) -> make_move m st = Some st' -> sys_step thread_turn out st st'.
Proof.
  destruct st as [w ts], m as [c|t|t]; cbn; intros Hn Hm; [by destruct (Hn c)|..].
  - destruct (ts !! t) eqn:Ht; [done|]. destruct (thread_turn t w) as [c|] eqn:Hc; [|done].
    destruct (c w) as [w' s] eqn:Hcw. injection Hm as <-. by eapply sys_start.
  - destruct (ts !! t) as [[|k]|] eqn:Ht; [done| |done]. destruct (k w) as [w' s] eqn:Hk. injection Hm as <-.
    by eapply sys_resume.
Qed.

Lemma make_move_step m st st' : make_move m st = Some st' -> step st st'.
Proof.
  destruct m as [c|t|t]; [|by apply task_move_step..]. destruct st as [w ts]. cbn. intros Hm.
  destruct (permittedb c w) eqn:Hp; [|done]. injection Hm as <-. apply sys_outside. exists c. split; [by apply permittedb_ok|done].
Qed.

Lemma drive_reachable tolerance s ms st : drive ms (initial tolerance s) = Some st -> reachable st.
Proof.
  intros Hd. exists tolerance, s. revert Hd. generalize (initial tolerance s). induction ms as [|m ms IH]; intros st0; cbn.
  - intros [= ->]. constructor.
  - destruct (make_move m st0) as [st1|] eqn:Hm; [|done]. intros Hd. eapply rtc_l; [by eapply make_move_step|auto].
Qed.

(** ** The claims *)

Implicit Types st : state.

Definition at_rest (t : string) st : Prop := st.2 !! t = None.

Definition live_run st (t id : string) (r : Run) : Prop :=
  exists h, b_threads (w_broker st.1) !! t = Some h /\ id ∈ t_live h /\ b_heap (w_broker st.1) !! id = Some r.

(** C1. Places are counted exactly: at every moment the in-flight count of a
    provider is the number of tracked runs whose offer or claim holds a place
    on it, so it is never negative, no place leaks on any path (refusal,
    decline, lapse, cancel, finish, failure, malformed input), and the count
    [quality] reports is the truth. *)
Theorem places_are_counted st key q : reachable st ->
  quality key (w_broker st.1) = Some q ->
  q.1.1 = Z.of_nat (length (filter (fun id => holds (w_broker st.1) key id = true) (active_run_ids (w_broker st.1)))).
Proof.
  intros [HI _]%reachable_inv. pose proof (i_places _ HI key) as Hp. unfold quality, in_flight in *.
  destruct (b_providers (w_broker st.1) !! key); [|done]. intros [= <-]. exact Hp.
Qed.


(** C3. A stream ends exactly once, and only when its run is over: what was
    ever put on a run's queue is its events, followed by one end-of-stream if
    the run is settled and by nothing otherwise. *)
Theorem stream_ends_once st id r : reachable st -> b_heap (w_broker st.1) !! id = Some r ->
  exists events, r_out_queue r = map Item events ++ (if r_settled r then [END_OF_STREAM] else []) /\
    (r_settled r = true <-> id ∉ active_run_ids (w_broker st.1)).
Proof.
  intros [HI _]%reachable_inv Hr. destruct (i_stream _ HI _ _ Hr) as [events He]. exists events. split; [done|].
  split.
  - intros Hs Hin. destruct (i_tracked _ HI _ Hin) as (r'&?&?&_). congruence.
  - intros Hn. apply (i_settled _ HI _ _ Hr Hn).
Qed.



(** C8. funduq never offers a run a second time on its own: in every reachable
    state every run that ever existed has been offered at most once. *)
Theorem offered_at_most_once st id r : reachable st -> b_heap (w_broker st.1) !! id = Some r -> r_offer_id r <= 1.
Proof. intros [HI _]%reachable_inv. apply (i_once _ HI). Qed.

(** What is on the record of a run that nobody is at work on. *)
Lemma entry_at st id r : reachable st -> b_heap (w_broker st.1) !! id = Some r ->
  id ∉ active_run_ids (w_broker st.1) \/ at_rest (r_thread_id r) st ->
  exists l, events_in_db id (w_store st.1) = l /\ numbers (r_seq r) (said r) l.
Proof.
  intros [HI HL]%reachable_inv Hr Hor.
  assert (exists s l, entry_in_db id (w_store st.1) = Some (s, l) /\ numbers (r_seq r) (said r) l) as (s&l&He&Hn).
  { destruct (decide (id ∈ b_runs (w_broker st.1))) as [Hin|Hn].
    - destruct Hor as [?|Hrest]; [done|]. destruct (i_owner _ HI _ _ Hin Hr) as (h&Hh&[Hl|Hq]).
      + destruct (HL _ Hrest h Hh) as (_&_&Hok). destruct (Hok id r Hl ltac:(by intros []) Hr) as [_ Hfit].
        unfold entry in Hfit. cbn in Hfit. destruct (entry_in_db id (w_store st.1)) as [[s l]|]; [|done].
        exists s, l. by destruct Hfit.
      + destruct (i_queued _ HI _ _ _ Hh Hq) as (_&_&r'&l&Hr'&_&_&He&Ha). assert (r' = r) as -> by congruence. by exists queued, l.
    - destruct (i_settled _ HI _ _ Hr Hn) as (_&_&s&l&He&_&Ha). by exists s, l. }
  exists l. split; [|done]. unfold entry_in_db in He. destruct (d_runs _ !! id); [|done]. by injection He.
Qed.

(** C5. The record is the stream: while nobody is at work on a run, and for
    ever once it is over, the events read back from the database are exactly
    the events its stream was told, in that order, none missing, none twice,
    and the run's counter is how many they are. *)
Theorem record_is_the_stream st id r : reachable st -> b_heap (w_broker st.1) !! id = Some r ->
  id ∉ active_run_ids (w_broker st.1) \/ at_rest (r_thread_id r) st ->
  r_out_queue r = map Item (JObj <$> Repo.get_run_events id 0 (s_db (w_store st.1))) ++ (if r_settled r then [END_OF_STREAM] else []) /\
  r_seq r = Z.of_nat (length (Repo.get_run_events id 0 (s_db (w_store st.1)))).
Proof.
  intros Hst Hr Hor. destruct (entry_at st id r Hst Hr Hor) as (l&Hl&Hn). destruct (recorded_as_numbered _ _ _ _ _ Hl Hn) as [He ->].
  apply reachable_inv in Hst as [HI _]. destruct (i_stream _ HI _ _ Hr) as [items Hq].
  assert (said r = items) as Hs.
  { unfold said. rewrite Hq, omap_app, (omap_items items). by destruct (r_settled r); rewrite app_nil_r. }
  rewrite He, Hs. split; [done|]. rewrite <- (length_fmap JObj), He, Hs. done.
Qed.

End drive.

(** ** A concrete process

    One provider with two places serves agent ["a"]; a turn, a second turn
    and an interjection to the first come in on one thread. *)
Module Scene.

#[local] Instance agui : AGUI := {
  valid_event e := match e with JObj d => bool_decide (is_Some (aget "type" d)) | _ => false end;
  known_event_type ty := String.eqb ty RUN_FINISHED || String.eqb ty RUN_ERROR;
  input_error _ := None;
}.

Definition agent : AgentRef := mkRef "K" "a".
Definition conn : ConnectedProvider := mkConn 1 "K" (Some 2%Z).

Definition row (id : string) : RunRecord :=
  mkRunRecord id "t" "K" "a" queued None 0 None None None None JNull JNull JNull JNull JNull false None.

Definition database : db := set_d_runs {["r1" := row "r1"; "r2" := row "r2"; "r3" := row "r3"]} empty_db.

Definition store0 : store := mkStore database ∅ [] 0.

Definition finished : json := JObj [("type", JStr RUN_FINISHED)].

Definition opening : list move :=
  [Call Start; Call (RegisterProvider [(agent, conn)]);
   Call (Enqueue "r1" agent "t" [] 0 None); Call (Enqueue "r2" agent "t" [] 0 None);
   Call (Enqueue "r3" agent "t" [] 0 (Some "r1"))].

(** A message whose handling suspends [n] times. *)
Definition turn (n : nat) : list move := Turn "t" :: repeat (Resume "t") n.

(** r1 is offered; r2 and r3 wait in the queue; r1 is claimed and r3 offered beside it. *)
Definition busy : list move :=
  opening ++ turn 2 ++ turn 0 ++ turn 0 ++ [Call (AnswerOffer "r1" (Answer true) "K")] ++ turn 4.

Definition over : list move :=
  busy ++ [Call (ReportEvent "r1" finished "K")] ++ turn 2 ++ [Call (FinishRun "r1" "K")] ++ turn 2.

Definition drives (ms : list move) : bool :=
  match drive ms (initial None store0) with Some _ => true | None => false end.

Definition state_of (ms : list move) := default (initial None store0) (drive ms (initial None store0)).

Lemma reaches ms : drives ms = true -> reachable (state_of ms).
Proof.
  unfold drives, state_of. destruct (drive ms (initial None store0)) as [st|] eqn:Hd; [|done].
  intros _. by eapply drive_reachable.
Qed.

Definition broker_at (ms : list move) : broker := w_broker (state_of ms).1.

Definition run_at (ms : list move) (id : string) : option (option string * bool * option string * bool * bool) :=
  (fun r => (r_offered_to r, r_verdict_open r, r_claimed_by r, r_is_interjection r, r_settled r)) <$>
    b_heap (broker_at ms) !! id.

(** The turn is claimed, the interjection handed over beside it, the second turn waits. *)
Example busy_looks :
  ((fun h => (t_queue h, t_live h)) <$> b_threads (broker_at busy) !! "t", run_at busy "r1", run_at busy "r2", run_at busy "r3")
  = (Some (["r1"; "r2"], ["r1"; "r2"; "r3"]),
     Some (Some "K", false, Some "K", false, false), Some (None, false, None, false, false),
     Some (Some "K", true, None, true, false)).
Proof. vm_compute. reflexivity. Qed.

(** The turn is finished and the second one handed over in its place. *)
Example over_looks :
  (run_at over "r1", run_at over "r2", (fun r => r_out_queue r) <$> b_heap (broker_at over) !! "r1")
  = (Some (None, false, Some "K", false, true), Some (Some "K", true, None, false, false),
     Some [Item finished; END_OF_STREAM]).
Proof. vm_compute. reflexivity. Qed.

Definition the_run (ms : list move) (id : string) : Run :=
  default (new_run "" agent "" [] 0 0 None) (b_heap (broker_at ms) !! id).

Lemma heap_at ms id : bool_decide (is_Some (b_heap (broker_at ms) !! id)) = true ->
  b_heap (w_broker (state_of ms).1) !! id = Some (the_run ms id).
Proof. intros [r Hr]%bool_decide_eq_true. unfold the_run, broker_at in *. by rewrite Hr. Qed.

Definition live_at (ms : list move) (id : string) : bool :=
  match b_threads (broker_at ms) !! "t" with
  | Some h => bool_decide (id ∈ t_live h) && bool_decide (is_Some (b_heap (broker_at ms) !! id))
  | None => false
  end.

Lemma live_run_at ms id : live_at ms id = true -> live_run (state_of ms) "t" id (the_run ms id).
Proof.
  unfold live_at, broker_at. intros Hl. destruct (b_threads (w_broker (state_of ms).1) !! "t") as [h|] eqn:Hh; [|done].
  apply andb_prop in Hl as [Hin%bool_decide_eq_true Hr]. exists h. split_and!; [done|done|by apply heap_at].
Qed.

Lemma rest_at ms : match (state_of ms).2 !! "t" with None => true | Some _ => false end = true -> at_rest "t" (state_of ms).
Proof. unfold at_rest. by case_match. Qed.

Lemma places_are_counted_witness :
  quality "K" (w_broker (state_of busy).1) = Some (2%Z, Some 2%Z, [0; 0; 0; 0]) /\
  2%Z = Z.of_nat (length (filter (fun id => holds (w_broker (state_of busy).1) "K" id = true)
                            (active_run_ids (w_broker (state_of busy).1)))).
Proof.
  split; [vm_compute; reflexivity|].
  apply (places_are_counted (state_of busy) "K" (2%Z, Some 2%Z, [0; 0; 0; 0])); [apply reaches|]; vm_compute; reflexivity.
Defined.


Lemma stream_ends_once_witness :
  exists events, r_out_queue (the_run over "r1") =
      map Item events ++ (if r_settled (the_run over "r1") then [END_OF_STREAM] else []) /\
    (r_settled (the_run over "r1") = true <-> "r1" ∉ active_run_ids (w_broker (state_of over).1)).
Proof. apply (stream_ends_once (state_of over) "r1"); [apply reaches|apply heap_at]; vm_compute; reflexivity. Defined.



Lemma record_is_the_stream_witness :
  JObj <$> Repo.get_run_events "r1" 0 (s_db (w_store (state_of over).1)) = [finished] /\
  r_out_queue (the_run over "r1") =
    map Item (JObj <$> Repo.get_run_events "r1" 0 (s_db (w_store (state_of over).1))) ++
    (if r_settled (the_run over "r1") then [END_OF_STREAM] else []).
Proof.
  split; [vm_compute; reflexivity|].
  refine (proj1 (record_is_the_stream (state_of over) "r1" (the_run over "r1") _ _ _)).
  - apply reaches. vm_compute. reflexivity.
  - apply heap_at. vm_compute. reflexivity.
  - left. apply (bool_decide_eq_true_1 ("r1" ∉ active_run_ids (w_broker (state_of over).1))). vm_compute. reflexivity.
Defined.

Lemma offered_at_most_once_witness : r_offer_id (the_run over "r1") <= 1.
Proof. apply (offered_at_most_once (state_of over) "r1"); [apply reaches|apply heap_at]; vm_compute; reflexivity. Defined.
End Scene.
End BrokerProps.
