(* ===== verification/LiveRoster.v ===== *)
(** * Live tables: which connection serves each ref

    [LiveTable] is what a roster (core.py's [_Roster]) asks of the table it
    writes, [LiveTableLaws] what it relies on.  Two parts of funduq promise
    it: the relay's [LiveRoster] (funduq/live_roster.py) and the broker's own
    [_serving]/[_providers] pair (funduq/broker.py), where a connection is
    kept per key and a ref only names the key. *)

From S2P Require Import Prelude Errors Models BrokerState BrokerOps BrokerInv BrokerQuiet.

Module LiveRoster.
Import Broker BrokerOps BrokerInv BrokerQuiet.

(** ** The interface *)

Class LiveTable (T : Type) : Type := {
  live : AgentRef -> T -> option ConnectedProvider;
  served_by : string -> T -> list AgentRef;
  write_live : list (AgentRef * ConnectedProvider) -> T -> T;
  withdraw : list AgentRef -> T -> T;
}.

(** Every ref of the mapping is the connection's own. *)
Definition own (refs : list AgentRef) (c : ConnectedProvider) : Prop :=
  forall ref, ref ∈ refs -> ref_provider_key ref = public_key c.

(** [{ref: connection for ref in refs}]. *)
Definition onto (c : ConnectedProvider) (refs : list AgentRef) : list (AgentRef * ConnectedProvider) :=
  map (fun ref => (ref, c)) refs.

Class LiveTableLaws (T : Type) `{LiveTable T} : Type := {
  table_ok : T -> Prop;
  live_own t ref c : table_ok t -> live ref t = Some c -> ref_provider_key ref = public_key c;
  served_by_spec t key ref : table_ok t ->
    ref ∈ served_by key t <-> ref_provider_key ref = key /\ is_Some (live ref t);
  withdraw_ok t refs : table_ok t -> table_ok (withdraw refs t);
  live_withdraw t refs ref :
    live ref (withdraw refs t) = if bool_decide (ref ∈ refs) then None else live ref t;
  write_ok t refs c : table_ok t -> own refs c -> table_ok (write_live (onto c refs) t);
  live_write_in t refs c ref : own refs c -> ref ∈ refs -> live ref (write_live (onto c refs) t) = Some c;
  (** A ref left out keeps its connection, or follows its key to the new one. *)
  live_write_out t refs c ref : table_ok t -> own refs c -> ref ∉ refs ->
    live ref (write_live (onto c refs) t) = live ref t \/
    (is_Some (live ref t) /\ ref_provider_key ref = public_key c /\ live ref (write_live (onto c refs) t) = Some c);
}.

(** ** The relay's table *)

Record roster : Type := mkRoster {
  l_links : list (AgentRef * ConnectedProvider);
  l_counter_names : list string;
  l_counters : gmap string (list (string * nat));
}.

Definition set_l_links (v : list (AgentRef * ConnectedProvider)) (x : roster) : roster :=
  mkRoster v (l_counter_names x) (l_counters x).
Definition set_l_counters (v : gmap string (list (string * nat))) (x : roster) : roster :=
  mkRoster (l_links x) (l_counter_names x) v.

Definition new_roster (counter_names : list string) : roster := mkRoster [] counter_names ∅.

Definition attach (mapping : list (AgentRef * ConnectedProvider)) (t : roster) : roster :=
  set_l_links (foldl (fun d kv => aset kv.1 kv.2 d) (l_links t) mapping) t.

Definition roster_withdraw (refs : list AgentRef) (t : roster) : roster :=
  set_l_links (foldl (fun d ref => adel ref d) (l_links t) refs) t.

Definition roster_serving (ref : AgentRef) (t : roster) : option ConnectedProvider := aget ref (l_links t).

Definition roster_served_by (public_key : string) (t : roster) : list AgentRef :=
  filter (fun ref => ref_provider_key ref = public_key) (akeys (l_links t)).

Definition note (public_key counter : string) (t : roster) : py roster :=
  guard_or (ValueError "unknown counter") (bool_decide (counter ∈ l_counter_names t))
  (let bucket := default (map (fun n => (n, 0)) (l_counter_names t)) (l_counters t !! public_key) in
   match aget counter bucket with
   | Some n => Ok (set_l_counters (<[public_key := aset counter (S n) bucket]> (l_counters t)) t)
   | None => Err KeyError
   end).

Definition count (public_key counter : string) (t : roster) : nat :=
  default 0 (aget counter (default [] (l_counters t !! public_key))).

#[export] Instance roster_table : LiveTable roster := {
  live := roster_serving;
  served_by := roster_served_by;
  write_live := attach;
  withdraw := roster_withdraw;
}.

(** Each link is on a ref of its own key. *)
Definition links_own (t : roster) : Prop :=
  forall ref c, aget ref (l_links t) = Some c -> ref_provider_key ref = public_key c.

Lemma aget_onto ref c refs d :
  aget ref (foldl (fun d kv => aset kv.1 kv.2 d) d (onto c refs)) =
  if bool_decide (ref ∈ refs) then Some c else aget ref d.
Proof.
  revert d. induction refs as [|r refs IH]; intros d; cbn [onto map foldl fst snd].
  - by rewrite bool_decide_eq_false_2 by apply not_elem_of_nil.
  - unfold onto in IH. rewrite IH, aget_aset. repeat case_bool_decide; repeat case_decide; set_solver.
Qed.

Lemma aget_withdrawn {V} ref refs (d : list (AgentRef * V)) :
  aget ref (foldl (fun d r => adel r d) d refs) = if bool_decide (ref ∈ refs) then None else aget ref d.
Proof.
  revert d. induction refs as [|r refs IH]; intros d; cbn [foldl].
  - by rewrite bool_decide_eq_false_2 by apply not_elem_of_nil.
  - rewrite IH, aget_adel. repeat case_bool_decide; repeat case_decide; set_solver.
Qed.

Lemma elem_akeys {V} ref (d : list (AgentRef * V)) : ref ∈ akeys d <-> is_Some (aget ref d).
Proof.
  destruct (aget ref d) eqn:E; [|apply aget_None in E; by split; [|intros []]].
  split; [by eexists|]. intros _. destruct (decide (ref ∈ akeys d)) as [|Hn]; [done|].
  apply aget_None in Hn. congruence.
Qed.

#[export] Instance roster_laws : LiveTableLaws roster.
Proof.
  refine (Build_LiveTableLaws roster _ links_own _ _ _ _ _ _ _).
  - intros t ref c Hok. apply Hok.
  - intros t key ref _. cbn. unfold roster_served_by, roster_serving. rewrite list_elem_of_filter. by rewrite elem_akeys.
  - intros t refs Hok ref c. cbn. rewrite aget_withdrawn. case_bool_decide; [done|apply Hok].
  - intros t refs ref. cbn. unfold roster_serving. cbn. apply aget_withdrawn.
  - intros t refs c Hok Hown ref c'. cbn. rewrite aget_onto. case_bool_decide; [|apply Hok].
    intros [= <-]. by apply Hown.
  - intros t refs c ref _ Hin. cbn. unfold roster_serving. cbn. rewrite aget_onto. by case_bool_decide.
  - intros t refs c ref _ _ Hout. left. cbn. unfold roster_serving. cbn. rewrite aget_onto. by case_bool_decide.
Defined.

(** ** The counters *)

Definition counters_ok (t : roster) : Prop := forall key bucket,
  l_counters t !! key = Some bucket -> akeys bucket = l_counter_names t.

Lemma aget_zero n names : aget n (map (fun n : string => (n, 0)) names) = if bool_decide (n ∈ names) then Some 0 else None.
Proof.
  induction names as [|m names IH]; cbn; [done|]. rewrite IH. repeat case_bool_decide; repeat case_decide; set_solver.
Qed.

Lemma count_note t key c t' : counters_ok t -> note key c t = Ok t' ->
  counters_ok t' /\ forall key' c',
    count key' c' t' = count key' c' t + (if bool_decide (key' = key /\ c' = c) then 1 else 0).
Proof.
  intros Hok. unfold note. rewrite guard_or_ok. intros [Hc%bool_decide_eq_true Hr].
  set (bucket := default (map (fun n => (n, 0)) (l_counter_names t)) (l_counters t !! key)) in *.
  assert (Hkeys : akeys bucket = l_counter_names t).
  { unfold bucket. destruct (l_counters t !! key) eqn:E; [by eapply Hok|]. unfold akeys. cbn.
    rewrite <- list_fmap_compose. change (id <$> l_counter_names t = l_counter_names t). apply list_fmap_id. }
  assert (Hb : forall c', default 0 (aget c' bucket) = count key c' t).
  { intros c'. unfold bucket, count. destruct (l_counters t !! key); [done|]. cbn. rewrite aget_zero. by case_bool_decide. }
  destruct (aget c bucket) as [n|] eqn:Hn; [|done]. injection Hr as <-. split.
  - intros key' b'. cbn. rewrite lookup_insert. case_decide; [|apply Hok].
    intros [= <-]. rewrite akeys_aset. rewrite decide_True; [done|by rewrite Hkeys].
  - intros key' c'. unfold count at 1. cbn. rewrite lookup_insert. case_decide as Hk.
    + subst key'. cbn. rewrite aget_aset. specialize (Hb c'). case_decide as Hcc; [subst c'|].
      * rewrite bool_decide_eq_true_2 by done. rewrite Hn in Hb. cbn in *. lia.
      * rewrite bool_decide_eq_false_2 by naive_solver. lia.
    + rewrite bool_decide_eq_false_2 by naive_solver. unfold count. lia.
Qed.

(** ** The broker's table *)

#[export] Instance broker_table : LiveTable broker := {
  live := serving;
  served_by := agents_served_by;
  write_live := register_provider;
  withdraw := unregister_provider;
}.

(** The broker's table when only rosters write it. *)
Record broker_ok (b : broker) : Prop := {
  bo_serving : serving_ok b;
  bo_keys : forall ref key, (ref, key) ∈ b_serving b -> ref_provider_key ref = key;
}.

(** Same refs, same connections. *)
Definition same_table (b b' : broker) : Prop :=
  b_serving b' = b_serving b /\ forall key, (p_connection <$> b_providers b' !! key) = (p_connection <$> b_providers b !! key).

#[export] Instance same_table_preorder : PreOrder same_table.
Proof. split; [by split|]. intros b1 b2 b3 [? H1] [? H2]. split; [congruence|]. intros key. by rewrite H2. Qed.

Lemma same_table_serving b b' ref : same_table b b' -> serving ref b' = serving ref b.
Proof.
  intros [Hs Hp]. unfold serving. rewrite Hs. destruct (aget ref (b_serving b)) as [key|]; [|done].
  specialize (Hp key). destruct (b_providers b' !! key), (b_providers b !! key); cbn in Hp; congruence.
Qed.

Lemma same_table_ok b b' : same_table b b' -> broker_ok b -> broker_ok b'.
Proof.
  intros [Hs Hp] [Hso Hk]. split; [|by rewrite Hs]. intros ref key. rewrite Hs. intros Hg.
  destruct (Hso _ _ Hg) as (p&c&Hpk&Hc&?). specialize (Hp key). rewrite Hpk in Hp. cbn in Hp.
  destruct (b_providers b' !! key) as [p'|]; [|done]. cbn in Hp. exists p', c. split_and!; [done|congruence|done].
Qed.

Lemma same_table_foldl {A} (f : broker -> A -> broker) l b :
  (forall b a, same_table b (f b a)) -> same_table b (foldl f b l).
Proof. intros Hf. revert b. induction l as [|a l IH]; intros b; cbn; [reflexivity|]. etrans; [apply Hf|apply IH]. Qed.

Lemma same_table_post run_id m b : same_table b (_post run_id m b).2.
Proof. unfold _post. by case_match. Qed.

Lemma same_table_fail_held ref b id : same_table b (fail_held ref b id).
Proof. unfold fail_held. repeat case_match; try done. apply same_table_post. Qed.

Lemma same_table_poke agent b : same_table b (_poke_agent agent b).
Proof. apply same_table_foldl. done. Qed.

Lemma adel_absent {V} ref (d : list (AgentRef * V)) : aget ref d = None -> adel ref d = d.
Proof.
  unfold adel. induction d as [|[r k] d IH]; [done|]. simpl. case_decide as Hr; [done|]. intros E.
  rewrite filter_cons. rewrite decide_True by (cbn; congruence). f_equal. by apply IH.
Qed.

(** Withdrawing one ref, up to the messages it posts. *)
Lemma unregister_one_table b ref :
  same_table (set_b_serving (adel ref (b_serving b)) b) (unregister_one b ref).
Proof.
  unfold unregister_one. case_match eqn:E.
  - etrans; [|apply same_table_poke]. etrans; [|apply same_table_foldl, same_table_fail_held]. done.
  - split; [|done]. cbn. by rewrite adel_absent.
Qed.

Lemma serving_withdrawn b ref r :
  serving r (set_b_serving (adel ref (b_serving b)) b) = if bool_decide (r = ref) then None else serving r b.
Proof.
  unfold serving. cbn. rewrite aget_adel. destruct (decide (ref = r)); case_bool_decide; congruence.
Qed.

Lemma adel_in {V} ref r (v : V) (d : list (AgentRef * V)) : (r, v) ∈ adel ref d -> (r, v) ∈ d.
Proof. unfold adel. by intros [_ ?]%list_elem_of_filter. Qed.

Lemma withdrawn_ok b ref : broker_ok b -> broker_ok (set_b_serving (adel ref (b_serving b)) b).
Proof.
  intros [Hs Hk]. split.
  - intros r key. cbn. rewrite aget_adel. case_decide; [done|apply Hs].
  - intros r key Hin%adel_in. by apply Hk.
Qed.

Lemma aset_in {V} ref r (v v' : V) (d : list (AgentRef * V)) : (r, v') ∈ aset ref v d -> (r, v') = (ref, v) \/ (r, v') ∈ d.
Proof.
  induction d as [|[r0 v0] d IH]; cbn; [set_solver|]. case_decide; set_solver.
Qed.

(** Registering one ref: it is served, its key's others follow, the rest stay. *)
Lemma register_one_serving b ref c r :
  serving r (register_one b (ref, c)) =
  if bool_decide (r = ref) then Some c
  else match aget r (b_serving b) with
       | Some key => if bool_decide (key = public_key c) then Some c else serving r b
       | None => None
       end.
Proof.
  unfold register_one, serving. cbn. rewrite aget_aset. destruct (decide (ref = r)) as [<-|Hne].
  - rewrite bool_decide_eq_true_2, lookup_insert_eq by done. done.
  - rewrite bool_decide_eq_false_2 by congruence. destruct (aget r (b_serving b)) as [key|]; [|done].
    rewrite lookup_insert. case_decide; case_bool_decide; by subst.
Qed.

Lemma register_one_ok b ref c : ref_provider_key ref = public_key c -> broker_ok b -> broker_ok (register_one b (ref, c)).
Proof.
  intros Href [Hs Hk]. split.
  - by apply (q_serving _ _ (quiet_register_one b (ref, c))).
  - intros r key. cbn. intros [[= -> ->]|Hin]%aset_in; [done|by apply Hk].
Qed.

Lemma aget_serving_keys b r key : broker_ok b -> aget r (b_serving b) = Some key -> ref_provider_key r = key.
Proof. intros Hok Hg. apply (bo_keys _ Hok). by apply aget_Some_elem. Qed.

Lemma register_fold refs c b : own refs c -> broker_ok b ->
  broker_ok (foldl register_one b (onto c refs)) /\
  forall r, serving r (foldl register_one b (onto c refs)) =
    if bool_decide (r ∈ refs) then Some c
    else match aget r (b_serving b) with
         | Some key => if bool_decide (key = public_key c) && negb (bool_decide (refs = [])) then Some c else serving r b
         | None => None
         end.
Proof.
  revert b. induction refs as [|ref refs IH]; intros b Hown Hok; cbn [onto map foldl].
  - split; [done|]. intros r. rewrite bool_decide_eq_false_2 by apply not_elem_of_nil.
    unfold serving. destruct (aget r (b_serving b)); [|done]. cbn. by rewrite andb_false_r.
  - assert (Href : ref_provider_key ref = public_key c) by (apply Hown; by left).
    destruct (IH (register_one b (ref, c))) as [Hok' Hserv]; [intros x Hx; apply Hown; by right|by apply register_one_ok|].
    split; [done|]. intros r. unfold onto in Hserv. rewrite Hserv. rewrite register_one_serving. cbn [register_one b_serving set_b_unserved_since upd_provider set_b_providers set_b_serving].
    rewrite aget_aset.
    assert (Hne0 : forall k, (bool_decide (k = public_key c) && negb (bool_decide (ref :: refs = []))) = bool_decide (k = public_key c))
      by (intros k; rewrite (bool_decide_eq_false_2 (ref :: refs = [])) by done; apply andb_true_r).
    destruct (decide (ref = r)) as [<-|Hne].
    + rewrite (bool_decide_eq_true_2 (ref = ref)) by done. rewrite (bool_decide_eq_true_2 (ref ∈ ref :: refs)) by set_solver.
      repeat case_match; done.
    + rewrite (bool_decide_eq_false_2 (r = ref)) by congruence.
      rewrite (bool_decide_ext (r ∈ ref :: refs) (r ∈ refs)) by set_solver.
      destruct (bool_decide (r ∈ refs)); [done|]. destruct (aget r (b_serving b)) as [key|]; [|done].
      rewrite Hne0. destruct (bool_decide (key = public_key c)); [by destruct (negb _)|done].
Qed.

Lemma register_table mapping b :
  same_table (foldl register_one b mapping) (register_provider mapping b).
Proof. unfold register_provider. apply (same_table_foldl _ mapping (set_b_work_to_do true _)). intros. apply same_table_poke. Qed.

Lemma unregister_live refs b r :
  serving r (unregister_provider refs b) = if bool_decide (r ∈ refs) then None else serving r b.
Proof.
  unfold unregister_provider. revert b. induction refs as [|ref refs IH]; intros b; cbn [foldl].
  - by rewrite bool_decide_eq_false_2 by apply not_elem_of_nil.
  - rewrite IH, (same_table_serving _ _ r (unregister_one_table b ref)), serving_withdrawn.
    repeat case_bool_decide; set_solver.
Qed.

Lemma unregister_ok refs b : broker_ok b -> broker_ok (unregister_provider refs b).
Proof.
  unfold unregister_provider. revert b. induction refs as [|ref refs IH]; intros b Hok; cbn; [done|].
  apply IH. eapply same_table_ok; [apply unregister_one_table|by apply withdrawn_ok].
Qed.

Lemma agents_served_by_spec b key ref : broker_ok b ->
  ref ∈ agents_served_by key b <-> ref_provider_key ref = key /\ is_Some (serving ref b).
Proof.
  intros Hok. unfold agents_served_by. rewrite list_elem_of_fmap. split.
  - intros ([r k]&->&[Hk Hin]%list_elem_of_filter). cbn in *. subst k.
    pose proof (bo_keys _ Hok _ _ Hin) as Hkey. split; [done|].
    assert (Hs : is_Some (aget r (b_serving b))) by (apply elem_akeys; unfold akeys; apply list_elem_of_fmap; by eexists (_, _)).
    destruct Hs as [k' Hg]. destruct (bo_serving _ Hok _ _ Hg) as (p&c&Hp&Hc&_). unfold serving. rewrite Hg, Hp, Hc. by eexists.
  - intros [Hk [c Hs]]. unfold serving in Hs. destruct (aget ref (b_serving b)) as [k|] eqn:Hg; [|done].
    pose proof (aget_serving_keys _ _ _ Hok Hg) as Hkey. exists (ref, k). split; [done|].
    apply list_elem_of_filter. split; [cbn; congruence|by apply aget_Some_elem].
Qed.

#[export] Instance broker_laws : LiveTableLaws broker.
Proof.
  refine (Build_LiveTableLaws broker _ broker_ok _ _ _ _ _ _ _).
  - intros b ref c Hok Hl. cbn in Hl. unfold serving in Hl. destruct (aget ref (b_serving b)) as [key|] eqn:Hg; [|done].
    destruct (bo_serving _ Hok _ _ Hg) as (p&c'&Hp&Hc&?). rewrite Hp in Hl. pose proof (aget_serving_keys _ _ _ Hok Hg). congruence.
  - intros b key ref. apply agents_served_by_spec.
  - intros b refs. apply unregister_ok.
  - intros b refs ref. apply unregister_live.
  - intros b refs c Hok Hown. cbn. eapply same_table_ok; [apply register_table|]. by apply register_fold.
  - intros b refs c ref Hown Hin. cbn. rewrite (same_table_serving _ _ ref (register_table _ b)).
    assert (forall b, serving ref b = Some c \/ ref ∈ refs -> serving ref (foldl register_one b (onto c refs)) = Some c) as H; [|apply H; by right].
    clear Hin. assert (Hrefs : forall x, x ∈ refs -> ref_provider_key x = public_key c) by exact Hown. clear Hown.
    induction refs as [|x refs IH]; intros b0 Hor; cbn [onto map foldl]; [destruct Hor as [|?%not_elem_of_nil]; done|].
    apply IH; [intros y Hy; apply Hrefs; by right|]. destruct (decide (ref ∈ refs)); [by right|]. left. rewrite register_one_serving.
    case_bool_decide as Hx; [done|]. destruct Hor as [Hor|Hor]; [|set_solver]. unfold serving in Hor.
    destruct (aget ref (b_serving b0)) eqn:Hg; [|done]. case_bool_decide; [done|]. unfold serving. by rewrite Hg.
  - intros b refs c ref Hok Hown Hout. cbn. rewrite (same_table_serving _ _ ref (register_table _ b)).
    destruct (register_fold refs c b Hown Hok) as [_ ->]. rewrite bool_decide_eq_false_2 by done.
    destruct (aget ref (b_serving b)) as [key|] eqn:Hg.
    + case_bool_decide as Hk; [|by left]. destruct (negb _); [|by left]. right. cbn. split_and!; [|by rewrite (aget_serving_keys _ _ _ Hok Hg)|done].
      destruct (bo_serving _ Hok _ _ Hg) as (p&c'&Hp&Hc&_). unfold serving. rewrite Hg, Hp, Hc. by eexists.
    + left. unfold serving. by rewrite Hg.
Defined.

End LiveRoster.
