(* ===== verification/Roster.v ===== *)
(** * Opening links and serving names from them (funduq/core.py [_Roster];
    the provider's side in funduq_provider_sdk/inprocess.py)

    A roster keeps, per key, the links it has open, and writes a live table
    through [LiveTable].  [open] is one uninterrupted step; [register] is a
    coroutine that suspends at its two transactions, so a [detach] may come
    between its check and its write. *)

From S2P Require Import Prelude Errors Json Crypto Payloads Identity Models Coop BrokerState LiveRoster.

Module Roster.
Import Broker LiveRoster.

(** ** Tickets ([Funduq._tickets]): the key each admits, and when it was issued *)

Notation tickets := (gmap string (string * Z)).

Definition window : Z := Identity.SIGNATURE_FRESHNESS_WINDOW_SECONDS * Identity.second.

(** The ticket minted is an argument: [secrets.token_hex(16)]. *)
Definition issue_ticket (now : Z) (ticket public_key : string) (m : tickets) : tickets :=
  <[ticket := (public_key, now)]> (filter (fun kv => (now - kv.2.2 <= window)%Z) m).

Definition _claim_ticket (now : Z) (ticket public_key : string) (m : tickets) : bool * tickets :=
  match m !! ticket with
  | None => (false, m)
  | Some issued =>
      if bool_decide (issued.1 <> public_key) then (false, m)
      else if (window <? now - issued.2)%Z then (false, delete ticket m)
      else (true, delete ticket m)
  end.

(** ** Links *)

(** A connection as [open] sees it: the object, and the two methods it may have. *)
Record Link : Type := mkLink {
  connection : ConnectedProvider;
  sign_connect : option (string -> string -> string -> py string);
  confirm_connect : option (string -> string -> string -> py ());
}.

(** [connection in links], by identity. *)
Definition listed (c : ConnectedProvider) (l : list ConnectedProvider) : bool :=
  existsb (fun x => is_conn (Some x) (Some c)) l.

Fixpoint remove_conn (c : ConnectedProvider) (l : list ConnectedProvider) : list ConnectedProvider :=
  match l with
  | [] => []
  | x :: l' => if is_conn (Some x) (Some c) then l' else x :: remove_conn c l'
  end.

Section roster.
Context `{Crypto} {T S : Type} `{LiveTable T}.

Record links : Type := mkLinks {
  k_tickets : tickets;
  k_open : gmap string (list ConnectedProvider);
  k_table : T;
  k_store : S;
  k_changes : nat;
  k_now : Z;
}.

Definition set_k_tickets (v : tickets) (x : links) : links :=
  mkLinks v (k_open x) (k_table x) (k_store x) (k_changes x) (k_now x).
Definition set_k_open (v : gmap string (list ConnectedProvider)) (x : links) : links :=
  mkLinks (k_tickets x) v (k_table x) (k_store x) (k_changes x) (k_now x).
Definition set_k_table (v : T) (x : links) : links :=
  mkLinks (k_tickets x) (k_open x) v (k_store x) (k_changes x) (k_now x).
Definition set_k_store (v : S) (x : links) : links :=
  mkLinks (k_tickets x) (k_open x) (k_table x) v (k_changes x) (k_now x).

(** [self._funduq._notify_change(self.changed())]. *)
Definition notify (x : links) : links :=
  mkLinks (k_tickets x) (k_open x) (k_table x) (k_store x) (k_changes x + 1) (k_now x).

Definition open_links (key : string) (st : links) : list ConnectedProvider := default [] (k_open st !! key).

Definition require_open (c : ConnectedProvider) (st : links) : py () :=
  guard_or (InvalidRegistration "not on an open link") (listed c (open_links (public_key c) st)) (Ok ()).

Section open.
Context (identity : private_key).

Definition add_link (c : ConnectedProvider) (st : links) : links :=
  set_k_open (<[public_key c := open_links (public_key c) st ++ [c]]> (k_open st)) st.

(** [open] once there is a proof, or none. *)
Definition admit_link (link : Link) (ticket provider_nonce proof : option string) (st : links)
    : py string * links :=
  let c := connection link in
  match proof with
  | None => (Err (InvalidRegistration "no connect proof"), st)
  | Some proof =>
      match ticket with
      | None => (Err (InvalidRegistration "no live ticket"), st)
      | Some ticket =>
          let '(claimed, m) := _claim_ticket (k_now st) ticket (public_key c) (k_tickets st) in
          let st := set_k_tickets m st in
          if claimed then
            let nonce := default "" provider_nonce in
            let payload := Payloads.provider_connect_payload (public_hex identity) ticket nonce in
            match Identity.verify_signature (public_key c) (JStr proof) payload with
            | Ok true =>
                let answer := sign_hex identity (Payloads.funduq_connect_payload ticket nonce) in
                match confirm_connect link with
                | Some confirm =>
                    match confirm ticket nonce answer with
                    | Ok _ => (Ok answer, add_link c st)
                    | Err e => (Err e, st)
                    end
                | None => (Ok answer, add_link c st)
                end
            | Ok false => (Err (InvalidRegistration "invalid connect proof"), st)
            | Err e => (Err e, st)
            end
          else (Err (InvalidRegistration "no live ticket"), st)
      end
  end.

(** [new_ticket] and [new_nonce] are what [secrets.token_hex] returns. *)
Definition open (new_ticket new_nonce : string) (link : Link) (ticket provider_nonce proof : option string)
    (st : links) : py string * links :=
  match proof, sign_connect link with
  | None, Some signer =>
      let st := set_k_tickets (issue_ticket (k_now st) new_ticket (public_key (connection link)) (k_tickets st)) st in
      match signer (public_hex identity) new_ticket new_nonce with
      | Ok proof => admit_link link (Some new_ticket) (Some new_nonce) (Some proof) st
      | Err e => (Err e, st)
      end
  | _, _ => admit_link link ticket provider_nonce proof st
  end.
End open.

(** ** Serving names *)

Definition ref (c : ConnectedProvider) (name : string) : AgentRef := mkRef (public_key c) name.

(** The refs of [key] that [c] serves. *)
Definition attached (key : string) (c : ConnectedProvider) (st : links) : list AgentRef :=
  filter (fun r => is_conn (live r (k_table st)) (Some c) = true) (served_by key (k_table st)).

(** [if refs: self.withdraw(refs)]. *)
Definition withdraw_any (refs : list AgentRef) (st : links) : links :=
  match refs with [] => st | _ => set_k_table (withdraw refs (k_table st)) st end.

(** [register] between its two transactions. *)
Definition serve (c : ConnectedProvider) (registered : list string) (st : links) : links :=
  let keep := map (ref c) registered in
  let withdrawn := filter (fun r => r ∉ keep) (attached (public_key c) c st) in
  let st := withdraw_any withdrawn st in
  set_k_table (write_live (onto c keep) (k_table st)) st.

Open Scope comp_scope.

Definition raise {A} (e : exn) : comp links (py A) := ret (Err e).

(** One committed transaction, its awaits on both sides; a raising one is rolled back. *)
Definition transact {A B} (f : links -> py (A * links)) (next : A -> comp links (py B)) : comp links (py B) :=
  suspend ;;
  fun st => match f st with
            | Ok (a, st') => (suspend ;; next a) st'
            | Err e => (st, Done (Err e))
            end.

Definition register (touch : Z -> string -> list string -> S -> S) (c : ConnectedProvider) (names : list string)
    (store : Z -> S -> py (list string * S)) : comp links (py (list string)) := fun st =>
  match require_open c st with
  | Err e => (st, Done (Err e))
  | Ok _ =>
      match names with
      | [] => (st, Done (Err (ValueError "nothing to serve")))
      | _ =>
          (transact (fun st => '(registered, s) ← store (k_now st) (k_store st); Ok (registered, set_k_store s st))
            (fun registered =>
              modify (serve c registered) ;;
              transact (fun st => Ok ((), set_k_store (touch (k_now st) (public_key c) registered (k_store st)) st))
                (fun _ => modify notify ;; ret (Ok registered)))) st
      end
  end.

Definition take_offline (c : ConnectedProvider) (name : string) (st : links) : links :=
  if is_conn (live (ref c name) (k_table st)) (Some c)
  then set_k_table (withdraw [ref c name] (k_table st)) st else st.

(** The key's links without [c]. *)
Definition close_link (key : string) (c : ConnectedProvider) (st : links) : links :=
  if listed c (open_links key st) then
    match remove_conn c (open_links key st) with
    | [] => set_k_open (delete key (k_open st)) st
    | l => set_k_open (<[key := l]> (k_open st)) st
    end
  else st.

Definition detach (key : string) (c : ConnectedProvider) (st : links) : links :=
  let st := close_link key c st in
  match attached key c st with
  | [] => st
  | refs => notify (set_k_table (withdraw refs (k_table st)) st)
  end.

Definition detach_all (key : string) (st : links) : links :=
  let st := set_k_open (delete key (k_open st)) st in
  match served_by key (k_table st) with
  | [] => st
  | refs => notify (set_k_table (withdraw refs (k_table st)) st)
  end.

End roster.
Arguments links : clear implicits.

(** ** The SDK's in-process link *)
Section sdk.
Context `{Crypto}.

(** [ProviderIdentity.sign_connect]. *)
Definition identity_sign_connect (key : private_key) (funduq_public_key funduq_nonce provider_nonce : string) : string :=
  sign_hex key (Payloads.provider_connect_payload funduq_public_key funduq_nonce provider_nonce).

(** [InProcessLink.sign_connect], pinned to [pin]. *)
Definition link_sign_connect (key : private_key) (pin : option string)
    (funduq_public_key funduq_nonce provider_nonce : string) : py string :=
  if match pin with Some p => bool_decide (funduq_public_key <> p) | None => false end
  then Err WrongFunduq
  else Ok (identity_sign_connect key funduq_public_key funduq_nonce provider_nonce).

Definition link_confirm_connect (pin : option string) (funduq_nonce provider_nonce answer : string) : py () :=
  match pin with
  | None => Ok ()
  | Some p =>
      verified ← Identity.verify_signature p (JStr answer) (Payloads.funduq_connect_payload funduq_nonce provider_nonce);
      guard_or WrongFunduq verified (Ok ())
  end.

(** [pin] is the link's [funduq_public_key or funduq.identity_public_key]. *)
Definition InProcessLink (key : private_key) (pin : option string) (id : nat) (capacity : option Z) : Link :=
  mkLink (mkConn id (public_hex key) capacity) (Some (link_sign_connect key pin)) (Some (link_confirm_connect pin)).
End sdk.

End Roster.
