(* ===== verification/RosterFacts.v ===== *)
(** * What opening a link and serving from it guarantee

    Tickets are spent once; a link opens only for the key that signed its
    ticket, towards the funduq it is pinned to; a published name is served by
    the connection that published it until it leaves. *)

From S2P Require Import Prelude Errors Json Crypto Payloads Identity Models Coop BrokerState LiveRoster Roster.

Module RosterFacts.
Import Broker LiveRoster Roster.

(** ** Tickets *)

Inductive ticket_call : Type :=
| Issue (now : Z) (ticket public_key : string)
| Claim (now : Z) (ticket public_key : string).

(** How often [t] is claimed with success in a run of calls. *)
Fixpoint claimed (t : string) (calls : list ticket_call) (m : tickets) : nat :=
  match calls with
  | [] => 0
  | Issue now x k :: calls => claimed t calls (issue_ticket now x k m)
  | Claim now x k :: calls =>
      let '(ok, m') := _claim_ticket now x k m in
      (if ok && bool_decide (x = t) then 1 else 0) + claimed t calls m'
  end.

Fixpoint issued (t : string) (calls : list ticket_call) : nat :=
  match calls with
  | [] => 0
  | Issue _ x _ :: calls => (if bool_decide (x = t) then 1 else 0) + issued t calls
  | Claim _ _ _ :: calls => issued t calls
  end.

Definition held_ticket (t : string) (m : tickets) : nat := match m !! t with Some _ => 1 | None => 0 end.

Lemma held_issue now x k t m : held_ticket t (issue_ticket now x k m) <= (if bool_decide (x = t) then 1 else held_ticket t m).
Proof.
  unfold held_ticket, issue_ticket. rewrite lookup_insert. case_decide; case_bool_decide; try done.
  destruct (filter _ m !! t) eqn:E; [|lia]. apply map_lookup_filter_Some in E as [-> _]. done.
Qed.

Lemma claim_ok now x k m m' : _claim_ticket now x k m = (true, m') ->
  exists at_, m !! x = Some (k, at_) /\ (now - at_ <= window)%Z /\ m' = delete x m.
Proof.
  unfold _claim_ticket. destruct (m !! x) as [[k' at_]|]; [|done]. cbn.
  case_bool_decide as Hk; [done|]. destruct (Z.ltb_spec window (now - at_)); [done|].
  intros [= <-]. exists at_. split_and!; [congruence|lia|done].
Qed.

Lemma claim_no now x k m m' t : _claim_ticket now x k m = (false, m') -> held_ticket t m' <= held_ticket t m.
Proof.
  unfold _claim_ticket, held_ticket. intros Hc. cases; rewrite ?lookup_delete in *; cases; lia.
Qed.

Lemma claimed_bound t calls m : claimed t calls m <= held_ticket t m + issued t calls.
Proof.
  revert m. induction calls as [|[now x k|now x k] calls IH]; intros m; cbn [claimed]; [lia| |].
  - specialize (IH (issue_ticket now x k m)). pose proof (held_issue now x k t m) as Hh.
    cbn [issued]. case_bool_decide; lia.
  - destruct (_claim_ticket now x k m) as [ok m'] eqn:Hc. specialize (IH m').
    cbn [issued]. destruct ok; cbn [andb]; [|pose proof (claim_no _ _ _ _ _ t Hc); lia].
    apply claim_ok in Hc as (at_&Hx&_&->). unfold held_ticket in *. rewrite lookup_delete in IH.
    case_bool_decide as Hxt; [subst x; rewrite decide_True in IH by done; rewrite Hx; lia|].
    rewrite decide_False in IH by done. lia.
Qed.

(** A ticket opens at most one link: however issues and claims interleave,
    at whatever times, a ticket is claimed with success at most as often as it
    was issued, and [secrets.token_hex] issues each once. *)
Theorem tickets_are_spent_once t calls : claimed t calls ∅ <= issued t calls.
Proof. exact (claimed_bound t calls ∅). Qed.

(** ** Opening *)

Section facts.
Context `{Crypto} {T S : Type} `{HT : LiveTableLaws T}.
Notation links := (links T S).
Implicit Types st : links.

Lemma listed_app c l l' : listed c (l ++ l') = listed c l || listed c l'.
Proof. unfold listed. apply existsb_app. Qed.

Lemma listed_self c : listed c [c] = true.
Proof. cbn. by rewrite Nat.eqb_refl. Qed.

Lemma require_open_ok c st : require_open c st = Ok () <-> listed c (open_links (public_key c) st) = true.
Proof. unfold require_open. destruct (listed _ _); naive_solver. Qed.

Lemma add_link_open c st : require_open c (add_link c st) = Ok ().
Proof.
  apply require_open_ok. unfold add_link, open_links at 1. cbn [k_open set_k_open]. rewrite lookup_insert_eq.
  cbn [default from_option id]. rewrite listed_app, listed_self. apply orb_true_r.
Qed.

(** A link was opened on a proof over a live ticket. *)
Definition proved identity (c : ConnectedProvider) (answer : string) st st' : Prop :=
  exists ticket nonce proof at_,
    k_tickets st !! ticket = Some (public_key c, at_) /\ (k_now st - at_ <= window)%Z /\
    sig_verifies (public_key c) proof (Payloads.provider_connect_payload (public_hex identity) ticket nonce) = true /\
    answer = sign_hex identity (Payloads.funduq_connect_payload ticket nonce) /\
    st' = add_link c (set_k_tickets (delete ticket (k_tickets st)) st).

Lemma admit_link_ok identity link ticket nonce proof st answer st' :
  admit_link identity link ticket nonce proof st = (Ok answer, st') -> proved identity (connection link) answer st st'.
Proof.
  unfold admit_link. destruct proof as [proof|]; [|done]. destruct ticket as [ticket|]; [|done].
  destruct (_claim_ticket _ _ _ _) as [[] m] eqn:Hc; [|done]. apply claim_ok in Hc as (at_&Hm&Hw&->). cbn.
  destruct (sig_verifies _ _ _) eqn:Hs; [|done]. intros Hok. exists ticket, (default "" nonce), proof, at_.
  destruct (confirm_connect link) as [confirm|]; [destruct (confirm _ _ _); [|done]|]; by injection Hok as <- <-.
Qed.

(** C27. A link opens only on a proof: when [open] returns, its ticket had been
    issued to this key at most 60 seconds ago, the proof is a signature by
    this key over this funduq's own key and that ticket, the ticket is gone,
    the answer is funduq's signature, and the connection is on an open link. *)
Theorem open_needs_a_proof identity new_ticket new_nonce link ticket nonce proof st answer st' :
  open identity new_ticket new_nonce link ticket nonce proof st = (Ok answer, st') ->
  exists st0 used n p at_,
    (st0 = st \/ st0 = set_k_tickets (issue_ticket (k_now st) new_ticket (public_key (connection link)) (k_tickets st)) st) /\
    k_tickets st0 !! used = Some (public_key (connection link), at_) /\ (k_now st - at_ <= window)%Z /\
    sig_verifies (public_key (connection link)) p (Payloads.provider_connect_payload (public_hex identity) used n) = true /\
    answer = sign_hex identity (Payloads.funduq_connect_payload used n) /\
    k_tickets st' !! used = None /\ require_open (connection link) st' = Ok () /\ k_table st' = k_table st.
Proof.
  intros Ho. unfold open in Ho.
  assert (exists st0, (st0 = st \/ st0 = set_k_tickets (issue_ticket (k_now st) new_ticket (public_key (connection link)) (k_tickets st)) st)
    /\ proved identity (connection link) answer st0 st') as (st0&Hst0&used&n&p&at_&Ht&Hw&Hs&Ha&->).
  { destruct proof as [proof|]; [exists st; split; [by left|by eapply admit_link_ok]|].
    destruct (sign_connect link) as [signer|]; [|exists st; split; [by left|by eapply admit_link_ok]].
    destruct (signer _ _ _); [|done]. eexists; split; [by right|by eapply admit_link_ok]. }
  exists st0, used, n, p, at_. cbn. rewrite lookup_delete_eq. rewrite add_link_open.
  destruct Hst0 as [->| ->]; split_and!; auto.
Qed.

Lemma issue_then_claim now x k m : _claim_ticket now x k (issue_ticket now x k m) = (true, delete x (issue_ticket now x k m)).
Proof.
  unfold _claim_ticket. unfold issue_ticket at 1. rewrite lookup_insert_eq. cbn.
  rewrite bool_decide_eq_false_2 by naive_solver. destruct (Z.ltb_spec window (now - now)); [|done].
  unfold window, Identity.SIGNATURE_FRESHNESS_WINDOW_SECONDS, Identity.second in *. lia.
Qed.

Context `{!CryptoLaws}.

(** The SDK's link and funduq's door agree: an in-process link opens
    exactly when its pin is this funduq's key; pinned to another it raises
    [WrongFunduq] before anything is signed, and no link is opened. *)
Theorem pinned_link_opens_its_own_funduq identity key pin id capacity new_ticket new_nonce st :
  let link := InProcessLink key (Some pin) id capacity in
  let '(r, st') := open identity new_ticket new_nonce link None None None st in
  if decide (pin = public_hex identity)
  then is_ok r = true /\ require_open (connection link) st' = Ok ()
  else r = Err WrongFunduq /\ k_open st' = k_open st.
Proof.
  cbn. unfold link_sign_connect. destruct (decide (pin = public_hex identity)) as [->|Hne].
  - rewrite bool_decide_eq_false_2 by naive_solver. cbn. rewrite issue_then_claim.
    unfold identity_sign_connect. rewrite sign_verifies. cbn. rewrite sign_verifies. cbn. split; [done|]. apply add_link_open.
  - rewrite bool_decide_eq_true_2 by congruence. done.
Qed.

(** ** Serving and leaving *)

Lemma own_ref c names : own (map (ref c) names) c.
Proof. intros r (n&->&_)%list_elem_of_fmap. done. Qed.

Lemma withdraw_any_ok refs st : table_ok (k_table st) -> table_ok (k_table (withdraw_any refs st)).
Proof. destruct refs; [done|]. apply withdraw_ok. Qed.

Lemma live_withdraw_any refs st r :
  live r (k_table (withdraw_any refs st)) = if bool_decide (r ∈ refs) then None else live r (k_table st).
Proof.
  destruct refs as [|r0 refs]; [by rewrite bool_decide_eq_false_2 by apply not_elem_of_nil|]. apply live_withdraw.
Qed.

Lemma elem_attached key c st r : table_ok (k_table st) ->
  r ∈ attached key c st <-> ref_provider_key r = key /\ is_conn (live r (k_table st)) (Some c) = true.
Proof.
  intros Hok. unfold attached. rewrite list_elem_of_filter, served_by_spec by done.
  split; [tauto|]. intros [? Hl]. split_and!; [done..|]. by destruct (live r (k_table st)).
Qed.

Lemma serve_ok c names st : table_ok (k_table st) -> table_ok (k_table (serve c names st)).
Proof. intros Hok. unfold serve. cbn. apply write_ok; [by apply withdraw_any_ok|apply own_ref]. Qed.

(** The connection's own ref that it serves and did not name again. *)
Definition dropped c names st r : Prop :=
  r ∉ map (ref c) names /\ ref_provider_key r = public_key c /\ is_conn (live r (k_table st)) (Some c) = true.

#[global] Instance dropped_dec c names st r : Decision (dropped c names st r).
Proof. unfold dropped. apply _. Defined.

Lemma serve_live c names st r : table_ok (k_table st) ->
  if bool_decide (r ∈ map (ref c) names) then live r (k_table (serve c names st)) = Some c
  else if bool_decide (dropped c names st r) then live r (k_table (serve c names st)) = None
  else live r (k_table (serve c names st)) = live r (k_table st) \/
    (ref_provider_key r = public_key c /\ is_Some (live r (k_table st)) /\ live r (k_table (serve c names st)) = Some c).
Proof.
  intros Hok. unfold serve. cbn. set (st1 := withdraw_any _ st).
  assert (Hok1 : table_ok (k_table st1)) by by apply withdraw_any_ok.
  case_bool_decide as Hin; [apply live_write_in; [apply own_ref|done]|].
  assert (Hl1 : live r (k_table st1) = if bool_decide (dropped c names st r) then None else live r (k_table st)).
  { unfold st1. rewrite live_withdraw_any. apply (f_equal (fun b : bool => if b then None else _)).
    apply bool_decide_ext. by rewrite list_elem_of_filter, elem_attached. }
  destruct (live_write_out (k_table st1) (map (ref c) names) c r Hok1 (own_ref c names) Hin) as [Hw|(Hs&Hk&Hw)];
    rewrite Hw, ?Hl1; rewrite Hl1 in *; case_bool_decide; auto. by destruct Hs.
Qed.

(** [register] with nothing in between its suspensions. *)
Definition register_alone touch c names store st : links * susp links (py (list string)) :=
  let '(st1, s) := register touch c names store st in run_alone (repeat id 4) s st1.

(** What [register] does on every branch.  Off an open link, with no
    names, or when the database raises, it raises and leaves everything as it
    was.  Otherwise it returns the stored names; each is now served by the
    connection, the connection's other names are offline, any other ref keeps
    its connection or, if its key is the connection's, follows the key; the
    rows are touched and subscribers told once. *)
Theorem register_outcome touch c names store st : table_ok (k_table st) ->
  let '(st', r) := register_alone touch c names store st in
  match require_open c st, names, store (k_now st) (k_store st) with
  | Err e, _, _ => r = Done (Err e) /\ st' = st
  | Ok _, [], _ => r = Done (Err (ValueError "nothing to serve")) /\ st' = st
  | Ok _, _, Err e => r = Done (Err e) /\ st' = st
  | Ok _, _, Ok (registered, s) =>
      r = Done (Ok registered) /\ k_open st' = k_open st /\ k_changes st' = k_changes st + 1 /\
      k_store st' = touch (k_now st) (public_key c) registered s /\
      forall x, if bool_decide (x ∈ map (ref c) registered) then live x (k_table st') = Some c
        else if bool_decide (dropped c registered st x) then live x (k_table st') = None
        else live x (k_table st') = live x (k_table st) \/
          (ref_provider_key x = public_key c /\ is_Some (live x (k_table st)) /\ live x (k_table st') = Some c)
  end.
Proof.
  intros Hok. unfold register_alone, register. destruct (require_open c st) as [[]|e]; [|done].
  destruct names as [|n names]; [done|]. cbn.
  destruct (store (k_now st) (k_store st)) as [[registered s]|e]; [|done]. cbn.
  assert (Hw : forall refs st0, k_open (withdraw_any refs st0) = k_open st0 /\ k_changes (withdraw_any refs st0) = k_changes st0 /\
    k_now (withdraw_any refs st0) = k_now st0 /\ k_store (withdraw_any refs st0) = k_store st0) by by intros [|].
  match goal with |- context [withdraw_any ?l ?x] => destruct (Hw l x) as (Eo&Ec&En&Es) end.
  rewrite Eo, Ec, En, Es. split_and!; [done..|]. intros x. exact (serve_live c registered (set_k_store s st) x Hok).
Qed.

(** ** Leaving *)

Lemma close_link_frame key c st :
  k_table (close_link key c st) = k_table st /\ k_changes (close_link key c st) = k_changes st.
Proof. unfold close_link. by repeat case_match. Qed.

Lemma close_link_open key c st key' : open_links key' (close_link key c st) =
  if bool_decide (key' = key) then remove_conn c (open_links key st) else open_links key' st.
Proof.
  unfold close_link. destruct (listed c (open_links key st)) eqn:Hl.
  - destruct (remove_conn c (open_links key st)) eqn:E; unfold open_links at 1; cbn [k_open set_k_open];
      case_bool_decide; subst; rewrite ?lookup_delete_eq, ?lookup_insert_eq, ?lookup_delete_ne, ?lookup_insert_ne by done; done.
  - case_bool_decide; subst; [|done]. revert Hl. unfold listed. generalize (open_links key st) as l. clear.
    induction l as [|x l IH]; cbn; [done|]. intros [-> ?]%orb_false_iff. f_equal. by apply IH.
Qed.

Lemma detach_live key c st r : table_ok (k_table st) ->
  live r (k_table (detach key c st)) =
  if bool_decide (ref_provider_key r = key /\ is_conn (live r (k_table st)) (Some c) = true) then None else live r (k_table st).
Proof.
  intros Hok. unfold detach. destruct (close_link_frame key c st) as [Et _].
  set (st1 := close_link key c st) in *. assert (Hel := elem_attached key c st1 r). rewrite Et in Hel. specialize (Hel Hok).
  destruct (attached key c st1) as [|r0 refs]; cbn [k_table notify set_k_table]; rewrite Et.
  - rewrite bool_decide_eq_false_2; [done|]. rewrite <- Hel. apply not_elem_of_nil.
  - rewrite live_withdraw. by rewrite (bool_decide_ext _ _ Hel).
Qed.

(** A link that leaves takes exactly its own names offline: after
    [detach], no ref of the key is served by the connection, every other ref
    is served as before, one of its links is gone, and subscribers are told
    exactly when something went offline. *)
Theorem detach_takes_its_names_offline c st : table_ok (k_table st) ->
  let st' := detach (public_key c) c st in
  (forall r, live r (k_table st') =
     if bool_decide (ref_provider_key r = public_key c /\ is_conn (live r (k_table st)) (Some c) = true)
     then None else live r (k_table st)) /\
  (forall key, open_links key st' =
     if bool_decide (key = public_key c) then remove_conn c (open_links key st) else open_links key st) /\
  k_changes st' = k_changes st + (if decide (attached (public_key c) c st = []) then 0 else 1).
Proof.
  intros Hok st'. split_and!.
  - intros r. by apply detach_live.
  - intros key.
    assert (open_links key st' = open_links key (close_link (public_key c) c st)) as -> by (unfold st', detach; by case_match).
    rewrite close_link_open. case_bool_decide; by subst.
  - unfold st', detach. destruct (close_link_frame (public_key c) c st) as [Et Ec].
    assert (attached (public_key c) c (close_link (public_key c) c st) = attached (public_key c) c st) as ->
      by (unfold attached; by rewrite Et).
    destruct (attached (public_key c) c st); cbn; rewrite Ec; case_decide; done || lia.
Qed.

(** ** Served means open *)

(** One uninterrupted step of the roster: [serve] is taken while the link is
    open, which [register] only checked before its transaction. *)
Inductive link_step : relation links :=
| step_open identity x n link ticket nonce proof st :
    link_step st (open identity x n link ticket nonce proof st).2
| step_issue ticket key st : link_step st (set_k_tickets (issue_ticket (k_now st) ticket key (k_tickets st)) st)
| step_serve c names st : require_open c st = Ok () -> link_step st (serve c names st)
| step_touch s st : link_step st (set_k_store s st)
| step_notify st : link_step st (notify st)
| step_take_offline c name st : link_step st (take_offline c name st)
| step_detach c st : link_step st (detach (public_key c) c st)
| step_detach_all key st : link_step st (detach_all key st).

Record served_on_open st : Prop := {
  so_table : table_ok (k_table st);
  so_open r c : live r (k_table st) = Some c -> listed c (open_links (public_key c) st) = true;
}.

Lemma so_same st st' : k_table st' = k_table st ->
  (forall c, listed c (open_links (public_key c) st) = true -> listed c (open_links (public_key c) st') = true) ->
  served_on_open st -> served_on_open st'.
Proof. intros Et Hl [Hok Ho]. split; rewrite ?Et; [done|]. intros r c Hr. eapply Hl, Ho, Hr. Qed.

Lemma listed_remove c x l : Nat.eqb (conn_id x) (conn_id c) = false ->
  listed x (remove_conn c l) = listed x l.
Proof.
  intros Hne. induction l as [|y l IH]; [done|]. change (listed x (y :: l)) with ((conn_id y =? conn_id x) || listed x l).
  cbn [remove_conn is_conn]. destruct (Nat.eqb_spec (conn_id y) (conn_id c)) as [Hy|];
    [|change (listed x (y :: remove_conn c l)) with ((conn_id y =? conn_id x) || listed x (remove_conn c l)); by rewrite IH].
  destruct (Nat.eqb_spec (conn_id y) (conn_id x)) as [Hx|]; [|done]. apply Nat.eqb_neq in Hne. congruence.
Qed.

Lemma withdraw_served refs st : served_on_open st -> served_on_open (set_k_table (withdraw refs (k_table st)) st).
Proof.
  intros [Hok Ho]. split; cbn [k_table set_k_table]; [by apply withdraw_ok|].
  intros r c. rewrite live_withdraw. case_bool_decide; [done|]. apply Ho.
Qed.

Lemma withdraw_any_served refs st : served_on_open st -> served_on_open (withdraw_any refs st).
Proof. destruct refs; [done|]. apply withdraw_served. Qed.

Lemma withdraw_any_links refs st key : open_links key (withdraw_any refs st) = open_links key st.
Proof. by destruct refs. Qed.

Lemma add_link_listed c c' st : listed c' (open_links (public_key c') st) = true ->
  listed c' (open_links (public_key c') (add_link c st)) = true.
Proof.
  intros Hl. unfold add_link, open_links at 1. cbn [k_open set_k_open]. rewrite lookup_insert. case_decide as Hk; [|done].
  cbn [default from_option id]. rewrite listed_app, Hk, Hl. done.
Qed.

Lemma admit_link_served identity link ticket nonce proof st : served_on_open st ->
  served_on_open (admit_link identity link ticket nonce proof st).2.
Proof.
  intros HI. unfold admit_link. destruct proof as [proof|]; [|done]. destruct ticket as [ticket|]; [|done].
  destruct (_claim_ticket _ _ _ _) as [ok m].
  assert (HI' : served_on_open (set_k_tickets m st)) by by apply (so_same st).
  assert (HA : served_on_open (add_link (connection link) (set_k_tickets m st)))
    by (apply (so_same (set_k_tickets m st)); [done|by intros c; apply add_link_listed|done]).
  repeat (case_match; cbn [snd]; try done).
Qed.

Lemma serve_served c names st : require_open c st = Ok () -> served_on_open st -> served_on_open (serve c names st).
Proof.
  intros Hr%require_open_ok HI. pose proof HI as [Hok Ho]. split; [by apply serve_ok|]. intros x c' Hx.
  assert (El : forall key, open_links key (serve c names st) = open_links key st) by (intros key; unfold serve; apply withdraw_any_links).
  rewrite El. pose proof (serve_live c names st x Hok) as Hs.
  case_bool_decide; [congruence|]. case_bool_decide; [congruence|].
  destruct Hs as [Hs|(_&_&Hs)]; [apply (Ho x)|]; congruence.
Qed.

Lemma detach_served c st : served_on_open st -> served_on_open (detach (public_key c) c st).
Proof.
  intros [Hok Ho]. split.
  - unfold detach. destruct (close_link_frame (public_key c) c st) as [Et _].
    destruct (attached _ _ _); cbn [k_table notify set_k_table]; rewrite Et; [done|by apply withdraw_ok].
  - intros r c'. rewrite detach_live by done. case_bool_decide as Hd; [done|]. intros Hr.
    assert (open_links (public_key c') (detach (public_key c) c st) = open_links (public_key c') (close_link (public_key c) c st)) as ->
      by (unfold detach; by case_match).
    rewrite close_link_open. pose proof (Ho _ _ Hr) as Hl. case_bool_decide as Hk; [|done]. rewrite <- Hk, listed_remove; [done|].
    pose proof (live_own _ _ _ Hok Hr) as Hown. rewrite Hr, Hown in Hd. cbn in Hd.
    destruct (conn_id c' =? conn_id c); [tauto|done].
Qed.

Lemma detach_all_served key st : served_on_open st -> served_on_open (detach_all key st).
Proof.
  intros [Hok Ho]. unfold detach_all. set (st0 := set_k_open _ st).
  assert (Hleft : forall r c, live r (k_table st) = Some c -> public_key c <> key -> listed c (open_links (public_key c) st0) = true).
  { intros r c Hr Hk. rewrite <- (Ho r c Hr). unfold st0, open_links at 1. cbn. by rewrite lookup_delete_ne by congruence. }
  assert (Hgone : forall r c, live r (k_table st) = Some c -> public_key c = key -> r ∈ served_by key (k_table st)).
  { intros r c Hr Hk. apply served_by_spec; [done|]. split; [|by eexists]. by rewrite (live_own _ _ _ Hok Hr). }
  change (k_table st0) with (k_table st). destruct (served_by key (k_table st)) as [|r0 refs].
  - split; [done|]. intros r c Hr. apply (Hleft r c Hr). intros Hk. by apply (Hgone _ _ Hr), not_elem_of_nil in Hk.
  - split; cbn [k_table notify set_k_table]; [by apply withdraw_ok|]. intros r c. rewrite live_withdraw.
    case_bool_decide as Hin; [done|]. intros Hr. apply (Hleft r c Hr). intros Hk. by apply Hin, (Hgone _ _ Hr).
Qed.

Lemma open_served identity x n link ticket nonce proof st : served_on_open st ->
  served_on_open (open identity x n link ticket nonce proof st).2.
Proof.
  intros HI. unfold open. destruct proof; [by apply admit_link_served|]. destruct (sign_connect link); [|by apply admit_link_served].
  case_match; [|by apply (so_same st)]. apply admit_link_served. by apply (so_same st).
Qed.

Lemma take_offline_served c name st : served_on_open st -> served_on_open (take_offline c name st).
Proof. intros HI. unfold take_offline. case_match; [by apply withdraw_served|done]. Qed.

(** Only open links serve: over any steps of the roster in which names
    are written while their link is open, every live ref is served by a
    connection on an open link of its own key. *)
Theorem served_links_are_open st st' : served_on_open st -> rtc link_step st st' -> served_on_open st'.
Proof.
  intros HI Hs. induction Hs as [|st1 st2 st3 Hs _ IH]; [done|]. apply IH. clear IH.
  destruct Hs as [identity x n link ticket nonce proof st1|ticket key st1|c names st1 Hr|s st1|st1|c name st1|c st1|key st1].
  - by apply open_served.
  - by apply (so_same st1).
  - by apply serve_served.
  - by apply (so_same st1).
  - by apply (so_same st1).
  - by apply take_offline_served.
  - by apply detach_served.
  - by apply detach_all_served.
Qed.
End facts.

(** ** Instances *)
Module Witness.

Definition alice : ConnectedProvider := mkConn 1 "alice" (Some 2%Z).
Definition bob : ConnectedProvider := mkConn 2 "bob" None.

Notation relay_links := (links LiveRoster.roster ()).
Definition fresh_links : relay_links := mkLinks ∅ ∅ (new_roster ["completions"]) () 0 0.

Definition alice_link : Link := InProcessLink (H := Toy.crypto) "alice" (Some "hub") 1 (Some 2%Z).
Definition opened : relay_links :=
  (open (H := Toy.crypto) "hub" "t1" "n1" alice_link None None None fresh_links).2.

Definition no_touch : Z -> string -> list string -> () -> () := fun _ _ _ s => s.
Definition keep_names (names : list string) : Z -> () -> py (list string * ()) := fun _ s => Ok (names, s).

(** A detach between [register]'s check and its write leaves the names served
    by a link that is closed. *)
Theorem register_can_outlive_its_link :
  let '(st1, s) := register no_touch alice ["writer"] (keep_names ["writer"]) opened in
  let '(st', r) := run_alone [id; detach "alice" alice; id; id] s st1 in
  require_open alice opened = Ok () /\ r = Done (Ok ["writer"]) /\
  live (mkRef "alice" "writer") (k_table st') = Some alice /\
  require_open alice st' = Err (InvalidRegistration "not on an open link").
Proof. vm_compute. by split_and!. Qed.

Lemma relay_links_ok : table_ok (k_table fresh_links).
Proof. by intros ref c. Qed.

Lemma open_needs_a_proof_witness :
  exists r, open (H := Toy.crypto) "hub" "t1" "n1" alice_link None None None fresh_links = r /\
    exists st0 used n p at_,
      (st0 = fresh_links \/ st0 = set_k_tickets (issue_ticket (k_now fresh_links) "t1" (public_key (connection alice_link)) (k_tickets fresh_links)) fresh_links) /\
      k_tickets st0 !! used = Some (public_key (connection alice_link), at_) /\ (k_now fresh_links - at_ <= window)%Z /\
      sig_verifies (Crypto := Toy.crypto) (public_key (connection alice_link)) p (Payloads.provider_connect_payload (public_hex (Crypto := Toy.crypto) "hub") used n) = true /\
      "hubfunduq-connect-funduq:t1:n1" = sign_hex (Crypto := Toy.crypto) "hub" (Payloads.funduq_connect_payload used n) /\
      k_tickets r.2 !! used = None /\ require_open (connection alice_link) r.2 = Ok () /\ k_table r.2 = k_table fresh_links.
Proof.
  eexists. split; [reflexivity|].
  exact (open_needs_a_proof (H := Toy.crypto) "hub" "t1" "n1" alice_link None None None fresh_links
           "hubfunduq-connect-funduq:t1:n1" opened ltac:(vm_compute; reflexivity)).
Defined.

Lemma pinned_link_opens_its_own_funduq_witness :
  let '(r, st') := open (H := Toy.crypto) "hub" "t1" "n1" alice_link None None None fresh_links in
  is_ok r = true /\ require_open (connection alice_link) st' = Ok ().
Proof.
  pose proof (pinned_link_opens_its_own_funduq (H := Toy.crypto) (T := LiveRoster.roster) (S := ()) (H1 := Toy.laws) "hub" "alice" "hub" 1 (Some 2%Z) "t1" "n1" fresh_links) as Hp.
  unfold alice_link. cbv zeta in Hp. destruct (open _ _ _ _ _ _) as [r st']. by rewrite decide_True in Hp.
Defined.

Lemma register_outcome_witness :
  (register_alone no_touch alice ["writer"] (keep_names ["writer"]) opened).2 = Done (Ok ["writer"]).
Proof.
  pose proof (register_outcome (T := LiveRoster.roster) (S := ()) no_touch alice ["writer"] (keep_names ["writer"]) opened relay_links_ok) as Ho.
  destruct (register_alone _ _ _ _ _) as [st' r]. by destruct Ho.
Defined.

Lemma detach_takes_its_names_offline_witness : k_changes (detach "alice" alice opened) = 0.
Proof.
  destruct (detach_takes_its_names_offline (T := LiveRoster.roster) (S := ()) alice opened relay_links_ok) as (_&_&Hc).
  exact (eq_trans Hc ltac:(vm_compute; reflexivity)).
Defined.

Lemma served_links_are_open_witness :
  served_on_open (T := LiveRoster.roster) (S := ()) (serve alice ["writer"] opened).
Proof.
  apply (served_links_are_open (H := Toy.crypto) opened).
  - split; [exact relay_links_ok|by intros r c].
  - apply rtc_once, step_serve. vm_compute. reflexivity.
Defined.

End Witness.
End RosterFacts.
