(* ===== verification/Kyok.v ===== *)
(** * KYOK: tokens, opt-ins, and what funduq adds to a run's properties
    (funduq/kyok.py, funduq/props.py, and [FunduqProps] of
    funduq_contract/shapes.py)

    [TokenCodec] is the library code a token is made with: base64 of a JSON
    dump, and HMAC-SHA256.  pydantic's validation of the two small models is
    written out from their declared fields. *)

From S2P Require Import Prelude Errors Json Crypto Models BrokerState LiveRoster Handlers.

Module Kyok.

Definition OBSERVED_METADATA_KEY : string := "funduq".
Definition RESERVED_METADATA_KEYS : list string := [OBSERVED_METADATA_KEY].

(** [isinstance(j, str)]. *)
Definition is_str (j : json) : option string := match j with JStr s => Some s | _ => None end.

(** ** Tokens *)

Class TokenCodec : Type := {
  (** base64.urlsafe_b64encode(json.dumps(_).encode()).decode() *)
  encode_body : dict -> string;
  (** json.loads(base64.urlsafe_b64decode(_)); [None] is a ValueError *)
  decode_body : string -> option json;
  (** hmac.new(secret, body, sha256).hexdigest() *)
  hmac_hex : string -> string -> string;
  (** does hmac.compare_digest accept the string: is it ASCII? *)
  ascii_only : string -> bool;
}.

Definition dot : Ascii.ascii := Ascii.Ascii false true true true false true false false.

Class TokenLaws `{TokenCodec} : Prop := {
  decode_encode_body d : decode_body (encode_body d) = Some (JObj d);
  encode_body_free d : free dot (encode_body d) = true;
  hmac_ascii secret body : ascii_only (hmac_hex secret body) = true;
}.

Record KyokToken : Type := mkKyokToken { kt_run_id : string; kt_agent : AgentRef }.

Definition KYOK_TOKEN_TTL_SECONDS : Z := 3600.

(** The clock is in microseconds; [int(time.time())] drops the fraction. *)
Definition second : Z := 1000000.

(** [token.split(".", 1)] into two parts; [None] when there is no dot. *)
Fixpoint split_dot (s : string) : option (string * string) :=
  match s with
  | EmptyString => None
  | String c s' =>
      if Ascii.eqb dot c then Some ("", s')
      else '(a, b) ← split_dot s'; Some (String c a, b)
  end.

Section tokens.
Context `{TokenCodec}.

Definition token_claims (now : Z) (run_id : string) (agent : AgentRef) : dict :=
  [("runId", JStr run_id); ("providerKey", JStr (ref_provider_key agent));
   ("agentName", JStr (ref_name agent)); ("exp", JNum (now / second + KYOK_TOKEN_TTL_SECONDS))].

Definition issue_kyok_token (now : Z) (run_id : string) (agent : AgentRef) (signing_secret : string) : string :=
  let body := encode_body (token_claims now run_id agent) in
  body +:+ String dot (hmac_hex signing_secret body).

(** [payload.get("exp", 0) < time.time()]: a number, or [TypeError]. *)
Definition expired (now : Z) (payload : dict) : py bool :=
  match get_or "exp" (JNum 0) payload with
  | JNum e => Ok (e * second <? now)%Z
  | JBool b => Ok ((if b then second else 0) <? now)%Z
  | _ => Err TypeError
  end.

Definition verify_kyok_token (now : Z) (token signing_secret : string) : py (option KyokToken) :=
  match split_dot token with
  | None => Ok None
  | Some (body, signature) =>
      if ascii_only signature then
        if String.eqb (hmac_hex signing_secret body) signature then
          match decode_body body with
          | None => Ok None
          | Some payload =>
              payload ← as_dict payload;
              late ← expired now payload;
              match late, is_str (get "runId" payload), is_str (get "providerKey" payload),
                    is_str (get "agentName" payload) with
              | false, Some run_id, Some provider_key, Some agent_name =>
                  Ok (Some (mkKyokToken run_id (mkRef provider_key agent_name)))
              | _, _, _, _ => Ok None
              end
          end
        else Ok None
      else Err TypeError
  end.
End tokens.

(** ** Opt-ins *)

Record KyokOptIn : Type := mkOptIn { oi_llm_provider : option LlmRef; oi_context : json }.

(** A field under its alias or its own name, the alias first. *)
Definition field (alias name : string) (d : dict) : json :=
  match aget alias d with Some v => v | None => get name d end.

(** [LlmRef | None]: outer [None] is a ValidationError. *)
Definition valid_ref (j : json) : option (option LlmRef) :=
  match j with
  | JNull => Some None
  | JObj d => k ← is_str (get "provider_key" d); n ← is_str (get "name" d); Some (Some (mkRef k n))
  | _ => None
  end.

Definition parse_kyok_opt_in (metadata : dict) : option KyokOptIn :=
  match get "kyok" metadata with
  | JObj raw =>
      let raw := match get "llmProvider" raw with
                 | JObj target =>
                     aset "llmProvider" (JObj [("provider_key", get "providerKey" target); ("name", get "name" target)]) raw
                 | _ => raw
                 end in
      r ← valid_ref (field "llmProvider" "llm_provider" raw);
      Some (mkOptIn r (get "context" raw))
  | _ => None
  end.

(** ** [FunduqProps] *)

Record FunduqProps : Type := mkProps {
  fp_kyok : option string;
  fp_addressed_run_id : option string;
  fp_actor_chain : option (list string);
}.

Definition no_props : FunduqProps := mkProps None None None.

(** Which key a field was read from. *)
Definition used_key (alias name : string) (d : dict) : string :=
  match aget alias d with Some _ => alias | None => name end.

Definition valid_kyok (j : json) : option (option string) :=
  match j with
  | JNull => Some None
  | JObj d => t ← is_str (get "token" d);
              if forallb (fun kv => String.eqb kv.1 "token") d then Some (Some t) else None
  | _ => None
  end.

Definition valid_str (j : json) : option (option string) :=
  match j with JNull => Some None | JStr s => Some (Some s) | _ => None end.

Definition valid_chain (j : json) : option (option (list string)) :=
  match j with JNull => Some None | JList l => Some <$> mapM is_str l | _ => None end.

(** [model_validate]: every field valid and no other key. *)
Definition validate_props (d : dict) : option FunduqProps :=
  k ← valid_kyok (get "kyok" d);
  a ← valid_str (field "addressedRunId" "addressed_run_id" d);
  c ← valid_chain (field "actorChain" "actor_chain" d);
  let known := ["kyok"; used_key "addressedRunId" "addressed_run_id" d; used_key "actorChain" "actor_chain" d] in
  if forallb (fun kv => bool_decide (kv.1 ∈ known)) d then Some (mkProps k a c) else None.

Definition props_of (forwarded_props : json) : FunduqProps :=
  match forwarded_props with
  | JObj bag =>
      match get OBSERVED_METADATA_KEY bag with
      | JObj ours => default no_props (validate_props ours)
      | _ => no_props
      end
  | _ => no_props
  end.

(** [model_dump(by_alias=True, exclude_none=True)]. *)
Definition dump_props (p : FunduqProps) : dict :=
  match fp_kyok p with Some t => [("kyok", JObj [("token", JStr t)])] | None => [] end ++
  match fp_addressed_run_id p with Some a => [("addressedRunId", JStr a)] | None => [] end ++
  match fp_actor_chain p with Some c => [("actorChain", JList (map JStr c))] | None => [] end.

(** [metadata] for a status write: the fields that are not None. *)
Definition observed (fields : dict) : dict :=
  [(OBSERVED_METADATA_KEY, JObj (filter (fun kv => kv.2 <> JNull) fields))].

(** The caller's bag without funduq's key. *)
Definition without_reserved (d : dict) : dict := filter (fun kv => kv.1 <> OBSERVED_METADATA_KEY) d.

Section props.
Context `{TokenCodec}.

Definition kyok_forwarded_props := issue_kyok_token.

Definition our_props (now : Z) (signing_secret run_id : string) (agent : AgentRef) (kyok_enabled : bool)
    (actor_chain : option (list string)) (addressed_run_id : option string) : FunduqProps :=
  mkProps (if kyok_enabled then Some (kyok_forwarded_props now run_id agent signing_secret) else None)
    addressed_run_id (match actor_chain with Some (_ :: _) => actor_chain | _ => None end).

Definition build_forwarded_props (now : Z) (signing_secret run_id : string) (agent : AgentRef) (kyok_enabled : bool)
    (caller_forwarded_props : json) (actor_chain : option (list string)) (addressed_run_id : option string) : json :=
  let ours := dump_props (our_props now signing_secret run_id agent kyok_enabled actor_chain addressed_run_id) in
  match caller_forwarded_props, ours with
  | JObj theirs, [] => JObj (without_reserved theirs)
  | JObj theirs, _ => JObj (aset OBSERVED_METADATA_KEY (JObj ours) (without_reserved theirs))
  | _, [] => caller_forwarded_props
  | _, _ => JObj [(OBSERVED_METADATA_KEY, JObj ours)]
  end.
End props.

Definition read_kyok_forwarded_props (forwarded_props : json) : option string := fp_kyok (props_of forwarded_props).

(** ** The relay ([KyokRelay]): bindings, and the table of serving links *)

Record relay : Type := mkRelay {
  k_bindings : gmap string Handlers.KyokBinding;
  k_live : LiveRoster.roster;
}.

Definition new_relay : relay := mkRelay ∅ (LiveRoster.new_roster ["completions"; "refused"; "failed"]).

Definition bind_run (run_id : string) (b : Handlers.KyokBinding) (r : relay) : relay :=
  mkRelay (<[run_id := b]> (k_bindings r)) (k_live r).

Definition binding_for (run_id : string) (r : relay) : option Handlers.KyokBinding := k_bindings r !! run_id.

Definition bound_runs (ref : LlmRef) (r : relay) : nat :=
  size (filter (fun kv => Handlers.kb_llm_provider kv.2 = ref) (k_bindings r)).

Definition note_outcome (public_key outcome : string) (r : relay) : py relay :=
  l ← LiveRoster.note public_key outcome (k_live r); Ok (mkRelay (k_bindings r) l).

(** ** Lemmas *)

Lemma aget_filter_ne {V} k (d : list (string * V)) k' : k <> k' -> aget k (filter (fun kv => kv.1 <> k') d) = aget k d.
Proof.
  intros Hne. induction d as [|[k0 v] d IH]; [done|]. rewrite filter_cons. simpl.
  case_decide as H0; simpl; [by rewrite IH|]. rewrite IH. by rewrite decide_False by naive_solver.
Qed.

Lemma aget_filter_eq {V} (d : list (string * V)) k : aget k (filter (fun kv => kv.1 <> k) d) = None.
Proof.
  induction d as [|[k0 v] d IH]; [done|]. rewrite filter_cons. simpl. case_decide as H0; simpl; [|done].
  by rewrite decide_False by naive_solver.
Qed.

Lemma mapM_is_str l : mapM is_str (map JStr l) = Some l.
Proof. induction l as [|x l IH]; [done|]. cbn in *. by rewrite IH. Qed.

Lemma valid_chain_map l : valid_chain (JList (map JStr l)) = Some (Some l).
Proof. cbn [valid_chain]. by rewrite mapM_is_str. Qed.

Lemma validate_dump p : validate_props (dump_props p) = Some p.
Proof.
  destruct p as [k a c]. unfold validate_props, dump_props. cbn [fp_kyok fp_addressed_run_id fp_actor_chain].
  destruct k, a, c; lazy -[valid_chain map]; rewrite ?valid_chain_map; reflexivity.
Qed.

Lemma dump_nil p : dump_props p = [] -> p = no_props.
Proof. destruct p as [[] [] []]; done. Qed.

Lemma split_dot_app body sig : free dot body = true -> split_dot (body +:+ String dot sig) = Some (body, sig).
Proof.
  induction body as [|c body IH]; intros Hf; [done|]. cbn [free] in Hf. apply andb_prop in Hf as [Hc Hf].
  change (String c body +:+ String dot sig) with (String c (body +:+ String dot sig)). cbn [split_dot].
  destruct (Ascii.eqb dot c); [done|]. by rewrite IH.
Qed.

Lemma split_dot_inv token body sig : split_dot token = Some (body, sig) -> token = body +:+ String dot sig.
Proof.
  revert body. induction token as [|c token IH]; intros body; cbn [split_dot]; [done|].
  destruct (Ascii.eqb_spec dot c) as [<-|Hc]; [by intros [= <- <-]|].
  destruct (split_dot token) as [[a b]|]; [|done]. intros [= <- <-]. by rewrite (IH a).
Qed.

(** ** Properties *)

Section facts.
Context `{TokenCodec}.

(** Under a delivered run's [forwardedProps], the key funduq owns says
    exactly what funduq said, whatever the caller sent under it: the grant,
    the addressed run and the chain are read back, a value the caller forged
    there never is, and every other key of the caller's bag is relayed
    verbatim. *)
Theorem funduq_key_is_funduqs now secret run_id agent kyok_enabled caller chain addressed :
  props_of (build_forwarded_props now secret run_id agent kyok_enabled caller chain addressed) =
    our_props now secret run_id agent kyok_enabled chain addressed /\
  (forall d k, caller = JObj d -> k <> OBSERVED_METADATA_KEY -> exists out,
     build_forwarded_props now secret run_id agent kyok_enabled caller chain addressed = JObj out /\ aget k out = aget k d).
Proof.
  unfold build_forwarded_props. set (p := our_props _ _ _ _ _ _ _). split.
  - assert (Hp : props_of (JObj [(OBSERVED_METADATA_KEY, JObj (dump_props p))]) = p)
      by (unfold props_of, get; cbn [aget]; rewrite decide_True by done; cbn [default from_option id]; by rewrite validate_dump).
    destruct (dump_props p) as [|x l] eqn:E.
    + rewrite (dump_nil _ E). destruct caller as [| | | | |d]; try done. cbn. unfold get, without_reserved. by rewrite aget_filter_eq.
    + destruct caller as [| | | | |d]; try exact Hp. unfold props_of, get. rewrite aget_aset_eq.
      cbn [default from_option id]. by rewrite <- E, validate_dump.
  - intros d k -> Hk. destruct (dump_props p); eexists; (split; [done|]); unfold without_reserved.
    + by apply aget_filter_ne.
    + rewrite aget_aset_ne by done. by apply aget_filter_ne.
Qed.

Lemma opt_in_of_build now secret run_id agent kyok_enabled d chain addressed : exists out,
  build_forwarded_props now secret run_id agent kyok_enabled (JObj d) chain addressed = JObj out /\
  parse_kyok_opt_in out = parse_kyok_opt_in d.
Proof.
  unfold build_forwarded_props, parse_kyok_opt_in, get. destruct (dump_props _); eexists; (split; [done|]);
    unfold without_reserved; rewrite ?aget_aset_ne by done; by rewrite aget_filter_ne.
Qed.

Context `{!TokenLaws}.

(** The grant funduq hands an agent opens exactly that run to that agent
    for an hour: the token verifies at every instant from its issue to 3600
    seconds after the second it was issued in, and not later. *)
Theorem token_lives_an_hour now at_ run_id agent secret :
  verify_kyok_token at_ (issue_kyok_token now run_id agent secret) secret =
  Ok (if ((now / 1000000 + 3600) * 1000000 <? at_)%Z then None else Some (mkKyokToken run_id agent)).
Proof.
  unfold verify_kyok_token, issue_kyok_token. rewrite split_dot_app by apply encode_body_free.
  rewrite hmac_ascii, String.eqb_refl, decode_encode_body. destruct agent as [k n]. set (c := token_claims _ _ _).
  assert (expired at_ c = Ok ((now / 1000000 + 3600) * 1000000 <? at_)%Z) as E1 by reflexivity.
  assert (get "runId" c = JStr run_id) as E2 by reflexivity.
  assert (get "providerKey" c = JStr k) as E3 by reflexivity.
  assert (get "agentName" c = JStr n) as E4 by reflexivity.
  cbn [as_dict mbind result_bind]. rewrite E1. cbn [mbind result_bind]. rewrite E2, E3, E4. cbn [is_str]. by destruct (_ <? _)%Z.
Qed.

Lemma split_dot_free token body sig : split_dot token = Some (body, sig) -> free dot body = true.
Proof.
  revert body. induction token as [|c token IH]; intros body; cbn [split_dot]; [done|].
  destruct (Ascii.eqb dot c) eqn:Hc; [by intros [= <- <-]|].
  destruct (split_dot token) as [[a b]|]; [|done]. intros [= <- <-]. cbn [free]. by rewrite Hc, (IH a).
Qed.

(** A token is accepted exactly when its signature is the secret's digest
    of its body, and the body is an unexpired claim naming the run and the
    agent as strings: nothing about the run or the agent is taken from a body
    the secret did not sign. *)
Theorem tokens_are_signed now token secret t :
  verify_kyok_token now token secret = Ok (Some t) <->
  exists body payload, token = body +:+ String dot (hmac_hex secret body) /\ free dot body = true /\
    decode_body body = Some (JObj payload) /\ expired now payload = Ok false /\
    get "runId" payload = JStr (kt_run_id t) /\ get "providerKey" payload = JStr (ref_provider_key (kt_agent t)) /\
    get "agentName" payload = JStr (ref_name (kt_agent t)).
Proof.
  unfold verify_kyok_token. split.
  - destruct (split_dot token) as [[body sig]|] eqn:Hs; [|done]. pose proof (split_dot_free _ _ _ Hs). apply split_dot_inv in Hs as ->.
    destruct (ascii_only sig); [|done]. destruct (String.eqb_spec (hmac_hex secret body) sig) as [<-|]; [|done].
    destruct (decode_body body) as [j|] eqn:Hd; [|done]. destruct j as [| | | | |payload]; try done. cbn.
    destruct (expired now payload) as [late|] eqn:He; [|done]. cbn. destruct late; [done|].
    destruct (get "runId" payload) eqn:Hr; try done. destruct (get "providerKey" payload) eqn:Hk; try done.
    destruct (get "agentName" payload) eqn:Hn; try done. intros [= <-]. by exists body, payload.
  - intros (body&payload&->&Hf&Hd&He&Hr&Hk&Hn). rewrite split_dot_app by done.
    rewrite hmac_ascii, String.eqb_refl, Hd. cbn. rewrite He. cbn. rewrite Hr, Hk, Hn. cbn. by destruct t as [? []].
Qed.
End facts.

(** ** An instance: the codec prints claims as bits, the digest puts the secret in front *)
Module Witness.

#[export] Instance codec : TokenCodec := {|
  encode_body d := Toy.print d "";
  decode_body s := JObj ∘ fst <$> Toy.parse s;
  hmac_hex secret body := secret +:+ body;
  ascii_only _ := true;
|}.

Lemma bits_free p : free dot (Toy.bits p) = true.
Proof. induction p as [p IH|p IH|]; cbn; [exact IH|exact IH|done]. Qed.

#[export] Instance codec_laws : TokenLaws.
Proof.
  split; [|intros d; apply bits_free|done].
  intros d. cbn. by rewrite Toy.parse_print.
Qed.

Definition writer : AgentRef := mkRef "alice" "writer".
Definition forged : dict := [("funduq", JObj [("kyok", JObj [("token", JStr "mine")])]); ("lang", JStr "fr")].

Lemma funduq_key_is_funduqs_witness :
  read_kyok_forwarded_props (build_forwarded_props 0 "s" "run_1" writer false (JObj forged) None (Some "run_0")) = None /\
  exists out, build_forwarded_props 0 "s" "run_1" writer false (JObj forged) None (Some "run_0") = JObj out /\ aget "lang" out = Some (JStr "fr").
Proof.
  destruct (funduq_key_is_funduqs (H := codec) 0 "s" "run_1" writer false (JObj forged) None (Some "run_0")) as [Hp Hd].
  split; [unfold read_kyok_forwarded_props; by rewrite Hp|]. exact (Hd forged "lang" eq_refl ltac:(discriminate)).
Defined.

Lemma token_lives_an_hour_witness :
  verify_kyok_token 3600000000 (issue_kyok_token 0 "run_1" writer "s") "s" = Ok (Some (mkKyokToken "run_1" writer)).
Proof.
  etrans; [exact (token_lives_an_hour (H := codec) 0 3600000000 "run_1" writer "s")|vm_compute; reflexivity].
Defined.

Lemma tokens_are_signed_witness : exists body payload,
  issue_kyok_token 0 "run_1" writer "s" = body +:+ String dot (hmac_hex "s" body) /\ decode_body body = Some (JObj payload).
Proof.
  assert (verify_kyok_token 1 (issue_kyok_token 0 "run_1" writer "s") "s" = Ok (Some (mkKyokToken "run_1" writer))) as Hv
    by (vm_compute; reflexivity).
  destruct (proj1 (tokens_are_signed _ _ _ _) Hv) as (body&payload&Ht&_&Hd&_). by exists body, payload.
Defined.
End Witness.

End Kyok.
