(* ===== verification/Shapes.v ===== *)
(** * The shapes that cross between a provider and funduq
    (funduq_contract/shapes.py)

    A [Shape] is a declaration; what it means is pydantic's documented
    reading of it ([ConfigDict(frozen, populate_by_name, extra="forbid")]):
    a field is looked up under its alias, then under its name, then its
    default is taken; a key no field used is refused; [model_dump(by_alias)]
    writes every field under its alias.  [validate] and [dump] are that
    reading, by recursion on the declaration; a validated model is the dict
    of its fields by name.

    [Pydantic] is what stays the library's: the lax readings of [bool] and
    [int], and the models of ag_ui and openai that some fields hold. *)

From S2P Require Import Prelude Errors Json Kyok.

Module Shapes.

(** ** Declarations *)

Inductive ftype : Type :=
| TStr | TBool | TInt | TAny
| TDict                                  (* dict[str, Any] *)
| TStrs                                  (* list[str] *)
| TLiteral (allowed : list string)
| TModel (name : string)                 (* a model of another package *)
| TOptional (t : ftype)
| TShape (fs : fields)
with fields : Type :=
| FNil
| FCons (alias name : string) (t : ftype) (default : option json) (fs : fields).

Scheme ftype_mut := Induction for ftype Sort Prop
  with fields_mut := Induction for fields Sort Prop.
Combined Scheme ftype_fields_ind from ftype_mut, fields_mut.

Class Pydantic : Type := {
  lax_bool : json -> option bool;
  lax_int : json -> option Z;
  model_validate : string -> json -> option json;
  model_dump : string -> json -> json;
}.

Class PydanticLaws `{Pydantic} : Prop := {
  lax_bool_of b : lax_bool (JBool b) = Some b;
  lax_int_of z : lax_int (JNum z) = Some z;
  model_again name j v : model_validate name j = Some v -> model_validate name (model_dump name v) = Some v;
}.

(** The aliases, in order. *)
Fixpoint aliases (fs : fields) : list string :=
  match fs with FNil => [] | FCons a _ _ _ fs => a :: aliases fs end.

(** Every key a field may be given under. *)
Fixpoint known (fs : fields) : list string :=
  match fs with FNil => [] | FCons a n _ _ fs => a :: n :: known fs end.

Section shapes.
Context `{Pydantic}.

(** ** Reading *)

(** Alias first, then name. *)
Definition given (alias name : string) (d : dict) : option json :=
  match aget alias d with Some j => Some j | None => aget name d end.

(** The keys the fields were read from. *)
Fixpoint used (fs : fields) (d : dict) : list string :=
  match fs with FNil => [] | FCons a n _ _ fs => Kyok.used_key a n d :: used fs d end.

Definition is_string (j : json) : bool := match j with JStr _ => true | _ => false end.

(** [None] is a ValidationError. *)
Fixpoint validate (t : ftype) (j : json) : option json :=
  match t with
  | TStr => match j with JStr _ => Some j | _ => None end
  | TBool => JBool <$> lax_bool j
  | TInt => JNum <$> lax_int j
  | TAny => Some j
  | TDict => match j with JObj _ => Some j | _ => None end
  | TStrs => match j with JList l => if forallb is_string l then Some j else None | _ => None end
  | TLiteral allowed => match j with JStr s => if bool_decide (s ∈ allowed) then Some j else None | _ => None end
  | TModel name => model_validate name j
  | TOptional t => match j with JNull => Some JNull | _ => validate t j end
  | TShape fs =>
      match j with
      | JObj d => if forallb (fun k => bool_decide (k ∈ used fs d)) (akeys d) then JObj <$> validate_fields fs d else None
      | _ => None
      end
  end
with validate_fields (fs : fields) (d : dict) : option dict :=
  match fs with
  | FNil => Some []
  | FCons a n t default fs =>
      v ← match given a n d with Some j => validate t j | None => default end;
      rest ← validate_fields fs d;
      Some ((n, v) :: rest)
  end.

(** ** Writing *)

(** [model_dump(mode="json", by_alias=True)]. *)
Fixpoint dump (t : ftype) (v : json) : json :=
  match t with
  | TModel name => model_dump name v
  | TOptional t => match v with JNull => JNull | _ => dump t v end
  | TShape fs => match v with JObj d => JObj (dump_fields fs d) | _ => v end
  | _ => v
  end
with dump_fields (fs : fields) (d : dict) : dict :=
  match fs, d with
  | FCons a _ t _ fs, (_, v) :: d => (a, dump t v) :: dump_fields fs d
  | _, _ => []
  end.

(** ** What a field holds *)

Fixpoint typed (t : ftype) (v : json) : Prop :=
  match t with
  | TStr => exists s, v = JStr s
  | TBool => exists b, v = JBool b
  | TInt => exists z, v = JNum z
  | TAny => True
  | TDict => exists d, v = JObj d
  | TStrs => exists l, v = JList (map JStr l)
  | TLiteral allowed => exists s, v = JStr s /\ s ∈ allowed
  | TModel name => exists j, model_validate name j = Some v
  | TOptional t => v = JNull \/ typed t v
  | TShape fs => exists d, v = JObj d /\ typed_fields fs d
  end
with typed_fields (fs : fields) (d : dict) : Prop :=
  match fs, d with
  | FNil, [] => True
  | FCons _ n t _ fs, (k, v) :: d => k = n /\ typed t v /\ typed_fields fs d
  | _, _ => False
  end.

(** A type no value of which is dumped as null. *)
Definition solid (t : ftype) : Prop :=
  match t with TAny | TModel _ | TOptional _ => False | _ => True end.

(** A declaration pydantic reads without ambiguity: aliases differ, defaults
    are of their field's type, and what may be null is not already. *)
Fixpoint declared (t : ftype) : Prop :=
  match t with
  | TOptional t => solid t /\ declared t
  | TShape fs => NoDup (aliases fs) /\ declared_fields fs
  | _ => True
  end
with declared_fields (fs : fields) : Prop :=
  match fs with
  | FNil => True
  | FCons _ _ t default fs =>
      declared t /\ match default with Some v => typed t v | None => True end /\ declared_fields fs
  end.
End shapes.

(** ** The declarations of shapes.py *)

Definition Registration : ftype := TShape
  (FCons "name" "name" TStr None
  (FCons "description" "description" TStr (Some (JStr ""))
  (FCons "agentCardExtra" "agent_card_extra" TDict (Some (JObj []))
  (FCons "metadata" "metadata" TDict (Some (JObj []))
  (FCons "takesInterjections" "takes_interjections" TBool (Some (JBool false)) FNil))))).

Definition DeliveredRun : ftype := TShape
  (FCons "runId" "run_id" TStr None
  (FCons "agentName" "agent_name" TStr None
  (FCons "runInput" "run_input" (TModel "RunAgentInput") None
  (FCons "threadId" "thread_id" (TOptional TStr) (Some JNull)
  (FCons "metadata" "metadata" TDict (Some (JObj [])) FNil))))).

Definition KyokForwardedProps : ftype := TShape (FCons "token" "token" TStr None FNil).

Definition FunduqProps : ftype := TShape
  (FCons "kyok" "kyok" (TOptional KyokForwardedProps) (Some JNull)
  (FCons "addressedRunId" "addressed_run_id" (TOptional TStr) (Some JNull)
  (FCons "actorChain" "actor_chain" (TOptional TStrs) (Some JNull) FNil))).

Definition Refusal : ftype := TShape (FCons "reason" "reason" TStr None FNil).

Definition Connect : ftype := TShape
  (FCons "publicKey" "public_key" TStr None
  (FCons "ticket" "ticket" TStr None
  (FCons "providerNonce" "provider_nonce" TStr None
  (FCons "proof" "proof" TStr None
  (FCons "maxConcurrentRuns" "max_concurrent_runs" (TOptional TInt) (Some JNull) FNil))))).

Definition ConnectOk : ftype := TShape (FCons "proof" "proof" TStr None FNil).
Definition ConnectErr : ftype := TShape (FCons "reason" "reason" TStr None FNil).

Definition Offer : ftype := TShape
  (FCons "id" "id" TStr None (FCons "run" "run" DeliveredRun None FNil)).

Definition Verdict : ftype := TShape
  (FCons "id" "id" TStr None
  (FCons "verdict" "verdict" (TLiteral ["accepted"; "declined"; "refused"]) None
  (FCons "reason" "reason" (TOptional TStr) (Some JNull) FNil))).

Definition Cancel : ftype := TShape (FCons "id" "id" TStr None (FCons "runId" "run_id" TStr None FNil)).
Definition Ack : ftype := TShape (FCons "id" "id" TStr None FNil).

(** Its body is openai's own request, materialized and dumped as plain data. *)
Definition DeliveredCompletion : ftype := TShape
  (FCons "runId" "run_id" TStr None
  (FCons "providerKey" "provider_key" TStr None
  (FCons "agentName" "agent_name" TStr None
  (FCons "body" "body" (TModel "CompletionBody") None
  (FCons "llmName" "llm_name" TStr (Some (JStr ""))
  (FCons "context" "context" TAny (Some JNull)
  (FCons "actorChain" "actor_chain" (TOptional TStrs) (Some JNull) FNil))))))).

Definition Complete : ftype := TShape
  (FCons "id" "id" TStr None (FCons "request" "request" DeliveredCompletion None FNil)).
Definition Chunk : ftype := TShape
  (FCons "id" "id" TStr None (FCons "chunk" "chunk" (TModel "ChatCompletionChunk") None FNil)).
Definition CompletionEnd : ftype := TShape (FCons "id" "id" TStr None FNil).
Definition CompletionFailed : ftype := TShape
  (FCons "id" "id" TStr None (FCons "reason" "reason" TStr None FNil)).

Definition ALL : list ftype :=
  [Registration; DeliveredRun; KyokForwardedProps; FunduqProps; Refusal; Connect; ConnectOk; ConnectErr; Offer; Verdict;
   Cancel; Ack; DeliveredCompletion; Complete; Chunk; CompletionEnd; CompletionFailed].

End Shapes.
