(* ===== verification/ShapesOk.v ===== *)
(** * What the wire shapes guarantee

    A value that was read is of its declared type, survives being written
    and read again, and came from no key the shape does not declare; and
    kyok's own reading of [FunduqProps] is the shape's. *)

From S2P Require Import Prelude Errors Json Kyok Shapes.

Module ShapesOk.
Import Shapes.

Section shapes.
Context `{HP : Pydantic, !PydanticLaws}.

Lemma strings_map l : forallb is_string l = true -> exists s, l = map JStr s.
Proof.
  induction l as [|[] l IH]; cbn; try done; [by exists []|]. intros Hl. destruct (IH Hl) as [r ->]. by exists (s :: r).
Qed.

Lemma strings_of l : forallb is_string (map JStr l) = true.
Proof. by induction l. Qed.

(** ** Reading gives the declared type *)

Lemma validate_typed_both :
  (forall t, declared t -> forall j v, validate t j = Some v -> typed t v) /\
  (forall fs, declared_fields fs -> forall d r, validate_fields fs d = Some r -> typed_fields fs r).
Proof.
  apply ftype_fields_ind; cbn [declared declared_fields validate validate_fields typed typed_fields].
  - intros _ [] v; try done. intros [= <-]. by eexists.
  - intros _ j v (b&_&->)%fmap_Some. by exists b.
  - intros _ j v (z&_&->)%fmap_Some. by exists z.
  - done.
  - intros _ [] v; try done. intros [= <-]. by eexists.
  - intros _ [] v; try done. destruct (forallb _ _) eqn:Hl; [|done]. intros [= <-].
    apply strings_map in Hl as [s ->]. by exists s.
  - intros allowed _ [] v; try done. case_bool_decide; [|done]. intros [= <-]. by eexists.
  - intros name _ j v Hv. by exists j.
  - intros t IH [_ Ht] j v Hv. destruct j; [by injection Hv as <-; left|right; by eapply IH..].
  - intros fs IH [_ Hfs] [] v; try done. destruct (forallb _ _); [|done]. intros (r&Hr&->)%fmap_Some. exists r. split; [done|].
    by eapply IH.
  - intros _ d r [= <-]. done.
  - intros a n t IHt default fs IHfs (Ht&Hd&Hfs) d r (v&Hv&(rest&Hr&[= <-])%bind_Some)%bind_Some.
    split; [done|]. split; [|by eapply IHfs]. destruct (given a n d); [by eapply IHt|]. by subst default.
Qed.

(** ** Writing, then reading *)

(** Each field is found under its alias. *)
Fixpoint holds (fs : fields) (d r : dict) : Prop :=
  match fs, r with
  | FCons a _ t _ fs, (_, v) :: r => aget a d = Some (dump t v) /\ holds fs d r
  | _, _ => True
  end.

Lemma dump_keys fs r : typed_fields fs r -> akeys (dump_fields fs r) = aliases fs.
Proof.
  revert r. induction fs as [|a n t default fs IH]; intros [|[k v] r]; cbn; try done. intros (_&_&Hr). unfold akeys in *. cbn.
  f_equal. by apply IH.
Qed.

Lemma holds_cons fs a j d r : a ∉ aliases fs -> holds fs d r -> holds fs ((a, j) :: d) r.
Proof.
  revert r. induction fs as [|a' n t default fs IH]; intros [|[k v] r]; cbn; try done. rewrite not_elem_of_cons. intros [Hne Hn] [Hg Hh].
  split; [|by apply IH]. by rewrite decide_False by congruence.
Qed.

Lemma dump_holds fs r : NoDup (aliases fs) -> holds fs (dump_fields fs r) r.
Proof.
  revert r. induction fs as [|a n t default fs IH]; intros [|[k v] r]; cbn; try done. intros [Ha Hn]%NoDup_cons.
  split; [by rewrite decide_True|]. by apply holds_cons; [|apply IH].
Qed.

Lemma holds_used fs d r : typed_fields fs r -> holds fs d r -> used fs d = aliases fs.
Proof.
  revert r. induction fs as [|a n t default fs IH]; intros [|[k v] r]; cbn; try done. intros (_&_&Ht) [Hg Hh].
  unfold Kyok.used_key. rewrite Hg. f_equal. by eapply IH.
Qed.

Lemma solid_dump t v : solid t -> typed t v -> dump t v <> JNull.
Proof. destruct t; cbn; try done; intros _ [? Ht]; first [by subst | by destruct Ht as [-> _]]. Qed.

Lemma typed_not_null t v : solid t -> typed t v -> v <> JNull.
Proof. destruct t; cbn; try done; intros _ [? Ht]; first [by subst | by destruct Ht as [-> _]]. Qed.

Lemma validate_dump_both :
  (forall t, declared t -> forall v, typed t v -> validate t (dump t v) = Some v) /\
  (forall fs, declared_fields fs -> forall d r, typed_fields fs r -> holds fs d r -> validate_fields fs d = Some r).
Proof.
  apply ftype_fields_ind; cbn [declared declared_fields validate validate_fields typed typed_fields dump].
  - intros _ v [s ->]. done.
  - intros _ v [b ->]. by rewrite lax_bool_of.
  - intros _ v [z ->]. by rewrite lax_int_of.
  - done.
  - intros _ v [d ->]. done.
  - intros _ v [l ->]. by rewrite strings_of.
  - intros allowed _ v (s&->&Hs). by rewrite bool_decide_eq_true_2.
  - intros name _ v [j Hj]. by eapply model_again.
  - intros t IH [Hs Ht] v [->|Hv]; [done|]. pose proof (typed_not_null _ _ Hs Hv) as Hn. pose proof (solid_dump _ _ Hs Hv) as Hd.
    specialize (IH Ht v Hv). destruct v; try done; by destruct (dump t _).
  - intros fs IH [Hn Hfs] v (r&->&Hr). pose proof (dump_holds fs r Hn) as Hh.
    rewrite (holds_used _ _ _ Hr Hh), (dump_keys _ _ Hr). rewrite (IH Hfs _ _ Hr Hh).
    assert (forallb (fun k => bool_decide (k ∈ aliases fs)) (aliases fs) = true) as ->; [|done].
    apply forallb_forall. intros k Hk%list_elem_of_In. by apply bool_decide_eq_true.
  - by intros _ d [|].
  - intros a n t IHt default fs IHfs (Ht&_&Hfs) d [|[k v] r]; [done|]. intros (->&Hv&Hr) [Hg Hh]. unfold given. rewrite Hg.
    rewrite (IHt Ht v Hv). cbn. by rewrite (IHfs Hfs d r Hr Hh).
Qed.

(** ** The keys that are read *)

Lemma used_known fs d k : k ∈ used fs d -> k ∈ known fs.
Proof.
  induction fs as [|a n t default fs IH]; cbn; [done|]. unfold Kyok.used_key. intros [->|Hk]%elem_of_cons.
  - destruct (aget a d); set_solver.
  - set_solver.
Qed.

Lemma validate_known fs d v : validate (TShape fs) (JObj d) = Some v -> forall k, k ∈ akeys d -> k ∈ known fs.
Proof.
  cbn. destruct (forallb _ _) eqn:Hall; [|done]. intros _ k Hk. rewrite forallb_forall in Hall.
  apply (used_known fs d). apply list_elem_of_In, Hall in Hk. by apply bool_decide_eq_true in Hk.
Qed.

(** ** The declarations *)

Lemma all_declared t : t ∈ ALL -> declared t.
Proof.
  assert (Forall declared ALL) as Hall; [|by rewrite Forall_forall in Hall; apply Hall].
  unfold ALL. rewrite !Forall_cons, Forall_nil. cbn.
  repeat match goal with
    | |- _ /\ _ => split
    | |- NoDup ?l => exact (bool_decide_eq_true_1 (NoDup l) eq_refl)
    | |- exists _, _ => by eexists
    | |- JNull = JNull \/ _ => by left
    | |- True => exact I
    end.
Qed.

(** A shape survives the wire: whatever JSON one of the declared shapes
    was read from, no key of it is undeclared, the value is of its declared
    type, and written out and read again it is the same value. *)
Theorem wire_round_trip fs j v : TShape fs ∈ ALL -> validate (TShape fs) j = Some v ->
  typed (TShape fs) v /\ validate (TShape fs) (dump (TShape fs) v) = Some v /\
  exists d, j = JObj d /\ forall k, k ∈ akeys d -> k ∈ known fs.
Proof.
  intros Ht%all_declared Hv. pose proof (proj1 validate_typed_both _ Ht _ _ Hv) as Hty.
  split; [done|]. split; [by apply validate_dump_both|].
  destruct j as [| | | | |d]; try done. exists d. split; [done|]. by eapply validate_known.
Qed.

(** ** kyok's reading of [FunduqProps] *)

Definition str_or_null (o : option string) : json := match o with Some s => JStr s | None => JNull end.

(** The validated model, field by field. *)
Definition as_fields (p : Kyok.FunduqProps) : dict :=
  [("kyok", match Kyok.fp_kyok p with Some t => JObj [("token", JStr t)] | None => JNull end);
   ("addressed_run_id", str_or_null (Kyok.fp_addressed_run_id p));
   ("actor_chain", match Kyok.fp_actor_chain p with Some c => JList (map JStr c) | None => JNull end)].

Lemma given_get a n d : default JNull (given a n d) = Kyok.field a n d.
Proof. unfold given, Kyok.field, get. by destruct (aget a d). Qed.

(** A field with default null reads as if null were written. *)
Lemma optional_reads t a n d :
  match given a n d with Some j => validate (TOptional t) j | None => Some JNull end = validate (TOptional t) (Kyok.field a n d).
Proof. rewrite <- given_get. by destruct (given a n d). Qed.

Lemma optional_field a n t fs d :
  validate_fields (FCons a n (TOptional t) (Some JNull) fs) d =
  (v ← validate (TOptional t) (Kyok.field a n d); rest ← validate_fields fs d; Some ((n, v) :: rest)).
Proof. rewrite <- optional_reads. reflexivity. Qed.

Lemma validate_shape fs d :
  validate (TShape fs) (JObj d) =
  if forallb (fun k => bool_decide (k ∈ used fs d)) (akeys d) then JObj <$> validate_fields fs d else None.
Proof. reflexivity. Qed.

Lemma valid_str_reads j : validate (TOptional TStr) j = str_or_null <$> Kyok.valid_str j.
Proof. by destruct j. Qed.

Lemma mapM_strings l : mapM Kyok.is_str l = if forallb is_string l then mapM Kyok.is_str l else None.
Proof.
  induction l as [|j l IH]; [done|]. destruct j; cbn [mapM Kyok.is_str forallb is_string andb mbind option_bind]; try done.
  rewrite IH. by destruct (forallb is_string l).
Qed.

Lemma valid_chain_reads j :
  validate (TOptional TStrs) j =
  (fun o => match o with Some c => JList (map JStr c) | None => JNull end) <$> Kyok.valid_chain j.
Proof.
  destruct j as [| | | |l|]; try done. cbn [validate Kyok.valid_chain]. destruct (forallb is_string l) eqn:Hl.
  - apply strings_map in Hl as [s ->]. rewrite Kyok.mapM_is_str. done.
  - rewrite mapM_strings, Hl. done.
Qed.

Lemma field_same n d : Kyok.field n n d = get n d.
Proof. unfold Kyok.field, get. by destruct (aget n d). Qed.

Lemma used_key_same n d : Kyok.used_key n n d = n.
Proof. unfold Kyok.used_key. by destruct (aget n d). Qed.

Lemma one_key n k : bool_decide (k ∈ [n]) = String.eqb k n.
Proof. destruct (String.eqb_spec k n) as [->|Hn]; [apply bool_decide_eq_true|apply bool_decide_eq_false]; set_solver. Qed.

(** A check of the keys is a check of the pairs. *)
Lemma forallb_akeys (f : string -> bool) (d : dict) : forallb f (akeys d) = forallb (fun kv => f kv.1) d.
Proof. induction d as [|[k v] d IH]; [done|]. cbn. by f_equal. Qed.

Lemma valid_kyok_reads j :
  validate (TOptional KyokForwardedProps) j =
  (fun o => match o with Some t => JObj [("token", JStr t)] | None => JNull end) <$> Kyok.valid_kyok j.
Proof.
  destruct j as [| | | | |d]; try done. cbn [validate KyokForwardedProps used validate_fields Kyok.valid_kyok].
  rewrite used_key_same, forallb_akeys.
  assert (forallb (fun kv : string * json => bool_decide (kv.1 ∈ ["token"])) d = forallb (fun kv => String.eqb kv.1 "token") d) as ->.
  { induction d as [|[k v] d IH]; [done|]. cbn [forallb]. by rewrite IH, one_key. }
  unfold given, get. destruct (aget "token" d) as [[]|]; cbn; by destruct (forallb _ d).
Qed.

(** kyok reads funduq's properties as the shape declares them: for
    every dict the two readings refuse together, and what the one accepts is
    the other's value. *)
Theorem props_agree d :
  validate FunduqProps (JObj d) = (fun p => JObj (as_fields p)) <$> Kyok.validate_props d.
Proof.
  unfold FunduqProps, Kyok.validate_props.
  rewrite validate_shape, !optional_field, field_same, valid_kyok_reads, valid_str_reads, valid_chain_reads, forallb_akeys.
  cbn [used]. rewrite used_key_same.
  destruct (Kyok.valid_kyok _); [|by destruct (forallb _ d)]. destruct (Kyok.valid_str _); [|by destruct (forallb _ d)].
  destruct (Kyok.valid_chain _); [|by destruct (forallb _ d)]. by destruct (forallb _ d).
Qed.

End shapes.

Module Witness.

(** Readings as pydantic has them, on the values below: strings of booleans
    and of digits are taken, any object is a foreign model. *)
#[local] Instance pydantic : Pydantic := {
  lax_bool j := match j with JBool b => Some b | JStr "true" => Some true | JStr "false" => Some false | _ => None end;
  lax_int j := match j with JNum z => Some z | JStr "4" => Some 4%Z | _ => None end;
  model_validate _ j := match j with JObj d => Some j | _ => None end;
  model_dump _ j := j;
}.

#[local] Instance laws : PydanticLaws.
Proof. split; [done|done|]. intros name [] v; cbn; try done. by intros [= <-]. Qed.

(** A provider that gives its bound by field name and as a string. *)
Definition connect : json := JObj
  [("publicKey", JStr "P"); ("ticket", JStr "T"); ("provider_nonce", JStr "N"); ("proof", JStr "S"); ("maxConcurrentRuns", JStr "4")].

Definition connect_model : json := JObj
  [("public_key", JStr "P"); ("ticket", JStr "T"); ("provider_nonce", JStr "N"); ("proof", JStr "S"); ("max_concurrent_runs", JNum 4)].

Example connect_reads : validate Connect connect = Some connect_model.
Proof. reflexivity. Qed.

Example verdict_is_closed :
  validate Verdict (JObj [("id", JStr "1"); ("verdict", JStr "perhaps")]) = None /\
  validate Verdict (JObj [("id", JStr "1"); ("verdict", JStr "declined"); ("why", JStr "busy")]) = None /\
  validate Verdict (JObj [("id", JStr "1"); ("verdict", JStr "declined")]) =
    Some (JObj [("id", JStr "1"); ("verdict", JStr "declined"); ("reason", JNull)]).
Proof. repeat split. Qed.

Lemma connect_listed : Connect ∈ ALL.
Proof. unfold ALL. set_solver. Qed.

Lemma wire_round_trip_witness :
  typed Connect connect_model /\ validate Connect (dump Connect connect_model) = Some connect_model /\
  exists d, connect = JObj d /\ forall k, k ∈ akeys d -> k ∈ known
    (FCons "publicKey" "public_key" TStr None (FCons "ticket" "ticket" TStr None
    (FCons "providerNonce" "provider_nonce" TStr None (FCons "proof" "proof" TStr None
    (FCons "maxConcurrentRuns" "max_concurrent_runs" (TOptional TInt) (Some JNull) FNil))))).
Proof. exact (wire_round_trip _ connect connect_model connect_listed connect_reads). Defined.

End Witness.
End ShapesOk.
