(* ===== verification/Doors.v ===== *)
(** * The doors (funduq/doors.py, funduq/agui.py)

    How a request becomes a run: what its bag declares is read and verified,
    the chain gains funduq's hop, the run's row and messages are written in
    one commit, and the run is handed to the broker.

    A database session is a function on the database, committed whole or not
    at all.  The loops over lineages carry fuel ([Repo]), so a door that walks
    one returns an [option]: [None] is fuel running out, which
    [Lineage.lineages_end] excludes. *)

From S2P Require Import Prelude Errors Json Pause Crypto Chain Identity Models Repo BrokerState BrokerOps Dispatch Handlers Kyok.

Module Doors.
Import Broker Repo Kyok.

(** AG-UI's [RunAgentInput]: [model_validate] then [model_dump]; [None] is a ValidationError. *)
Class RunModel : Type := { validated_input : dict -> option dict }.

(** The fields whose values validation passes through. *)
Definition KEPT : list string := ["threadId"; "runId"; "state"; "forwardedProps"; "parentRunId"].

(** The input with every field but its messages as validation left it. *)
Definition dumped_fields (d out : dict) : dict :=
  map (fun kv => (kv.1, if String.eqb kv.1 "messages" then kv.2 else get kv.1 out)) d.

Class RunModelLaws `{RunModel} : Prop := {
  validated_keeps d out k : validated_input d = Some out -> k ∈ KEPT -> aget k out = aget k d;
  validated_lists d out k : validated_input d = Some out -> k ∈ ["tools"; "context"] -> exists l, get k out = JList l;
  (** validating what was dumped dumps the same *)
  validated_again d out : validated_input d = Some out -> validated_input (dumped_fields d out) = Some out;
}.

(** ** Sequencing: exceptions inside, fuel outside *)

Notation loop A := (option (py A)).

Definition attempt {A B} (r : py A) (k : A -> loop B) : loop B :=
  match r with Ok a => k a | Err e => Some (Err e) end.

Definition then_ {A B} (r : loop A) (k : A -> loop B) : loop B :=
  match r with Some r => attempt r k | None => None end.

Declare Scope door_scope.
Delimit Scope door_scope with door.
Notation "x <- r ;; k" := (attempt r (fun x => k)) (at level 100, r at next level, right associativity) : door_scope.
Notation "x <~ r ;; k" := (then_ r (fun x => k)) (at level 100, r at next level, right associativity) : door_scope.
Open Scope door_scope.

(** ** agui.py *)

Definition opt_json (o : option string) : json := match o with Some s => JStr s | None => JNull end.

Definition build_run_agent_input `{RunModel} (thread_id run_id : string) (messages : list dict)
    (state tools context forwarded_props resume : json) (parent_run_id : option string) : py dict :=
  match validated_input
    [("threadId", JStr thread_id); ("runId", JStr run_id); ("state", state); ("messages", JList (map JObj messages));
     ("tools", py_or tools (JList [])); ("context", py_or context (JList [])); ("forwardedProps", forwarded_props);
     ("resume", resume); ("parentRunId", opt_json parent_run_id)] with
  | Some out => Ok out
  | None => Err (ValueError "invalid AG-UI run input")
  end.

(** [repo.run_input_of]. *)
Definition run_input_of `{RunModel} (run : RunRecord) (d : db) : py dict :=
  build_run_agent_input (rr_thread_id run) (rr_run_id run) (messages_of_run (rr_run_id run) d)
    (rr_state run) (rr_tools run) (rr_context run) (rr_forwarded_props run) (rr_resume run) (rr_parent_run_id run).

Section doors.
Context `{Crypto, TokenCodec, RunModel}.

(** What a door is configured with. *)
Record settings : Type := mkSettings {
  identity : private_key;
  token_signing_secret : string;
  thread_queue_limit : option nat;
}.

(** ** Reading the caller *)

(** The leading strings of a list, and whether that is all of it. *)
Fixpoint leading_strings (l : list json) : list string * bool :=
  match l with
  | [] => ([], true)
  | JStr s :: l => let '(r, all) := leading_strings l in (s :: r, all)
  | _ :: _ => ([], false)
  end.

(** [verify_chain] on the caller's value: it is iterated, and a token that is
    not a string does not parse. *)
Definition verify_presented (chain : json) : py (list Chain.Hop) :=
  match py_iter chain with
  | Err e => Err e
  | Ok items =>
      match leading_strings items with
      | (tokens, true) => Chain.verify_chain tokens
      | (tokens, false) =>
          match Chain.verify_from None None tokens with
          | Ok _ => Err (InvalidChain "unparseable token")
          | Err e => Err e
          end
      end
  end.

(** The bag stripped of funduq's own key, the chain's head key, the raw chain. *)
Definition verify_caller (props : dict) (presenter_key : option string) : py (dict * option string * json) :=
  let props := without_reserved props in
  let actor_chain := get "actorChain" props in
  if truthy actor_chain then
    match presenter_key with
    | None => Err PresenterRequired
    | Some key =>
        match verify_presented actor_chain with
        | Err e => Err e
        | Ok verified =>
            guard_or (InvalidChain "the chain's last hop was signed by somebody else")
              (bool_decide (Chain.presenter verified = Some key))
              (Ok (props, Chain.chain_head verified, actor_chain))
        end
    end
  else Ok (props, None, JNull).

Definition resolve_kyok (props : dict) (d : db) : py (dict * option KyokOptIn) :=
  let opt_in := parse_kyok_opt_in props in
  match opt_in ≫= oi_llm_provider with
  | Some ref => guard_or LlmProviderNotFound (bool_decide (is_Some (get_llm_provider ref d))) (Ok (props, opt_in))
  | None => Ok (props, opt_in)
  end.

Record Caller : Type := mkCaller {
  ca_props : dict;
  ca_head_key : option string;
  ca_actor_chain : json;
  ca_kyok : option KyokOptIn;
  ca_forwarded_props : json;
}.

Definition read_caller (bag : json) (presenter_key : option string) (d : db) : py Caller :=
  let props := match bag with JObj b => b | _ => [] end in
  match verify_caller props presenter_key with
  | Err e => Err e
  | Ok (props, head_key, actor_chain) =>
      match resolve_kyok props d with
      | Err e => Err e
      | Ok (props, kyok) =>
          Ok (mkCaller props head_key actor_chain kyok match bag with JObj _ => JObj props | _ => bag end)
      end
  end.

(** ** Reading a run *)

Definition head_key_of (run : RunRecord) : py (option string) :=
  match rr_actor_chain run with
  | Some (t :: rest) => match Chain.verify_chain (t :: rest) with Ok hops => Ok (Chain.chain_head hops) | Err e => Err e end
  | _ => Ok None
  end.

(** The run's events if it is waiting for an answer. *)
Definition waiting_on (run : RunRecord) (d : db) : loop (option (list dict)) :=
  if bool_decide (rr_status run <> completed) || rr_cancel_requested run then Some (Ok None)
  else match lineage_tail (rr_run_id run) d with
       | None => None
       | Some None => Some (Err AttributeError)
       | Some (Some t) =>
           if bool_decide (rr_run_id t <> rr_run_id run) then Some (Ok None)
           else let events := get_run_events (rr_run_id run) 0 d in
                asks <- Pause.open_asks events ;;
                Some (Ok (if bool_decide (asks = ∅) then None else Some events))
       end.

Definition authorize_cancel (now : Z) (run : RunRecord) (metadata : dict) : py (option string) :=
  match head_key_of run with
  | Err e => Err e
  | Ok None => Ok None
  | Ok (Some head) =>
      match Identity.verify_cancel now (py_or (get "cancel" metadata) (JObj [])) (rr_run_id run)
              {[head; rr_provider_key run]} with
      | Ok s => Ok (Some s)
      | Err e => Err e
      end
  end.

(** ** Opening a run *)

Record InboundRun : Type := mkInbound {
  ib_agent : AgentRef;
  ib_messages : list dict;
  ib_head_key : option string;
  ib_actor_chain : json;
  ib_kyok : option KyokOptIn;
  ib_addressed_run_id : option string;
  ib_state : json;
  ib_tools : json;
  ib_context : json;
  ib_resume : json;
  ib_parent_run_id : option string;
  ib_forwarded_props : json;
}.

Definition set_ib_actor_chain (v : json) (x : InboundRun) : InboundRun :=
  mkInbound (ib_agent x) (ib_messages x) (ib_head_key x) v (ib_kyok x) (ib_addressed_run_id x) (ib_state x)
    (ib_tools x) (ib_context x) (ib_resume x) (ib_parent_run_id x) (ib_forwarded_props x).

Definition kyok_ref (inbound : InboundRun) : option LlmRef := ib_kyok inbound ≫= oi_llm_provider.

(** The chain as a list of tokens, once funduq has put its own hop on it. *)
Definition chain_tokens (chain : json) : option (list string) :=
  match chain with JList l => mapM is_str l | _ => None end.

(** [prev_chain[-1]] of a dict is a [KeyError]. *)
Definition relayed_chain (cfg : settings) (chain : json) (agent : AgentRef) : py json :=
  if truthy chain then
    match chain with
    | JObj _ => Err KeyError
    | _ => match py_iter chain with
           | Err e => Err e
           | Ok items =>
               match Chain.dispatch_hop (identity cfg) (leading_strings items).1
                       {| Chain.dt_provider_key := ref_provider_key agent; Chain.dt_name := ref_name agent |} with
               | Ok c => Ok (JList (map JStr c))
               | Err e => Err e
               end
           end
    end
  else Ok chain.

(** The resolution's payload sorts and joins the ask ids: one that is not a
    string raises, after the authority was checked. *)
Definition key_string (k : key) : py string := match k with KStr s => Ok s | _ => Err TypeError end.

Definition resolution_over (resolution : json) (root : string) (asks : gset key) (allowed : gset string) : py () :=
  match traverse key_string (elements asks) with
  | Ok ids => match Identity.verify_resolution resolution root ids allowed with Ok _ => Ok () | Err e => Err e end
  | Err e =>
      match Identity.verify_resolution resolution root [] allowed with
      | Ok _ | Err TypeError => Err e
      | Err (InvalidResolution why) =>
          if String.eqb why "resolve signature does not verify" then Err e else Err (InvalidResolution why)
      | Err e' => Err e'
      end
  end.

Definition check_resolution (inbound : InboundRun) (answers : RunRecord) (d : db) : loop () :=
  head <- head_key_of answers ;;
  match head with
  | None => Some (Ok ())
  | Some head =>
      let bag := match ib_forwarded_props inbound with JObj b => b | _ => [] end in
      match root_of answers d with
      | None => None
      | Some root =>
          asks <- Pause.open_asks (get_run_events (rr_run_id answers) 0 d) ;;
          Some (resolution_over (py_or (get "resolution" bag) (JObj [])) root asks
                  {[head; ref_provider_key (ib_agent inbound)]})
      end
  end.

Record Opened : Type := mkOpened { op_run_id : string; op_thread_id : string; op_input_json : dict }.

(** Two messages with one id. *)
Definition distinct_ids (messages : list dict) : py bool :=
  match traverse (fun m => to_key (get "id" m)) messages with
  | Ok ids => Ok (bool_decide (NoDup ids))
  | Err e => Err e
  end.

Definition input_error (r : py dict) : py dict :=
  match r with Err (ValueError why) => Err (InvalidRunInput why) | _ => r end.

(** The row and the messages, as [open_run] writes them. *)
Definition write_run (now : Z) (cfg : settings) (run_id thread_id : string) (inbound : InboundRun)
    (parent_run_id : option string) (d : db) : py (Opened * db) :=
  distinct ← distinct_ids (ib_messages inbound);
  guard_or (InvalidRunInput "two messages in one input carry the same id") distinct
  (input_json ← input_error
      (build_run_agent_input thread_id run_id (ib_messages inbound) (ib_state inbound) (ib_tools inbound)
         (ib_context inbound)
         (build_forwarded_props now (token_signing_secret cfg) run_id (ib_agent inbound)
            (bool_decide (is_Some (kyok_ref inbound))) (ib_forwarded_props inbound)
            (chain_tokens (ib_actor_chain inbound)) (ib_addressed_run_id inbound))
         (ib_resume inbound) parent_run_id);
   d ← create_run now run_id thread_id (ib_agent inbound) input_json (chain_tokens (ib_actor_chain inbound)) d;
   d ← append_thread_messages thread_id run_id (ib_messages inbound) d;
   Ok (mkOpened run_id thread_id input_json, d)).

(** [target is None or target.thread_id != thread_id]. *)
Definition addresses_live (inbound : InboundRun) (thread_id : string) (b : broker) : bool :=
  match ib_addressed_run_id inbound with
  | None => true
  | Some id => match BrokerOps.get id b with Some r => bool_decide (r_thread_id r = thread_id) | None => false end
  end.

Definition open_run (now : Z) (cfg : settings) (run_id : string) (inbound : InboundRun) (thread_id : string)
    (answers : option RunRecord) (b : broker) (d : db) : loop (Opened * db) :=
  _ <- guard_or (InvalidRunInput "interjection names no live run on this thread")
         (addresses_live inbound thread_id b) (Ok ()) ;;
  match answers with
  | Some a =>
      _ <~ check_resolution inbound a d ;;
      Some (write_run now cfg run_id thread_id inbound (Some (rr_run_id a)) d)
  | None =>
      _ <- ensure_queue_room thread_id (thread_queue_limit cfg) d ;;
      Some (write_run now cfg run_id thread_id inbound (ib_parent_run_id inbound) d)
  end.

(** ** Handing it to the broker *)

Notation world := (Dispatch.world Handlers.store).

(** [Funduq.enqueue_run]: the door's one reading of the roster. *)
Definition enqueue_run (run_id : string) (agent : AgentRef) (thread_id : string) (input_json : dict) (seq : Z)
    (addressed_run_id : option string) (b : broker) : py (option broker) :=
  match BrokerOps.serving agent b with
  | None => Ok None
  | Some _ => b' ← BrokerOps.enqueue_run run_id agent thread_id input_json seq addressed_run_id b; Ok (Some b')
  end.

Definition bind_run (run_id : string) (binding : Handlers.KyokBinding) (s : Handlers.store) : Handlers.store :=
  Handlers.set_s_bindings (<[run_id := binding]> (Handlers.s_bindings s)) s.

Definition bind_inbound (inbound : InboundRun) (run_id : string) (s : Handlers.store) : Handlers.store :=
  match ib_kyok inbound with
  | Some opt_in =>
      match oi_llm_provider opt_in with
      | Some ref => bind_run run_id (Handlers.mkKyokBinding ref (oi_context opt_in) (chain_tokens (ib_actor_chain inbound))) s
      | None => s
      end
  | None => s
  end.

Definition dispatch (inbound : InboundRun) (opened : Opened) (w : world) : py (bool * world) :=
  let s := bind_inbound inbound (op_run_id opened) (Dispatch.w_store w) in
  enqueued ← enqueue_run (op_run_id opened) (ib_agent inbound) (op_thread_id opened) (op_input_json opened) 0
               (ib_addressed_run_id inbound) (Dispatch.w_broker w);
  match enqueued with
  | Some b => Ok (true, Dispatch.mkWorld b s)
  | None =>
      '(_, s) ← Handlers.mark_run_status (op_run_id opened) failed (Handlers.discard (op_run_id opened) s);
      w ← Handlers.close_with_terminal_event (op_run_id opened) "agent_offline" (Dispatch.mkWorld (Dispatch.w_broker w) s);
      Ok (false, w)
  end.

Record Entered : Type := mkEntered { en_run_id : string; en_thread_id : string; en_live : bool }.

(** [d] is what the request's session has written so far; it is committed by [open_run]. *)
Definition enter (cfg : settings) (run_id : string) (inbound : InboundRun) (thread_id : string)
    (answers : option RunRecord) (d : db) (w : world) : loop (Entered * world) :=
  let s := Dispatch.w_store w in
  chain <- relayed_chain cfg (ib_actor_chain inbound) (ib_agent inbound) ;;
  let inbound := set_ib_actor_chain chain inbound in
  opened <~ open_run (Handlers.s_now s) cfg run_id inbound thread_id answers (Dispatch.w_broker w) d ;;
  let '(opened, d) := opened in
  Some ('(live, w) ← dispatch inbound opened (Dispatch.mkWorld (Dispatch.w_broker w) (Handlers.set_s_db d s));
        Ok (mkEntered (op_run_id opened) thread_id live, w)).

Definition offline_events (thread_id run_id : string) : list dict :=
  [[("type", JStr RUN_STARTED); ("threadId", JStr thread_id); ("runId", JStr run_id)];
   [("type", JStr RUN_ERROR); ("message", JStr "agent is currently offline")]].
End doors.
Arguments settings {_}.

End Doors.
