(* ===== verification/DoorsOk.v ===== *)
(** * What the doors guarantee

    The chain recorded under a run verifies and names who presented it; the
    row a door writes is the run its provider receives; a run that came in is
    in the broker's hands or failed with its reason on record; a pause is
    answered once. *)

From S2P Require Import Prelude Errors Json Pause Crypto Chain Identity Models Repo RepoFacts Lineage Coop BrokerState BrokerOps Dispatch BrokerInv Handlers HandlersOk System Kyok Doors.

Module DoorsOk.
Import Broker Dispatch BrokerInv HandlersOk Repo RepoFacts Lineage Kyok Doors.

#[local] Existing Instance Handlers.store_seams.

Section doors.
Context `{HC : Crypto, HT : TokenCodec, HR : RunModel}.
Context `{!CryptoLaws, !RunModelLaws}.

(** ** Chains *)

Lemma leading_of_strings l : leading_strings (map JStr l) = (l, true).
Proof. induction l as [|s l IH]; [done|]. cbn. by rewrite IH. Qed.

Lemma leading_all l tokens : leading_strings l = (tokens, true) -> l = map JStr tokens.
Proof.
  revert tokens. induction l as [|[] l IH]; intros tokens; cbn; try done; [by intros [= <-]|].
  destruct (leading_strings l) as [r all]. intros [= <- ->]. cbn. f_equal. by apply IH.
Qed.

Lemma verify_presented_ok chain hops : verify_presented chain = Ok hops ->
  exists tokens, py_iter chain = Ok (map JStr tokens) /\ Chain.verify_chain tokens = Ok hops.
Proof.
  unfold verify_presented. destruct (py_iter chain) as [items|]; [|done].
  destruct (leading_strings items) as [tokens []] eqn:Hl; [|by destruct (Chain.verify_from _ _ _)].
  intros Hv. exists tokens. by rewrite (leading_all _ _ Hl).
Qed.


(** ** The row a door writes *)

Lemma append_messages_ok t id ms d d' : append_thread_messages t id ms d = Ok d' ->
  d_runs d' = d_runs d /\ d_run_events d' = d_run_events d /\
  messages_of_run id d' = messages_of_run id d ++ ms.
Proof.
  revert d. induction ms as [|m ms IH]; intros d; cbn.
  - intros [= <-]. by rewrite app_nil_r.
  - intros (d1&H1&H2)%bind_ok. destruct (IH _ H2) as (->&->&->). unfold append_thread_message in H1.
    apply bind_ok in H1 as (i&_&H1). rewrite !guard_or_ok in H1. destruct H1 as (_&_&[= <-]). cbn. split_and!; [done..|].
    unfold messages_of_run. cbn. rewrite filter_app, fmap_app, <- app_assoc. f_equal.
    rewrite filter_cons. rewrite decide_True by done. done.
Qed.

Lemma opt_str_json o : opt_str (opt_json o) = o.
Proof. by destruct o. Qed.

(** The input [write_run] asks AG-UI to validate. *)
Definition raw_input (now : Z) (cfg : settings) (run_id thread_id : string) (ib : InboundRun) (parent : option string) : dict :=
  [("threadId", JStr thread_id); ("runId", JStr run_id); ("state", ib_state ib);
   ("messages", JList (map JObj (ib_messages ib))); ("tools", py_or (ib_tools ib) (JList []));
   ("context", py_or (ib_context ib) (JList []));
   ("forwardedProps", build_forwarded_props now (token_signing_secret cfg) run_id (ib_agent ib)
      (bool_decide (is_Some (kyok_ref ib))) (ib_forwarded_props ib) (chain_tokens (ib_actor_chain ib)) (ib_addressed_run_id ib));
   ("resume", ib_resume ib); ("parentRunId", opt_json parent)].

Lemma write_run_ok now cfg id t ib parent d op d' : write_run now cfg id t ib parent d = Ok (op, d') ->
  op_run_id op = id /\ op_thread_id op = t /\ validated_input (raw_input now cfg id t ib parent) = Some (op_input_json op) /\
  exists d1, create_run now id t (ib_agent ib) (op_input_json op) (chain_tokens (ib_actor_chain ib)) d = Ok d1 /\
    append_thread_messages t id (ib_messages ib) d1 = Ok d'.
Proof.
  unfold write_run. intros (b&_&Hw)%bind_ok. apply guard_or_ok in Hw as [_ Hw].
  apply bind_ok in Hw as (input&Hi&Hw). apply bind_ok in Hw as (d1&Hc&Hw). apply bind_ok in Hw as (d2&Ha&[= <- <-]).
  split_and!; [done..| |by exists d1]. cbn. unfold build_run_agent_input in Hi. fold (raw_input now cfg id t ib parent) in Hi.
  destruct (validated_input (raw_input now cfg id t ib parent)); [by injection Hi as ->|done].
Qed.

Lemma create_row now id t a inp ch d d' : create_run now id t a inp ch d = Ok d' ->
  d_runs d !! id = None /\
  d' = set_d_runs (<[id := mkRunRecord id t (ref_provider_key a) (ref_name a) queued ch now None None (Some now)
         (opt_str (get "parentRunId" inp)) (get "state" inp) (py_or (get "tools" inp) (JList []))
         (py_or (get "context" inp) (JList [])) (get "forwardedProps" inp) (get "resume" inp) false None]> (d_runs d)) d.
Proof. unfold create_run. rewrite !guard_or_ok. intros (Hn%bool_decide_eq_true&_&_&[= <-]). done. Qed.

Lemma open_run_write now cfg id ib t answers b d op d' :
  open_run now cfg id ib t answers b d = Some (Ok (op, d')) ->
  write_run now cfg id t ib match answers with Some a => Some (rr_run_id a) | None => ib_parent_run_id ib end d = Ok (op, d').
Proof.
  unfold open_run. destruct (addresses_live ib t b); [|done]. cbn. destruct answers as [a|].
  - destruct (check_resolution ib a d) as [[[]|e]|]; [|done..]. cbn. by intros [= ->].
  - destruct (ensure_queue_room _ _ _) as [[]|e]; [|done]. cbn. by intros [= ->].
Qed.

Lemma py_or_list l : py_or (JList l) (JList []) = JList l.
Proof. by destruct l. Qed.

Lemma kept_get d out k : validated_input d = Some out -> k ∈ KEPT -> get k out = get k d.
Proof. intros Hv Hk. unfold get. by rewrite (validated_keeps d out k Hv Hk). Qed.

(** C21. What a door writes is the run: the request's one commit adds exactly
    one row, [queued], under the thread and agent, naming as its parent the
    run it answers (or the caller's), with the chain and properties funduq
    relays, and the request's messages under it in order; and the input read
    back from that row is the input handed to the broker, so a provider
    receives the same run before and after a restart. *)
Theorem opened_run_is_recorded now cfg run_id ib t answers b d op d' :
  open_run now cfg run_id ib t answers b d = Some (Ok (op, d')) -> messages_of_run run_id d = [] ->
  d_runs d !! run_id = None /\ op_run_id op = run_id /\ exists row,
    d_runs d' = <[run_id := row]> (d_runs d) /\ rr_status row = queued /\ rr_thread_id row = t /\ rr_agent row = ib_agent ib /\
    rr_parent_run_id row = match answers with Some a => Some (rr_run_id a) | None => ib_parent_run_id ib end /\
    rr_actor_chain row = chain_tokens (ib_actor_chain ib) /\
    rr_forwarded_props row = build_forwarded_props now (token_signing_secret cfg) run_id (ib_agent ib)
      (bool_decide (is_Some (kyok_ref ib))) (ib_forwarded_props ib) (chain_tokens (ib_actor_chain ib)) (ib_addressed_run_id ib) /\
    messages_of_run run_id d' = ib_messages ib /\ run_input_of row d' = Ok (op_input_json op).
Proof.
  intros Ho%open_run_write Hm. set (parent := match answers with Some a => _ | None => _ end) in *.
  apply write_run_ok in Ho as (Hid&_&Hv&d1&Hc&Ha). apply create_row in Hc as [Hn ->].
  apply append_messages_ok in Ha as (Hr&_&Hms). split_and!; [done..|]. eexists. split; [rewrite Hr; cbn; reflexivity|].
  set (out := op_input_json op) in *.
  assert (Hk : forall k, k ∈ KEPT -> get k out = get k (raw_input now cfg run_id t ib parent)) by (intros k; by apply kept_get).
  assert (Hmsg : messages_of_run run_id d' = ib_messages ib) by (rewrite Hms; unfold messages_of_run in *; cbn; by rewrite Hm).
  split_and!; try done.
  - by destruct ib as [[] ? ? ? ? ? ? ? ? ? ? ?].
  - cbn. rewrite Hk by (vm_compute; set_solver). cbn. apply opt_str_json.
  - cbn. by rewrite Hk by (vm_compute; set_solver).
  - unfold run_input_of, build_run_agent_input. cbn [rr_thread_id rr_run_id rr_state rr_tools rr_context rr_forwarded_props rr_resume rr_parent_run_id].
    rewrite Hmsg. pose proof (validated_again _ _ Hv) as Hag.
    destruct (validated_lists _ _ "tools" Hv) as [lt Htl]; [set_solver|].
    destruct (validated_lists _ _ "context" Hv) as [lc Htc]; [set_solver|].
    rewrite Htl, Htc, !py_or_list.
    assert (opt_json (opt_str (get "parentRunId" out)) = get "parentRunId" out) as ->.
    { rewrite Hk by (vm_compute; set_solver). change (get "parentRunId" (raw_input now cfg run_id t ib parent)) with (opt_json parent).
      by rewrite opt_str_json. }
    match goal with |- context [validated_input ?x] => assert (x = dumped_fields (raw_input now cfg run_id t ib parent) out) as -> end; [|by rewrite Hag].
    unfold dumped_fields, raw_input. cbn [map fst snd String.eqb Ascii.eqb Bool.eqb]. rewrite Htl, Htc.
    rewrite (Hk "threadId"), (Hk "runId") by (vm_compute; set_solver). reflexivity.
Qed.

(** ** A pause is answered once *)

Definition unnamed (id : string) (d : db) : Prop := forall k r, d_runs d !! k = Some r -> rr_parent_run_id r <> Some id.

Lemma tail_is_childless d cur : lineage_ok d -> d_runs d !! rr_run_id cur = Some cur ->
  exists t, lineage_tail (rr_run_id cur) d = Some (Some t) /\ newest_child (rr_run_id t) d = None.
Proof.
  intros (Hk&rank&Hr) Hs. destruct (measures_bounded d rank (rank (rr_run_id cur))) as [Hab _].
  destruct (lineage_from_total d rank Hk Hr (fuel_of d) cur Hs) as (l&t&_&_&_&Ht&Hn); [unfold fuel_of; lia|].
  exists t. unfold lineage_tail, get_run. rewrite Hs, Ht. done.
Qed.

Lemma has_child d id k r : d_runs d !! k = Some r -> rr_parent_run_id r = Some id -> newest_child id d <> None.
Proof.
  intros Hr Hp. unfold newest_child. intros Hn%last_None.
  assert (r ∈ filter (fun r => rr_parent_run_id r = Some id) (runs_sorted d)) as Hin; [|rewrite Hn in Hin; by apply not_elem_of_nil in Hin].
  apply list_elem_of_filter. split; [done|]. unfold runs_sorted. rewrite (merge_sort_Permutation run_le).
  unfold all_runs. apply list_elem_of_fmap. exists (k, r). split; [done|]. by apply elem_of_map_to_list.
Qed.

Lemma written_row now cfg run_id t ib parent d op d' : write_run now cfg run_id t ib parent d = Ok (op, d') ->
  exists row, d_runs d' !! op_run_id op = Some row /\ rr_parent_run_id row = parent /\ rr_thread_id row = t /\ rr_agent row = ib_agent ib.
Proof.
  intros Ho. apply write_run_ok in Ho as (->&_&Hv&d1&Hc&Ha). apply create_row in Hc as [_ ->].
  apply append_messages_ok in Ha as (Hr&_&_). rewrite Hr. cbn [d_runs set_d_runs]. rewrite lookup_insert_eq.
  eexists. split; [done|]. cbn. rewrite (kept_get _ _ "parentRunId" Hv) by (vm_compute; set_solver).
  split; [apply opt_str_json|]. by destruct ib as [[] ? ? ? ? ? ? ? ? ? ? ?].
Qed.

(** Once the row of an answer is written, the run that asked has a child. *)
Lemma answer_written now cfg run_id ib t asked d op d' :
  rtc minted empty_db d -> get_run (rr_run_id asked) d = Some asked -> unnamed run_id d ->
  write_run now cfg run_id t ib (Some (rr_run_id asked)) d = Ok (op, d') ->
  waiting_on asked d' = Some (Ok None) /\ rtc minted empty_db d'.
Proof.
  intros Hm Hg Hu Ho. apply write_run_ok in Ho as (_&_&Hv&d1&Hc&Ha).
  pose proof (create_row _ _ _ _ _ _ _ _ Hc) as [Hn Hd1]. apply append_messages_ok in Ha as (Hr&_&_).
  assert (Hne : run_id <> rr_run_id asked) by (intros E; rewrite <- E in Hg; unfold get_run in Hg; congruence).
  set (out := op_input_json op) in *.
  assert (Hpar : opt_str (get "parentRunId" out) = Some (rr_run_id asked)).
  { rewrite (kept_get _ _ "parentRunId" Hv) by (vm_compute; set_solver). done. }
  assert (Hlook : forall k r, d_runs d1 !! k = Some r -> d_runs d !! k = Some r \/ (k = run_id /\ rr_parent_run_id r = Some (rr_run_id asked))).
  { intros k r. rewrite Hd1. cbn. rewrite lookup_insert. case_decide as E; [|by left]. intros [= <-]. by right. }
  assert (Hmint : rtc minted empty_db d').
  { eapply rtc_r; [eapply rtc_r; [exact Hm|]|].
    - split; [by eapply step_create|]. intros id Hnone [r0 Hid] k r Hk.
      assert (id = run_id) as -> by (destruct (Hlook _ _ Hid) as [|[-> _]]; [congruence|done]).
      destruct (Hlook _ _ Hk) as [Hold|[_ Hp]]; [by apply (Hu k)|congruence].
    - split; [by apply step_other|]. intros id Hnone [r0 Hid]. rewrite Hr in Hid. congruence. }
  split; [|done]. unfold waiting_on. case_bool_decide as Hst; [done|]. destruct (rr_cancel_requested asked); [done|]. cbn [orb].
  assert (Hold : d_runs d' !! rr_run_id asked = Some asked) by (rewrite Hr, Hd1; cbn; by rewrite lookup_insert_ne).
  destruct (tail_is_childless d' asked) as (tail&Htail&Hno); [by apply minted_reachable_ok|done|].
  rewrite Htail. rewrite bool_decide_eq_true_2; [done|]. intros E. rewrite E in Hno.
  eapply (has_child d' (rr_run_id asked) run_id); [rewrite Hr, Hd1; cbn; by rewrite lookup_insert_eq|exact Hpar|exact Hno].
Qed.

(** A pause is answered once: as soon as a run answering it is written,
    the run that asked is no longer waiting, so a second answer (or a cancel
    of the wait) is refused, on every door. *)
Theorem answering_closes_the_wait now cfg run_id ib t asked b d op d' :
  rtc minted empty_db d -> get_run (rr_run_id asked) d = Some asked -> unnamed run_id d ->
  open_run now cfg run_id ib t (Some asked) b d = Some (Ok (op, d')) ->
  waiting_on asked d' = Some (Ok None) /\ rtc minted empty_db d'.
Proof. intros Hm Hg Hu Ho%open_run_write. by eapply answer_written. Qed.

End doors.

(** ** Handing over *)

Section handing_over.
Context `{HC : Crypto, HT : TokenCodec, HR : RunModel, HA : !Handlers.AGUI}.
Notation world := (Dispatch.world Handlers.store).

(** A terminal [RUN_ERROR] is on the run's record. *)
Definition error_recorded (id : string) (s : Handlers.store) : Prop :=
  exists e, e ∈ d_run_events (Handlers.s_db s) /\ ev_run_id e = id /\ has_type RUN_ERROR (ev_event e) = true.

Lemma error_recorded_mono id s s' : (forall e, e ∈ d_run_events (Handlers.s_db s) -> e ∈ d_run_events (Handlers.s_db s')) ->
  error_recorded id s -> error_recorded id s'.
Proof. intros Hsub (e&He&Hid&Ht). exists e. auto. Qed.

(** Closing a run the broker does not track. *)
Lemma close_terminal_frame id code w w' : b_run_threads (w_broker w) !! id = None ->
  Handlers.close_with_terminal_event id code w = Ok w' ->
  w_broker w' = w_broker w /\ d_runs (Handlers.s_db (w_store w')) = d_runs (Handlers.s_db (w_store w)) /\
  Handlers.s_bindings (w_store w') = Handlers.s_bindings (w_store w) /\ error_recorded id (w_store w') /\
  (forall e, e ∈ d_run_events (Handlers.s_db (w_store w)) -> e ∈ d_run_events (Handlers.s_db (w_store w'))).
Proof.
  intros Hu. unfold Handlers.close_with_terminal_event, BrokerOps.push, BrokerOps._post. rewrite Hu. intros Hw.
  destruct (existsb _ _) eqn:He.
  - injection Hw as <-. split_and!; [done..| |done]. apply existsb_exists in He as (e&Hin%list_elem_of_In&Ht).
    apply list_elem_of_fmap in Hin as (row&->&Hin). rewrite (merge_sort_Permutation ev_le) in Hin.
    apply list_elem_of_filter in Hin as [[Hid _] Hin]. by exists row.
  - apply bind_ok in Hw as (s'&Hs&[= <-]). unfold Handlers.on_db in Hs. apply bind_ok in Hs as (d&Hd&[= <-]).
    unfold append_run_event in Hd. apply guard_or_ok in Hd as [_ [= <-]]. cbn. split_and!; [done..| |set_solver].
    eexists. split; [cbn; apply elem_of_app; right; by apply list_elem_of_singleton|done].
Qed.

Lemma mark_status_frame id st s b s' : Handlers.mark_run_status id st s = Ok (b, s') ->
  Handlers.s_bindings s' = Handlers.s_bindings s /\
  (forall id', id' <> id -> d_runs (Handlers.s_db s') !! id' = d_runs (Handlers.s_db s) !! id') /\
  exists r, d_runs (Handlers.s_db s) !! id = Some r /\
    if b then (exists l, LEGAL_STATUS_TRANSITIONS st = Some l /\ rr_status r ∈ l) /\
              d_runs (Handlers.s_db s') !! id = Some (status_update (Handlers.s_now s) st r)
    else Handlers.s_db s' = Handlers.s_db s /\ ~ (exists l, LEGAL_STATUS_TRANSITIONS st = Some l /\ rr_status r ∈ l).
Proof.
  unfold Handlers.mark_run_status. intros ([a d]&Hm&[= <- <-])%bind_ok.
  unfold Repo.mark_run_status in Hm. destruct (LEGAL_STATUS_TRANSITIONS st) as [l|] eqn:Hl; [|done].
  destruct (d_runs (Handlers.s_db s) !! id) as [r|] eqn:Hr; [|done]. case_bool_decide as Hin; injection Hm as <- <-; cbn.
  - split_and!; [done| |]. { intros id' Hne. by rewrite lookup_insert_ne. }
    exists r. split; [done|]. split; [by exists l|]. by rewrite lookup_insert_eq.
  - split_and!; [done..|]. exists r. split_and!; [done..|]. intros (l'&[= <-]&?). done.
Qed.

Lemma close_terminal_others id code w w' id' : b_run_threads (w_broker w) !! id = None ->
  Handlers.close_with_terminal_event id code w = Ok w' -> id' <> id ->
  events_in_db id' (w_store w') = events_in_db id' (w_store w).
Proof.
  intros Hu. unfold Handlers.close_with_terminal_event, BrokerOps.push, BrokerOps._post. rewrite Hu.
  destruct (existsb _ _); [by intros [= <-]|]. intros (s'&Hs&[= <-])%bind_ok Hne. unfold Handlers.on_db in Hs.
  apply bind_ok in Hs as (d&Hd&[= <-]). unfold append_run_event in Hd. apply guard_or_ok in Hd as [_ [= <-]].
  unfold events_in_db. cbn. by rewrite filter_app, filter_cons_False, filter_nil, app_nil_r.
Qed.

Lemma mark_status_events id st s b s' : Handlers.mark_run_status id st s = Ok (b, s') ->
  d_run_events (Handlers.s_db s') = d_run_events (Handlers.s_db s).
Proof.
  unfold Handlers.mark_run_status. intros ([a d]&Hm&[= <- <-])%bind_ok. unfold Repo.mark_run_status in Hm.
  repeat case_match; simplify_eq; done.
Qed.

(** The events of the runs the tables have: what the foreign key enforces. *)
Definition events_belong (d : db) : Prop := forall e, e ∈ d_run_events d -> is_Some (d_runs d !! ev_run_id e).

Lemma unborn_has_no_events id d : events_belong d -> d_runs d !! id = None ->
  filter (fun e => ev_run_id e = id) (d_run_events d) = [].
Proof.
  intros Hb Hn. destruct (filter _ _) as [|e l] eqn:Hf; [done|].
  assert (e ∈ filter (fun e => ev_run_id e = id) (d_run_events d)) as [He Hin]%list_elem_of_filter by (rewrite Hf; by left).
  destruct (Hb e Hin). congruence.
Qed.

Lemma bind_inbound_db ib id s : Handlers.s_db (bind_inbound ib id s) = Handlers.s_db s.
Proof. unfold bind_inbound. by repeat case_match. Qed.

(** The world after a request's commit and its binding. *)
Definition committed (ib : InboundRun) (id : string) (d : db) (w : world) : world :=
  mkWorld (w_broker w) (bind_inbound ib id (Handlers.set_s_db d (w_store w))).

Lemma dispatch_cases ib op d w live w' :
  dispatch ib op (mkWorld (w_broker w) (Handlers.set_s_db d (w_store w))) = Ok (live, w') ->
  let id := op_run_id op in
  let call := System.Enqueue id (ib_agent ib) (op_thread_id op) (op_input_json op) 0 (ib_addressed_run_id ib) in
  if live then is_Some (BrokerOps.serving (ib_agent ib) (w_broker w)) /\ b_running (w_broker w) = true /\
    w' = System.exec call (committed ib id d w)
  else BrokerOps.serving (ib_agent ib) (w_broker w) = None /\ exists b s,
    Handlers.mark_run_status id failed (Handlers.discard id (w_store (committed ib id d w))) = Ok (b, s) /\
    Handlers.close_with_terminal_event id "agent_offline" (mkWorld (w_broker w) s) = Ok w'.
Proof.
  unfold dispatch, enqueue_run. cbn [w_broker w_store]. intros (o&Ho&Hd)%bind_ok.
  destruct (BrokerOps.serving (ib_agent ib) (w_broker w)) as [c|] eqn:Hsv.
  - apply bind_ok in Ho as (b'&Hb&[= <-]). injection Hd as <- <-. split; [by eexists|]. split.
    + unfold BrokerOps.enqueue_run in Hb. by destruct (b_running (w_broker w)).
    + cbn. rewrite Hb. done.
  - injection Ho as <-. apply bind_ok in Hd as ([b s]&Hm&Hd). apply bind_ok in Hd as (w1&Hc&[= <- <-]). split; [done|]. by exists b, s.
Qed.

Lemma tracked_new id agent t r m b : id ∉ b_runs b ->
  let b := BrokerOps._thread_handler t agent b in
  BrokerOps.get id (BrokerOps.put_nowait t m
    (set_b_handlers ({[id]} ∪ b_handlers b)
      (set_b_run_threads (<[id := t]> (b_run_threads b))
        (set_b_runs (if bool_decide (id ∈ b_runs b) then b_runs b else b_runs b ++ [id])
          (set_b_heap (<[id := r]> (b_heap b)) b))))) = Some r.
Proof.
  intros Hn. assert (Hr : b_runs (BrokerOps._thread_handler t agent b) = b_runs b)
    by (unfold BrokerOps._thread_handler; by case_match).
  cbn. unfold BrokerOps.get, BrokerOps.tracked. cbn. rewrite Hr, (bool_decide_eq_false_2 (id ∈ b_runs b)) by done.
  rewrite bool_decide_eq_true_2 by set_solver. by rewrite lookup_insert_eq.
Qed.

(** C20. A run that came in is never in between: the door either hands it to a
    broker that serves its agent, which then tracks it with the input its row
    holds, or the row is failed with a [RUN_ERROR] on its record and its KYOK
    binding gone.  Either way every call the door makes on the broker and the
    store is one the process permits, so whatever holds of every reachable
    state holds after a request came in.  The database is one whose events
    belong to runs it has. *)
Theorem entered_is_live_or_failed cfg run_id ib t answers d w e w' :
  enter cfg run_id ib t answers d w = Some (Ok (e, w')) ->
  b_heap (w_broker w) !! run_id = None -> b_run_threads (w_broker w) !! run_id = None -> run_id ∉ b_runs (w_broker w) ->
  d_runs d = d_runs (Handlers.s_db (w_store w)) -> d_run_events d = d_run_events (Handlers.s_db (w_store w)) -> events_belong d ->
  (forall ts, rtc (System.step (S := Handlers.store)) (w, ts) (w', ts)) /\ en_run_id e = run_id /\
  if en_live e then
    is_Some (BrokerOps.serving (ib_agent ib) (w_broker w)) /\ status run_id w' = Some queued /\
    exists run, BrokerOps.get run_id (w_broker w') = Some run /\ r_agent run = ib_agent ib /\ r_thread_id run = t /\
      r_addressed_run_id run = ib_addressed_run_id ib /\ r_claimed_by run = None
  else
    BrokerOps.serving (ib_agent ib) (w_broker w) = None /\ w_broker w' = w_broker w /\ status run_id w' = Some failed /\
    error_recorded run_id (w_store w') /\ Handlers.s_bindings (w_store w') !! run_id = None.
Proof.
  unfold enter. intros He Hheap Hthr Hnew Hd Hev Hfk.
  destruct (relayed_chain cfg (ib_actor_chain ib) (ib_agent ib)) as [chain|]; [|done]. cbn [attempt] in He.
  set (ib' := set_ib_actor_chain chain ib) in *.
  destruct (open_run _ _ _ _ _ _ _ _) as [[[op d']|]|] eqn:Ho; [|done..]. cbn [then_ attempt] in He. injection He as He.
  apply bind_ok in He as ([live w1]&Hdis&[= <- <-]). cbn [en_live en_run_id].
  apply open_run_write, write_run_ok in Ho as (Hid&Hth&_&d1&Hc&Ha). apply create_row in Hc as [Hn ->].
  apply append_messages_ok in Ha as (Hr&Hevs&_). cbn in Hr, Hevs. apply dispatch_cases in Hdis. rewrite Hid, Hth in Hdis.
  assert (Hrow : forall id, id <> run_id -> d_runs d' !! id = d_runs (Handlers.s_db (w_store w)) !! id)
    by (intros id Hne; by rewrite Hr, lookup_insert_ne, Hd).
  assert (Hq : entry run_id (committed ib' run_id d' w) = Some (queued, [])).
  { unfold entry, committed. cbn. unfold entry_in_db, events_in_db. rewrite bind_inbound_db. cbn.
    by rewrite Hr, lookup_insert_eq, Hevs, unborn_has_no_events. }
  assert (Hwrite : forall s, (forall id, id <> run_id -> d_runs (Handlers.s_db s) !! id = d_runs (Handlers.s_db (w_store w)) !! id) ->
    (forall id, id <> run_id -> events_in_db id s = events_in_db id (w_store w)) ->
    forall ts, System.step (S := Handlers.store) (w, ts) (mkWorld (w_broker w) s, ts)).
  { intros s Hs Hse ts. apply sys_outside. exists (System.WriteStore s). split; [|done]. intros id [r Hid'].
    assert (id <> run_id) by congruence. unfold entry. cbn. unfold entry_in_db. by rewrite Hs, Hse. }
  destruct live.
  - destruct Hdis as (Hsv&Hrun&->). split_and!; [|done..| |].
    + intros ts. eapply rtc_l; [apply (Hwrite (w_store (committed ib' run_id d' w)))|].
      * intros id Hne. cbn. rewrite bind_inbound_db. cbn. by apply Hrow.
      * intros id Hne. unfold events_in_db. cbn. rewrite bind_inbound_db. cbn. by rewrite Hevs, Hev.
      * apply rtc_once, sys_outside. eexists. split; [|reflexivity]. split; [exact Hheap|]. exists []. by split.
    + change (Some queued) with (fst <$> Some (queued, [] : list (Z * json))). rewrite <- Hq.
      unfold System.exec. cbn. by destruct (BrokerOps.enqueue_run _ _ _ _ _ _ _).
    + exists (new_run run_id (ib_agent ib) t (op_input_json op) (b_now (w_broker w)) 0 (ib_addressed_run_id ib)).
      split; [|done]. cbn. unfold BrokerOps.enqueue_run. rewrite Hrun. by apply tracked_new.
  - destruct Hdis as (Hsv&b&s&Hm&Hcl). pose proof (fun id' => close_terminal_others run_id "agent_offline" (mkWorld (w_broker w) s) w1 id' Hthr Hcl) as Hoe.
    pose proof (mark_status_events _ _ _ _ _ Hm) as Hme. cbn in Hoe, Hme. rewrite bind_inbound_db in Hme. cbn in Hme.
    apply close_terminal_frame in Hcl as (Hb&Hrs&Hbd&Her&_); [|done]. cbn in Hb, Hrs, Hbd.
    apply mark_status_frame in Hm as (Hbs&Hoth&r&Hr0&Hbr). cbn in Hbs, Hoth, Hr0, Hbr.
    rewrite bind_inbound_db in Hr0. cbn in Hr0. rewrite Hr, lookup_insert_eq in Hr0. injection Hr0 as <-.
    split_and!; [|done..| |done|].
    + intros ts. replace w1 with (mkWorld (w_broker w) (w_store w1)) by (destruct w1; cbn in *; congruence).
      apply rtc_once, Hwrite.
      * intros id Hne. rewrite Hrs, Hoth by done. rewrite bind_inbound_db. cbn. by apply Hrow.
      * intros id Hne. rewrite Hoe by done. unfold events_in_db. by rewrite Hme, Hevs, Hev.
    + unfold status, entry. cbn. unfold entry_in_db. rewrite Hrs. destruct b.
      * destruct Hbr as [_ ->]. done.
      * destruct Hbr as [_ Hill]. destruct Hill. eexists. split; [done|]. cbn. set_solver.
    + rewrite Hbd, Hbs. unfold Handlers.discard. cbn. apply lookup_delete_eq.
Qed.

Context `{!RunModelLaws}.

(** The row of a run that came in, right after: whose it is, what it answers
    and what it was sent with, whether it is live or was failed. *)
Lemma entered_row cfg run_id ib t answers d w e w' : enter cfg run_id ib t answers d w = Some (Ok (e, w')) ->
  b_run_threads (w_broker w) !! run_id = None ->
  en_run_id e = run_id /\ (forall id r, d_runs d !! id = Some r -> d_runs (Handlers.s_db (w_store w')) !! id = Some r) /\
  exists row, d_runs (Handlers.s_db (w_store w')) !! run_id = Some row /\
    rr_thread_id row = t /\ rr_agent row = ib_agent ib /\
    rr_parent_run_id row = match answers with Some a => Some (rr_run_id a) | None => ib_parent_run_id ib end /\
    exists chain, relayed_chain cfg (ib_actor_chain ib) (ib_agent ib) = Ok chain /\ rr_actor_chain row = chain_tokens chain /\
      rr_forwarded_props row = build_forwarded_props (Handlers.s_now (w_store w)) (token_signing_secret cfg) run_id (ib_agent ib)
        (bool_decide (is_Some (kyok_ref ib))) (ib_forwarded_props ib) (chain_tokens chain) (ib_addressed_run_id ib).
Proof.
  unfold enter. destruct (relayed_chain cfg _ _) as [chain|] eqn:Hchain; [|done]. cbn [attempt]. set (ib' := set_ib_actor_chain chain ib).
  destruct (open_run _ _ _ _ _ _ _ _) as [[[op d']|]|] eqn:Ho; [|done..]. cbn [then_ attempt]. intros [= He] Hfresh.
  apply bind_ok in He as ([live w1]&Hdis&[= <- <-]). cbn [en_run_id].
  apply open_run_write, write_run_ok in Ho as (Hid&_&Hv&d1&Hc&Ha). apply create_row in Hc as [Hn ->].
  apply append_messages_ok in Ha as (Hr&_&_). apply dispatch_cases in Hdis. rewrite Hid in *. split; [done|].
  assert (Hkept : get "forwardedProps" (op_input_json op) = get "forwardedProps" (raw_input (Handlers.s_now (w_store w)) cfg run_id t ib'
      match answers with Some a => Some (rr_run_id a) | None => ib_parent_run_id ib' end) /\
    opt_str (get "parentRunId" (op_input_json op)) = match answers with Some a => Some (rr_run_id a) | None => ib_parent_run_id ib end).
  { rewrite (kept_get _ _ "forwardedProps" Hv), (kept_get _ _ "parentRunId" Hv) by (vm_compute; set_solver).
    split; [done|]. apply opt_str_json. }
  destruct Hkept as [Hfp Hp].
  assert (Hrow : exists row, d_runs (Handlers.s_db (w_store (committed ib' run_id d' w))) !! run_id = Some row /\
    rr_thread_id row = t /\ rr_agent row = ib_agent ib /\
    rr_parent_run_id row = match answers with Some a => Some (rr_run_id a) | None => ib_parent_run_id ib end /\
    rr_actor_chain row = chain_tokens chain /\ rr_forwarded_props row = get "forwardedProps" (op_input_json op)).
  { unfold committed. cbn. rewrite bind_inbound_db. cbn. rewrite Hr. cbn. rewrite lookup_insert_eq. eexists. split; [done|].
    cbn. split_and!; [done| |done..]. by destruct ib as [[] ? ? ? ? ? ? ? ? ? ? ?]. }
  assert (Hold : forall id r, d_runs d !! id = Some r -> id <> run_id /\ d_runs (Handlers.s_db (w_store (committed ib' run_id d' w))) !! id = Some r).
  { intros id r Hid'. assert (id <> run_id) by congruence. split; [done|]. unfold committed. cbn. rewrite bind_inbound_db. cbn.
    rewrite Hr. cbn. by rewrite lookup_insert_ne. }
  destruct Hrow as (row&Hrow&Ht&Hag&Hpr&Hch&Hf). rewrite Hfp in Hf. destruct live.
  - destruct Hdis as (_&_&->). assert (w_store (System.exec (System.Enqueue run_id (ib_agent ib') (op_thread_id op) (op_input_json op) 0
      (ib_addressed_run_id ib')) (committed ib' run_id d' w)) = w_store (committed ib' run_id d' w)) as ->
      by (unfold System.exec; cbn; by destruct (BrokerOps.enqueue_run _ _ _ _ _ _ _)).
    split; [intros id r Hid'; by apply Hold|]. exists row. by eauto 10.
  - destruct Hdis as (_&b&s&Hm&Hcl). apply close_terminal_frame in Hcl as (_&Hrs&_); [|done].
    apply mark_status_frame in Hm as (_&Hoth&r&Hr0&Hbr). assert (r = row) as -> by (cbn in *; congruence).
    split; [intros id r' Hid'; destruct (Hold id r' Hid') as [Hne Hr']; rewrite Hrs, Hoth by done; exact Hr'|].
    rewrite Hrs. cbn in *. destruct b.
    + destruct Hbr as [_ ->]. eexists. split; [done|]. cbn. split_and!; [done| |done|by eauto]. by destruct row.
    + destruct Hbr as [-> _]. exists row. by eauto 10.
Qed.
End handing_over.

(** ** Instances *)
Module Witness.
Import RepoFacts.Witness Lineage.Witness.

(** An AG-UI that accepts an input whose lists are lists and whose keys are distinct, as it is. *)
#[export] Instance model : RunModel := {
  validated_input d :=
    match get "tools" d, get "context" d with
    | JList _, JList _ => if bool_decide (dumped_fields d d = d) then Some d else None
    | _, _ => None
    end
}.

#[export] Instance model_laws : RunModelLaws.
Proof.
  split; cbn; intros d out.
  - intros k Hv _. repeat case_match; congruence.
  - intros k Hv Hk. destruct (get "tools" d) eqn:Ht; try done. destruct (get "context" d) eqn:Hc; try done.
    case_bool_decide; [|done]. injection Hv as <-. apply elem_of_cons in Hk as [->|Hk%list_elem_of_singleton]; [|subst k]; eauto.
  - intros Hv. assert (d = out /\ dumped_fields d d = d) as [<- E]; [|by rewrite E].
    repeat case_match; try done. case_bool_decide; by simplify_eq.
Qed.

#[local] Existing Instance Toy.crypto.
#[local] Existing Instance Toy.laws.
#[local] Existing Instance Kyok.Witness.codec.
#[local] Instance agui : Handlers.AGUI := {
  Handlers.valid_event _ := true; Handlers.known_event_type _ := true; Handlers.input_error _ := None }.

Definition cfg : settings := mkSettings "hub" "secret" (Some 8).
Definition said_hi : dict := [("id", JStr "m1"); ("role", JStr "user"); ("content", JStr "hi")].
Definition asking (chain : json) (parent : option string) : InboundRun :=
  mkInbound agent [said_hi] None chain None None JNull JNull JNull JNull parent JNull.

Definition served : broker :=
  BrokerOps.register_provider [(agent, mkConn 1 "K" None)] (BrokerOps.start (empty_broker None)).
Definition world_of (b : broker) (d : db) : Dispatch.world Handlers.store := mkWorld b (Handlers.mkStore d ∅ [] 0).

Definition caller_chain : list string := Chain.new_chain "ann".
Definition caller_bag : dict := [("actorChain", JList (map JStr caller_chain))].
Definition relayed : json := match relayed_chain cfg (JList (map JStr caller_chain)) agent with Ok c => c | Err _ => JNull end.

Lemma relayed_ok : relayed_chain cfg (JList (map JStr caller_chain)) agent = Ok relayed.
Proof. unfold relayed, relayed_chain, caller_chain, Chain.new_chain. reflexivity. Qed.


Definition opened_of (r : option (py (Opened * db))) : Opened * db :=
  match r with Some (Ok x) => x | _ => (mkOpened "" "" [], base) end.

Definition first : Opened * db := opened_of (open_run 1 cfg "r1" (asking JNull None) "t" None served base).

Lemma opened_run_is_recorded_witness : op_run_id first.1 = "r1".
Proof.
  destruct (opened_run_is_recorded 1 cfg "r1" (asking JNull None) "t" None served base first.1 first.2) as (_&Hid&_);
    [vm_compute; reflexivity|reflexivity|exact Hid].
Defined.

Definition r1 : RunRecord := default (row_of d2) (d_runs e1 !! "r1").
Definition answer : Opened * db := opened_of (open_run 2 cfg "r2" (asking JNull None) "t" (Some r1) served e1).

Lemma unnamed_check id d :
  forallb (fun kv => negb (bool_decide (rr_parent_run_id kv.2 = Some id))) (map_to_list (d_runs d)) = true -> unnamed id d.
Proof.
  intros Hall k r Hr%elem_of_map_to_list Hp. rewrite forallb_forall in Hall. apply list_elem_of_In, Hall in Hr. cbn in Hr.
  by rewrite bool_decide_eq_true_2 in Hr.
Qed.

Lemma answering_closes_the_wait_witness : waiting_on r1 answer.2 = Some (Ok None).
Proof.
  apply (answering_closes_the_wait 2 cfg "r2" (asking JNull None) "t" r1 served e1 answer.1 answer.2).
  - eapply rtc_l; [split; [by apply (step_other _ base)|intros id _ Hs k r; unfold base; cbn; by rewrite lookup_empty]|].
    apply rtc_once, (minted_create 1 "r1" [] base e1); [vm_compute; reflexivity|done|vm_compute; reflexivity].
  - vm_compute. reflexivity.
  - apply unnamed_check. vm_compute. reflexivity.
  - vm_compute. reflexivity.
Defined.

Definition came_in (b : broker) : Entered * Dispatch.world Handlers.store :=
  match enter cfg "r1" (asking JNull None) "t" None base (world_of b base) with
  | Some (Ok x) => x
  | _ => (mkEntered "" "" false, world_of b base)
  end.

Lemma entered_is_live_or_failed_witness :
  en_live (came_in served).1 = true /\ en_live (came_in (empty_broker None)).1 = false /\
  (forall ts, rtc (System.step (S := Handlers.store)) (world_of served base, ts) ((came_in served).2, ts)) /\
  error_recorded "r1" (w_store (came_in (empty_broker None)).2).
Proof.
  split_and!; [vm_compute; reflexivity|vm_compute; reflexivity| |].
  - apply (entered_is_live_or_failed cfg "r1" (asking JNull None) "t" None base (world_of served base) (came_in served).1);
      [vm_compute; reflexivity|reflexivity|reflexivity|by apply not_elem_of_nil|reflexivity|reflexivity|by intros e ?%not_elem_of_nil].
  - destruct (entered_is_live_or_failed cfg "r1" (asking JNull None) "t" None base (world_of (empty_broker None) base)
      (came_in (empty_broker None)).1 (came_in (empty_broker None)).2) as (_&_&Hl);
      [vm_compute; reflexivity|reflexivity|reflexivity|by apply not_elem_of_nil|reflexivity|reflexivity|by intros e ?%not_elem_of_nil|].
    change (en_live (came_in (empty_broker None)).1) with false in Hl. by destruct Hl as (_&_&_&He&_).
Defined.

(** ** A run of another thread hides an ask

    [r1] finished asking on thread ["t"]; a caller opens a run on its own
    thread ["u"] naming [r1] as its parent. *)
Definition finished_asking : RunRecord := set_rr_status completed r1.
Definition asked : db :=
  set_d_run_events (map (mkEventRow "r1" 1) Pause.paused_events)
    (set_d_threads (<["u" := mkThreadRow "u" "K" "a" None None JNull 0 0]> (d_threads e1))
      (set_d_runs {["r1" := finished_asking]} e1)).
Definition hidden : db := (opened_of (open_run 2 cfg "x" (asking JNull (Some "r1")) "u" None served asked)).2.

Theorem foreign_run_hides_an_ask :
  match waiting_on finished_asking asked with Some (Ok (Some _)) => true | _ => false end = true /\
  waiting_on finished_asking hidden = Some (Ok None).
Proof. vm_compute. by split. Qed.

End Witness.
End DoorsOk.
