(* ===== verification/Core.v ===== *)
(** * The facade (funduq/core.py [Funduq])

    Starting and recovering, opening, resuming and cancelling runs, deleting
    records, and the readings of threads and tasks.  The agents' side of a
    [Funduq] is a roster over the broker, [links broker store]; its LLM side
    a roster over the relay's table.  Each operation runs uninterrupted here:
    what may come between its transactions is the subject of [Roster] and
    [System]. *)

From S2P Require Import Prelude Errors Json Pause Crypto Chain Identity Models Repo Coop BrokerState BrokerOps Dispatch Handlers LiveRoster Roster Kyok Doors.

Module Core.
Import Broker Repo Kyok Doors.

#[local] Existing Instances LiveRoster.broker_table LiveRoster.roster_table.

Section core.
Context `{HC : Crypto, HT : TokenCodec, HR : RunModel, HA : !Handlers.AGUI}.
Notation world := (Dispatch.world Handlers.store).
Notation s_db := Handlers.s_db.
Open Scope door_scope.

(** ** Runs *)

Definition opt_string (j : json) : option string := match j with JStr s => Some s | _ => None end.

(** [messages] is iterated and each read with [.get]. *)
Definition message_list (j : json) : py (list dict) :=
  match py_iter j with Ok l => traverse as_dict l | Err e => Err e end.

Definition _inbound (agent : AgentRef) (run_input : dict) (caller : Caller) : py InboundRun :=
  messages ← message_list (get_or "messages" (JList []) run_input);
  Ok (mkInbound agent messages (ca_head_key caller) (ca_actor_chain caller) (ca_kyok caller) None
        (get "state" run_input) (get "tools" run_input) (get "context" run_input) (get "resume" run_input)
        (opt_string (get "parentRunId" run_input)) (ca_forwarded_props caller)).

(** [new_thread] and [new_run] are the ids minted. *)
Definition start_run (cfg : settings) (new_thread new_run : string) (agent : AgentRef) (run_input : dict)
    (thread_id : option string) (presenter_key : option string) (w : world) : loop (Entered * world) :=
  let s := Dispatch.w_store w in
  caller <- read_caller (get "forwardedProps" run_input) presenter_key (s_db s) ;;
  thread <- ensure_thread (Handlers.s_now s) new_thread agent thread_id None (JObj (ca_props caller)) true
              (ca_head_key caller) (s_db s) ;;
  let '(resolved_thread_id, d) := thread in
  inbound <- _inbound agent run_input caller ;;
  enter cfg new_run inbound resolved_thread_id None d w.

Definition resume_run (cfg : settings) (new_run run_id : string) (run_input : dict) (presenter_key : option string)
    (w : world) : loop (Entered * world) :=
  let d := s_db (Dispatch.w_store w) in
  match get_run run_id d with
  | None => Some (Err LookupError)
  | Some stored =>
      waiting <~ waiting_on stored d ;;
      match waiting with
      | None => Some (Err NoPendingAsk)
      | Some _ =>
          caller <- read_caller (get "forwardedProps" run_input) presenter_key d ;;
          inbound <- _inbound (rr_agent stored) run_input caller ;;
          enter cfg new_run inbound (rr_thread_id stored) (Some stored) d w
      end
  end.

(** The commit of [repo.record_cancel_request]. *)
Definition record_cancel (run_id : string) (requested_by : option string) (w : world) : world :=
  let s := Dispatch.w_store w in
  Dispatch.mkWorld (Dispatch.w_broker w) (Handlers.set_s_db (record_cancel_request run_id requested_by (s_db s)) s).

Definition cancel_run (run_id : string) (metadata : dict) (w : world) : loop (bool * world) :=
  let s := Dispatch.w_store w in
  match get_run run_id (s_db s) with
  | None => Some (Ok (false, w))
  | Some stored =>
      requested_by <- authorize_cancel (Handlers.s_now s) stored metadata ;;
      if bool_decide (rr_status stored ∈ [failed; cancelled]) then Some (Ok (false, w))
      else if bool_decide (rr_status stored = completed) then
        waiting <~ waiting_on stored (s_db s) ;;
        match waiting with
        | None => Some (Ok (false, w))
        | Some _ => Some (Ok (true, record_cancel run_id requested_by w))
        end
      else
        let w := record_cancel run_id requested_by w in
        let '(asked, b) := BrokerOps.request_cancel run_id (Dispatch.w_broker w) in
        Some (Ok (asked, Dispatch.mkWorld b (Dispatch.w_store w)))
  end.

(** ** Starting *)

Definition bag_of (run : RunRecord) : dict := match rr_forwarded_props run with JObj b => b | _ => [] end.

Definition mark_failed (run_id : string) (w : world) : py world :=
  '(_, s) ← Handlers.mark_run_status run_id failed (Dispatch.w_store w);
  Ok (Dispatch.mkWorld (Dispatch.w_broker w) s).

Definition rebind (stored : RunRecord) (s : Handlers.store) : Handlers.store :=
  match parse_kyok_opt_in (bag_of stored) with
  | Some opt_in =>
      match oi_llm_provider opt_in with
      | Some ref => bind_run (rr_run_id stored) (Handlers.mkKyokBinding ref (oi_context opt_in) (rr_actor_chain stored)) s
      | None => s
      end
  | None => s
  end.

(** The interjection's target is not in the broker's hands. *)
Definition target_lost (addressed : option string) (b : broker) : bool :=
  match addressed with
  | Some id => match BrokerOps.get id b with None => true | Some _ => false end
  | None => false
  end.

(** One turn of [_recover_queued]'s loop. *)
Definition recover_one (stored : RunRecord) (st : list string * world) : py (list string * world) :=
  let '(lost, w) := st in
  let addressed := fp_addressed_run_id (props_of (JObj (bag_of stored))) in
  if target_lost addressed (Dispatch.w_broker w) then
    w ← mark_failed (rr_run_id stored) w; Ok (lost ++ [rr_run_id stored], w)
  else
    let s := rebind stored (Dispatch.w_store w) in
    input_json ← run_input_of stored (s_db s);
    b ← BrokerOps.enqueue_run (rr_run_id stored) (rr_agent stored) (rr_thread_id stored) input_json
          (get_last_event_seq (rr_run_id stored) (s_db s)) addressed (Dispatch.w_broker w);
    Ok (lost, Dispatch.mkWorld b s).

Definition close_all (code : string) (runs : list string) (w : world) : py world :=
  fold_res (fun id w => Handlers.close_with_terminal_event id code w) runs w.

Definition _recover_queued (w : world) : py world :=
  '(lost, w) ← fold_res recover_one (queued_runs (s_db (Dispatch.w_store w))) ([], w);
  close_all "interjection_target_lost" lost w.

(** [start], the first time: [self._started] is what makes the second a no-op. *)
Definition start (started : bool) (w : world) : py (list string * world) :=
  if started then Ok ([], w)
  else
    let s := Dispatch.w_store w in
    let '(orphaned, d) := fail_orphaned_runs (Handlers.s_now s) (s_db s) in
    w ← close_all "orphaned_by_funduq_restart" orphaned (Dispatch.mkWorld (Dispatch.w_broker w) (Handlers.set_s_db d s));
    w ← _recover_queued (Dispatch.mkWorld (BrokerOps.start (Dispatch.w_broker w)) (Dispatch.w_store w));
    Ok (orphaned, w).

(** ** Deleting records *)

Notation agents := (Roster.links broker Handlers.store).
Notation llms := (Roster.links LiveRoster.roster Handlers.store).

Definition delete_agent (c : ConnectedProvider) (name : string) (st : agents) : py agents :=
  _ ← Roster.require_open c st;
  let agent := mkRef (public_key c) name in
  let d := s_db (Roster.k_store st) in
  match get_agent agent d with
  | None => Err AgentNotFound
  | Some _ =>
      if Nat.ltb 0 (count_threads_for_agent agent d) || Nat.ltb 0 (count_runs_for_agent agent None d)
      then Err (AgentInUse "has_history")
      else
        let st := Roster.take_offline c name st in
        '(_, d) ← Repo.delete_agent agent d;
        Ok (Roster.notify (Roster.set_k_store (Handlers.set_s_db d (Roster.k_store st)) st))
  end.

(** [KyokRelay.bound_runs]. *)
Definition bound_runs (ref : LlmRef) (s : Handlers.store) : nat :=
  size (filter (fun kv => Handlers.kb_llm_provider kv.2 = ref) (Handlers.s_bindings s)).

Definition delete_llm_offering (c : ConnectedProvider) (name : string) (st : llms) : py llms :=
  _ ← Roster.require_open c st;
  let ref := mkRef (public_key c) name in
  let s := Roster.k_store st in
  match get_llm_provider ref (s_db s) with
  | None => Err LlmProviderNotFound
  | Some _ =>
      if Nat.ltb 0 (bound_runs ref s) then Err (LlmOfferingInUse "active_run")
      else
        let st := Roster.take_offline c name st in
        Ok (Roster.notify (Roster.set_k_store (Handlers.set_s_db (delete_llm_provider ref (s_db s)).2 s) st))
  end.

(** ** Readings *)

(** [summary] with [online] set: whether a connection serves it now. *)
Definition list_agents (stale_hidden_window : Z) (w : world) : list (AgentRef * AgentRow * bool) :=
  map (fun kv => (kv, bool_decide (is_Some (BrokerOps.serving kv.1 (Dispatch.w_broker w)))))
    (Repo.list_agents (Handlers.s_now (Dispatch.w_store w)) stale_hidden_window (s_db (Dispatch.w_store w))).

Definition list_llm_providers (stale_hidden_window : Z) (live : LiveRoster.roster) (s : Handlers.store)
    : list (LlmRef * LlmRow * bool) :=
  map (fun kv => (kv, bool_decide (is_Some (LiveRoster.roster_serving kv.1 live))))
    (Repo.list_llm_providers (Handlers.s_now s) stale_hidden_window (s_db s)).

Definition parties_of (thread_id : string) (d : db) : py (option (gset string)) :=
  match get_thread thread_id d with
  | None => Ok None
  | Some thread => readers_of thread d
  end.

Inductive tree : Type := Node (thread : ThreadRow) (children : list tree).

(** [build], with fuel for the recursion over children. *)
Fixpoint build (fuel : nat) (d : db) (thread_id : string) : option (list tree) :=
  match fuel with
  | O => None
  | S fuel => mapM (fun child => Node child <$> build fuel d (th_thread_id child)) (get_thread_children thread_id d)
  end.

Definition get_thread_tree (thread_id : string) (d : db) : option (option tree) :=
  match get_thread thread_id d with
  | None => Some None
  | Some root => (fun children => Some (Node root children)) <$> build (S (size (d_threads d))) d thread_id
  end.

Definition task_messages (run_id : string) (d : db) : loop (list dict) :=
  match lineage run_id d with
  | None => None
  | Some [] => Some (Ok [])
  | Some line =>
      let ids := map rr_run_id line in
      match get_run run_id d with
      | None => Some (Err AttributeError)
      | Some run =>
          let runs := filter (fun r => rr_status r = completed \/ rr_run_id r ∈ ids) (runs_in_thread (rr_thread_id run) d) in
          said <- conversation_of runs d ;;
          Some (Ok (map snd (filter (fun m => m.1 ∈ ids) said)))
      end
  end.
End core.

End Core.
