(* ===== verification/CoreOk.v ===== *)
(** * What the facade guarantees

    A restart accounts for every run the database knew; a cancel closes a
    wait for good; a record with history behind it is never deleted. *)

From S2P Require Import Prelude Errors Json Pause Crypto Chain Identity Models Repo RepoFacts Lineage Coop BrokerState BrokerOps Dispatch BrokerInv Handlers HandlersOk System LiveRoster Roster RosterFacts Kyok Doors DoorsOk Core.

Module CoreOk.
Import Broker Dispatch BrokerInv HandlersOk Repo RepoFacts Lineage LiveRoster Kyok Doors DoorsOk Core.

#[local] Existing Instance Handlers.store_seams.
#[local] Existing Instances LiveRoster.broker_table LiveRoster.roster_table LiveRoster.broker_laws LiveRoster.roster_laws.

Section core.
Context `{HC : Crypto, HT : TokenCodec, HR : RunModel, HA : !Handlers.AGUI}.
Notation world := (Dispatch.world Handlers.store).
Notation db_of w := (Handlers.s_db (w_store w)).

(** ** Restart *)

Lemma close_all_frame code ids w w' : (forall id, id ∈ ids -> b_run_threads (w_broker w) !! id = None) ->
  close_all code ids w = Ok w' ->
  w_broker w' = w_broker w /\ d_runs (db_of w') = d_runs (db_of w) /\
  (forall e, e ∈ d_run_events (db_of w) -> e ∈ d_run_events (db_of w')) /\
  forall id, id ∈ ids -> error_recorded id (w_store w').
Proof.
  revert w. induction ids as [|x ids IH]; intros w Hu; cbn.
  - intros [= <-]. split_and!; try done. by intros id ?%not_elem_of_nil.
  - intros (w1&H1&H2)%bind_ok. apply close_terminal_frame in H1 as (Hb&Hr&_&He&Hm); [|apply Hu; by left].
    apply IH in H2 as (Hb2&Hr2&Hm2&He2); [|intros id Hid; rewrite Hb; apply Hu; by right].
    split_and!; [congruence|congruence|auto|]. intros id [->|Hid]%elem_of_cons; [|auto].
    eapply error_recorded_mono; [|exact He]. auto.
Qed.

(** A run the broker holds as the row says. *)
Definition held_as (r : RunRecord) (b : broker) : Prop :=
  exists run, BrokerOps.get (rr_run_id r) b = Some run /\ r_agent run = rr_agent r /\ r_thread_id run = rr_thread_id r.

(** What the recovery loop leaves of the rows it went over. *)
Record recovered (l : list RunRecord) (lost : list string) (w w' : world) : Prop := {
  rec_others id : id ∉ map rr_run_id l -> d_runs (db_of w') !! id = d_runs (db_of w) !! id /\
    BrokerOps.get id (w_broker w') = BrokerOps.get id (w_broker w) /\
    b_run_threads (w_broker w') !! id = b_run_threads (w_broker w) !! id;
  rec_lost id : id ∈ lost -> id ∈ map rr_run_id l;
  rec_each r : r ∈ l ->
    if bool_decide (rr_run_id r ∈ lost)
    then rr_status <$> d_runs (db_of w') !! rr_run_id r = Some failed /\ b_run_threads (w_broker w') !! rr_run_id r = None
    else d_runs (db_of w') !! rr_run_id r = Some r /\ held_as r (w_broker w');
}.

Lemma enqueue_others id agent t input seq a b b' : BrokerOps.enqueue_run id agent t input seq a b = Ok b' ->
  BrokerOps.get id b' = Some (new_run id agent t input (b_now b) seq a) /\
  forall id', id' <> id -> BrokerOps.get id' b' = BrokerOps.get id' b /\ b_run_threads b' !! id' = b_run_threads b !! id'.
Proof.
  unfold BrokerOps.enqueue_run. destruct (b_running b); [|done]. intros [= <-].
  assert (Hf : forall b0, b_heap (BrokerOps._thread_handler t agent b0) = b_heap b0 /\ b_runs (BrokerOps._thread_handler t agent b0) = b_runs b0 /\
    b_run_threads (BrokerOps._thread_handler t agent b0) = b_run_threads b0)
    by (intros b0; unfold BrokerOps._thread_handler; by case_match).
  destruct (Hf b) as (Hh&Hr&Ht). unfold BrokerOps.get, BrokerOps.tracked. cbn. rewrite Hh, Hr, Ht.
  assert (Hin : forall x, x ∈ (if bool_decide (id ∈ b_runs b) then b_runs b else b_runs b ++ [id]) <-> x ∈ b_runs b \/ x = id)
    by (intros x; case_bool_decide; set_solver).
  split.
  - rewrite bool_decide_eq_true_2 by (apply Hin; by right). by rewrite lookup_insert_eq.
  - intros id' Hne. rewrite !lookup_insert_ne by congruence. split; [|done].
    by rewrite (bool_decide_ext _ (id' ∈ b_runs b)) by (rewrite Hin; naive_solver).
Qed.

Lemma recover_one_ok r lost w lost' w' : recover_one r (lost, w) = Ok (lost', w') ->
  d_runs (db_of w) !! rr_run_id r = Some r -> rr_status r = queued -> b_run_threads (w_broker w) !! rr_run_id r = None ->
  (exists l, lost' = lost ++ l /\ recovered [r] l w w') /\ d_run_events (db_of w') = d_run_events (db_of w).
Proof.
  unfold recover_one. intros Hrec Hrow Hst Hthr. destruct (target_lost _ _).
  - apply bind_ok in Hrec as (w1&Hm&[= <- <-]). unfold mark_failed in Hm. apply bind_ok in Hm as ([b s]&Hm&[= <-]).
    assert (Hev : d_run_events (Handlers.s_db s) = d_run_events (db_of w)).
    { unfold Handlers.mark_run_status in Hm. apply bind_ok in Hm as ([a d]&Hd&[= _ <-]). unfold Repo.mark_run_status in Hd.
      repeat case_match; simplify_eq; done. }
    apply mark_status_frame in Hm as (_&Hoth&r0&Hr0&Hb). cbn. split; [|done]. exists [rr_run_id r]. split; [done|]. constructor; cbn.
    + intros id Hid. split; [|done]. apply Hoth. set_solver.
    + done.
    + intros r' ->%list_elem_of_singleton. rewrite bool_decide_eq_true_2 by set_solver. split; [|done].
      rewrite Hrow in Hr0. injection Hr0 as <-. destruct b; [destruct Hb as [_ ->]; done|].
      destruct Hb as [_ Hn]. destruct Hn. eexists. split; [done|]. rewrite Hst. set_solver.
  - apply bind_ok in Hrec as (input&_&Hrec). apply bind_ok in Hrec as (b&Hb&[= <- <-]).
    assert (Hdb : Handlers.s_db (rebind r (w_store w)) = db_of w) by (unfold rebind; by repeat case_match).
    cbn. rewrite Hdb. split; [|done]. exists []. split; [by rewrite app_nil_r|].
    apply enqueue_others in Hb as [Hg Hoth]. constructor; cbn; rewrite ?Hdb.
    + intros id Hid. split; [done|]. apply Hoth. set_solver.
    + by intros id ?%not_elem_of_nil.
    + intros r' ->%list_elem_of_singleton. rewrite bool_decide_eq_false_2 by apply not_elem_of_nil.
      split; [done|]. eexists. split; [exact Hg|done].
Qed.

Lemma recover_all l lost w lost' w' : fold_res recover_one l (lost, w) = Ok (lost', w') -> NoDup (map rr_run_id l) ->
  (forall r, r ∈ l -> d_runs (db_of w) !! rr_run_id r = Some r /\ rr_status r = queued /\ b_run_threads (w_broker w) !! rr_run_id r = None) ->
  (exists k, lost' = lost ++ k /\ recovered l k w w') /\ d_run_events (db_of w') = d_run_events (db_of w).
Proof.
  revert lost w. induction l as [|r l IH]; intros lost w; cbn.
  - intros [= <- <-] _ _. split; [|done]. exists []. split; [by rewrite app_nil_r|].
    constructor; [done|done|by intros r ?%not_elem_of_nil].
  - intros ([lost1 w1]&H1&H2)%bind_ok [Hnew Hnd]%NoDup_cons Hall.
    destruct (Hall r ltac:(by left)) as (Hr&Hs&Ht). apply recover_one_ok in H1 as [(k1&->&R1) E1]; [|done..].
    apply IH in H2 as [(k2&->&R2) E2]; [|done|].
    2:{ intros r' Hr'. destruct (Hall r' ltac:(by right)) as (?&?&?).
        assert (rr_run_id r' ∉ map rr_run_id [r]) as Hne.
        { cbn. intros Heq%list_elem_of_singleton. apply Hnew. rewrite <- Heq. apply list_elem_of_fmap. by exists r'. }
        destruct (rec_others _ _ _ _ R1 _ Hne) as (->&_&->). done. }
    split; [|congruence]. exists (k1 ++ k2). split; [by rewrite app_assoc|]. constructor.
    + intros id Hid. cbn in Hid. apply not_elem_of_cons in Hid as [Hne Hid].
      destruct (rec_others _ _ _ _ R2 _ Hid) as (->&->&->). apply (rec_others _ _ _ _ R1). cbn. set_solver.
    + intros id [Hid|Hid]%elem_of_app; cbn.
      * apply (rec_lost _ _ _ _ R1) in Hid. cbn in Hid. set_solver.
      * apply (rec_lost _ _ _ _ R2) in Hid. set_solver.
    + intros r' [->|Hr']%elem_of_cons.
      * pose proof (rec_each _ _ _ _ R1 r ltac:(by left)) as H1. destruct (rec_others _ _ _ _ R2 _ Hnew) as (Hd&Hg&Hth).
        assert (rr_run_id r ∉ k2) as Hk2 by (intros Hk; apply Hnew, (rec_lost _ _ _ _ R2), Hk).
        rewrite (bool_decide_ext _ (rr_run_id r ∈ k1)) by set_solver. rewrite Hd, Hth.
        case_bool_decide; [done|]. destruct H1 as [? (run&?&?)]. split; [done|]. exists run. by rewrite Hg.
      * pose proof (rec_each _ _ _ _ R2 r' Hr') as H2. assert (rr_run_id r' ∉ k1) as Hk1.
        { intros Hk. apply (rec_lost _ _ _ _ R1) in Hk. cbn in Hk. apply list_elem_of_singleton in Hk. apply Hnew. rewrite <- Hk.
          apply list_elem_of_fmap. by exists r'. }
        by rewrite (bool_decide_ext _ (rr_run_id r' ∈ k2)) by set_solver.
Qed.
(** The process has just been made: the broker knows no run. *)
Definition unaware (b : broker) : Prop := b_run_threads b = ∅ /\ b_runs b = [].

Lemma queued_runs_spec d r : keyed d -> r ∈ queued_runs d <-> d_runs d !! rr_run_id r = Some r /\ rr_status r = queued.
Proof.
  intros Hk. unfold queued_runs, runs_sorted. rewrite list_elem_of_filter, (merge_sort_Permutation run_le).
  split; intros [H1 H2]; split; try done.
  - apply list_elem_of_fmap in H2 as ([k r']&->&Hin%elem_of_map_to_list). cbn in *. by rewrite (Hk _ _ Hin).
  - apply list_elem_of_fmap. exists (rr_run_id r, r). split; [done|]. by apply elem_of_map_to_list.
Qed.

Lemma queued_runs_nodup d : keyed d -> NoDup (map rr_run_id (queued_runs d)).
Proof.
  intros Hk. change (NoDup (rr_run_id <$> queued_runs d)). unfold queued_runs, runs_sorted.
  assert (Hall : NoDup (rr_run_id <$> all_runs d)).
  { unfold all_runs. rewrite <- list_fmap_compose.
    rewrite (list_fmap_ext _ fst (map_to_list (d_runs d))); [apply NoDup_fst_map_to_list|].
    intros i [k r] Hi. cbn. apply (Hk k). apply elem_of_map_to_list. by eapply list_elem_of_lookup_2. }
  rewrite <- (merge_sort_Permutation run_le (all_runs d)) in Hall.
  eapply sublist_NoDup; [exact Hall|]. apply fmap_sublist, sublist_filter.
Qed.

Lemma orphans_keyed now d : keyed d -> keyed (fail_orphaned_runs now d).2.
Proof.
  intros Hk id r. rewrite orphans_lookup. destruct (d_runs d !! id) as [r0|] eqn:Hr; [|done]. cbn.
  intros [= <-]. specialize (Hk _ _ Hr). by case_bool_decide.
Qed.

Lemma orphan_ids now d id : id ∈ (fail_orphaned_runs now d).1 <-> exists r, d_runs d !! id = Some r /\ rr_status r ∈ HELD.
Proof.
  unfold fail_orphaned_runs. cbn [fst]. rewrite list_elem_of_fmap. split.
  - intros ([k r]&->&[Hs Hr%elem_of_map_to_list]%list_elem_of_filter). eauto.
  - intros (r&Hr&Hs). exists (id, r). split; [done|]. apply list_elem_of_filter. split; [done|]. by apply elem_of_map_to_list.
Qed.

(** C18. A restart accounts for every run the database knew.  A run the
    previous process had offered or was running is failed, with its
    [RUN_ERROR] on record; a run that was still queued is either held by the
    new broker, queued, under its agent and thread, or (an interjection whose
    target died) failed with its [RUN_ERROR] on record; a run that had ended
    is left as it was. *)
Theorem restart_accounts_for_every_run w orphaned w' :
  start false w = Ok (orphaned, w') -> unaware (w_broker w) -> keyed (db_of w) ->
  forall id r, d_runs (db_of w) !! id = Some r ->
  match rr_status r with
  | queued => (d_runs (db_of w') !! id = Some r /\ held_as r (w_broker w')) \/
              (rr_status <$> d_runs (db_of w') !! id = Some failed /\ error_recorded id (w_store w'))
  | offering | running | cancelling =>
      rr_status <$> d_runs (db_of w') !! id = Some failed /\ error_recorded id (w_store w')
  | completed | failed | cancelled => d_runs (db_of w') !! id = Some r
  end.
Proof.
  intros Hst [Hth Hruns] Hk id r Hr. unfold start in Hst.
  destruct (fail_orphaned_runs _ _) as [orph d] eqn:Hf.
  assert (Hd : d = (fail_orphaned_runs (Handlers.s_now (w_store w)) (db_of w)).2) by by rewrite Hf.
  assert (Ho : orph = (fail_orphaned_runs (Handlers.s_now (w_store w)) (db_of w)).1) by by rewrite Hf.
  apply bind_ok in Hst as (w1&H1&Hst). apply bind_ok in Hst as (w2&H2&[= _ ->]).
  apply close_all_frame in H1 as (Hb1&Hr1&_&He1); [|intros x _; cbn; by rewrite Hth, lookup_empty]. cbn in Hb1, Hr1.
  unfold _recover_queued in H2. cbn [w_store w_broker] in H2. apply bind_ok in H2 as ([lost w3]&H3&H4).
  assert (Hstart : forall b, b_run_threads (BrokerOps.start b) = b_run_threads b) by (intros b; unfold BrokerOps.start; by case_match).
  assert (Hk1 : keyed (db_of w1)) by (intros x rx; rewrite Hr1, Hd; apply (orphans_keyed _ _ Hk)).
  apply recover_all in H3 as [(k&->&HR3) He3]; [|by apply queued_runs_nodup|].
  2:{ intros x [Hx Hq]%queued_runs_spec; [|done]. cbn. rewrite Hstart, Hb1, Hth, lookup_empty. done. }
  cbn [app] in H4. cbn [w_store w_broker] in He3, HR3.
  assert (Hlostu : forall x, x ∈ k -> b_run_threads (w_broker w3) !! x = None).
  { intros x Hx. pose proof (rec_lost _ _ _ _ HR3 _ Hx) as Hin. apply list_elem_of_fmap in Hin as (rx&->&Hin).
    pose proof (rec_each _ _ _ _ HR3 _ Hin) as He. rewrite bool_decide_eq_true_2 in He by done. apply He. }
  apply close_all_frame in H4 as (Hb4&Hr4&Hev4&He4); [|exact Hlostu].
  assert (Hmono : forall x, error_recorded x (w_store w1) -> error_recorded x (w_store w')).
  { intros x. apply error_recorded_mono. intros e Hin. apply Hev4. by rewrite He3. }
  assert (Hrow1 : d_runs (db_of w1) !! id = Some (if bool_decide (rr_status r ∈ HELD) then
     set_rr_completed_at (Some (Handlers.s_now (w_store w))) (set_rr_status failed r) else r)).
  { rewrite Hr1, Hd, orphans_lookup, Hr. done. }
  assert (Hnotq : rr_status r <> queued -> d_runs (db_of w') !! id = d_runs (db_of w1) !! id).
  { intros Hq. rewrite Hr4. apply (rec_others _ _ _ _ HR3). intros (rx&->&Hin)%list_elem_of_fmap.
    apply queued_runs_spec in Hin as [Hx Hsx]; [|done]. rewrite Hx in Hrow1. injection Hrow1 as E.
    destruct (bool_decide (rr_status r ∈ HELD)); [rewrite E in Hsx; done|congruence]. }
  assert (Hheld : rr_status r ∈ HELD -> rr_status <$> d_runs (db_of w') !! id = Some failed /\ error_recorded id (w_store w')).
  { intros Hin. split.
    - rewrite Hnotq by (intros E; rewrite E in Hin; by repeat (apply elem_of_cons in Hin as [?|Hin]; [done|]); apply not_elem_of_nil in Hin).
      rewrite Hrow1. by rewrite bool_decide_eq_true_2.
    - apply Hmono, He1. rewrite Ho. apply orphan_ids. by exists r. }
  destruct (rr_status r) eqn:Es; try (apply Hheld; set_solver); try (rewrite Hnotq, Hrow1 by done; by rewrite bool_decide_eq_false_2 by set_solver).
  rewrite bool_decide_eq_false_2 in Hrow1 by set_solver.
  pose proof (Hk1 _ _ Hrow1) as Hid. assert (Hin : r ∈ queued_runs (db_of w1)) by (apply queued_runs_spec; [done|by rewrite Hid]).
  pose proof (rec_each _ _ _ _ HR3 _ Hin) as He. rewrite Hid in He. case_bool_decide as Hl.
  - right. rewrite Hr4. split; [apply He|]. by apply He4.
  - left. rewrite Hr4, Hb4. exact He.
Qed.
(** ** Cancelling *)

Definition cancelled_by (by_ : option string) (r : RunRecord) : RunRecord :=
  set_rr_cancel_requested_by by_ (set_rr_cancel_requested true r).

Lemma record_cancel_row id by_ w r : d_runs (db_of w) !! id = Some r ->
  d_runs (db_of (record_cancel id by_ w)) = <[id := cancelled_by by_ r]> (d_runs (db_of w)).
Proof.
  intros Hr. cbn. apply map_eq. intros k. rewrite lookup_alter, lookup_insert. case_decide; subst; [by rewrite Hr|done].
Qed.

Lemma cancel_accepted id meta w w' : cancel_run id meta w = Some (Ok (true, w')) ->
  exists r by_, get_run id (db_of w) = Some r /\ authorize_cancel (Handlers.s_now (w_store w)) r meta = Ok by_ /\
    rr_status r ∉ [failed; cancelled] /\ w_store w' = w_store (record_cancel id by_ w) /\
    w_broker w' = if bool_decide (rr_status r = completed) then w_broker w else (BrokerOps.request_cancel id (w_broker w)).2.
Proof.
  unfold cancel_run. destruct (get_run id (db_of w)) as [r|] eqn:Hg; [|done].
  destruct (authorize_cancel _ r meta) as [by_|] eqn:Ha; [|done]. cbn [attempt].
  case_bool_decide as Hd; [done|]. case_bool_decide as Hc.
  - destruct (waiting_on r (db_of w)) as [[[ev|]|]|]; cbn; try done. intros [= <-]. exists r, by_. rewrite bool_decide_eq_true_2 by done. by split_and!.
  - cbn. destruct (BrokerOps.request_cancel id (w_broker w)) as [asked b] eqn:Hq. intros [= -> <-]. exists r, by_. rewrite bool_decide_eq_false_2 by done. by split_and!.
Qed.

(** C19. A cancel needs authority and leaves its name: when one is accepted the
    run had not failed or been cancelled, the request is recorded on its row
    and nothing else of the database changes; on a run opened under a chain it
    was signed, within the last 60 seconds, by the chain's head or by the
    provider serving the run, and that key is what is recorded; a run under
    no chain records no key. *)
Theorem cancel_needs_authority id meta w w' : cancel_run id meta w = Some (Ok (true, w')) ->
  exists r by_, get_run id (db_of w) = Some r /\ rr_status r ∉ [failed; cancelled] /\
    d_runs (db_of w') = <[id := cancelled_by by_ r]> (d_runs (db_of w)) /\
    match head_key_of r with
    | Err _ => False
    | Ok None => by_ = None
    | Ok (Some head) => exists s, by_ = Some s /\ (s = head \/ s = rr_provider_key r) /\
        Identity.cancel_proved (Handlers.s_now (w_store w)) (py_or (get "cancel" meta) (JObj [])) (rr_run_id r) {[head; rr_provider_key r]} s
    end.
Proof.
  intros (r&by_&Hg&Ha&Hs&Hst&_)%cancel_accepted. exists r, by_. split_and!; [done..| |].
  - rewrite Hst. by apply record_cancel_row.
  - unfold authorize_cancel in Ha. destruct (head_key_of r) as [[head|]|]; [|by injection Ha as <-|done].
    destruct (Identity.verify_cancel _ _ _ _) as [s|] eqn:Hv; [|done]. injection Ha as <-. exists s. split; [done|].
    apply Identity.verify_cancel_sound in Hv. split; [|done]. destruct Hv as (?&?&_&_&Hin&_). set_solver.
Qed.

(** Cancelling a wait closes it for good: a cancel accepted on a run that
    finished asking leaves the broker alone, the run is no longer waiting, and
    every later answer is refused with [NoPendingAsk]. *)
Theorem cancelling_a_wait_closes_it id meta w w' stored :
  get_run id (db_of w) = Some stored -> rr_status stored = completed ->
  cancel_run id meta w = Some (Ok (true, w')) ->
  w_broker w' = w_broker w /\ exists stored', get_run id (db_of w') = Some stored' /\ rr_status stored' = completed /\
    waiting_on stored' (db_of w') = Some (Ok None) /\
    forall cfg new_run input presenter, resume_run cfg new_run id input presenter w' = Some (Err NoPendingAsk).
Proof.
  intros Hg Hc (r&by_&Hg'&_&_&Hst&Hb)%cancel_accepted. rewrite Hg in Hg'. injection Hg' as <-.
  rewrite bool_decide_eq_true_2 in Hb by done. split; [done|].
  assert (Hrow : get_run id (db_of w') = Some (cancelled_by by_ stored)).
  { rewrite Hst. unfold get_run. rewrite (record_cancel_row _ _ _ stored) by done. apply lookup_insert_eq. }
  assert (Hw : waiting_on (cancelled_by by_ stored) (db_of w') = Some (Ok None)).
  { unfold waiting_on. cbn. by rewrite orb_true_r. }
  exists (cancelled_by by_ stored). split_and!; [done..|]. intros cfg new_run input presenter.
  unfold resume_run. rewrite Hrow, Hw. done.
Qed.

(** ** Deleting *)

Lemma history_free agent d : Nat.ltb 0 (count_threads_for_agent agent d) || Nat.ltb 0 (count_runs_for_agent agent None d) = false ->
  Repo.delete_agent agent d = Ok (bool_decide (is_Some (d_agents d !! agent)), set_d_agents (delete agent (d_agents d)) d).
Proof. unfold Repo.delete_agent. by intros ->. Qed.

(** A record with a conversation behind it is never deleted, and deleting
    one never trips the database: on an open link, the delete succeeds
    exactly for a registered agent with no thread and no run, then its record
    is gone, every other record and every run stays, the connection no longer
    serves it and subscribers are told once; otherwise it is refused as not
    on a link, unknown or in use, and nothing changes. *)
Theorem deleting_spares_history c name (st : Roster.links broker Handlers.store) :
  let agent := mkRef (public_key c) name in
  let d := Handlers.s_db (Roster.k_store st) in
  let history := Nat.ltb 0 (count_threads_for_agent agent d) || Nat.ltb 0 (count_runs_for_agent agent None d) in
  match delete_agent c name st with
  | Ok st' => Roster.require_open c st = Ok () /\ is_Some (d_agents d !! agent) /\ history = false /\
      d_agents (Handlers.s_db (Roster.k_store st')) = delete agent (d_agents d) /\
      d_runs (Handlers.s_db (Roster.k_store st')) = d_runs d /\ d_threads (Handlers.s_db (Roster.k_store st')) = d_threads d /\
      is_conn (BrokerOps.serving agent (Roster.k_table st')) (Some c) = false /\ Roster.k_changes st' = Roster.k_changes st + 1
  | Err e => (e = InvalidRegistration "not on an open link" /\ Roster.require_open c st = Err e) \/
      (e = AgentNotFound /\ d_agents d !! agent = None) \/ (e = AgentInUse "has_history" /\ history = true)
  end.
Proof.
  cbv zeta. unfold delete_agent. destruct (Roster.require_open c st) as [[]|e] eqn:Ho.
  2:{ left. unfold Roster.require_open in *. destruct (Roster.listed _ _); [done|]. cbn in *. by injection Ho as <-. }
  cbn [mbind result_bind]. unfold get_agent. destruct (d_agents _ !! _) as [row|] eqn:Hrow; [|right; left; done].
  destruct (_ || _) eqn:Hh; [right; right; done|].
  assert (Hst : Roster.k_store (Roster.take_offline c name st) = Roster.k_store st) by (unfold Roster.take_offline; by case_match).
  rewrite history_free by done.
  cbn [mbind result_bind Roster.notify Roster.set_k_store Roster.k_store Roster.k_changes Roster.k_table]. rewrite Hst.
  split_and!; [done|by eexists|done..| |unfold Roster.take_offline; by case_match].
  unfold Roster.take_offline. destruct (is_conn (live _ _) (Some c)) eqn:Hl; [|exact Hl]. cbn [Roster.k_table Roster.set_k_table].
  change (is_conn (live (mkRef (public_key c) name) (withdraw [mkRef (public_key c) name] (Roster.k_table st))) (Some c) = false).
  rewrite live_withdraw. by rewrite bool_decide_eq_true_2 by by apply list_elem_of_singleton.
Qed.
End core.

(** ** The thread tree is always found *)

(** Threads by their ids, each with a parent made before it. *)
Definition forest (d : db) : Prop :=
  (forall t row, d_threads d !! t = Some row -> th_thread_id row = t) /\
  exists rank : string -> nat, forall t row p, d_threads d !! t = Some row -> th_parent_thread_id row = Some p -> rank p < rank t.

(** A thread minted under a parent that is there keeps the forest. *)
Lemma forest_create now new_id agent parent meta head d t d' : forest d ->
  (forall k row, d_threads d !! k = Some row -> th_parent_thread_id row <> Some new_id) -> parent <> Some new_id ->
  create_thread now new_id agent parent meta head d = Ok (t, d') -> forest d'.
Proof.
  intros [Hk [rank Hr]] Hun Hpar. unfold create_thread. rewrite !guard_or_ok. intros (Hn&_&Hp&[= <- <-]). split.
  - intros k row. cbn. rewrite lookup_insert. case_decide; [by intros [= <-]|apply Hk].
  - exists (fun x => if decide (x = new_id) then S (match parent with Some p => rank p | None => 0 end) else rank x).
    intros k row p. cbn. rewrite lookup_insert. case_decide as E; [subst k|].
    + intros [= <-]. cbn. intros ->. rewrite (decide_True (P := new_id = new_id)) by done. rewrite decide_False by congruence. lia.
    + intros Hrow Hrp. rewrite (decide_False (P := k = new_id)) by congruence.
      destruct (decide (p = new_id)) as [->|]; [by destruct (Hun _ _ Hrow)|by eapply Hr].
Qed.

Section forest.
Context (d : db) (rank : string -> nat).
Context (Hk : forall t row, d_threads d !! t = Some row -> th_thread_id row = t).
Context (Hr : forall t row p, d_threads d !! t = Some row -> th_parent_thread_id row = Some p -> rank p < rank t).

Definition later (t : string) : list (string * ThreadRow) :=
  filter (fun kv => rank t < rank kv.1) (map_to_list (d_threads d)).

Lemma child_stored c t : c ∈ get_thread_children t d ->
  d_threads d !! th_thread_id c = Some c /\ th_parent_thread_id c = Some t.
Proof.
  unfold get_thread_children. rewrite (merge_sort_Permutation th_le). intros [Hp Hc]%list_elem_of_filter.
  apply list_elem_of_fmap in Hc as ([k row]&->&Hin%elem_of_map_to_list). cbn in *. by rewrite (Hk _ _ Hin).
Qed.

Lemma later_child c t : c ∈ get_thread_children t d -> length (later (th_thread_id c)) < length (later t).
Proof.
  intros [Hs Hp]%child_stored. pose proof (Hr _ _ _ Hs Hp) as Hlt. unfold later.
  eapply (filter_length_lt _ _ _ (th_thread_id c, c)); [intros y ?; cbn in *; lia|by apply elem_of_map_to_list|done|cbn; lia].
Qed.

Lemma build_total fuel t : length (later t) < fuel -> is_Some (build fuel d t).
Proof.
  revert t. induction fuel as [|fuel IH]; intros t Hf; [lia|]. cbn [build]. apply mapM_is_Some, Forall_forall. intros c Hc.
  pose proof (later_child _ _ Hc). destruct (IH (th_thread_id c)) as [l Hl]; [lia|]. exists (Node c l). cbn beta. by rewrite Hl.
Qed.
End forest.

(** The tree of any thread of a forest is found: the recursion over children
    ends within the fuel. *)
Theorem thread_tree_ends d t root : forest d -> get_thread t d = Some root ->
  exists children, get_thread_tree t d = Some (Some (Node root children)).
Proof.
  intros [Hk [rank Hr]] Hg. unfold get_thread_tree. rewrite Hg.
  destruct (build_total d rank Hk Hr (S (size (d_threads d))) t) as [l Hl]; [|exists l; by rewrite Hl].
  unfold later. pose proof (length_filter (fun kv : string * ThreadRow => rank t < rank kv.1) (map_to_list (d_threads d))).
  rewrite length_map_to_list in *. lia.
Qed.

(** ** Instances *)
Module Witness.
Import RepoFacts.Witness Lineage.Witness DoorsOk.Witness.
#[local] Existing Instance Toy.crypto.
#[local] Existing Instance Kyok.Witness.codec.
#[local] Existing Instance DoorsOk.Witness.agui.

(** [r1] queued and [r2] running when the process died. *)
Definition died : db := set_d_runs (alter (set_rr_status running) "r2" (d_runs e2)) e2.
Definition before : world Handlers.store := world_of (empty_broker None) died.
Definition after : world Handlers.store := match start false before with Ok (_, w) => w | Err _ => before end.

Lemma died_keyed : keyed died.
Proof.
  assert (forallb (fun kv => String.eqb (rr_run_id kv.2) kv.1) (map_to_list (d_runs died)) = true) as Hall by (vm_compute; reflexivity).
  intros id r Hr%elem_of_map_to_list. rewrite forallb_forall in Hall. apply list_elem_of_In, Hall in Hr. by apply String.eqb_eq.
Qed.

Lemma after_ok : start false before = Ok (["r2"], after).
Proof. vm_compute. reflexivity. Qed.

Lemma restart_accounts_for_every_run_witness :
  rr_status <$> d_runs (Handlers.s_db (w_store after)) !! "r2" = Some failed /\ error_recorded "r2" (w_store after).
Proof.
  exact (restart_accounts_for_every_run before ["r2"] after after_ok
    (conj eq_refl eq_refl) died_keyed "r2" (set_rr_status running (run_of e2 "r2")) eq_refl).
Defined.

Definition live_world : world Handlers.store := (came_in served).2.
Definition cancelled_world : world Handlers.store :=
  match cancel_run "r1" [] live_world with Some (Ok (_, w)) => w | _ => live_world end.

Lemma cancel_needs_authority_witness : exists r by_, get_run "r1" (Handlers.s_db (w_store live_world)) = Some r /\
  d_runs (Handlers.s_db (w_store cancelled_world)) = <["r1" := cancelled_by by_ r]> (d_runs (Handlers.s_db (w_store live_world))).
Proof.
  destruct (cancel_needs_authority "r1" [] live_world cancelled_world) as (r&by_&Hg&_&Hd&_); [vm_compute; reflexivity|].
  by exists r, by_.
Defined.

Definition waiting_world : world Handlers.store := world_of served asked.
Definition closed_world : world Handlers.store :=
  match cancel_run "r1" [] waiting_world with Some (Ok (_, w)) => w | _ => waiting_world end.

Lemma cancelling_a_wait_closes_it_witness :
  resume_run cfg "new" "r1" [] None closed_world = Some (Err NoPendingAsk).
Proof.
  destruct (cancelling_a_wait_closes_it "r1" [] waiting_world closed_world finished_asking) as (_&stored'&_&_&_&Hr);
    [vm_compute; reflexivity|reflexivity|vm_compute; reflexivity|]. apply Hr.
Defined.
End Witness.
End CoreOk.
