(* ===== verification/Probes.v ===== *)
(** * The acceptance probes of the actor chain (scripts/probes)

    probe_a_chain_can_be_branched.py and
    probe_a_provider_can_speak_as_the_caller.py: the scenarios they play
    against a [Funduq], with the rows they record.  The keys a probe
    generates are its arguments; [settle] is what the other tasks do while a
    probe drains a run's stream. *)

From S2P Require Import Prelude Errors Json Crypto Chain Models Repo BrokerState BrokerOps Dispatch Handlers Kyok Doors Core.

Module Probes.
Import Repo Kyok Doors Core.

(** ** [Findings] *)

(** [excused]: [permanent] in the one probe, [by_design] in the other. *)
Record row : Type := mkRow { row_name : string; held : bool; excused : bool }.

Definition record (name : string) (held excused : bool) (rows : list row) : list row :=
  rows ++ [mkRow name held excused].

Definition broken (rows : list row) : list row := filter (fun r => held r = false /\ excused r = false) rows.

(** The exit status. *)
Definition summarize (rows : list row) : nat := length (broken rows).

(** [try: ... except InvalidChain]: was it refused? *)
Definition refused {A} (r : py A) : py bool :=
  match r with
  | Ok _ => Ok false
  | Err (InvalidChain _) => Ok true
  | Err e => Err e
  end.

(** Indexing a list at its ends. *)
Definition first_of {A} (l : list A) : py A := match head l with Some x => Ok x | None => Err LookupError end.
Definition last_of {A} (l : list A) : py A := match last l with Some x => Ok x | None => Err LookupError end.

(** ** The agents *)

(** [Agent.run_stream]. *)
Definition run_stream (run_input : dict) : list dict :=
  let ids := [("threadId", get "threadId" run_input); ("runId", get "runId" run_input)] in
  [("type", JStr "RUN_STARTED") :: ids; ("type", JStr "RUN_FINISHED") :: ids].

(** What [run_stream] keeps of the properties it was given. *)
Definition seen_chain (forwarded_props : json) : json :=
  match forwarded_props with
  | JObj props =>
      match get "funduq" props with
      | JObj ours => let chain := get "actorChain" ours in if truthy chain then chain else JNull
      | _ => JNull
      end
  | _ => JNull
  end.

Section probes.
Context `{HC : Crypto, HT : TokenCodec, HR : RunModel, HA : !Handlers.AGUI}.
Notation world := (Dispatch.world Handlers.store).
Open Scope door_scope.

Variable cfg : settings.
Variable settle : string -> world -> world.

Definition db_of (w : world) : db := Handlers.s_db (Dispatch.w_store w).

(** [{"messages": [{"id", "role": "user", "content"}], "forwardedProps": {"actorChain": chain}}]. *)
Definition asking (id content : string) (chain : json) : dict :=
  [("messages", JList [JObj [("id", JStr id); ("role", JStr "user"); ("content", JStr content)]]);
   ("forwardedProps", JObj [("actorChain", chain)])].

Definition chain_json (chain : list string) : json := JList (map JStr chain).

(** Start a run, drain its stream, read it back. *)
Definition play (agent : AgentRef) (ids : string * string) (run_input : dict) (presenter : string) (w : world)
    : loop (RunRecord * world) :=
  started <~ start_run cfg ids.1 ids.2 agent run_input None (Some presenter) w ;;
  let w := settle (en_run_id started.1) started.2 in
  match get_run (en_run_id started.1) (db_of w) with
  | Some run => Some (Ok (run, w))
  | None => Some (Err AttributeError)
  end.

(** ** A chain can be branched *)

(** [1] and [2]: caller → A → B, and B's caller → B. *)
Definition honest (caller a b : private_key) : py (list string) :=
  c ← Chain.extend_chain a (Chain.new_chain caller); Chain.extend_chain b c.

Definition branch (b : private_key) (honest : list string) : py (list string) :=
  t ← first_of honest; Chain.extend_chain b [t].

(** [3]: the record against what was presented. *)
Definition recorded_as_dispatched (stored branched : list string) : py bool :=
  let kept := bool_decide (take (length branched) stored = branched) in
  if bool_decide (length stored = length branched + 1) then
    hops ← Chain.verify_chain stored;
    hop ← last_of hops;
    Ok (kept && bool_decide (is_Some (Chain.dispatched_to hop)))
  else Ok false.

(** [5]: a hop of another chain behind the caller's. *)
Definition graft (b elsewhere : private_key) (honest : list string) : py (list string) :=
  foreign ← Chain.extend_chain b (Chain.new_chain elsewhere);
  t ← last_of foreign;
  Ok (take 1 honest ++ [t]).

Definition branched_probe (caller a b elsewhere : private_key) (agent : AgentRef) (ids : string * string) (w : world)
    : loop (list row * world) :=
  honest <- honest caller a b ;;
  _ <- Chain.verify_chain honest ;;
  branched <- branch b honest ;;
  result <- Chain.verify_chain branched ;;
  let rows := record "a chain records every hand it passed through"
                (bool_decide (public_hex a ∈ Chain.actor_public_keys result)) true [] in
  played <~ play agent ids (asking "m1" "act on the caller's behalf" (chain_json branched)) (public_hex b) w ;;
  let '(run, w) := played in
  kept <- recorded_as_dispatched (default [] (rr_actor_chain run)) branched ;;
  _ <- (if kept : bool then head_key_of run else Ok None) ;;
  let rows := record "the record keeps the chain as dispatched" kept false rows in
  as_dispatched <- Chain.dispatch_hop (identity cfg) (Chain.new_chain caller)
                     {| Chain.dt_provider_key := ref_provider_key agent; Chain.dt_name := ref_name agent |} ;;
  rebranched <- Chain.extend_chain b as_dispatched ;;
  hops <- Chain.verify_chain as_dispatched ;;
  _ <- last_of hops ;;
  erased <- refused (Chain.verify_chain rebranched) ;;
  let rows := record "an erased hand is refused" erased false rows in
  headless <- refused (Chain.verify_chain (drop 1 honest)) ;;
  let rows := record "the head cannot be dropped" headless false rows in
  grafted <- refused (g ← graft b elsewhere honest; Chain.verify_chain g) ;;
  let rows := record "a hop from another chain cannot be grafted on" grafted false rows in
  Some (Ok (rows, w)).

(** ** A provider can speak as the caller *)

Definition speak_probe (caller provider : private_key) (agent : AgentRef) (ids ids' ids'' : string * string) (w : world)
    : loop (list row * world) :=
  let chain := Chain.new_chain caller in
  played <~ play agent ids (asking "m1" "summarise this document" (chain_json chain)) (public_hex caller) w ;;
  let '(caller_run, w) := played in
  _ <- head_key_of caller_run ;;
  let seen := seen_chain (rr_forwarded_props caller_run) in
  let rows := record "the provider holds the caller's chain, byte for byte" (bool_decide (seen = chain_json chain)) true [] in
  match play agent ids' (asking "m2" "transfer the budget" seen) (public_hex provider) w with
  | None => None
  | Some stolen =>
  denied <- refused stolen ;;
  let rows := record "a chain presented by someone who is not its head is refused" denied false rows in
  let w := match stolen with Ok (_, w) => w | Err _ => w end in
  played <~ play agent ids'' (asking "m3" "transfer the budget" (chain_json [Chain.sign_hop provider None None])) (public_hex provider) w ;;
  let '(own_run, w) := played in
  head <- head_key_of own_run ;;
  let rows := record "a party can always speak in its own name" (bool_decide (head = Some (public_hex provider))) false rows in
  Some (Ok (rows, w))
  end.

End probes.
End Probes.
