(* ===== verification/ProbesOk.v ===== *)
(** * What the chain probes report

    Every row the probes of the actor chain call a property holds, for all
    keys that differ, whatever else the process does meanwhile; the rows
    they excuse are as they are: a removed hand is not seen, and the chain a
    provider is handed is not the caller's byte for byte. *)

From S2P Require Import Prelude Errors Json Crypto Chain Models Repo RepoFacts BrokerState BrokerOps Dispatch Handlers HandlersOk System Kyok Doors DoorsOk Core Probes.

Module ProbesOk.
Import Broker Repo RepoFacts Kyok Doors DoorsOk Core Probes.

#[local] Existing Instance Handlers.store_seams.

Section probes.
Context `{HC : Crypto, !CryptoLaws, HT : TokenCodec, HR : RunModel, !RunModelLaws, HA : !Handlers.AGUI}.
Notation world := (Dispatch.world Handlers.store).

(** ** Chains *)

Definition hop (k : private_key) (prev : option string) (target : option Chain.DispatchTarget) : Chain.Hop :=
  {| Chain.actor_public_key := public_hex k; Chain.prev_hash := Chain.hop_hash <$> prev; Chain.dispatched_to := target |}.

Lemma check_from_elsewhere pt ph k prev target : prev <> pt ->
  Chain.check_hop pt ph (Chain.sign_hop k prev target) = Err (InvalidChain "prevHash doesn't match").
Proof.
  intros Hne. unfold Chain.check_hop, Chain.sign_hop. rewrite jwt_roundtrip, Chain.parse_hop_claims. cbn [mbind result_bind Chain.actor_public_key Chain.prev_hash].
  rewrite pubkey_of, jwt_signed, bool_decide_eq_false_2; [done|]. intros E. apply Hne.
  destruct prev, pt; try done. cbn in E. injection E as E%(inj sha256_hex). by subst.
Qed.

Lemma sign_hop_key k k' prev prev' target target' :
  Chain.sign_hop k prev target = Chain.sign_hop k' prev' target' -> public_hex k = public_hex k'.
Proof.
  unfold Chain.sign_hop. intros E. assert (Hd := f_equal jwt_decode E). rewrite !jwt_roundtrip in Hd.
  apply (f_equal (fun o => match o with Some c => get "actorPublicKey" c | None => JNull end)) in Hd. by injection Hd.
Qed.

Lemma verify_new k : Chain.verify_chain (Chain.new_chain k) = Ok [hop k None None].
Proof. unfold Chain.verify_chain, Chain.new_chain. cbn [Chain.verify_from]. by rewrite Chain.check_signed. Qed.

(** A party's hop behind a verified chain that did not dispatch to another. *)
Lemma verify_extended chain hops t k target :
  Chain.verify_chain chain = Ok hops -> last chain = Some t ->
  (forall h d, last hops = Some h -> Chain.dispatched_to h = Some d -> public_hex k = Chain.dt_provider_key d) ->
  Chain.verify_chain (chain ++ [Chain.sign_hop k (Some t) target]) = Ok (hops ++ [hop k (Some t) target]).
Proof.
  intros Hv Hl Hd. rewrite (Chain.verify_snoc _ _ _ _ _ Hv Hl).
  assert (Chain.agrees (last hops) (hop k (Some t) target) = Ok ()) as Ha.
  { apply Chain.agrees_spec. intros p d Hp Hpd. left. by eapply Hd. }
  unfold hop in Ha. cbn [fmap option_fmap option_map] in Ha. by rewrite Ha.
Qed.

Lemma presented_chain chain : verify_presented (chain_json chain) = Chain.verify_chain chain.
Proof. unfold verify_presented, chain_json. cbn [py_iter]. by rewrite leading_of_strings. Qed.

(** ** Starting a run with a chain *)

Variable cfg : settings.

Definition target_of (agent : AgentRef) : Chain.DispatchTarget :=
  {| Chain.dt_provider_key := ref_provider_key agent; Chain.dt_name := ref_name agent |}.

(** The chain as funduq sends it on. *)
Definition sent_on (chain : list string) (agent : AgentRef) : list string :=
  chain ++ [Chain.sign_hop (identity cfg) (last chain) (Some (target_of agent))].

Lemma reads_the_caller id content chain hops key d : chain <> [] -> Chain.verify_chain chain = Ok hops ->
  read_caller (get "forwardedProps" (asking id content (chain_json chain))) (Some key) d =
  if decide (Chain.presenter hops = Some key)
  then Ok (mkCaller [("actorChain", chain_json chain)] (Chain.chain_head hops) (chain_json chain) None
             (JObj [("actorChain", chain_json chain)]))
  else Err (InvalidChain "the chain's last hop was signed by somebody else").
Proof.
  intros Hne Hv. change (get "forwardedProps" _) with (JObj [("actorChain", chain_json chain)]).
  unfold read_caller, verify_caller.
  change (without_reserved [("actorChain", chain_json chain)]) with [("actorChain", chain_json chain)].
  change (get "actorChain" [("actorChain", chain_json chain)]) with (chain_json chain).
  assert (truthy (chain_json chain) = true) as -> by by destruct chain. rewrite presented_chain, Hv.
  case_decide as Hp; [rewrite bool_decide_eq_true_2 by done|by rewrite bool_decide_eq_false_2]. reflexivity.
Qed.

Lemma relays chain agent : chain <> [] ->
  relayed_chain cfg (chain_json chain) agent = Ok (chain_json (sent_on chain agent)).
Proof.
  intros Hne. unfold relayed_chain, chain_json. assert (truthy (JList (map JStr chain)) = true) as -> by by destruct chain.
  cbn [py_iter]. rewrite leading_of_strings. cbn [fst]. unfold Chain.dispatch_hop, sent_on.
  destruct (last chain) as [t|] eqn:Hl; [done|]. by apply last_None in Hl.
Qed.

Lemma tokens_of chain : chain_tokens (chain_json chain) = Some chain.
Proof. unfold chain_tokens, chain_json. apply mapM_is_str. Qed.

(** The row of a run that was started, right after. *)
Lemma started_row nt nr agent id content chain key w e w' : chain <> [] ->
  b_run_threads (Dispatch.w_broker w) !! nr = None ->
  start_run cfg nt nr agent (asking id content (chain_json chain)) None (Some key) w = Some (Ok (e, w')) ->
  exists hops row, Chain.verify_chain chain = Ok hops /\ Chain.presenter hops = Some key /\
    d_runs (db_of w') !! en_run_id e = Some row /\ rr_actor_chain row = Some (sent_on chain agent) /\
    rr_forwarded_props row = build_forwarded_props (Handlers.s_now (Dispatch.w_store w)) (token_signing_secret cfg) nr agent false
      (JObj [("actorChain", chain_json chain)]) (Some (sent_on chain agent)) None.
Proof.
  intros Hne Hfresh Hs. unfold start_run in Hs.
  destruct (read_caller _ _ _) as [caller|] eqn:Hrc; [|done]. cbn [attempt] in Hs.
  assert (exists hops, Chain.verify_chain chain = Ok hops /\ Chain.presenter hops = Some key) as (hops&Hv&Hp).
  { destruct (Chain.verify_chain chain) as [hops|] eqn:Hv.
    - exists hops. split; [done|]. rewrite (reads_the_caller _ _ _ _ _ _ Hne Hv) in Hrc. by case_decide.
    - exfalso. revert Hrc. unfold read_caller, verify_caller. cbn [get aget].
      change (get "actorChain" _) with (chain_json chain).
      change (get "forwardedProps" _) with (JObj [("actorChain", chain_json chain)]).
      change (without_reserved [("actorChain", chain_json chain)]) with [("actorChain", chain_json chain)].
      change (get "actorChain" [("actorChain", chain_json chain)]) with (chain_json chain).
      assert (truthy (chain_json chain) = true) as -> by by destruct chain. by rewrite presented_chain, Hv. }
  rewrite (reads_the_caller _ _ _ _ _ _ Hne Hv), decide_True in Hrc by done. injection Hrc as <-.
  destruct (Repo.ensure_thread _ _ _ _ _ _ _ _ _) as [[t d]|]; [|done]. cbn [attempt] in Hs.
  destruct (_inbound _ _ _) as [ib|] eqn:Hib; [|done]. cbn [attempt] in Hs.
  assert (Hf : ib_agent ib = agent /\ ib_actor_chain ib = chain_json chain /\ ib_kyok ib = None /\ ib_addressed_run_id ib = None /\
    ib_forwarded_props ib = JObj [("actorChain", chain_json chain)]).
  { unfold _inbound in Hib. apply bind_ok in Hib as (ms&_&[= <-]). done. }
  destruct Hf as (Ha&Hc&Hk&Had&Hfp). 
  destruct (entered_row cfg nr ib t None d w e w') as (->&_&row&Hrow&_&_&_&chain'&Hch'&Hch&Hfw);
    [done|done|]. rewrite Hc, Ha, (relays _ _ Hne) in Hch'. injection Hch' as <-.
  exists hops, row. split_and!; [done|done|done|by rewrite Hch, tokens_of|].
  rewrite Hfw, Ha, Had, Hfp, tokens_of. unfold kyok_ref. by rewrite Hk.
Qed.

(** A chain whose last hop is somebody else's opens nothing. *)
Lemma refused_at_the_door nt nr agent id content chain hops key w : chain <> [] -> Chain.verify_chain chain = Ok hops ->
  Chain.presenter hops <> Some key ->
  exists why, start_run cfg nt nr agent (asking id content (chain_json chain)) None (Some key) w = Some (Err (InvalidChain why)).
Proof.
  intros Hne Hv Hp. unfold start_run. rewrite (reads_the_caller _ _ _ _ _ _ Hne Hv), decide_False by done. by eexists.
Qed.

(** ** What the rest of the process may do to a row *)

Definition same_call (r r' : RunRecord) : Prop :=
  rr_actor_chain r' = rr_actor_chain r /\ rr_forwarded_props r' = rr_forwarded_props r.

Lemma step_same_call r r' : run_step r r' -> same_call r r'.
Proof. intros [->|now s l _ _ ->|who ->|now ->|now _ ->]; split; try done; by destruct r, s. Qed.

Lemma steps_same_call d d' id r : rtc db_step d d' -> d_runs d !! id = Some r ->
  exists r', d_runs d' !! id = Some r' /\ same_call r r'.
Proof.
  intros Hs. revert r. induction Hs as [d|d d1 d' H1 _ IH]; intros r Hr; [by exists r|].
  destruct (db_step_run _ _ _ _ H1 Hr) as (r1&Hr1&[E1 E2]%step_same_call). destruct (IH _ Hr1) as (r'&Hr'&E3&E4).
  exists r'. split; [done|]. split; congruence.
Qed.

Variable settle : string -> world -> world.
Hypothesis settles : forall id w, rtc db_step (db_of w) (db_of (settle id w)).

(** A run played through is there, with the chain it was sent on with. *)
Lemma played agent ids id content chain key w e w' : chain <> [] ->
  b_run_threads (Dispatch.w_broker w) !! ids.2 = None ->
  start_run cfg ids.1 ids.2 agent (asking id content (chain_json chain)) None (Some key) w = Some (Ok (e, w')) ->
  exists hops run, Chain.verify_chain chain = Ok hops /\ Chain.presenter hops = Some key /\
    play cfg settle agent ids (asking id content (chain_json chain)) key w = Some (Ok (run, settle (en_run_id e) w')) /\
    rr_actor_chain run = Some (sent_on chain agent) /\
    rr_forwarded_props run = build_forwarded_props (Handlers.s_now (Dispatch.w_store w)) (token_signing_secret cfg) ids.2 agent false
      (JObj [("actorChain", chain_json chain)]) (Some (sent_on chain agent)) None.
Proof.
  intros Hne Hf Hs. destruct (started_row _ _ _ _ _ _ _ _ _ _ Hne Hf Hs) as (hops&row&Hv&Hp&Hr&Hc&Hfp).
  destruct (steps_same_call _ _ _ _ (settles (en_run_id e) w') Hr) as (run&Hrun&E1&E2).
  exists hops, run. split_and!; [done|done| |congruence|congruence]. unfold play. rewrite Hs. cbn [then_ attempt fst snd].
  unfold get_run. by rewrite Hrun.
Qed.

(** The chain a provider is handed is the one funduq sent on. *)
Lemma handed now secret run_id agent theirs chain : chain <> [] ->
  seen_chain (build_forwarded_props now secret run_id agent false (JObj theirs) (Some chain) None) = chain_json chain.
Proof.
  intros Hne. destruct chain as [|t chain]; [done|]. unfold build_forwarded_props. cbn [our_props dump_props fp_kyok fp_addressed_run_id fp_actor_chain app].
  unfold seen_chain. change "funduq" with OBSERVED_METADATA_KEY. unfold get at 1. by rewrite aget_aset_eq.
Qed.

(** ** The probes' answers *)

Lemma extends k chain t : last chain = Some t -> Chain.extend_chain k chain = Ok (chain ++ [Chain.sign_hop k (Some t) None]).
Proof. unfold Chain.extend_chain. by intros ->. Qed.

(** The three chains the probe builds out of [caller]'s hop. *)
Lemma honest_chain caller a b :
  let t0 := Chain.sign_hop caller None None in let t1 := Chain.sign_hop a (Some t0) None in
  honest caller a b = Ok [t0; t1; Chain.sign_hop b (Some t1) None] /\
  Chain.verify_chain [t0; t1; Chain.sign_hop b (Some t1) None] = Ok [hop caller None None; hop a (Some t0) None; hop b (Some t1) None].
Proof.
  intros t0 t1. split; [reflexivity|].
  apply (verify_extended [t0; t1] [hop caller None None; hop a (Some t0) None]); [|done|by intros h d [= <-]].
  apply (verify_extended [t0] [hop caller None None]); [apply verify_new|done|by intros h d [= <-]].
Qed.

Lemma branched_chain caller b :
  let t0 := Chain.sign_hop caller None None in
  Chain.verify_chain [t0; Chain.sign_hop b (Some t0) None] = Ok [hop caller None None; hop b (Some t0) None].
Proof.
  intros t0. apply (verify_extended [t0] [hop caller None None]); [apply verify_new|done|by intros h d [= <-]].
Qed.

Lemma as_dispatched_chain k agent :
  let t0 := Chain.sign_hop k None None in
  Chain.verify_chain (sent_on [t0] agent) = Ok [hop k None None; hop (identity cfg) (Some t0) (Some (target_of agent))].
Proof.
  intros t0. apply (verify_extended [t0] [hop k None None]); [apply verify_new|done|by intros h d [= <-]].
Qed.

(** A party other than the dispatched one, behind funduq's hop. *)
Lemma erased_hand_refused caller b agent : public_hex b <> ref_provider_key agent -> public_hex b <> public_hex (identity cfg) ->
  let t0 := Chain.sign_hop caller None None in
  let t1 := Chain.sign_hop (identity cfg) (Some t0) (Some (target_of agent)) in
  Chain.verify_chain [t0; t1; Chain.sign_hop b (Some t1) None] =
    Err (InvalidChain "signed by neither the named party nor the witness").
Proof.
  intros H1 H2 t0 t1. change [t0; t1; Chain.sign_hop b (Some t1) None] with ([t0; t1] ++ [Chain.sign_hop b (Some t1) None]).
  rewrite (Chain.verify_snoc _ _ t1 _ _ (as_dispatched_chain caller agent)) by done. cbn [last].
  unfold Chain.agrees at 1. cbn [hop Chain.dispatched_to Chain.actor_public_key target_of Chain.dt_provider_key].
  apply String.eqb_neq in H1, H2. by rewrite H1, H2.
Qed.

Lemma headless_refused t0 a b rest : Chain.verify_chain (Chain.sign_hop a (Some t0) b :: rest) =
  Err (InvalidChain "prevHash doesn't match").
Proof. unfold Chain.verify_chain. cbn [Chain.verify_from]. by rewrite check_from_elsewhere. Qed.

Lemma graft_refused caller b elsewhere : public_hex elsewhere <> public_hex caller ->
  Chain.verify_chain [Chain.sign_hop caller None None; Chain.sign_hop b (Some (Chain.sign_hop elsewhere None None)) None] =
  Err (InvalidChain "prevHash doesn't match").
Proof.
  intros Hne. unfold Chain.verify_chain. cbn [Chain.verify_from]. rewrite Chain.check_signed. cbn [mbind result_bind Chain.agrees].
  rewrite check_from_elsewhere; [done|]. intros [= E%sign_hop_key]. congruence.
Qed.

Lemma record_checked chain hops agent : chain <> [] -> Chain.verify_chain chain = Ok hops ->
  (forall h d, last hops = Some h -> Chain.dispatched_to h = Some d -> public_hex (identity cfg) = Chain.dt_provider_key d) ->
  recorded_as_dispatched (sent_on chain agent) chain = Ok true /\
  exists h, Chain.verify_chain (sent_on chain agent) = Ok (hops ++ [h]).
Proof.
  intros Hne Hv Hd. unfold recorded_as_dispatched, sent_on. destruct (last chain) as [t|] eqn:Hl; [|by apply last_None in Hl].
  rewrite (verify_extended _ _ _ _ _ Hv Hl Hd), length_app, bool_decide_eq_true_2 by done. split; [|by eexists].
  cbn [mbind result_bind]. unfold last_of. rewrite last_snoc, take_app_length. cbn [mbind result_bind].
  by rewrite !bool_decide_eq_true_2.
Qed.

(** The branch probe reports what it claims, for every choice of keys
    that differ and whatever the process does while it drains the run: once
    its run is let in, the probe ends with no broken row.  B's branch that
    leaves A out verifies (the one row it marks a limit); the record keeps it
    with funduq's hop behind; but a branch behind funduq's dispatch, a chain
    without its head and a hop grafted from another chain are refused. *)
Theorem branched_probe_holds caller a b elsewhere agent ids w e w1 :
  public_hex a <> public_hex caller -> public_hex a <> public_hex b -> public_hex elsewhere <> public_hex caller ->
  public_hex b <> ref_provider_key agent -> public_hex b <> public_hex (identity cfg) ->
  b_run_threads (Dispatch.w_broker w) !! ids.2 = None ->
  let branched := [Chain.sign_hop caller None None; Chain.sign_hop b (Some (Chain.sign_hop caller None None)) None] in
  start_run cfg ids.1 ids.2 agent (asking "m1" "act on the caller's behalf" (chain_json branched)) None (Some (public_hex b)) w =
    Some (Ok (e, w1)) ->
  exists rows, branched_probe cfg settle caller a b elsewhere agent ids w = Some (Ok (rows, settle (en_run_id e) w1)) /\
    summarize rows = 0 /\ map held rows = [false; true; true; true; true] /\
    map row_name (filter (fun r => excused r = true) rows) = ["a chain records every hand it passed through"].
Proof.
  intros Hac Hab Hec Hbp Hbf Hfresh branched Hs. set (t0 := Chain.sign_hop caller None None) in *.
  destruct (honest_chain caller a b) as [Hh Hhv]. 
  assert (Chain.verify_chain branched = Ok [hop caller None None; hop b (Some t0) None]) as Hbv by apply branched_chain.
  assert (branched <> []) as Hbne by discriminate.
  destruct (played _ _ _ _ _ _ _ _ _ Hbne Hfresh Hs) as (hops&run&Hv&_&Hplay&Hch&_).
  pose proof (eq_trans (eq_sym Hbv) Hv) as [= <-]. clear Hv.
  unfold branched_probe. rewrite Hh. cbn [attempt]. rewrite Hhv. cbn [attempt].
  change (branch b _) with (Ok (E := exn) branched). cbn [attempt]. rewrite Hbv. cbn [attempt]. rewrite Hplay. cbn [then_ attempt].
  rewrite Hch. cbn [default from_option id].
  destruct (record_checked branched _ agent Hbne Hbv ltac:(by intros h d [= <-])) as [-> [h Hsv]]. cbn [attempt].
  assert (head_key_of run = Ok (Some (public_hex caller))) as ->.
  { unfold head_key_of. rewrite Hch. unfold sent_on in *. cbn [app branched] in *. by rewrite Hsv. }
  cbn [attempt]. change (Chain.dispatch_hop (identity cfg) (Chain.new_chain caller) _) with (Ok (E := exn) (sent_on [t0] agent)).
  cbn [attempt]. rewrite (extends b (sent_on [t0] agent) (Chain.sign_hop (identity cfg) (Some t0) (Some (target_of agent)))) by done.
  cbn [attempt].
  assert (Chain.verify_chain (sent_on [t0] agent) = Ok [hop caller None None; hop (identity cfg) (Some t0) (Some (target_of agent))])
    as -> by apply as_dispatched_chain.
  cbn [attempt last_of last].
  change (sent_on [t0] agent ++ ?x) with ([t0; Chain.sign_hop (identity cfg) (Some t0) (Some (target_of agent))] ++ x).
  pose proof (erased_hand_refused caller b agent Hbp Hbf) as Her. cbn zeta in Her. fold t0 in Her.
  cbn [app]. rewrite Her. cbn [refused attempt drop].
  rewrite headless_refused. cbn [refused attempt].
  change (graft b elsewhere _) with (Ok (E := exn) [t0; Chain.sign_hop b (Some (Chain.sign_hop elsewhere None None)) None]).
  cbn [mbind result_bind]. pose proof (graft_refused caller b elsewhere Hec) as Hgr. fold t0 in Hgr. rewrite Hgr. cbn [refused attempt].
  eexists. split; [reflexivity|]. rewrite bool_decide_eq_false_2.
  - done.
  - cbn. intros [?|[?|[]%elem_of_nil]%elem_of_cons]%elem_of_cons; congruence.
Qed.

(** The impersonation probe reports what it claims: once the caller's
    run and the provider's own are let in, the provider's replay of the
    chain it was handed is refused in between and its own work is headed by
    itself, so no row is broken.  The row kept for context is not as it is
    named: the provider holds the caller's chain with funduq's hop behind it,
    not the caller's chain byte for byte. *)
Theorem speak_probe_holds caller provider agent ids ids' ids'' w e w1 e3 w3 :
  public_hex (identity cfg) <> public_hex provider ->
  b_run_threads (Dispatch.w_broker w) !! ids.2 = None ->
  start_run cfg ids.1 ids.2 agent (asking "m1" "summarise this document" (chain_json (Chain.new_chain caller))) None
    (Some (public_hex caller)) w = Some (Ok (e, w1)) ->
  b_run_threads (Dispatch.w_broker (settle (en_run_id e) w1)) !! ids''.2 = None ->
  start_run cfg ids''.1 ids''.2 agent (asking "m3" "transfer the budget" (chain_json (Chain.new_chain provider))) None
    (Some (public_hex provider)) (settle (en_run_id e) w1) = Some (Ok (e3, w3)) ->
  exists rows, speak_probe cfg settle caller provider agent ids ids' ids'' w = Some (Ok (rows, settle (en_run_id e3) w3)) /\
    summarize rows = 0 /\ map held rows = [false; true; true] /\ map excused rows = [true; false; false].
Proof.
  intros Hne Hf1 Hs1 Hf3 Hs3. set (t0 := Chain.sign_hop caller None None) in *.
  assert (forall k, Chain.new_chain k <> []) as Hnew by discriminate.
  destruct (played _ _ _ _ _ _ _ _ _ (Hnew _) Hf1 Hs1) as (hops&run&_&_&Hplay&Hch&Hfp).
  destruct (played _ _ _ _ _ _ _ _ _ (Hnew _) Hf3 Hs3) as (hops3&run3&Hv3&_&Hplay3&Hch3&_).
  pose proof (eq_trans (eq_sym (verify_new provider)) Hv3) as [= <-].
  assert (Chain.verify_chain (sent_on [t0] agent) = Ok [hop caller None None; hop (identity cfg) (Some t0) (Some (target_of agent))])
    as Hsv by apply as_dispatched_chain.
  unfold speak_probe. rewrite Hplay. cbn [then_ attempt].
  assert (head_key_of run = Ok (Some (public_hex caller))) as ->.
  { unfold head_key_of. rewrite Hch. change (sent_on (Chain.new_chain caller) agent) with (sent_on [t0] agent).
    unfold sent_on in *. cbn [app] in *. by rewrite Hsv. }
  cbn [attempt]. rewrite Hfp, handed by done.
  destruct (refused_at_the_door ids'.1 ids'.2 agent "m2" "transfer the budget" (sent_on [t0] agent) _ (public_hex provider)
    (settle (en_run_id e) w1) ltac:(done) Hsv) as [why Hwhy]; [cbn; congruence|].
  change (Chain.new_chain caller) with [t0]. unfold play at 1. rewrite Hwhy. cbn [then_ attempt refused].
  change [Chain.sign_hop provider None None] with (Chain.new_chain provider). rewrite Hplay3. cbn [then_ attempt].
  assert (head_key_of run3 = Ok (Some (public_hex provider))) as ->.
  { unfold head_key_of. rewrite Hch3. pose proof (as_dispatched_chain provider agent) as Hpv. cbn zeta in Hpv.
    unfold sent_on in *. cbn [app Chain.new_chain last] in *. by rewrite Hpv. }
  cbn [attempt]. eexists. split; [reflexivity|]. rewrite (bool_decide_eq_true_2 (Some (public_hex provider) = _)) by done.
  rewrite bool_decide_eq_false_2 by (unfold chain_json, sent_on; by intros [=]). done.
Qed.

(** What is left of a start once its caller was read. *)
Definition opened_as (nt nr : string) (agent : AgentRef) (input : dict) (chain out : list string) (head : option string) (w : world)
    : option (py (Entered * world)) :=
  attempt (ensure_thread (Handlers.s_now (Dispatch.w_store w)) nt agent None None (JObj [("actorChain", chain_json chain)]) true
             head (Handlers.s_db (Dispatch.w_store w))) (fun td =>
  attempt (_inbound agent input (mkCaller [("actorChain", chain_json chain)] head (chain_json chain) None
             (JObj [("actorChain", chain_json chain)]))) (fun ib =>
  let ib := set_ib_actor_chain (chain_json out) ib in
  then_ (open_run (Handlers.s_now (Dispatch.w_store w)) cfg nr ib td.1 None (Dispatch.w_broker w) td.2) (fun od =>
  Some ('(live, w) ← dispatch ib od.1 (Dispatch.mkWorld (Dispatch.w_broker w) (Handlers.set_s_db od.2 (Dispatch.w_store w)));
        Ok (mkEntered (op_run_id od.1) td.1 live, w))))).

Lemma start_opens nt nr agent id content chain hops key w : chain <> [] -> Chain.verify_chain chain = Ok hops ->
  Chain.presenter hops = Some key ->
  start_run cfg nt nr agent (asking id content (chain_json chain)) None (Some key) w =
  opened_as nt nr agent (asking id content (chain_json chain)) chain (sent_on chain agent) (Chain.chain_head hops) w.
Proof.
  intros Hne Hv Hp. unfold start_run, opened_as. rewrite (reads_the_caller _ _ _ _ _ _ Hne Hv), decide_True by done. cbn [attempt].
  destruct (Repo.ensure_thread _ _ _ _ _ _ _ _ _) as [[t d]|]; [|done]. cbn [attempt fst snd].
  destruct (_inbound _ _ _) as [ib|] eqn:Hib; [|done]. cbn [attempt].
  assert (ib_agent ib = agent /\ ib_actor_chain ib = chain_json chain) as [Ha Hc].
  { unfold _inbound in Hib. apply bind_ok in Hib as (ms&_&[= <-]). done. }
  unfold enter. rewrite Hc, Ha, (relays _ _ Hne). cbn [attempt].
  by destruct (open_run _ _ _ _ _ _ _ _) as [[[op d']|]|].
Qed.

Lemma branch_starts caller b agent ids id content w e w1 :
  let t0 := Chain.sign_hop caller None None in
  let t1 := Chain.sign_hop b (Some t0) None in
  opened_as ids.1 ids.2 agent (asking id content (chain_json [t0; t1])) [t0; t1]
    [t0; t1; Chain.sign_hop (identity cfg) (Some t1) (Some (target_of agent))] (Some (public_hex caller)) w = Some (Ok (e, w1)) ->
  start_run cfg ids.1 ids.2 agent (asking id content (chain_json [t0; t1])) None (Some (public_hex b)) w = Some (Ok (e, w1)).
Proof. intros t0 t1 Ho. by rewrite (start_opens _ _ _ _ _ [t0; t1] _ _ _ ltac:(discriminate) (branched_chain caller b) eq_refl). Qed.

Lemma new_chain_starts k agent ids id content w e w1 :
  let t0 := Chain.sign_hop k None None in
  opened_as ids.1 ids.2 agent (asking id content (chain_json [t0])) [t0]
    [t0; Chain.sign_hop (identity cfg) (Some t0) (Some (target_of agent))] (Some (public_hex k)) w = Some (Ok (e, w1)) ->
  start_run cfg ids.1 ids.2 agent (asking id content (chain_json (Chain.new_chain k))) None (Some (public_hex k)) w = Some (Ok (e, w1)).
Proof. intros t0 Ho. by rewrite (start_opens _ _ _ _ _ (Chain.new_chain k) _ _ _ ltac:(discriminate) (verify_new k) eq_refl). Qed.

End probes.

(** ** The probes, played *)
Module Witness.
Import RepoFacts.Witness DoorsOk.Witness.
#[local] Existing Instance Toy.crypto.
#[local] Existing Instance Toy.laws.
#[local] Existing Instance Kyok.Witness.codec.
#[local] Existing Instance DoorsOk.Witness.agui.

(** An AG-UI that accepts an input with no field twice and whose lists are lists. *)
#[local] Instance fields : RunModel := {
  validated_input d :=
    match get "tools" d, get "context" d with
    | JList _, JList _ => if bool_decide (NoDup (akeys d)) then Some d else None
    | _, _ => None
    end
}.

Lemma dumped_same d : NoDup (akeys d) -> dumped_fields d d = d.
Proof.
  intros Hn. unfold dumped_fields. transitivity (map (fun kv => kv) d); [|apply map_id]. apply map_ext_in. intros [k v] Hin%list_elem_of_In. cbn.
  destruct (String.eqb k "messages"); [done|]. f_equal. unfold get. assert (aget k d = Some v) as ->; [|done].
  revert Hn Hin. induction d as [|[k' v'] d IH]; [by intros _ ?%not_elem_of_nil|]. intros [Hk Hn]%NoDup_cons Hin. cbn.
  apply elem_of_cons in Hin as [[= -> ->]|Hin]; [by rewrite decide_True|]. case_decide as E; [|by apply IH].
  subst k'. destruct Hk. by apply (list_elem_of_fmap_2 fst d (k, v)).
Qed.

#[local] Instance fields_laws : RunModelLaws.
Proof.
  split; cbn; intros d out.
  - intros k Hv _. repeat case_match; congruence.
  - intros k Hv Hk. destruct (get "tools" d) eqn:Ht; try done. destruct (get "context" d) eqn:Hc; try done.
    case_bool_decide; [|done]. injection Hv as <-. apply elem_of_cons in Hk as [->|Hk%list_elem_of_singleton]; [|subst k]; eauto.
  - intros Hv. destruct (get "tools" d) eqn:Ht; try done. destruct (get "context" d) eqn:Hc; try done.
    case_bool_decide as Hn; [|done]. injection Hv as <-. rewrite (dumped_same d Hn), Ht, Hc. by rewrite bool_decide_eq_true_2.
Qed.

Definition w0 : Dispatch.world Handlers.store := world_of served base.
Definition idle (id : string) (w : Dispatch.world Handlers.store) : Dispatch.world Handlers.store := w.

Lemma idle_settles id w : rtc db_step (db_of w) (db_of (idle id w)).
Proof. apply rtc_refl. Qed.

Lemma some_tokens (t : string) rest : t :: rest <> [].
Proof. discriminate. Qed.

Lemma branch_opens x y z : exists e w1,
  opened_as cfg "t1" "r1" agent (Probes.asking "m1" "act on the caller's behalf" (chain_json [x; y])) [x; y] [x; y; z] (Some "c") w0 =
    Some (Ok (e, w1)).
Proof. vm_compute. do 2 eexists. reflexivity. Qed.

Lemma branched_probe_holds_witness : exists rows w',
  branched_probe (HC := Toy.crypto) cfg idle "c" "A" "B" "x" agent ("t1", "r1") w0 = Some (Ok (rows, w')) /\ summarize rows = 0 /\
  map held rows = [false; true; true; true; true].
Proof.
  destruct (branch_opens (Chain.sign_hop (H := Toy.crypto) "c" None None)
    (Chain.sign_hop (H := Toy.crypto) "B" (Some (Chain.sign_hop (H := Toy.crypto) "c" None None)) None)
    (Chain.sign_hop (H := Toy.crypto) (identity cfg) (Some (Chain.sign_hop (H := Toy.crypto) "B" (Some (Chain.sign_hop (H := Toy.crypto) "c" None None)) None)) (Some (target_of agent)))) as (e&w1&Ho).
  destruct (branched_probe_holds (HC := Toy.crypto) cfg idle idle_settles "c" "A" "B" "x" agent ("t1", "r1") w0 e w1
    ltac:(discriminate) ltac:(discriminate) ltac:(discriminate) ltac:(discriminate) ltac:(discriminate) eq_refl
    (branch_starts (HC := Toy.crypto) cfg "c" "B" agent ("t1", "r1") _ _ w0 e w1 Ho)) as (rows&Hr&Hs&Hh&_).
  exists rows, w1. split; [exact Hr|]. split; [exact Hs|exact Hh].
Defined.

Lemma speak_opens x z x' z' : exists e w1 e3 w3,
  opened_as cfg "t1" "r1" agent (Probes.asking "m1" "summarise this document" (chain_json [x])) [x] [x; z] (Some "c") w0 = Some (Ok (e, w1)) /\
  b_run_threads (Dispatch.w_broker w1) !! "r3" = None /\
  opened_as cfg "t3" "r3" agent (Probes.asking "m3" "transfer the budget" (chain_json [x'])) [x'] [x'; z'] (Some "K") w1 = Some (Ok (e3, w3)).
Proof. do 4 eexists. split; [vm_compute; reflexivity|]. split; vm_compute; reflexivity. Qed.

Lemma speak_probe_holds_witness : exists rows w',
  speak_probe (HC := Toy.crypto) cfg idle "c" "K" agent ("t1", "r1") ("t2", "r2") ("t3", "r3") w0 = Some (Ok (rows, w')) /\ summarize rows = 0 /\
  map held rows = [false; true; true].
Proof.
  destruct (speak_opens (Chain.sign_hop (H := Toy.crypto) "c" None None) (Chain.sign_hop (H := Toy.crypto) (identity cfg) (Some (Chain.sign_hop (H := Toy.crypto) "c" None None)) (Some (target_of agent)))
    (Chain.sign_hop (H := Toy.crypto) "K" None None) (Chain.sign_hop (H := Toy.crypto) (identity cfg) (Some (Chain.sign_hop (H := Toy.crypto) "K" None None)) (Some (target_of agent)))) as (e&w1&e3&w3&H1&Hf&H3).
  destruct (speak_probe_holds (HC := Toy.crypto) cfg idle idle_settles "c" "K" agent ("t1", "r1") ("t2", "r2") ("t3", "r3") w0 e w1 e3 w3
    ltac:(discriminate) eq_refl (new_chain_starts (HC := Toy.crypto) cfg "c" agent ("t1", "r1") _ _ w0 e w1 H1) Hf
    (new_chain_starts (HC := Toy.crypto) cfg "K" agent ("t3", "r3") _ _ w1 e3 w3 H3)) as (rows&Hr&Hs&Hh&_).
  exists rows, w3. split; [exact Hr|]. split; [exact Hs|exact Hh].
Defined.

End Witness.
End ProbesOk.
