(* ===== verification/Runtime.v ===== *)
(** * The provider's runtime (funduq_provider_sdk/runtime.py)

    [ProviderRuntime] as a state with its synchronous operations, and the
    system they form with the tasks they start: a task is created, begins at
    a later step, reports events, ends, and only then runs its callback.
    [rt_output] keeps everything ever put on the output queue; [None] is the
    end marker.  A lane object is only compared with [None] through
    [_queued], so the dict is the set of its keys. *)

From S2P Require Import Prelude Errors Json Models BrokerState Kyok.

Module Runtime.

Record DeliveredRun : Type := mkDelivered {
  dr_run_id : string;
  dr_agent_name : string;
  dr_run_input : dict;
  dr_thread_id : option string;
}.

Record _Lane : Type := mkLane {
  l_queue : list DeliveredRun;
  l_active_run_id : option string;
  l_parked : bool;
}.

Definition set_l_queue (v : list DeliveredRun) (x : _Lane) : _Lane := mkLane v (l_active_run_id x) (l_parked x).
Definition set_l_active_run_id (v : option string) (x : _Lane) : _Lane := mkLane (l_queue x) v (l_parked x).
Definition set_l_parked (v : bool) (x : _Lane) : _Lane := mkLane (l_queue x) (l_active_run_id x) v.

(** A run's [asyncio.Task]: created, inside [_execute]'s [try], over. *)
Inductive task_state : Type := Created | Running | Over.
#[global] Instance task_state_eq_dec : EqDecision task_state.
Proof. solve_decision. Defined.

(** A task in flight: the lane key its callback closes over, and its state. *)
Record flight : Type := mkFlight { f_lane_key : option string; f_state : task_state }.

Record runtime : Type := mkRuntime {
  rt_max_concurrent_runs : option Z;
  rt_max_queued_runs : Z;
  rt_running : bool;
  rt_lanes : gmap string _Lane;
  rt_in_flight : gmap string flight;
  rt_queued : gset string;
  rt_parked : list string;
  rt_dropped : gset string;
  rt_output : list (string * option json);
}.

Definition set_lanes (v : gmap string _Lane) (x : runtime) : runtime :=
  mkRuntime (rt_max_concurrent_runs x) (rt_max_queued_runs x) (rt_running x) v (rt_in_flight x) (rt_queued x) (rt_parked x) (rt_dropped x) (rt_output x).
Definition set_in_flight (v : gmap string flight) (x : runtime) : runtime :=
  mkRuntime (rt_max_concurrent_runs x) (rt_max_queued_runs x) (rt_running x) (rt_lanes x) v (rt_queued x) (rt_parked x) (rt_dropped x) (rt_output x).
Definition set_queued (v : gset string) (x : runtime) : runtime :=
  mkRuntime (rt_max_concurrent_runs x) (rt_max_queued_runs x) (rt_running x) (rt_lanes x) (rt_in_flight x) v (rt_parked x) (rt_dropped x) (rt_output x).
Definition set_parked (v : list string) (x : runtime) : runtime :=
  mkRuntime (rt_max_concurrent_runs x) (rt_max_queued_runs x) (rt_running x) (rt_lanes x) (rt_in_flight x) (rt_queued x) v (rt_dropped x) (rt_output x).
Definition set_dropped (v : gset string) (x : runtime) : runtime :=
  mkRuntime (rt_max_concurrent_runs x) (rt_max_queued_runs x) (rt_running x) (rt_lanes x) (rt_in_flight x) (rt_queued x) (rt_parked x) v (rt_output x).
Definition put (v : string * option json) (x : runtime) : runtime :=
  mkRuntime (rt_max_concurrent_runs x) (rt_max_queued_runs x) (rt_running x) (rt_lanes x) (rt_in_flight x) (rt_queued x) (rt_parked x) (rt_dropped x) (rt_output x ++ [v]).
Definition set_running (v : bool) (x : runtime) : runtime :=
  mkRuntime (rt_max_concurrent_runs x) (rt_max_queued_runs x) v (rt_lanes x) (rt_in_flight x) (rt_queued x) (rt_parked x) (rt_dropped x) (rt_output x).

Definition new_runtime (max_concurrent_runs : option Z) (max_queued_runs : Z) : runtime :=
  mkRuntime max_concurrent_runs max_queued_runs false ∅ ∅ ∅ [] ∅ [].

(** ** The synchronous operations *)

Definition _slot_free (st : runtime) : bool :=
  match rt_max_concurrent_runs st with None => true | Some m => (Z.of_nat (size (rt_in_flight st)) <? m)%Z end.

Definition _has_room (st : runtime) : bool :=
  _slot_free st || (Z.of_nat (size (rt_queued st)) <? rt_max_queued_runs st)%Z.

(** The task is created; its callback closes over the run and the lane key. *)
Definition _start_run (run_id : string) (lane_key : option string) (st : runtime) : runtime :=
  set_in_flight (<[run_id := mkFlight lane_key Created]> (rt_in_flight st)) st.

Definition upd_lane (key : string) (lane : _Lane) (st : runtime) : runtime :=
  set_lanes (<[key := lane]> (rt_lanes st)) st.

(** [_lane_next]'s loop over the lane's queue. *)
Fixpoint advance (key : string) (lane : _Lane) (queue : list DeliveredRun) (st : runtime) : runtime :=
  match queue with
  | [] => set_lanes (delete key (rt_lanes st)) st
  | run :: rest =>
      let id := dr_run_id run in
      if bool_decide (id ∈ rt_dropped st) then
        advance key lane rest (set_dropped (rt_dropped st ∖ {[id]}) (set_queued (rt_queued st ∖ {[id]}) st))
      else if _slot_free st then
        _start_run id (Some key)
          (upd_lane key (set_l_active_run_id (Some id) (set_l_queue rest lane)) (set_queued (rt_queued st ∖ {[id]}) st))
      else if l_parked lane then upd_lane key (set_l_queue queue lane) st
      else set_parked (rt_parked st ++ [key]) (upd_lane key (set_l_parked true (set_l_queue queue lane)) st)
  end.

Definition _lane_next (key : string) (st : runtime) : runtime :=
  match rt_lanes st !! key with
  | None => st
  | Some lane => advance key lane (l_queue lane) st
  end.

(** The [while] loop; [_kick_parked] gives it a turn per parked key. *)
Fixpoint kick (fuel : nat) (st : runtime) : runtime :=
  match fuel with
  | O => st
  | S fuel =>
      match rt_parked st with
      | [] => st
      | key :: rest =>
          if _slot_free st then
            let st := set_parked rest st in
            match rt_lanes st !! key with
            | None => kick fuel st
            | Some lane => kick fuel (_lane_next key (upd_lane key (set_l_parked false lane) st))
            end
          else st
      end
  end.

Definition _kick_parked (st : runtime) : runtime := kick (length (rt_parked st)) st.

(** The task's callback. *)
Definition _done (run_id : string) (lane_key : option string) (st : runtime) : runtime :=
  let st := set_in_flight (delete run_id (rt_in_flight st)) st in
  let st := match lane_key with
            | Some key =>
                match rt_lanes st !! key with
                | Some lane =>
                    if bool_decide (l_active_run_id lane = Some run_id)
                    then _lane_next key (upd_lane key (set_l_active_run_id None lane) st) else st
                | None => st
                end
            | None => st
            end in
  _kick_parked st.

Definition cancel (run_id : string) (st : runtime) : runtime :=
  match rt_in_flight st !! run_id with
  | Some f =>
      (* [task.cancel()]: a task that has not begun never enters its [try] *)
      match f_state f with
      | Created => set_in_flight (<[run_id := mkFlight (f_lane_key f) Over]> (rt_in_flight st)) st
      | _ => st
      end
  | None =>
      if bool_decide (run_id ∈ rt_queued st) then
        put (run_id, None) (set_dropped ({[run_id]} ∪ rt_dropped st) (set_queued (rt_queued st ∖ {[run_id]}) st))
      else st
  end.

Definition _addressed_run_id (run : DeliveredRun) : option string :=
  Kyok.fp_addressed_run_id (Kyok.props_of (get "forwardedProps" (dr_run_input run))).

(** [run.thread_id or run.run_id]. *)
Definition lane_key (run : DeliveredRun) : string :=
  match dr_thread_id run with Some t => if String.eqb t "" then dr_run_id run else t | None => dr_run_id run end.

Section deliver.
(** Does the provider have an interjection hook for the agent? *)
Context (takes_interjections : string -> bool).

(** The lane's active run is the one this run addresses. *)
Definition joins (run : DeliveredRun) (st : runtime) : bool :=
  match _addressed_run_id run, rt_lanes st !! lane_key run with
  | Some a, Some lane => bool_decide (l_active_run_id lane = Some a)
  | _, _ => false
  end.

Definition deliver (run : DeliveredRun) (st : runtime) : Broker.verdict * runtime :=
  if rt_running st then
    let key := lane_key run in
    if joins run st then
      if takes_interjections (dr_agent_name run) then
        if _has_room st then (Broker.Answer true, _start_run (dr_run_id run) None st)
        else (Broker.Answer false, st)
      else (Broker.Refusal ("agent '" ++ dr_agent_name run ++ "' takes no interjections")%string, st)
    else if _has_room st then
      let queue_on lane st :=
        set_queued ({[dr_run_id run]} ∪ rt_queued st) (upd_lane key (set_l_queue (l_queue lane ++ [run]) lane) st) in
      match rt_lanes st !! key with
      | None => (Broker.Answer true, _lane_next key (queue_on (mkLane [] None false) st))
      | Some lane => (Broker.Answer true, queue_on lane st)
      end
    else (Broker.Answer false, st)
  else (Broker.Answer false, st).

(** ** The system

    [seen] remembers the lane of every accepted run, [silent] the runs
    cancelled between their task's creation and its first step: neither is
    the runtime's own. *)
Record system : Type := mkSystem { s_rt : runtime; s_seen : gmap string string; s_silent : gset string }.

Definition set_state (run_id : string) (s : task_state) (st : runtime) : runtime :=
  set_in_flight (alter (fun f => mkFlight (f_lane_key f) s) run_id (rt_in_flight st)) st.

Definition state_of (run_id : string) (st : runtime) : option task_state := f_state <$> rt_in_flight st !! run_id.

Inductive step : relation system :=
| step_start st seen silent : step (mkSystem st seen silent) (mkSystem (set_running true st) seen silent)
| step_close st seen silent : step (mkSystem st seen silent) (mkSystem (set_running false st) seen silent)
| step_accept run st st' seen silent : seen !! dr_run_id run = None -> deliver run st = (Broker.Answer true, st') ->
    step (mkSystem st seen silent) (mkSystem st' (<[dr_run_id run := lane_key run]> seen) silent)
| step_begin id st seen silent : state_of id st = Some Created ->
    step (mkSystem st seen silent) (mkSystem (set_state id Running st) seen silent)
| step_emit id event st seen silent : state_of id st = Some Running ->
    step (mkSystem st seen silent) (mkSystem (put (id, Some event) st) seen silent)
| step_end id st seen silent : state_of id st = Some Running ->
    step (mkSystem st seen silent) (mkSystem (put (id, None) (set_state id Over st)) seen silent)
| step_done id key st seen silent : rt_in_flight st !! id = Some (mkFlight key Over) ->
    step (mkSystem st seen silent) (mkSystem (_done id key st) seen silent)
| step_cancel id st seen silent :
    step (mkSystem st seen silent)
      (mkSystem (cancel id st) seen (if bool_decide (state_of id st = Some Created) then {[id]} ∪ silent else silent)).

Definition initial (max_concurrent_runs : option Z) (max_queued_runs : Z) : system :=
  mkSystem (new_runtime max_concurrent_runs max_queued_runs) ∅ ∅.

Definition reachable (s : system) : Prop := exists m q, rtc step (initial m q) s.
End deliver.

End Runtime.
