(* ===== verification/RuntimeOk.v ===== *)
(** * What the provider's runtime guarantees

    The invariant of every reachable state of [Runtime.system], and from it:
    one run at a time per thread, the declared concurrency, no lane left
    behind, one end marker per run. *)

From S2P Require Import Prelude Errors Json Models BrokerState Kyok Runtime.

Module RuntimeOk.
Import Runtime.

Section runtime.
Context (takes_interjections : string -> bool).

(** End markers put for a run. *)
Definition ends (id : string) (st : runtime) : nat := length (filter (fun p => p = (id, None)) (rt_output st)).

Definition run_ids (lane : _Lane) : list string := map dr_run_id (l_queue lane).

(** The runs in flight that a lane started. *)
Definition lane_flights (st : runtime) : nat := size (filter (fun kv => is_Some (f_lane_key kv.2)) (rt_in_flight st)).

(** [idle] is a lane about to be advanced; [loose] says slots may have become
    free while lanes are parked. *)
Record inv (idle : option string) (loose : bool) (seen : gmap string string) (silent : gset string) (st : runtime) : Prop := {
  k_queue key lane id : rt_lanes st !! key = Some lane -> id ∈ run_ids lane ->
    seen !! id = Some key /\ id ∈ rt_queued st ∪ rt_dropped st /\ rt_in_flight st !! id = None;
  k_nodup key lane : rt_lanes st !! key = Some lane -> NoDup (run_ids lane);
  k_disjoint : rt_queued st ## rt_dropped st;
  k_waiting id : id ∈ rt_queued st ∪ rt_dropped st -> exists key lane, rt_lanes st !! key = Some lane /\ id ∈ run_ids lane;
  k_active key lane id : rt_lanes st !! key = Some lane -> l_active_run_id lane = Some id ->
    l_parked lane = false /\ exists s, rt_in_flight st !! id = Some (mkFlight (Some key) s);
  k_flight id key s : rt_in_flight st !! id = Some (mkFlight (Some key) s) ->
    exists lane, rt_lanes st !! key = Some lane /\ l_active_run_id lane = Some id;
  k_seen id f : rt_in_flight st !! id = Some f -> exists k, seen !! id = Some k /\ (forall key, f_lane_key f = Some key -> key = k);
  k_busy key lane : rt_lanes st !! key = Some lane -> idle <> Some key -> is_Some (l_active_run_id lane) \/ l_parked lane = true;
  k_idle key lane : idle = Some key -> rt_lanes st !! key = Some lane -> l_active_run_id lane = None /\ l_parked lane = false;
  k_parked key : key ∈ rt_parked st <-> exists lane, rt_lanes st !! key = Some lane /\ l_parked lane = true;
  k_parked_nodup : NoDup (rt_parked st);
  k_full : loose = false -> rt_parked st <> [] -> _slot_free st = false;
  k_slots m : rt_max_concurrent_runs st = Some m -> (0 <= m)%Z -> (Z.of_nat (lane_flights st) <= m)%Z;
  k_end_wait id : id ∈ rt_queued st -> ends id st = 0 /\ id ∉ silent;
  k_end_drop id : id ∈ rt_dropped st -> ends id st = 1 /\ id ∉ silent;
  k_end_flight id f : rt_in_flight st !! id = Some f ->
    if decide (f_state f = Over) then ends id st + (if decide (id ∈ silent) then 1 else 0) = 1
    else ends id st = 0 /\ id ∉ silent;
  k_end_gone id : is_Some (seen !! id) -> id ∉ rt_queued st -> id ∉ rt_dropped st -> rt_in_flight st !! id = None ->
    ends id st + (if decide (id ∈ silent) then 1 else 0) = 1;
  k_end_unseen id : seen !! id = None -> ends id st = 0 /\ id ∉ silent;
}.

(** Sets without one element. *)
Lemma left_one (x id : string) (A B : gset string) : x ∈ A ∪ B -> x <> id -> x ∈ (A ∖ {[id]}) ∪ B.
Proof. set_solver. Qed.
Lemma left_both (x id : string) (A B : gset string) : x ∈ A ∪ B -> x <> id -> x ∈ (A ∖ {[id]}) ∪ (B ∖ {[id]}).
Proof. set_solver. Qed.
Lemma in_minus (x id : string) (A : gset string) : x ∈ A ∖ {[id]} -> x ∈ A /\ x <> id.
Proof. set_solver. Qed.
Lemma notin_minus (x id : string) (A : gset string) : x ∉ A ∖ {[id]} -> x <> id -> x ∉ A.
Proof. set_solver. Qed.

(** ** Advancing a lane *)

Lemma advance_same key lane queue lane' st : advance key lane queue st = advance key lane queue (upd_lane key lane' st).
Proof.
  revert st. induction queue as [|run rest IH]; intros st; cbn.
  - unfold set_lanes. cbn. by rewrite delete_insert_eq.
  - case_bool_decide; [etrans; [apply IH|]; done|]. change (_slot_free (upd_lane key lane' st)) with (_slot_free st).
    repeat case_match; unfold upd_lane, set_lanes, set_queued, set_parked, _start_run, set_in_flight; cbn;
      by rewrite ?insert_insert_eq.
Qed.

Lemma slot_grows id f st : rt_in_flight st !! id = None -> _slot_free st = false ->
  _slot_free (set_in_flight (<[id := f]> (rt_in_flight st)) st) = false.
Proof.
  intros Hn. unfold _slot_free. cbn. destruct (rt_max_concurrent_runs st); [|done].
  rewrite map_size_insert_None by done. rewrite !Z.ltb_ge. lia.
Qed.

Lemma lane_flights_start id key s st : rt_in_flight st !! id = None ->
  lane_flights (set_in_flight (<[id := mkFlight (Some key) s]> (rt_in_flight st)) st) = S (lane_flights st).
Proof.
  intros Hn. unfold lane_flights. cbn. rewrite map_filter_insert_True by by eexists.
  apply map_size_insert_None. apply map_lookup_filter_None. by left.
Qed.

Lemma lane_flights_le st : lane_flights st <= size (rt_in_flight st).
Proof. apply map_subseteq_size, map_filter_subseteq. Qed.

(** The lane's end: nothing waits on it. *)
Lemma retire_ok key loose seen silent st : rt_lanes st !! key = Some (mkLane [] None false) ->
  inv (Some key) loose seen silent st -> inv None loose seen silent (set_lanes (delete key (rt_lanes st)) st).
Proof.
  intros Hl []. constructor; cbn; try done.
  - intros k lane id Hk. apply lookup_delete_Some in Hk as [? Hk]. by eapply k_queue0.
  - intros k lane Hk. apply lookup_delete_Some in Hk as [? Hk]. by eapply k_nodup0.
  - intros id Hid. destruct (k_waiting0 _ Hid) as (k&lane&Hk&Hin). exists k, lane. split; [|done].
    apply lookup_delete_Some. split; [|done]. intros <-. rewrite Hl in Hk. injection Hk as <-. by apply not_elem_of_nil in Hin.
  - intros k lane id Hk. apply lookup_delete_Some in Hk as [? Hk]. by eapply k_active0.
  - intros id k s Hf. destruct (k_flight0 _ _ _ Hf) as (lane&Hk&Ha). exists lane. split; [|done].
    apply lookup_delete_Some. split; [|done]. intros <-. rewrite Hl in Hk. by injection Hk as <-.
  - intros k lane Hk _. apply lookup_delete_Some in Hk as [? Hk]. eapply k_busy0; [done|congruence].
  - intros k. rewrite k_parked0. split; intros (lane&Hk&Hp); exists lane; (split; [|done]).
    + apply lookup_delete_Some. split; [|done]. intros <-. rewrite Hl in Hk. by injection Hk as <-.
    + by apply lookup_delete_Some in Hk as [? Hk].
Qed.
(** Two lanes never hold one run. *)
Lemma one_lane idle loose seen silent st k1 l1 k2 l2 id : inv idle loose seen silent st ->
  rt_lanes st !! k1 = Some l1 -> id ∈ run_ids l1 -> rt_lanes st !! k2 = Some l2 -> id ∈ run_ids l2 -> k1 = k2.
Proof.
  intros HI H1 I1 H2 I2. destruct (k_queue _ _ _ _ _ HI _ _ _ H1 I1) as [E1 _].
  destruct (k_queue _ _ _ _ _ HI _ _ _ H2 I2) as [E2 _]. congruence.
Qed.

(** A run dropped while it waited leaves its lane. *)
Lemma skip_ok key run rest loose seen silent st :
  rt_lanes st !! key = Some (mkLane (run :: rest) None false) -> dr_run_id run ∈ rt_dropped st ->
  inv (Some key) loose seen silent st ->
  inv (Some key) loose seen silent
    (upd_lane key (mkLane rest None false)
      (set_dropped (rt_dropped st ∖ {[dr_run_id run]}) (set_queued (rt_queued st ∖ {[dr_run_id run]}) st))).
Proof.
  intros Hl Hd HI. set (id := dr_run_id run) in *.
  assert (Hone : forall k lane, rt_lanes st !! k = Some lane -> id ∈ run_ids lane -> key = k).
  { intros k lane Hk Hx. eapply one_lane; [exact HI|exact Hl| |exact Hk|exact Hx]. cbn. by left. }
  pose proof (k_nodup _ _ _ _ _ HI _ _ Hl) as Hnd. cbn in Hnd. apply NoDup_cons in Hnd as [Hnew Hnd]. fold id in Hnew.
  assert (Hin : id ∈ run_ids (mkLane (run :: rest) None false)) by (cbn; left).
  destruct (k_queue _ _ _ _ _ HI _ _ _ Hl Hin) as (Hseen&_&Hnf).
  pose proof HI as []. constructor; cbn; try done.
  - intros k lane x. rewrite lookup_insert. case_decide as Hk; [subst k; intros [= <-] Hx|intros Hk' Hx].
    + assert (x <> id) by (intros ->; done). destruct (k_queue0 _ _ x Hl) as (?&?&?); [by right|]. split_and!; [done|by apply left_both|done].
    + destruct (k_queue0 _ _ x Hk' Hx) as (?&?&?). split_and!; [done| |done].
      apply left_both; [done|]. intros ->. apply Hk. by eapply Hone.
  - intros k lane. rewrite lookup_insert. case_decide; [by intros [= <-]|apply k_nodup0].
  - intros x [Hx _]%in_minus [Hx' _]%in_minus. by apply (k_disjoint0 x).
  - intros x Hx. assert (x ∈ rt_queued st ∪ rt_dropped st /\ x <> id) as [Hx0 Hxid].
    { apply elem_of_union in Hx as [[? ?]%in_minus|[? ?]%in_minus]; (split; [apply elem_of_union; tauto|done]). }
    destruct (k_waiting0 x Hx0) as (k&lane&Hk&Hx').
    destruct (decide (key = k)) as [<-|Hne].
    + rewrite Hl in Hk. injection Hk as <-. exists key, (mkLane rest None false). rewrite lookup_insert_eq. split; [done|].
      cbn in Hx'. apply elem_of_cons in Hx' as [?|?]; done.
    + exists k, lane. by rewrite lookup_insert_ne.
  - intros k lane x. rewrite lookup_insert. case_decide; [by intros [= <-]|apply k_active0].
  - intros x k s Hf. destruct (k_flight0 _ _ _ Hf) as (lane&Hk&Ha). exists lane. split; [|done].
    rewrite lookup_insert_ne; [done|]. intros <-. rewrite Hl in Hk. by injection Hk as <-.
  - intros k lane. rewrite lookup_insert. case_decide; [congruence|apply k_busy0].
  - intros k lane Hk. rewrite lookup_insert. case_decide; [by intros [= <-]|by apply k_idle0].
  - intros k. rewrite k_parked0. split; intros (lane&Hk&Hp); exists lane; (split; [|done]).
    + rewrite lookup_insert_ne; [done|]. intros <-. rewrite Hl in Hk. by injection Hk as <-.
    + rewrite lookup_insert in Hk. case_decide; [by simplify_eq|done].
  - intros x [Hx _]%in_minus. by apply k_end_wait0.
  - intros x [Hx _]%in_minus. by apply k_end_drop0.
  - intros x Hs Hq Hd' Hf. destruct (decide (x = id)) as [->|Hne]; [|by apply k_end_gone0; [|eapply notin_minus..|]].
    destruct (k_end_drop0 _ Hd) as [E Hsil]. change (ends id st + (if decide (id ∈ silent) then 1 else 0) = 1).
    rewrite decide_False by done. lia.
Qed.

(** The head of an idle lane starts. *)
Lemma start_ok key run rest loose seen silent st :
  rt_lanes st !! key = Some (mkLane (run :: rest) None false) -> dr_run_id run ∉ rt_dropped st -> _slot_free st = true ->
  inv (Some key) loose seen silent st ->
  inv None loose seen silent
    (_start_run (dr_run_id run) (Some key)
      (upd_lane key (mkLane rest (Some (dr_run_id run)) false) (set_queued (rt_queued st ∖ {[dr_run_id run]}) st))).
Proof.
  intros Hl Hd Hslot HI. set (id := dr_run_id run) in *.
  assert (Hone : forall k lane, rt_lanes st !! k = Some lane -> id ∈ run_ids lane -> key = k).
  { intros k lane Hk Hx. eapply one_lane; [exact HI|exact Hl| |exact Hk|exact Hx]. cbn. by left. }
  pose proof (k_nodup _ _ _ _ _ HI _ _ Hl) as Hnd. cbn in Hnd. apply NoDup_cons in Hnd as [Hnew Hnd]. fold id in Hnew.
  assert (Hin : id ∈ run_ids (mkLane (run :: rest) None false)) by (cbn; left).
  destruct (k_queue _ _ _ _ _ HI _ _ _ Hl Hin) as (Hseen&Hw&Hnf).
  assert (Hq : id ∈ rt_queued st) by (by apply elem_of_union in Hw as [?|?]).
  pose proof HI as []. constructor; cbn; try done.
  - intros k lane x. rewrite lookup_insert. case_decide as Hk; [subst k; intros [= <-] Hx|intros Hk' Hx].
    + assert (x <> id) by (intros ->; done). destruct (k_queue0 _ _ x Hl) as (?&?&?); [by right|].
      split_and!; [done|by apply left_one|by rewrite lookup_insert_ne].
    + destruct (k_queue0 _ _ x Hk' Hx) as (?&?&?). assert (x <> id) by (intros ->; apply Hk; by eapply Hone).
      split_and!; [done|by apply left_one|by rewrite lookup_insert_ne].
  - intros k lane. rewrite lookup_insert. case_decide; [by intros [= <-]|apply k_nodup0].
  - intros x [Hx _]%in_minus Hx'. by apply (k_disjoint0 x).
  - intros x Hx. assert (x ∈ rt_queued st ∪ rt_dropped st /\ x <> id) as [Hx0 Hxid].
    { apply elem_of_union in Hx as [[? ?]%in_minus|?]; (split; [apply elem_of_union; tauto|]); [done|by intros ->]. }
    destruct (k_waiting0 x Hx0) as (k&lane&Hk&Hx').
    destruct (decide (key = k)) as [<-|Hne].
    + rewrite Hl in Hk. injection Hk as <-. eexists key, _. rewrite lookup_insert_eq. split; [done|].
      cbn in Hx'. apply elem_of_cons in Hx' as [?|?]; done.
    + exists k, lane. by rewrite lookup_insert_ne.
  - intros k lane x. rewrite lookup_insert. case_decide as Hk.
    + subst k. intros [= <-] [= <-]. split; [done|]. exists Created. by rewrite lookup_insert_eq.
    + intros Hk' Ha. destruct (k_active0 _ _ _ Hk' Ha) as [? [s Hs]]. split; [done|]. exists s.
      rewrite lookup_insert_ne; [done|]. intros <-. congruence.
  - intros x k s. rewrite lookup_insert. case_decide as Hx.
    + subst x. intros [= <- _]. eexists. rewrite lookup_insert_eq. by split.
    + intros Hf. destruct (k_flight0 _ _ _ Hf) as (lane&Hk&Ha). exists lane. split; [|done].
      rewrite lookup_insert_ne; [done|]. intros <-. rewrite Hl in Hk. by injection Hk as <-.
  - intros x f. rewrite lookup_insert. case_decide; [subst; intros [= <-]; exists key; split; [done|by intros ? [= <-]]|apply k_seen0].
  - intros k lane. rewrite lookup_insert. case_decide; [intros [= <-] _; left; by eexists|].
    intros Hk _. eapply k_busy0; [done|congruence].
  - intros k. rewrite k_parked0. split; intros (lane&Hk&Hp); exists lane; (split; [|done]).
    + rewrite lookup_insert_ne; [done|]. intros <-. rewrite Hl in Hk. by injection Hk as <-.
    + rewrite lookup_insert in Hk. case_decide; [by simplify_eq|done].
  - intros Hlo Hp. specialize (k_full0 Hlo Hp). congruence.
  - intros m Hm H0. unfold _slot_free in Hslot. rewrite Hm in Hslot. apply Z.ltb_lt in Hslot.
    pose proof (lane_flights_start id key Created st Hnf) as E. pose proof (lane_flights_le st).
    change (Z.of_nat (lane_flights (set_in_flight (<[id := mkFlight (Some key) Created]> (rt_in_flight st)) st)) <= m)%Z. lia.
  - intros x [Hx _]%in_minus. by apply k_end_wait0.
  - intros x f. rewrite lookup_insert. case_decide as Hx; [subst x; intros [= <-]; apply (k_end_wait0 _ Hq)|apply k_end_flight0].
  - intros x Hs Hqx Hdx. rewrite lookup_insert. case_decide; [done|]. intros Hf. apply k_end_gone0; [done| |done|done]. by eapply notin_minus.
Qed.

(** No slot is free: the lane parks. *)
Lemma park_ok key queue loose seen silent st :
  rt_lanes st !! key = Some (mkLane queue None false) -> _slot_free st = false -> inv (Some key) loose seen silent st ->
  inv None loose seen silent (set_parked (rt_parked st ++ [key]) (upd_lane key (mkLane queue None true) st)).
Proof.
  intros Hl Hslot HI. pose proof HI as []. 
  assert (Hnp : key ∉ rt_parked st) by (rewrite k_parked0; intros (lane&Hk&Hp); rewrite Hl in Hk; by injection Hk as <-).
  constructor; cbn; try done.
  - intros k lane x. rewrite lookup_insert. case_decide; [subst k; intros [= <-]; apply (k_queue0 _ _ x Hl)|apply k_queue0].
  - intros k lane. rewrite lookup_insert. case_decide; [intros [= <-]; apply (k_nodup0 _ _ Hl)|apply k_nodup0].
  - intros x Hx. destruct (k_waiting0 x Hx) as (k&lane&Hk&Hx'). destruct (decide (key = k)) as [<-|Hne].
    + rewrite Hl in Hk. injection Hk as <-. eexists key, _. rewrite lookup_insert_eq. by split.
    + exists k, lane. by rewrite lookup_insert_ne.
  - intros k lane x. rewrite lookup_insert. case_decide; [by intros [= <-]|apply k_active0].
  - intros x k s Hf. destruct (k_flight0 _ _ _ Hf) as (lane&Hk&Ha). exists lane. split; [|done].
    rewrite lookup_insert_ne; [done|]. intros <-. rewrite Hl in Hk. by injection Hk as <-.
  - intros k lane. rewrite lookup_insert. case_decide; [intros [= <-] _; by right|].
    intros Hk _. eapply k_busy0; [done|congruence].
  - intros k. rewrite elem_of_app, list_elem_of_singleton, k_parked0. split.
    + intros [(lane&Hk&Hp)| ->]; [exists lane|eexists; by rewrite lookup_insert_eq]. split; [|done].
      rewrite lookup_insert_ne; [done|]. intros <-. rewrite Hl in Hk. by injection Hk as <-.
    + intros (lane&Hk&Hp). rewrite lookup_insert in Hk. case_decide; [by right|left; by exists lane].
  - apply NoDup_app. split_and!; [done|by intros x Hx ->%list_elem_of_singleton|apply NoDup_singleton].
Qed.

Lemma advance_ok key queue loose seen silent st :
  rt_lanes st !! key = Some (mkLane queue None false) -> inv (Some key) loose seen silent st ->
  inv None loose seen silent (advance key (mkLane queue None false) queue st).
Proof.
  assert (Hgen : forall q0, rt_lanes st !! key = Some (mkLane queue None false) -> inv (Some key) loose seen silent st ->
    inv None loose seen silent (advance key (mkLane q0 None false) queue st)); [|auto].
  revert st. induction queue as [|run rest IH]; intros st q0 Hl HI; cbn [advance].
  - by apply retire_ok.
  - case_bool_decide as Hd.
    + rewrite (advance_same _ _ _ (mkLane rest None false)). apply IH; [cbn; by rewrite lookup_insert_eq|]. by apply skip_ok.
    + destruct (_slot_free st) eqn:Hs; cbn [l_parked]; [by apply start_ok|by apply park_ok].
Qed.

Lemma lane_next_ok key loose seen silent st : inv (Some key) loose seen silent st -> inv None loose seen silent (_lane_next key st).
Proof.
  intros HI. unfold _lane_next. destruct (rt_lanes st !! key) as [[q a p]|] eqn:Hl.
  - destruct (k_idle _ _ _ _ _ HI key _ eq_refl Hl) as [Ha Hp]. cbn in Ha, Hp. subst a p. by apply advance_ok.
  - pose proof HI as []. constructor; try done. intros k lane Hk _. eapply k_busy0; [done|congruence].
Qed.
(** ** Kicking the parked lanes *)

Lemma advance_parks key lane queue st :
  rt_parked (advance key lane queue st) = rt_parked st \/ _slot_free (advance key lane queue st) = false.
Proof.
  revert st. induction queue as [|run rest IH]; intros st; cbn; [by left|].
  case_bool_decide; [exact (IH (set_dropped _ (set_queued _ st)))|]. destruct (_slot_free st) eqn:Hs; [by left|].
  right. by destruct (l_parked lane).
Qed.

Lemma unpark_ok key rest lane loose seen silent st : rt_parked st = key :: rest -> rt_lanes st !! key = Some lane ->
  inv None loose seen silent st ->
  inv (Some key) loose seen silent (upd_lane key (set_l_parked false lane) (set_parked rest st)).
Proof.
  intros Hp Hl HI. pose proof HI as []. rewrite Hp in *. apply NoDup_cons in k_parked_nodup0 as [Hnew Hnd].
  assert (l_parked lane = true) as Hpk.
  { destruct (proj1 (k_parked0 key)) as (l&Hk&?); [by left|]. rewrite Hl in Hk. by injection Hk as <-. }
  assert (l_active_run_id lane = None) as Ha.
  { destruct (l_active_run_id lane) eqn:Ha; [|done]. destruct (k_active0 _ _ _ Hl Ha). congruence. }
  constructor; cbn; try done.
  - intros k l x. rewrite lookup_insert. case_decide; [subst k; intros [= <-]; apply (k_queue0 _ _ x Hl)|apply k_queue0].
  - intros k l. rewrite lookup_insert. case_decide; [intros [= <-]; apply (k_nodup0 _ _ Hl)|apply k_nodup0].
  - intros x Hx. destruct (k_waiting0 x Hx) as (k&l&Hk&Hx'). destruct (decide (key = k)) as [<-|Hne].
    + rewrite Hl in Hk. injection Hk as <-. eexists key, _. rewrite lookup_insert_eq. by split.
    + exists k, l. by rewrite lookup_insert_ne.
  - intros k l x. rewrite lookup_insert. case_decide; [intros [= <-]; cbn; congruence|apply k_active0].
  - intros x k s Hf. destruct (k_flight0 _ _ _ Hf) as (l&Hk&Hact). exists l. split; [|done].
    rewrite lookup_insert_ne; [done|]. intros <-. rewrite Hl in Hk. injection Hk as <-. congruence.
  - intros k l. rewrite lookup_insert. case_decide; [congruence|]. intros Hk _. by eapply k_busy0.
  - intros k l [= <-]. rewrite lookup_insert_eq. by intros [= <-].
  - intros k. split.
    + intros Hk. destruct (proj1 (k_parked0 k)) as (l&Hkl&?); [by right|]. exists l. split; [|done].
      rewrite lookup_insert_ne; [done|]. intros ->. done.
    + intros (l&Hkl&Hpl). rewrite lookup_insert in Hkl. case_decide as Hk; [by simplify_eq|].
      assert (k ∈ key :: rest) as Hin by (apply k_parked0; by exists l). apply elem_of_cons in Hin as [Hin|Hin]; [congruence|done].
  - intros Hlo Hr. apply k_full0; [done|done].
Qed.

Lemma kick_ok fuel loose seen silent st : inv None loose seen silent st ->
  length (rt_parked st) <= fuel \/ _slot_free st = false ->
  inv None loose seen silent (kick fuel st) /\ (rt_parked (kick fuel st) = [] \/ _slot_free (kick fuel st) = false).
Proof.
  revert st. induction fuel as [|fuel IH]; intros st HI Hf; cbn [kick].
  - split; [done|]. destruct Hf as [Hf|]; [left|by right]. by destruct (rt_parked st); [|cbn in Hf; lia].
  - destruct (rt_parked st) as [|key rest] eqn:Hp; [rewrite Hp; auto|].
    destruct (_slot_free st) eqn:Hs; [|rewrite Hs; auto]. cbn in Hf.
    destruct (k_parked _ _ _ _ _ HI key) as [Hk _]. destruct Hk as (lane&Hl&_); [rewrite Hp; by left|].
    change (rt_lanes (set_parked rest st) !! key) with (rt_lanes st !! key). rewrite Hl. apply IH.
    + apply lane_next_ok. by apply unpark_ok.
    + unfold _lane_next. cbn [rt_lanes upd_lane set_lanes]. rewrite lookup_insert_eq.
      edestruct advance_parks as [E|E]; [left|by right]. rewrite E. cbn. destruct Hf; [lia|done].
Qed.

Lemma tighten loose seen silent st : inv None loose seen silent st -> rt_parked st = [] \/ _slot_free st = false ->
  inv None false seen silent st.
Proof. intros [] Hor. constructor; try done. intros _ Hp. by destruct Hor. Qed.

Lemma kick_parked_ok seen silent st : inv None true seen silent st -> inv None false seen silent (_kick_parked st).
Proof. intros HI. destruct (kick_ok (length (rt_parked st)) _ _ _ _ HI) as [HI' Hor]; [by left|]. by eapply tighten. Qed.

(** ** A task's callback *)

Lemma lane_flights_delete id st : lane_flights (set_in_flight (delete id (rt_in_flight st)) st) <= lane_flights st.
Proof. unfold lane_flights. cbn. rewrite map_filter_delete. apply map_subseteq_size, delete_subseteq. Qed.

(** The flight is gone; its lane, if it had one, is idle. *)
Lemma land_ok id key loose seen silent st : rt_in_flight st !! id = Some (mkFlight key Over) ->
  inv None loose seen silent st ->
  let st1 := set_in_flight (delete id (rt_in_flight st)) st in
  match key with
  | None => inv None true seen silent st1
  | Some k => exists lane, rt_lanes st1 !! k = Some lane /\ l_active_run_id lane = Some id /\
      inv (Some k) true seen silent (upd_lane k (set_l_active_run_id None lane) st1)
  end.
Proof.
  intros Hf HI st1. pose proof HI as []. destruct (k_seen0 _ _ Hf) as (k0&Hseen&_).
  assert (Hends : ends id st + (if decide (id ∈ silent) then 1 else 0) = 1) by (specialize (k_end_flight0 _ _ Hf); cbn in *; done).
  assert (Hq : forall k lane x, rt_lanes st !! k = Some lane -> x ∈ run_ids lane ->
    seen !! x = Some k /\ x ∈ rt_queued st ∪ rt_dropped st /\ delete id (rt_in_flight st) !! x = None).
  { intros k lane x Hk Hx. destruct (k_queue0 _ _ _ Hk Hx) as (?&?&?). split_and!; [done..|]. apply lookup_delete_None. by right. }
  assert (Hgone : forall x, is_Some (seen !! x) -> x ∉ rt_queued st -> x ∉ rt_dropped st -> delete id (rt_in_flight st) !! x = None ->
    ends x st + (if decide (x ∈ silent) then 1 else 0) = 1).
  { intros x Hs Hxq Hxd Hn. apply lookup_delete_None in Hn as [<-|Hn]; [done|by apply k_end_gone0]. }
  assert (Hsl : forall m, rt_max_concurrent_runs st = Some m -> (0 <= m)%Z ->
    (Z.of_nat (lane_flights (set_in_flight (delete id (rt_in_flight st)) st)) <= m)%Z).
  { intros m Hm H0. pose proof (lane_flights_delete id st). specialize (k_slots0 m Hm H0). lia. }
  destruct key as [k|].
  - destruct (k_flight0 _ _ _ Hf) as (lane&Hl&Ha). exists lane. split; [done|]. split; [done|].
    destruct (k_active0 _ _ _ Hl Ha) as [Hpk _].
    assert (Hfl : forall x k' s, delete id (rt_in_flight st) !! x = Some (mkFlight (Some k') s) ->
      exists lane', rt_lanes st !! k' = Some lane' /\ l_active_run_id lane' = Some x /\ k' <> k).
    { intros x k' s Hx. apply lookup_delete_Some in Hx as [Hne Hx]. destruct (k_flight0 _ _ _ Hx) as (l&?&?). exists l. split_and!; [done..|].
      intros ->. congruence. }
    constructor; cbn; try done.
    + intros k' l x Hk. apply lookup_insert_Some in Hk as [[<- <-]|[_ Hk]]; [apply (Hq _ _ x Hl)|by apply Hq].
    + intros k' l. rewrite lookup_insert. destruct (decide (k = k')) as [<-|Hkk]; [intros [= <-]; apply (k_nodup0 _ _ Hl)|apply k_nodup0].
    + intros x Hx. destruct (k_waiting0 x Hx) as (k'&l&Hk&Hx'). destruct (decide (k = k')) as [<-|Hne].
      * rewrite Hl in Hk. injection Hk as <-. eexists k, _. rewrite lookup_insert_eq. by split.
      * exists k', l. by rewrite lookup_insert_ne.
    + intros k' l x. rewrite lookup_insert. destruct (decide (k = k')) as [<-|Hkk]; [by intros [= <-]|]. intros Hk Hact.
      destruct (k_active0 _ _ _ Hk Hact) as [? [s Hs]]. split; [done|]. exists s. rewrite lookup_delete_ne; [done|].
      intros <-. congruence.
    + intros x k' s Hx. destruct (Hfl _ _ _ Hx) as (l&Hk&Hact&Hne). exists l. by rewrite lookup_insert_ne.
    + intros x f Hx. apply lookup_delete_Some in Hx as [_ Hx]. by eapply k_seen0.
    + intros k' l. rewrite lookup_insert. destruct (decide (k = k')) as [<-|Hkk]; [congruence|]. intros Hk _. by eapply k_busy0.
    + intros k' l [= <-]. rewrite lookup_insert_eq. by intros [= <-].
    + intros k'. rewrite k_parked0. split; intros (l&Hk&Hp); exists l; (split; [|done]).
      * rewrite lookup_insert_ne; [done|]. intros <-. rewrite Hl in Hk. injection Hk as <-. congruence.
      * rewrite lookup_insert in Hk. destruct (decide (k = k')) as [<-|Hkk]; [simplify_eq; cbn in Hp; congruence|done].
    + intros x f Hx. apply lookup_delete_Some in Hx as [_ Hx]. by apply k_end_flight0.
  - constructor; cbn; try done.
    + intros k l x Hk Hact. destruct (k_active0 _ _ _ Hk Hact) as [? [s Hs]]. split; [done|]. exists s.
      rewrite lookup_delete_ne; [done|]. intros <-. congruence.
    + intros x k s Hx. apply lookup_delete_Some in Hx as [_ Hx]. by eapply k_flight0.
    + intros x f Hx. apply lookup_delete_Some in Hx as [_ Hx]. by eapply k_seen0.
    + intros x f Hx. apply lookup_delete_Some in Hx as [_ Hx]. by apply k_end_flight0.
Qed.

Lemma done_ok id key seen silent st : rt_in_flight st !! id = Some (mkFlight key Over) ->
  inv None false seen silent st -> inv None false seen silent (_done id key st).
Proof.
  intros Hf HI. pose proof (land_ok _ _ _ _ _ _ Hf HI) as Hl. unfold _done. apply kick_parked_ok.
  destruct key as [k|]; [|done]. destruct Hl as (lane&Hk&Ha&HI'). rewrite Hk, bool_decide_eq_true_2 by done. by apply lane_next_ok.
Qed.
(** ** Tasks that begin, report, end *)

Lemma ends_put id x o st : ends id (put (x, o) st) = ends id st + (if decide (x = id /\ o = None) then 1 else 0).
Proof.
  unfold ends. cbn. rewrite filter_app, length_app, filter_cons, filter_nil. f_equal.
  destruct (decide ((x, o) = (id, None))), (decide (x = id /\ o = None)); naive_solver.
Qed.

Lemma lane_flights_alter id s st : is_Some (rt_in_flight st !! id) -> lane_flights (set_state id s st) = lane_flights st.
Proof.
  intros [f Hf]. unfold lane_flights, set_state. cbn. set (P := fun kv : string * flight => is_Some (f_lane_key kv.2)).
  assert (alter (fun g => mkFlight (f_lane_key g) s) id (rt_in_flight st) = <[id := mkFlight (f_lane_key f) s]> (rt_in_flight st)) as ->.
  { apply map_eq. intros k. rewrite lookup_alter, lookup_insert. destruct (decide (id = k)) as [<-|]; [by rewrite Hf|done]. }
  destruct (decide (is_Some (f_lane_key f))) as [Hk|Hk].
  - rewrite map_filter_insert_True by exact Hk. apply map_size_insert_Some. exists f. apply map_lookup_filter_Some. by split.
  - rewrite map_filter_insert_False by exact Hk. rewrite <- (insert_id _ _ _ Hf) at 2. by rewrite map_filter_insert_False by exact Hk.
Qed.

(** Only [id]'s task and its end markers change. *)
Lemma task_ok id s seen silent silent' st st' f : inv None false seen silent st -> rt_in_flight st !! id = Some f ->
  rt_max_concurrent_runs st' = rt_max_concurrent_runs st -> rt_lanes st' = rt_lanes st -> rt_queued st' = rt_queued st ->
  rt_parked st' = rt_parked st -> rt_dropped st' = rt_dropped st -> rt_in_flight st' = rt_in_flight (set_state id s st) ->
  (forall x, x <> id -> ends x st' = ends x st /\ (x ∈ silent' <-> x ∈ silent)) ->
  (if decide (s = Over) then ends id st' + (if decide (id ∈ silent') then 1 else 0) = 1 else ends id st' = 0 /\ id ∉ silent') ->
  inv None false seen silent' st'.
Proof.
  intros HI Hf Em El Eq Ep Ed Ef Hother Hid. pose proof (lane_flights_alter id s st ltac:(by eexists)) as Elf.
  assert (Hsize : size (rt_in_flight st') = size (rt_in_flight st)).
  { rewrite Ef. unfold set_state. cbn. rewrite <- !size_dom. by rewrite dom_alter_L. }
  assert (Hlf : lane_flights st' = lane_flights st) by (rewrite <- Elf; unfold lane_flights; by rewrite Ef).
  assert (Hlook : forall x, rt_in_flight st' !! x = if decide (id = x) then Some (mkFlight (f_lane_key f) s) else rt_in_flight st !! x).
  { intros x. rewrite Ef. unfold set_state. cbn. rewrite lookup_alter. destruct (decide (id = x)) as [<-|]; [by rewrite Hf|done]. }
  pose proof HI as []. destruct (k_seen0 _ _ Hf) as (k0&Hs0&Hk0).
  assert (Hnq : id ∉ rt_queued st ∪ rt_dropped st).
  { intros Hin. destruct (k_waiting0 _ Hin) as (k&l&Hk&Hx). destruct (k_queue0 _ _ _ Hk Hx) as (_&_&?). congruence. }
  apply not_elem_of_union in Hnq as [Hnq Hnd].
  constructor; rewrite ?El, ?Eq, ?Ep, ?Ed, ?Em; try done.
  - intros k l x Hk Hx. destruct (k_queue0 _ _ _ Hk Hx) as (?&?&?). split_and!; [done..|]. rewrite Hlook.
    destruct (decide (id = x)) as [<-|]; [congruence|done].
  - intros k l x Hk Ha. destruct (k_active0 _ _ _ Hk Ha) as [? [s0 Hs]]. split; [done|]. rewrite Hlook.
    destruct (decide (id = x)) as [<-|]; [|by exists s0]. exists s. rewrite Hf in Hs. by injection Hs as ->.
  - intros x k s0. rewrite Hlook. destruct (decide (id = x)) as [<-|]; [|apply k_flight0].
    destruct f as [fk fs]. cbn. intros [= -> _]. by eapply k_flight0.
  - intros x f0. rewrite Hlook. destruct (decide (id = x)) as [<-|]; [intros [= <-]; by exists k0|apply k_seen0].
  - intros _ Hp. specialize (k_full0 eq_refl Hp). unfold _slot_free in *. by rewrite Em, Hsize.
  - by rewrite Hlf.
  - intros x Hx. assert (x <> id) as Hne by (by intros ->). destruct (Hother _ Hne) as [-> Hi]. rewrite Hi. by apply k_end_wait0.
  - intros x Hx. assert (x <> id) as Hne by (by intros ->). destruct (Hother _ Hne) as [-> Hi]. rewrite Hi. by apply k_end_drop0.
  - intros x f0. rewrite Hlook. destruct (decide (id = x)) as [<-|Hne]; [by intros [= <-]|]. intros Hx.
    destruct (Hother x) as [-> Hi]; [done|]. specialize (k_end_flight0 _ _ Hx). destruct (decide (f_state f0 = Over)).
    + destruct (decide (x ∈ silent)), (decide (x ∈ silent')); tauto.
    + by rewrite Hi.
  - intros x Hs Hq Hd. rewrite Hlook. destruct (decide (id = x)) as [<-|Hne]; [done|]. intros Hn.
    destruct (Hother x) as [-> Hi]; [done|]. specialize (k_end_gone0 _ Hs Hq Hd Hn). destruct (decide (x ∈ silent)), (decide (x ∈ silent')); tauto.
  - intros x Hx. assert (x <> id) as Hne by (intros ->; congruence). destruct (Hother _ Hne) as [-> Hi]. rewrite Hi. by apply k_end_unseen0.
Qed.

Lemma emit_ok seen silent st x ev : inv None false seen silent st -> inv None false seen silent (put (x, Some ev) st).
Proof.
  assert (He : forall id, ends id (put (x, Some ev) st) = ends id st).
  { intros id. rewrite ends_put. rewrite decide_False by (by intros [_ ?]). lia. }
  intros []. constructor; try done; intros id; rewrite ?He; [by apply k_end_wait0|by apply k_end_drop0| |by apply k_end_gone0|by apply k_end_unseen0].
  intros f Hf. by apply k_end_flight0.
Qed.

(** ** Cancelling a run that waits *)

Lemma drop_ok id seen silent st : id ∈ rt_queued st -> inv None false seen silent st ->
  inv None false seen silent (put (id, None) (set_dropped ({[id]} ∪ rt_dropped st) (set_queued (rt_queued st ∖ {[id]}) st))).
Proof.
  intros Hq HI. set (st1 := set_dropped _ _).
  assert (He : forall x, ends x (put (id, None) st1) = ends x st + if decide (id = x) then 1 else 0).
  { intros x. rewrite ends_put. f_equal. destruct (decide (id = x /\ _)), (decide (id = x)); tauto. }
  assert (Hu : forall x, x ∈ (rt_queued st ∖ {[id]}) ∪ ({[id]} ∪ rt_dropped st) <-> x ∈ rt_queued st ∪ rt_dropped st).
  { intros x. clear -Hq. destruct (decide (x = id)); set_solver. }
  pose proof HI as []. destruct (k_end_wait0 _ Hq) as [E0 Hs0].
  assert (Hnf : rt_in_flight st !! id = None).
  { destruct (k_waiting0 id) as (k&l&Hk&Hx); [apply elem_of_union; by left|]. by destruct (k_queue0 _ _ _ Hk Hx) as (_&_&?). }
  constructor; try done; cbn [put set_dropped set_queued rt_queued rt_dropped rt_lanes rt_in_flight st1].
  - intros k l x Hk Hx. rewrite Hu. by apply (k_queue0 _ _ x Hk).
  - intros x [Hx Hne]%in_minus [->%elem_of_singleton|Hd]%elem_of_union; [done|]. by apply (k_disjoint0 x).
  - intros x Hx. rewrite Hu in Hx. by apply k_waiting0.
  - intros x [Hx Hne]%in_minus. rewrite He. rewrite decide_False by congruence. destruct (k_end_wait0 _ Hx). split; [lia|done].
  - intros x [->%elem_of_singleton|Hx]%elem_of_union; rewrite He.
    + rewrite decide_True by done. split; [lia|done].
    + destruct (decide (id = x)) as [<-|]; [by destruct (k_disjoint0 id)|]. destruct (k_end_drop0 _ Hx). split; [lia|done].
  - intros x f Hf. rewrite !He, !(decide_False (P := id = x)), !Nat.add_0_r by congruence. by apply k_end_flight0.
  - intros x Hs Hxq Hxd Hf. rewrite He. apply not_elem_of_union in Hxd as [Hxi Hxd]. rewrite not_elem_of_singleton in Hxi.
    rewrite decide_False by congruence. rewrite Nat.add_0_r. apply k_end_gone0; try done. eapply notin_minus; [done|done].
  - intros x Hx. rewrite He. rewrite decide_False; [rewrite Nat.add_0_r; by apply k_end_unseen0|]. intros <-.
    destruct (k_waiting0 id) as (k&l&Hk&Hin); [apply elem_of_union; by left|]. destruct (k_queue0 _ _ _ Hk Hin). congruence.
Qed.

Lemma cancel_inv id seen silent st : inv None false seen silent st ->
  inv None false seen (if bool_decide (state_of id st = Some Created) then {[id]} ∪ silent else silent) (cancel id st).
Proof.
  intros HI. unfold cancel, state_of. destruct (rt_in_flight st !! id) as [f|] eqn:Hf; cbn.
  - destruct f as [k [| |]]; cbn; [rewrite bool_decide_eq_true_2 by done|by rewrite bool_decide_eq_false_2..].
    pose proof (k_end_flight _ _ _ _ _ HI _ _ Hf) as He. cbn in He. destruct He as [He Hs].
    eapply (task_ok id Over seen silent _ st); try done.
    + cbn. apply map_eq. intros x. rewrite lookup_alter, lookup_insert. destruct (decide (id = x)) as [<-|]; [by rewrite Hf|done].
    + intros x Hne. split; [done|]. set_solver.
    + rewrite decide_True by done. rewrite decide_True by set_solver. change (ends id st + 1 = 1). lia.
  - rewrite bool_decide_eq_false_2 by done. case_bool_decide; [by apply drop_ok|done].
Qed.
(** ** Accepting a run *)

Record unheard (id : string) (silent : gset string) (st : runtime) : Prop := {
  u_flight : rt_in_flight st !! id = None;
  u_queued : id ∉ rt_queued st;
  u_dropped : id ∉ rt_dropped st;
  u_lanes key lane : rt_lanes st !! key = Some lane -> id ∉ run_ids lane;
  u_ends : ends id st = 0 /\ id ∉ silent;
}.

Lemma fresh_unheard id seen silent st : inv None false seen silent st -> seen !! id = None -> unheard id silent st.
Proof.
  intros HI Hn. pose proof HI as [].
  assert (Hl : forall key lane, rt_lanes st !! key = Some lane -> id ∉ run_ids lane).
  { intros key lane Hk Hx. destruct (k_queue0 _ _ _ Hk Hx). congruence. }
  assert (Hw : id ∉ rt_queued st ∪ rt_dropped st).
  { intros Hx. destruct (k_waiting0 _ Hx) as (k&l&Hk&Hin). by apply (Hl k l). }
  apply not_elem_of_union in Hw as [Hq Hd]. constructor; try done; [|by apply k_end_unseen0].
  destruct (rt_in_flight st !! id) eqn:Hf; [|done]. destruct (k_seen0 _ _ Hf) as (?&?&_). congruence.
Qed.

Lemma seen_insert (seen : gmap string string) id key x k : seen !! id = None -> seen !! x = Some k -> <[id := key]> seen !! x = Some k.
Proof. intros Hn Hx. rewrite lookup_insert_ne; [done|]. intros <-. congruence. Qed.

Lemma interject_ok id key seen silent st : inv None false seen silent st -> seen !! id = None ->
  inv None false (<[id := key]> seen) silent (_start_run id None st).
Proof.
  intros HI Hn. destruct (fresh_unheard _ _ _ _ HI Hn) as [Uf Uq Ud Ul [Ue Us]]. pose proof HI as []. constructor; try done; cbn.
  - intros k l x Hk Hx. destruct (k_queue0 _ _ _ Hk Hx) as (?&?&?). split_and!; [by apply seen_insert|done|].
    rewrite lookup_insert_ne; [done|]. intros <-. by eapply Ul.
  - intros k l x Hk Ha. destruct (k_active0 _ _ _ Hk Ha) as [? [s Hs]]. split; [done|]. exists s. rewrite lookup_insert_ne; [done|]. intros <-. congruence.
  - intros x k s Hx. apply lookup_insert_Some in Hx as [[_ [=]]|[_ Hx]]. by eapply k_flight0.
  - intros x f Hx. apply lookup_insert_Some in Hx as [[<- <-]|[Hne Hx]]; [exists key; by rewrite lookup_insert_eq|].
    rewrite lookup_insert_ne by done. by eapply k_seen0.
  - intros _ Hp. apply slot_grows; [done|by apply k_full0].
  - intros m Hm H0. unfold lane_flights. cbn. rewrite map_filter_insert_False by (by intros [? [=]]).
    rewrite delete_id by done. by apply k_slots0.
  - intros x f Hx. apply lookup_insert_Some in Hx as [[<- <-]|[Hne Hx]]; [done|by apply k_end_flight0].
  - intros x Hs Hq Hd Hf. apply lookup_insert_None in Hf as [Hf Hne]. rewrite lookup_insert_ne in Hs by done. by apply k_end_gone0.
  - intros x Hx. apply lookup_insert_None in Hx as [Hx _]. by apply k_end_unseen0.
Qed.

Lemma run_ids_snoc lane run x : x ∈ run_ids (set_l_queue (l_queue lane ++ [run]) lane) <-> x ∈ run_ids lane \/ x = dr_run_id run.
Proof. unfold run_ids. cbn. rewrite map_app. cbn. by rewrite elem_of_app, list_elem_of_singleton. Qed.

(** The run joins its lane's queue; a lane made for it is idle. *)
Lemma enqueue_ok run lane seen silent st : inv None false seen silent st -> seen !! dr_run_id run = None ->
  let key := lane_key run in
  match rt_lanes st !! key with Some l => l = lane | None => lane = mkLane [] None false end ->
  inv (match rt_lanes st !! key with Some _ => None | None => Some key end) false (<[dr_run_id run := key]> seen) silent
    (set_queued ({[dr_run_id run]} ∪ rt_queued st) (upd_lane key (set_l_queue (l_queue lane ++ [run]) lane) st)).
Proof.
  intros HI Hn key Hlane. set (id := dr_run_id run) in *. destruct (fresh_unheard _ _ _ _ HI Hn) as [Uf Uq Ud Ul [Ue Us]].
  set (lane1 := set_l_queue _ _).
  assert (Hold : forall x, x ∈ run_ids lane -> rt_lanes st !! key = Some lane).
  { intros x Hx. destruct (rt_lanes st !! key); [by subst|]. subst lane. by apply not_elem_of_nil in Hx. }
  pose proof HI as []. constructor; try done; cbn [set_queued upd_lane set_lanes rt_lanes rt_queued rt_dropped rt_in_flight rt_parked].
  - intros k l x Hk Hx. apply lookup_insert_Some in Hk as [[<- <-]|[Hne Hk]].
    + apply run_ids_snoc in Hx as [Hx| ->].
      * destruct (k_queue0 _ _ _ (Hold _ Hx) Hx) as (?&Hin&?). split_and!; [by apply seen_insert| |done].
        apply elem_of_union in Hin as [?|?]; apply elem_of_union; [left; apply elem_of_union; by right|by right].
      * fold id. rewrite lookup_insert_eq. split_and!; [done| |done]. apply elem_of_union. left. apply elem_of_union. left. by apply elem_of_singleton.
    + destruct (k_queue0 _ _ _ Hk Hx) as (?&Hin&?). split_and!; [by apply seen_insert| |done].
      apply elem_of_union in Hin as [?|?]; apply elem_of_union; [left; apply elem_of_union; by right|by right].
  - intros k l Hk. apply lookup_insert_Some in Hk as [[<- <-]|[Hne Hk]]; [|by eapply k_nodup0].
    unfold run_ids, lane1. cbn. rewrite map_app. apply NoDup_app. split_and!.
    + destruct (rt_lanes st !! key) as [l|] eqn:Hl; [subst l; by apply (k_nodup0 _ _ Hl)|]. subst lane. constructor.
    + cbn. intros x Hx ->%list_elem_of_singleton. by apply (Ul key lane); [by apply (Hold id)|].
    + apply NoDup_singleton.
  - intros x [->%elem_of_singleton|Hx]%elem_of_union Hd; [done|by apply (k_disjoint0 x)].
  - intros x Hx. assert (x = id \/ x ∈ rt_queued st ∪ rt_dropped st) as [->|Hx'].
    { clear -Hx. apply elem_of_union in Hx as [[Hx%elem_of_singleton|Hx]%elem_of_union|Hx]; [by left|right; apply elem_of_union; by left|right; apply elem_of_union; by right]. }
    + exists key, lane1. rewrite lookup_insert_eq. split; [done|]. apply run_ids_snoc. by right.
    + destruct (k_waiting0 _ Hx') as (k&l&Hk&Hin). destruct (decide (key = k)) as [<-|Hne].
      * rewrite Hk in Hlane. subst l. exists key, lane1. rewrite lookup_insert_eq. split; [done|]. apply run_ids_snoc. by left.
      * exists k, l. by rewrite lookup_insert_ne.
  - intros k l x Hk Ha. apply lookup_insert_Some in Hk as [[<- <-]|[Hne Hk]]; [|by eapply k_active0].
    destruct (rt_lanes st !! key) as [l|] eqn:Hl; [subst l; by apply (k_active0 _ _ _ Hl)|by subst lane].
  - intros x k s Hf. destruct (k_flight0 _ _ _ Hf) as (l&Hk&Ha). destruct (decide (key = k)) as [<-|Hne].
    + exists lane1. rewrite lookup_insert_eq. split; [done|]. rewrite Hk in Hlane. by subst l.
    + exists l. by rewrite lookup_insert_ne.
  - intros x f Hf. destruct (k_seen0 _ _ Hf) as (k&Hk&?). exists k. split; [by apply seen_insert|done].
  - intros k l Hk Hi. apply lookup_insert_Some in Hk as [[<- <-]|[Hne Hk]]; [|by eapply k_busy0].
    destruct (rt_lanes st !! key) as [l|] eqn:Hl; [subst l; by apply (k_busy0 _ _ Hl)|congruence].
  - intros k l Hi Hk. destruct (rt_lanes st !! key) as [l0|] eqn:Hl; [done|]. injection Hi as <-.
    rewrite lookup_insert_eq in Hk. injection Hk as <-. by subst lane.
  - intros k. rewrite k_parked0. split; intros (l&Hk&Hp).
    + destruct (decide (key = k)) as [<-|Hne]; [|exists l; by rewrite lookup_insert_ne].
      exists lane1. rewrite lookup_insert_eq. rewrite Hk in Hlane. by subst l.
    + apply lookup_insert_Some in Hk as [[<- <-]|[Hne Hk]]; [|by exists l].
      destruct (rt_lanes st !! key) as [l|] eqn:Hl; [subst l; by exists lane|by subst lane].
  - intros x [->%elem_of_singleton|Hx]%elem_of_union; [done|by apply k_end_wait0].
  - intros x Hs Hq Hd Hf. apply not_elem_of_union in Hq as [Hne Hq]. rewrite not_elem_of_singleton in Hne.
    rewrite lookup_insert_ne in Hs by done. by apply k_end_gone0.
  - intros x Hx. apply lookup_insert_None in Hx as [Hx _]. by apply k_end_unseen0.
Qed.

Lemma accept_ok run st st' seen silent : inv None false seen silent st -> seen !! dr_run_id run = None ->
  deliver takes_interjections run st = (Broker.Answer true, st') ->
  inv None false (<[dr_run_id run := lane_key run]> seen) silent st'.
Proof.
  intros HI Hn. unfold deliver. destruct (rt_running st); [|done].
  destruct (joins run st).
  - destruct (takes_interjections (dr_agent_name run)); [|done]. destruct (_has_room st); [|done]. intros [= <-]. by apply interject_ok.
  - destruct (_has_room st); [|done].
    pose proof (fun lane => enqueue_ok run lane seen silent st HI Hn) as He. cbn in He.
    destruct (rt_lanes st !! lane_key run) as [lane|]; intros [= <-]; [by apply He|]. apply lane_next_ok. by apply (He (mkLane [] None false)).
Qed.

(** ** The invariant of every reachable state *)

Lemma step_ok s s' : step takes_interjections s s' ->
  inv None false (s_seen s) (s_silent s) (s_rt s) -> inv None false (s_seen s') (s_silent s') (s_rt s').
Proof.
  intros [st seen silent|st seen silent|run st st' seen silent Hf Hd|id st seen silent Hs|id ev st seen silent Hs|id st seen silent Hs
    |id key st seen silent Hf|id st seen silent] HI; cbn in *.
  - destruct HI. by constructor.
  - destruct HI. by constructor.
  - by eapply accept_ok.
  - unfold state_of in Hs. destruct (rt_in_flight st !! id) as [f|] eqn:Hf; [|done]. injection Hs as Hs.
    pose proof (k_end_flight _ _ _ _ _ HI _ _ Hf) as He. rewrite decide_False in He by congruence.
    by eapply (task_ok id Running seen silent silent st).
  - by apply emit_ok.
  - unfold state_of in Hs. destruct (rt_in_flight st !! id) as [f|] eqn:Hf; [|done]. injection Hs as Hs.
    pose proof (k_end_flight _ _ _ _ _ HI _ _ Hf) as He. rewrite decide_False in He by congruence. destruct He as [He Hsil].
    eapply (task_ok id Over seen silent silent st); try done.
    + intros x Hne. split; [|done]. rewrite ends_put. rewrite decide_False by naive_solver. apply Nat.add_0_r.
    + rewrite decide_True, (decide_False (P := id ∈ silent)) by done. rewrite ends_put, decide_True by done.
      change (ends id (set_state id Over st)) with (ends id st). lia.
  - by apply done_ok.
  - by apply cancel_inv.
Qed.

Lemma runtime_inv s : reachable takes_interjections s -> inv None false (s_seen s) (s_silent s) (s_rt s).
Proof.
  intros (m&q&Hs). remember (initial m q) as s0 eqn:E0.
  assert (inv None false (s_seen s0) (s_silent s0) (s_rt s0)) as HI.
  { subst s0. constructor; cbn; intros *; rewrite ?lookup_empty; try done; try (by intros ?%not_elem_of_empty); try (by intros []).
    - split; [by intros ?%not_elem_of_nil|by intros (?&?&_)].
    - constructor. }
  clear E0. induction Hs; eauto using step_ok.
Qed.
(** ** The properties *)

(** C23. Two turns of one thread never run at once: of the runs a lane started
    and whose tasks are not over yet, no two were delivered for one thread.
    The lane holding a running turn names it as active and is not parked. *)
Theorem one_run_per_thread s id1 id2 key f1 f2 : reachable takes_interjections s ->
  rt_in_flight (s_rt s) !! id1 = Some f1 -> rt_in_flight (s_rt s) !! id2 = Some f2 ->
  is_Some (f_lane_key f1) -> is_Some (f_lane_key f2) ->
  s_seen s !! id1 = Some key -> s_seen s !! id2 = Some key ->
  id1 = id2 /\ exists lane, rt_lanes (s_rt s) !! key = Some lane /\ l_active_run_id lane = Some id1 /\ l_parked lane = false.
Proof.
  intros Hr H1 H2 [k1 K1] [k2 K2] S1 S2. pose proof (runtime_inv _ Hr) as HI.
  destruct (k_seen _ _ _ _ _ HI _ _ H1) as (?&E1&F1), (k_seen _ _ _ _ _ HI _ _ H2) as (?&E2&F2).
  specialize (F1 _ K1). specialize (F2 _ K2). simplify_eq. destruct f1, f2; cbn in *. simplify_eq.
  destruct (k_flight _ _ _ _ _ HI _ _ _ H1) as (lane&Hl&Ha), (k_flight _ _ _ _ _ HI _ _ _ H2) as (lane2&Hl2&Ha2).
  destruct (k_active _ _ _ _ _ HI _ _ _ Hl Ha) as [? _]. split; [congruence|by exists lane].
Qed.

(** C24. No accepted run is left behind: a run waiting on a lane waits either
    for the run active on that lane, which is in flight, or in the queue of
    parked lanes, and then every execution slot is taken. *)
Theorem no_run_is_stuck s id key lane : reachable takes_interjections s ->
  rt_lanes (s_rt s) !! key = Some lane -> id ∈ run_ids lane ->
  (exists other f, l_active_run_id lane = Some other /\ other <> id /\ rt_in_flight (s_rt s) !! other = Some f) \/
  (key ∈ rt_parked (s_rt s) /\ _slot_free (s_rt s) = false).
Proof.
  intros Hr Hl Hin. pose proof (runtime_inv _ Hr) as HI.
  destruct (k_busy _ _ _ _ _ HI _ _ Hl) as [[other Ha]|Hp]; [done| |].
  - left. destruct (k_active _ _ _ _ _ HI _ _ _ Hl Ha) as [_ [st Hf]]. eexists other, _. split_and!; [done| |done].
    intros ->. destruct (k_queue _ _ _ _ _ HI _ _ _ Hl Hin) as (_&_&?). congruence.
  - right. assert (key ∈ rt_parked (s_rt s)) as Hk by (apply (k_parked _ _ _ _ _ HI); by exists lane). split; [done|].
    apply (k_full _ _ _ _ _ HI); [done|]. intros E. rewrite E in Hk. by apply not_elem_of_nil in Hk.
Qed.

(** The turns lanes start never exceed the declared concurrency. *)
Theorem turns_respect_concurrency s m : reachable takes_interjections s ->
  rt_max_concurrent_runs (s_rt s) = Some m -> (0 <= m)%Z -> (Z.of_nat (lane_flights (s_rt s)) <= m)%Z.
Proof. intros Hr. apply (k_slots _ _ _ _ _ (runtime_inv _ Hr)). Qed.

(** Every accepted run that is neither waiting nor in flight has put
    exactly one end marker, unless it was cancelled before its task's first
    step, and then it has put none; while it waits or runs it has put none. *)
Theorem one_end_per_run s id : reachable takes_interjections s -> is_Some (s_seen s !! id) ->
  ((id ∈ rt_queued (s_rt s) \/ exists f, rt_in_flight (s_rt s) !! id = Some f /\ f_state f <> Over) /\ ends id (s_rt s) = 0) \/
  (id ∉ rt_queued (s_rt s) /\ ends id (s_rt s) = if decide (id ∈ s_silent s) then 0 else 1).
Proof.
  intros Hr Hs. pose proof (runtime_inv _ Hr) as HI. destruct (decide (id ∈ rt_queued (s_rt s))) as [Hq|Hq].
  { left. split; [by left|]. by apply (k_end_wait _ _ _ _ _ HI). }
  destruct (decide (id ∈ rt_dropped (s_rt s))) as [Hd|Hd].
  - right. split; [done|]. destruct (k_end_drop _ _ _ _ _ HI _ Hd) as [-> ?]. by rewrite decide_False.
  - destruct (rt_in_flight (s_rt s) !! id) as [f|] eqn:Hf.
    + pose proof (k_end_flight _ _ _ _ _ HI _ _ Hf) as He. destruct (decide (f_state f = Over)) as [Ho|Ho].
      * right. split; [done|]. destruct (decide (id ∈ s_silent s)); lia.
      * left. destruct He. split; [right; by exists f|done].
    + right. split; [done|]. pose proof (k_end_gone _ _ _ _ _ HI _ Hs Hq Hd Hf). destruct (decide (id ∈ s_silent s)); lia.
Qed.
End runtime.

(** ** Witnesses *)
Module Witness.

Definition hook (agent : string) : bool := String.eqb agent "writer".

Definition turn (id : string) : DeliveredRun := mkDelivered id "writer" [] (Some "thread").
Definition other (id : string) : DeliveredRun := mkDelivered id "writer" [] (Some "elsewhere").
Definition interjection (id addressed : string) : DeliveredRun :=
  mkDelivered id "writer" [("forwardedProps", JObj [("funduq", JObj [("addressedRunId", JStr addressed)])])] (Some "thread").

(** What a schedule leads to. *)
Inductive move : Type := Start | Accept (run : DeliveredRun) | Begin (id : string) | Emit (id : string) | End (id : string) | Done (id : string) | Cancel (id : string).

Definition moved (mv : move) (s : system) : system :=
  let '(mkSystem st seen silent) := s in
  match mv with
  | Start => mkSystem (set_running true st) seen silent
  | Accept run => mkSystem (snd (deliver hook run st)) (<[dr_run_id run := lane_key run]> seen) silent
  | Begin id => mkSystem (set_state id Running st) seen silent
  | Emit id => mkSystem (put (id, Some (JObj [])) st) seen silent
  | End id => mkSystem (put (id, None) (set_state id Over st)) seen silent
  | Done id => mkSystem (_done id (default None (f_lane_key <$> rt_in_flight st !! id)) st) seen silent
  | Cancel id => mkSystem (cancel id st) seen (if bool_decide (state_of id st = Some Created) then {[id]} ∪ silent else silent)
  end.

Definition allowed (mv : move) (s : system) : bool :=
  let '(mkSystem st seen silent) := s in
  match mv with
  | Accept run => bool_decide (seen !! dr_run_id run = None) && match fst (deliver hook run st) with Broker.Answer b => b | _ => false end
  | Begin id => bool_decide (state_of id st = Some Created)
  | Emit id | End id => bool_decide (state_of id st = Some Running)
  | Done id => bool_decide (state_of id st = Some Over)
  | _ => true
  end.

Lemma moved_step mv s : allowed mv s = true -> step hook s (moved mv s).
Proof.
  destruct s as [st seen silent], mv; cbn; rewrite ?andb_true_iff, ?bool_decide_eq_true; try by constructor.
  - intros [Hn Hd]. destruct (deliver hook run st) as [v st'] eqn:E. cbn in *. destruct v as [|[]]; [done| |done]. by apply step_accept.
  - unfold state_of. intros Hs. destruct (rt_in_flight st !! id) as [[k t]|] eqn:E; [|done]. cbn in *. injection Hs as ->. by constructor.
Qed.

Fixpoint play (ms : list move) (s : system) : option system :=
  match ms with
  | [] => Some s
  | mv :: ms => if allowed mv s then play ms (moved mv s) else None
  end.

Lemma play_reachable ms m q s : play ms (initial m q) = Some s -> reachable hook s.
Proof.
  intros Hp. exists m, q. revert Hp. generalize (initial m q). induction ms as [|mv ms IH]; intros s0; cbn; [by intros [= ->]|].
  destruct (allowed mv s0) eqn:Ha; [|done]. intros Hp. eapply rtc_l; [by apply moved_step|by apply IH].
Qed.

(** One slot, one run active, one waiting behind it, one lane parked. *)
Definition busy : list move :=
  [Start; Accept (turn "r1"); Accept (turn "r2"); Begin "r1"; Accept (other "r3"); Emit "r1"].
Definition outcome (ms : list move) (q : Z) : system := default (initial (Some 1%Z) q) (play ms (initial (Some 1%Z) q)).

Definition legal (ms : list move) (q : Z) : bool := bool_decide (is_Some (play ms (initial (Some 1%Z) q))).

Lemma outcome_reachable ms q : legal ms q = true -> reachable hook (outcome ms q).
Proof. intros [s Hs]%bool_decide_eq_true. unfold outcome. rewrite Hs. by eapply play_reachable. Qed.

Lemma busy_ok : reachable hook (outcome busy 2).
Proof. apply outcome_reachable. vm_compute. reflexivity. Qed.

Lemma one_run_per_thread_witness :
  "r1" = "r1" /\ exists lane, rt_lanes (s_rt (outcome busy 2)) !! "thread" = Some lane /\ l_active_run_id lane = Some "r1" /\ l_parked lane = false.
Proof.
  destruct (one_run_per_thread hook (outcome busy 2) "r1" "r1" "thread" (mkFlight (Some "thread") Running) (mkFlight (Some "thread") Running))
    as [E H]; [apply busy_ok| | |by exists "thread"|by exists "thread"| | |]; try (vm_compute; reflexivity).
  exact (conj E H).
Defined.

Lemma no_run_is_stuck_witness :
  (exists o f, l_active_run_id (mkLane [other "r3"] None true) = Some o /\ o <> "r3" /\ rt_in_flight (s_rt (outcome busy 2)) !! o = Some f) \/
  ("elsewhere" ∈ rt_parked (s_rt (outcome busy 2)) /\ _slot_free (s_rt (outcome busy 2)) = false).
Proof.
  apply (no_run_is_stuck hook (outcome busy 2) "r3" "elsewhere" (mkLane [other "r3"] None true)); [apply busy_ok|vm_compute; reflexivity|by left].
Defined.

Lemma turns_respect_concurrency_witness : (Z.of_nat (lane_flights (s_rt (outcome busy 2))) <= 1)%Z.
Proof. apply (turns_respect_concurrency hook); [apply busy_ok|vm_compute; reflexivity|lia]. Defined.

Lemma one_end_per_run_witness :
  let s := outcome (busy ++ [End "r1"; Done "r1"]) 2 in
  (("r1" ∈ rt_queued (s_rt s) \/ exists f, rt_in_flight (s_rt s) !! "r1" = Some f /\ f_state f <> Over) /\ ends "r1" (s_rt s) = 0) \/
  ("r1" ∉ rt_queued (s_rt s) /\ ends "r1" (s_rt s) = if decide ("r1" ∈ s_silent s) then 0 else 1).
Proof. intros s. apply (one_end_per_run hook); [apply outcome_reachable; vm_compute; reflexivity|exists "thread"; vm_compute; reflexivity]. Defined.

(** Declared to run one at a time, the runtime runs two: an interjection that
    finds no slot free but the queue short of its bound starts at once. *)
Theorem interjection_exceeds_concurrency : exists s,
  reachable hook s /\ rt_max_concurrent_runs (s_rt s) = Some 1%Z /\ size (rt_in_flight (s_rt s)) = 2.
Proof.
  exists (outcome [Start; Accept (turn "r1"); Begin "r1"; Accept (interjection "r2" "r1")] 1).
  split; [apply outcome_reachable; vm_compute; reflexivity|vm_compute; by split].
Qed.

(** A run cancelled between its task's creation and its first step never puts
    its end marker. *)
Theorem cancelled_run_never_ends : exists s,
  reachable hook s /\ is_Some (s_seen s !! "r1") /\ rt_in_flight (s_rt s) = ∅ /\ rt_lanes (s_rt s) = ∅ /\ rt_output (s_rt s) = [].
Proof.
  exists (outcome [Start; Accept (turn "r1"); Cancel "r1"; Done "r1"] 1).
  split; [apply outcome_reachable; vm_compute; reflexivity|]. split; [exists "thread"; vm_compute; reflexivity|]. by vm_compute.
Qed.
End Witness.
End RuntimeOk.
