(* ===== verification/Closing.v ===== *)
(** * Starting and closing a runtime (funduq_provider_sdk/runtime.py [start],
    [aclose], [_spawn])

    The runtime with its reporting loop's task, from a [start] to what
    [aclose] waits for.  [_tasks] holds the tasks of the runs in flight and
    the loop's, so it is read off them: a task's [discard] and its [_done]
    are called one after the other.  [c_taken] counts what the loop took off
    the output queue; [c_awaited] is what [gather] was given by the last
    [aclose], the cancelled loop apart, which ends at once. *)

From S2P Require Import Prelude Errors Json Models BrokerState Runtime.

Module Closing.
Import Runtime.

Record closing : Type := mkClosing {
  c_system : system;
  c_taken : nat;
  c_reporting : bool;
  c_awaited : option (gset string);
}.

Definition c_rt (c : closing) : runtime := s_rt (c_system c).

Definition on_rt (f : runtime -> runtime) (s : system) : system := mkSystem (f (s_rt s)) (s_seen s) (s_silent s).

(** [start]: the reporting loop is spawned, unless the runtime is running. *)
Definition start (c : closing) : closing :=
  if rt_running (c_rt c) then c
  else mkClosing (on_rt (set_running true) (c_system c)) (c_taken c) true (c_awaited c).

(** [task.cancel()] on a run's task, which is silent if it never began. *)
Definition cancel_task (run_id : string) (s : system) : system :=
  mkSystem (cancel run_id (s_rt s)) (s_seen s)
    (if bool_decide (state_of run_id (s_rt s) = Some Created) then {[run_id]} ∪ s_silent s else s_silent s).

(** The runs in flight, as [_in_flight] is listed. *)
Definition flying (s : system) : gset string := dom (rt_in_flight (s_rt s)).

(** [for task in list(self._in_flight.values()): task.cancel()]. *)
Definition cancel_all (s : system) : system := foldr cancel_task s (elements (flying s)).

(** [aclose] up to its [gather]. *)
Definition aclose (cancel_in_flight : bool) (c : closing) : closing :=
  let s := on_rt (set_running false) (c_system c) in
  let s := if cancel_in_flight then cancel_all s else s in
  mkClosing s (c_taken c) false (Some (flying s)).

(** The [gather] of the last [aclose] has nothing left to wait for. *)
Definition returned (c : closing) : Prop :=
  exists ids, c_awaited c = Some ids /\ forall id, id ∈ ids -> rt_in_flight (c_rt c) !! id = None.

(** What the loop took, in order. *)
Definition reported (c : closing) : list (string * option json) := take (c_taken c) (rt_output (c_rt c)).

Section system.
Context (takes_interjections : string -> bool).

(** What goes on while the runtime is neither started nor closed. *)
Inductive work : relation closing :=
| work_runtime s s' n r a : Runtime.step takes_interjections s s' -> rt_running (s_rt s') = rt_running (s_rt s) ->
    work (mkClosing s n r a) (mkClosing s' n r a)
| work_report s n a : n < length (rt_output (s_rt s)) -> work (mkClosing s n true a) (mkClosing s (S n) true a).

Inductive step : relation closing :=
| step_work c c' : work c c' -> step c c'
| step_starts c : step c (start c)
| step_closes cancel_in_flight c : step c (aclose cancel_in_flight c).

Definition initial (max_concurrent_runs : option Z) (max_queued_runs : Z) : closing :=
  mkClosing (Runtime.initial max_concurrent_runs max_queued_runs) 0 false None.

Definition reachable (c : closing) : Prop := exists m q, rtc step (initial m q) c.
End system.
End Closing.
