(* ===== verification/ClosingOk.v ===== *)
(** * What closing a runtime comes to

    A run that is over is never started again, so what [aclose] waits for
    only shrinks and it can always return; from the moment it is called
    nothing is accepted and nothing more is reported.  What it waits for is
    what was in flight: a run started by a callback meanwhile is left
    executing, and its end is never reported. *)

From S2P Require Import Prelude Errors Json Models BrokerState Runtime RuntimeOk Closing.

Module ClosingOk.
Import Runtime RuntimeOk Closing.

(** ** A run that is over *)

(** Accepted, neither waiting nor in flight. *)
Definition over (id : string) (s : system) : Prop :=
  is_Some (s_seen s !! id) /\ rt_in_flight (s_rt s) !! id = None /\ id ∉ rt_queued (s_rt s) /\ id ∉ rt_dropped (s_rt s).

(** What advancing lanes does: it starts new tasks, and waiting runs leave the queues. *)
Record moved_on (st st' : runtime) : Prop := {
  mo_flight id f : rt_in_flight st' !! id = Some f -> rt_in_flight st !! id = Some f \/ f_state f = Created;
  mo_queued : rt_queued st' ⊆ rt_queued st;
  mo_dropped : rt_dropped st' ⊆ rt_dropped st;
  mo_output : rt_output st' = rt_output st;
  mo_running : rt_running st' = rt_running st;
}.

#[local] Instance moved_on_preorder : PreOrder moved_on.
Proof.
  split; [intros st; split; by eauto|]. intros st1 st2 st3 [F12 Q12 D12 O12 R12] [F23 Q23 D23 O23 R23]. split; [|set_solver..|congruence|congruence].
  intros id f Hf. destruct (F23 _ _ Hf); auto.
Qed.

Lemma moved_advance key lane queue st : moved_on st (advance key lane queue st).
Proof.
  revert st. induction queue as [|run rest IH]; intros st; cbn [advance]; [by split; eauto|].
  case_bool_decide as Hd; [|destruct (_slot_free st); [|destruct (l_parked lane); by split; eauto]].
  - etrans; [|apply IH]. split; cbn; [by eauto|set_solver..|done|done].
  - split; cbn; [|set_solver..|done|done]. intros id f. rewrite lookup_insert. case_decide; [intros [= <-]; by right|by left].
Qed.

Lemma moved_lane_next key st : moved_on st (_lane_next key st).
Proof. unfold _lane_next. destruct (rt_lanes st !! key); [apply moved_advance|reflexivity]. Qed.

Lemma moved_kick fuel st : moved_on st (kick fuel st).
Proof.
  revert st. induction fuel as [|fuel IH]; intros st; [reflexivity|]. cbn [kick]. destruct (rt_parked st) as [|key rest]; [reflexivity|].
  destruct (_slot_free st); [|reflexivity]. destruct (rt_lanes _ !! key) as [lane|]; (etrans; [|apply IH]); [|by split; eauto].
  etrans; [|apply moved_lane_next]. by split; eauto.
Qed.

Lemma moved_landed id key st : moved_on (set_in_flight (delete id (rt_in_flight st)) st) (_done id key st).
Proof.
  unfold _done, _kick_parked. set (st1 := set_in_flight _ st). etrans; [|apply moved_kick].
  destruct key as [k|]; [|reflexivity]. destruct (rt_lanes st1 !! k) as [lane|]; [|reflexivity]. case_bool_decide; [|reflexivity].
  etrans; [|apply moved_lane_next]. by split; eauto.
Qed.

Lemma moved_done id key st : moved_on st (_done id key st).
Proof.
  etrans; [|apply moved_landed]. split; cbn; [|done..]. intros x f. rewrite lookup_delete. case_decide; [done|by left].
Qed.

(** What a step of the runtime does to a run it has accepted. *)
Record carried_on (id : string) (s s' : system) : Prop := {
  co_seen : is_Some (s_seen s' !! id);
  co_flight f : rt_in_flight (s_rt s') !! id = Some f -> is_Some (rt_in_flight (s_rt s) !! id) \/ f_state f = Created;
  co_queued : id ∈ rt_queued (s_rt s') -> id ∈ rt_queued (s_rt s);
  co_dropped : id ∈ rt_dropped (s_rt s') -> id ∈ rt_dropped (s_rt s) \/ id ∈ rt_queued (s_rt s);
  co_ends : ends id (s_rt s) <= ends id (s_rt s');
  co_silent : id ∈ s_silent s -> id ∈ s_silent s';
}.

Lemma moved_carried id st st' seen silent : moved_on st st' -> is_Some (seen !! id) ->
  carried_on id (mkSystem st seen silent) (mkSystem st' seen silent).
Proof.
  intros [F Q D O _] Hs. split; cbn; [done| |set_solver|set_solver| |done].
  - intros f Hf. destruct (F _ _ Hf) as [->|]; [left; by eexists|by right].
  - unfold ends. by rewrite O.
Qed.

Section runtime.
Context (takes_interjections : string -> bool).
Notation rstep := (Runtime.step takes_interjections).
Notation rreachable := (Runtime.reachable takes_interjections).

Lemma accepted_carried id run st v st' seen silent : Runtime.deliver takes_interjections run st = (v, st') ->
  is_Some (seen !! id) -> seen !! dr_run_id run = None ->
  carried_on id (mkSystem st seen silent) (mkSystem st' (<[dr_run_id run := lane_key run]> seen) silent).
Proof.
  intros Hd Hs Hn. assert (dr_run_id run <> id) as Hne by (intros <-; rewrite Hn in Hs; by destruct Hs).
  assert (is_Some (<[dr_run_id run := lane_key run]> seen !! id)) as Hs' by (by rewrite lookup_insert_ne).
  enough (exists st0, moved_on st0 st' /\ rt_in_flight st0 !! id = rt_in_flight st !! id /\ (id ∈ rt_queued st0 -> id ∈ rt_queued st) /\
    rt_dropped st0 = rt_dropped st /\ rt_output st0 = rt_output st) as (st0&[F Q D O _]&Ef&Eq&Ed&Eo).
  { split; cbn; [done| |set_solver|set_solver| |done].
    - intros f Hf. destruct (F _ _ Hf) as [E|]; [left; rewrite <- Ef, E; by eexists|by right].
    - unfold ends. by rewrite O, Eo. }
  unfold Runtime.deliver in Hd. cbv zeta in Hd.
  destruct (rt_running st); [|injection Hd as _ <-; by exists st].
  destruct (joins run st).
  - destruct (takes_interjections _); [|injection Hd as _ <-; by exists st].
    destruct (_has_room st); injection Hd as _ <-; [|by exists st].
    exists (_start_run (dr_run_id run) None st). split; [reflexivity|]. cbn. by rewrite lookup_insert_ne.
  - destruct (_has_room st); [|injection Hd as _ <-; by exists st].
    destruct (rt_lanes st !! lane_key run) as [lane|]; injection Hd as _ <-; eexists; (split; [first [apply moved_lane_next|reflexivity]|]);
      cbn; split_and!; (done || set_solver).
Qed.

Lemma ends_more id x ev st : ends id st <= ends id (put (x, ev) st).
Proof. unfold ends. cbn. rewrite filter_app, length_app. lia. Qed.

Lemma step_carried id s s' : rstep s s' -> is_Some (s_seen s !! id) -> carried_on id s s'.
Proof.
  intros Hs Hid. destruct Hs as [st seen silent|st seen silent|run st st' seen silent Hn Hd|x st seen silent Hx|x ev st seen silent Hx|
    x st seen silent Hx|x key st seen silent Hx|x st seen silent]; cbn in Hid.
  - split; cbn; by eauto.
  - split; cbn; by eauto.
  - by eapply accepted_carried.
  - split; cbn; eauto. intros f. rewrite lookup_alter. case_decide; [subst|by eauto]. rewrite fmap_Some. intros (f0&Hf&_). left. by exists f0.
  - split; cbn; eauto. apply ends_more.
  - split; cbn; eauto; [|apply (ends_more id x None (set_state x Over st))].
    intros f. rewrite lookup_alter. case_decide; [subst|by eauto]. rewrite fmap_Some. intros (f0&Hf&_). left. by exists f0.
  - apply moved_carried; [apply moved_done|done].
  - unfold cancel. destruct (rt_in_flight st !! x) as [f0|] eqn:Hf0; [destruct (f_state f0)|case_bool_decide]; split; cbn; eauto;
      try (intros f; rewrite lookup_insert; case_decide; [subst; left; by exists f0|by eauto]); try (case_bool_decide; set_solver); try set_solver.
    apply (ends_more id x None).
Qed.

(** What is over stays over. *)
Lemma over_step id s s' : rreachable s -> rstep s s' -> over id s -> over id s'.
Proof.
  intros Hr Hs (Hid&Hf&Hq&Hd). pose proof (step_carried id s s' Hs Hid) as [Hid' F Q D E S].
  pose proof (runtime_inv _ _ Hr) as HI. assert (rreachable s') as Hr' by (destruct Hr as (m&q&Hr); exists m, q; by eapply rtc_r).
  pose proof (runtime_inv _ _ Hr') as HI'. pose proof (k_end_gone _ _ _ _ _ HI id Hid Hq Hd Hf) as Hone.
  split_and!; [done| |tauto|tauto]. destruct (rt_in_flight (s_rt s') !! id) as [f|] eqn:Hf'; [|done]. exfalso.
  destruct (F f eq_refl) as [[g Hg]|Hc]; [congruence|]. pose proof (k_end_flight _ _ _ _ _ HI' id f Hf') as Hz.
  rewrite decide_False in Hz by congruence. destruct Hz as [Hz Hns]. rewrite decide_False in Hone; [lia|tauto].
Qed.

Lemma over_steps id s s' : rreachable s -> rtc rstep s s' -> over id s -> over id s'.
Proof.
  intros Hr Hs Ho. induction Hs as [s|s s1 s' Hs1 _ IH]; [done|]. apply IH; [|by eapply over_step].
  destruct Hr as (m&q&Hr). exists m, q. by eapply rtc_r.
Qed.

(** C26. A run is run once: one that was accepted and is neither waiting nor in
    flight any more is never started again, whatever is delivered, cancelled
    or closed from then on. *)
Theorem a_run_is_run_once id s s' : rreachable s -> over id s -> rtc rstep s s' -> over id s'.
Proof. intros Hr Ho Hs. by apply (over_steps id s). Qed.

(** ** Landing *)

Lemma rreachable_rtc s s' : rreachable s -> rtc rstep s s' -> rreachable s'.
Proof. intros (m&q&Hr) Hs. exists m, q. by etrans. Qed.

(** A step that neither starts nor closes the runtime. *)
Definition quietly (s s' : system) : Prop := rstep s s' /\ rt_running (s_rt s') = rt_running (s_rt s).

Lemma quietly_steps s s' : rtc quietly s s' -> rtc rstep s s'.
Proof. apply rtc_subrel. by intros x y [? _]. Qed.

(** No longer waiting: in flight, or over. *)
Definition off (id : string) (s : system) : Prop :=
  is_Some (s_seen s !! id) /\ id ∉ rt_queued (s_rt s) /\ id ∉ rt_dropped (s_rt s).

Lemma off_step id s s' : rstep s s' -> off id s -> off id s'.
Proof. intros Hs (Hid&Hq&Hd). destruct (step_carried id s s' Hs Hid) as [Hid' F Q D _ _]. split_and!; [done|tauto|tauto]. Qed.

Lemma off_steps id s s' : rtc rstep s s' -> off id s -> off id s'.
Proof. induction 1; eauto using off_step. Qed.

Lemma flying_off id f s : rreachable s -> rt_in_flight (s_rt s) !! id = Some f -> off id s.
Proof.
  intros Hr Hf. pose proof (runtime_inv _ _ Hr) as HI. destruct (k_seen _ _ _ _ _ HI _ _ Hf) as (k&Hk&_).
  assert (id ∉ rt_queued (s_rt s) ∪ rt_dropped (s_rt s)) as Hw.
  { intros (key&lane&Hl&Hin)%(k_waiting _ _ _ _ _ HI). destruct (k_queue _ _ _ _ _ HI _ _ _ Hl Hin) as (_&_&?). congruence. }
  split_and!; [by eexists|set_solver..].
Qed.

Lemma land_over id key st seen silent : rreachable (mkSystem st seen silent) -> rt_in_flight st !! id = Some (mkFlight key Over) ->
  quietly (mkSystem st seen silent) (mkSystem (_done id key st) seen silent) /\ rt_in_flight (_done id key st) !! id = None.
Proof.
  intros Hr Hf. destruct (moved_landed id key st) as [F _ _ O R].
  assert (rstep (mkSystem st seen silent) (mkSystem (_done id key st) seen silent)) as Hs by by constructor.
  split; [by split|]. destruct (rt_in_flight (_done id key st) !! id) as [f|] eqn:Hf'; [|done]. exfalso.
  destruct (F _ _ Hf') as [Hd|Hc]; [cbn in Hd; by rewrite lookup_delete_eq in Hd|].
  pose proof (runtime_inv _ _ Hr) as HI. assert (rreachable (mkSystem (_done id key st) seen silent)) as Hr' by (eapply rreachable_rtc; [exact Hr|by apply rtc_once]).
  pose proof (k_end_flight _ _ _ _ _ HI _ _ Hf) as H1. pose proof (k_end_flight _ _ _ _ _ (runtime_inv _ _ Hr') _ _ Hf') as H2. cbn in H1, H2.
  rewrite decide_False in H2 by congruence. destruct H2 as [H2 Hns]. rewrite decide_True, decide_False in H1 by done.
  assert (ends id (_done id key st) = ends id st) as E by (unfold ends; by rewrite O). lia.
Qed.

Lemma land id f s : rreachable s -> rt_in_flight (s_rt s) !! id = Some f ->
  exists s', rtc quietly s s' /\ rt_in_flight (s_rt s') !! id = None.
Proof.
  assert (Hover : forall s key, rreachable s -> rt_in_flight (s_rt s) !! id = Some (mkFlight key Over) ->
    exists s', rtc quietly s s' /\ rt_in_flight (s_rt s') !! id = None).
  { intros [st seen silent] key Hr Hf. destruct (land_over id key st seen silent Hr Hf) as [Hq Hn]. eexists. split; [by apply rtc_once|exact Hn]. }
  assert (Hone : forall s1 s2, rreachable s1 -> quietly s1 s2 -> (rreachable s2 -> exists s', rtc quietly s2 s' /\ rt_in_flight (s_rt s') !! id = None) ->
    exists s', rtc quietly s1 s' /\ rt_in_flight (s_rt s') !! id = None).
  { intros s1 s2 Hr Hq Hk. destruct Hk as (s'&Hp&Hn); [eapply rreachable_rtc; [exact Hr|apply rtc_once, Hq]|]. exists s'. split; [by eapply rtc_l|done]. }
  assert (Hrun : forall s key, rreachable s -> rt_in_flight (s_rt s) !! id = Some (mkFlight key Running) ->
    exists s', rtc quietly s s' /\ rt_in_flight (s_rt s') !! id = None).
  { intros [st seen silent] key Hr Hf. apply (Hone _ (mkSystem (put (id, None) (set_state id Over st)) seen silent) Hr).
    - split; [|done]. apply step_end. unfold state_of. cbn in Hf. by rewrite Hf.
    - intros Hr'. apply (Hover _ key Hr'). cbn in Hf |- *. by rewrite lookup_alter_eq, Hf. }
  destruct s as [st seen silent], f as [key [| |]]; cbn [s_rt]; intros Hr Hf; [|by eapply Hrun|by eapply Hover].
  apply (Hone _ (mkSystem (set_state id Running st) seen silent) Hr).
  - split; [|done]. apply step_begin. unfold state_of. by rewrite Hf.
  - intros Hr'. apply (Hrun _ key Hr'). cbn. by rewrite lookup_alter_eq, Hf.
Qed.

(** ** Closing *)

Notation work := (Closing.work takes_interjections).
Notation step := (Closing.step takes_interjections).
Notation reachable := (Closing.reachable takes_interjections).

Lemma cancel_task_step id s : rstep s (cancel_task id s).
Proof. destruct s as [st seen silent]. apply step_cancel. Qed.

Lemma cancel_task_frame id s : rt_running (s_rt (cancel_task id s)) = rt_running (s_rt s) /\ s_seen (cancel_task id s) = s_seen s.
Proof. unfold cancel_task, cancel. cbn. split; [|done]. by repeat case_match. Qed.

Lemma cancel_all_steps s : rtc rstep s (cancel_all s).
Proof. unfold cancel_all. induction (elements _) as [|id l IH]; [done|]. cbn. eapply rtc_r; [exact IH|apply cancel_task_step]. Qed.

Lemma cancel_all_frame s : rt_running (s_rt (cancel_all s)) = rt_running (s_rt s) /\ s_seen (cancel_all s) = s_seen s.
Proof.
  unfold cancel_all. induction (elements _) as [|id l [Er Es]]; [done|]. cbn [foldr].
  destruct (cancel_task_frame id (foldr cancel_task s l)) as [-> ->]. done.
Qed.

Lemma aclose_steps b c : rtc rstep (c_system c) (c_system (aclose b c)).
Proof.
  destruct c as [[st seen silent] n r a]. cbn. eapply rtc_l; [apply step_close|]. destruct b; [apply cancel_all_steps|done].
Qed.

Lemma aclose_frame b c : rt_running (c_rt (aclose b c)) = false /\ s_seen (c_system (aclose b c)) = s_seen (c_system c).
Proof. unfold c_rt, aclose. cbn. destruct b; [|done]. by destruct (cancel_all_frame (on_rt (set_running false) (c_system c))) as [-> ->]. Qed.

Lemma work_steps c c' : work c c' -> rtc rstep (c_system c) (c_system c').
Proof. intros []; [by apply rtc_once|done]. Qed.

Lemma step_steps c c' : step c c' -> rtc rstep (c_system c) (c_system c').
Proof.
  intros [c1 c1' Hw|c1|b c1]; [by apply work_steps| |by apply aclose_steps].
  unfold start. destruct (rt_running _); [done|]. destruct c1 as [[st seen silent] n r a]. apply rtc_once, step_start.
Qed.

Lemma reachable_system c : reachable c -> rreachable (c_system c).
Proof.
  intros (m&q&Hr). exists m, q. change (Runtime.initial m q) with (c_system (Closing.initial m q)).
  induction Hr as [c|c c1 c' Hs _ IH]; [done|]. etrans; [by apply step_steps|exact IH].
Qed.

(** Closed, and not started again since: [ids] is what is waited for. *)
Record closed (ids : gset string) (seen : gmap string string) (n : nat) (c : closing) : Prop := {
  cl_reachable : rreachable (c_system c);
  cl_running : rt_running (c_rt c) = false;
  cl_reporting : c_reporting c = false;
  cl_taken : c_taken c = n;
  cl_seen : s_seen (c_system c) = seen;
  cl_awaited : c_awaited c = Some ids;
  cl_off id : id ∈ ids -> off id (c_system c);
}.

Lemma aclose_closed b c : reachable c -> closed (flying (c_system (aclose b c))) (s_seen (c_system c)) (c_taken c) (aclose b c).
Proof.
  intros Hr%reachable_system. assert (rreachable (c_system (aclose b c))) as Hr' by (eapply rreachable_rtc; [exact Hr|apply aclose_steps]).
  destruct (aclose_frame b c) as [Er Es]. split; try done. intros id Hid. unfold flying in Hid. apply elem_of_dom in Hid as [f Hf]. by eapply flying_off.
Qed.

(** Nothing is accepted by a runtime that is not running. *)
Lemma stopped_accepts_nothing s s' : rstep s s' -> rt_running (s_rt s) = false -> s_seen s' = s_seen s.
Proof. intros [] Hrun; try done. cbn in *. match goal with H : Runtime.deliver _ _ _ = _ |- _ => unfold Runtime.deliver in H; by rewrite Hrun in H end. Qed.

Lemma work_closed ids seen n c c' : work c c' -> closed ids seen n c -> closed ids seen n c'.
Proof.
  intros Hw [Hr Hrun Hrep Ht Hs Ha Ho]. pose proof (rreachable_rtc _ _ Hr (work_steps _ _ Hw)) as Hr'.
  destruct Hw as [s s' k r a Hst Hsame|s k a]; [|done]. unfold c_rt in *. cbn in *. split; cbn; try done.
  - unfold c_rt. cbn. congruence.
  - by rewrite (stopped_accepts_nothing _ _ Hst).
  - intros id Hid. eapply off_step; [exact Hst|by apply Ho].
Qed.

Lemma works_closed ids seen n c c' : rtc work c c' -> closed ids seen n c -> closed ids seen n c'.
Proof. induction 1; eauto using work_closed. Qed.

(** From the moment [aclose] is called and until the next [start], no run is
    accepted, nothing more is reported, and what is waited for is what was in
    flight when it was called. *)
Theorem closing_reports_nothing b c c' : reachable c -> rtc work (aclose b c) c' ->
  s_seen (c_system c') = s_seen (c_system c) /\ c_taken c' = c_taken c /\ c_awaited c' = Some (flying (c_system (aclose b c))).
Proof. intros Hr Hw. destruct (works_closed _ _ _ _ _ Hw (aclose_closed b c Hr)). done. Qed.

Lemma quietly_work s s' n r a : rtc quietly s s' -> rtc work (mkClosing s n r a) (mkClosing s' n r a).
Proof. induction 1 as [s|s s1 s' [Hs He] _ IH]; [done|]. eapply rtc_l; [|exact IH]. by constructor. Qed.

(** What is still waited for. *)
Definition waiting (ids : gset string) (s : system) : gset string := ids ∩ flying s.

Lemma elem_of_waiting ids s id : id ∈ waiting ids s <-> id ∈ ids /\ is_Some (rt_in_flight (s_rt s) !! id).
Proof. unfold waiting, flying. by rewrite elem_of_intersection, elem_of_dom. Qed.

Lemma waiting_shrinks ids s s' id : rreachable s -> rtc quietly s s' -> (forall x, x ∈ ids -> off x s) ->
  id ∈ waiting ids s -> rt_in_flight (s_rt s') !! id = None -> waiting ids s' ⊂ waiting ids s.
Proof.
  intros Hr Hq Hoff Hid Hn. split.
  - intros x. rewrite !elem_of_waiting. intros [Hx [f Hf]]. split; [done|]. destruct (rt_in_flight (s_rt s) !! x) eqn:E; [by eexists|].
    destruct (Hoff x Hx) as (?&?&?).
    destruct (over_steps x s s' Hr (quietly_steps _ _ Hq) ltac:(by split_and!)) as (_&Hn'&_). congruence.
  - intros Hsub. apply Hsub, elem_of_waiting in Hid as [_ [f Hf]]. congruence.
Qed.

End runtime.

(** ** A runtime closed at work *)
Module Witness.
Import RuntimeOk.Witness.

Notation rreachable := Runtime.reachable.

Inductive closing_move : Type := Starts | Closes (cancel_in_flight : bool) | Reports | Works (mv : move).

Definition closing_moved (mv : closing_move) (c : closing) : closing :=
  match mv with
  | Starts => start c
  | Closes b => aclose b c
  | Reports => mkClosing (c_system c) (S (c_taken c)) (c_reporting c) (c_awaited c)
  | Works mv => mkClosing (moved mv (c_system c)) (c_taken c) (c_reporting c) (c_awaited c)
  end.

(** A move of [work]. *)
Definition works (mv : closing_move) (c : closing) : bool :=
  match mv with
  | Reports => c_reporting c && Nat.ltb (c_taken c) (length (rt_output (c_rt c)))
  | Works mv => allowed mv (c_system c) && Bool.eqb (rt_running (s_rt (moved mv (c_system c)))) (rt_running (c_rt c))
  | _ => false
  end.

Fixpoint closing_play (ms : list closing_move) (c : closing) : option closing :=
  match ms with
  | [] => Some c
  | mv :: ms =>
      if match mv with Starts | Closes _ => true | _ => works mv c end then closing_play ms (closing_moved mv c) else None
  end.

Fixpoint at_work (ms : list closing_move) (c : closing) : option closing :=
  match ms with
  | [] => Some c
  | mv :: ms => if works mv c then at_work ms (closing_moved mv c) else None
  end.

Lemma works_work mv c : works mv c = true -> work hook c (closing_moved mv c).
Proof.
  destruct c as [s n r a], mv as [|b| |mv]; cbn; try done.
  - intros [Hr Hn]%andb_prop. destruct r; [|done]. apply work_report. by apply Nat.ltb_lt.
  - intros [Ha Hr]%andb_prop. apply work_runtime; [by apply moved_step|]. by apply eqb_prop in Hr.
Qed.

Lemma at_work_path ms c c' : at_work ms c = Some c' -> rtc (work hook) c c'.
Proof.
  revert c. induction ms as [|mv ms IH]; intros c; cbn; [by intros [= ->]|]. destruct (works mv c) eqn:Hw; [|done].
  intros Hp. eapply rtc_l; [by apply works_work|by apply IH].
Qed.

Lemma closing_play_path ms c c' : closing_play ms c = Some c' -> rtc (Closing.step hook) c c'.
Proof.
  revert c. induction ms as [|mv ms IH]; intros c; cbn [closing_play]; [by intros [= ->]|]. intros Hp.
  assert (Closing.step hook c (closing_moved mv c)) as Hs.
  { destruct mv as [|b| |mv]; [apply step_starts|apply step_closes|..]; (destruct (works _ c) eqn:Hw; [|done]); by apply step_work, works_work. }
  eapply rtc_l; [exact Hs|]. apply IH. by destruct mv; [..|destruct (works _ c)|destruct (works _ c)].
Qed.

Definition idle : closing := Closing.initial (Some 1%Z) 1.

(** One run at work, one waiting behind it. *)
Definition working : closing :=
  default idle (closing_play [Starts; Works (Accept (turn "r1")); Works (Accept (turn "r2")); Works (Begin "r1"); Works (Emit "r1"); Reports] idle).

Lemma working_reachable : Closing.reachable hook working.
Proof.
  exists (Some 1%Z), 1%Z. apply (closing_play_path [Starts; Works (Accept (turn "r1")); Works (Accept (turn "r2")); Works (Begin "r1"); Works (Emit "r1"); Reports]).
  vm_compute. reflexivity.
Qed.

(** The first run's task ends as it is cancelled; its callback starts the second. *)
Definition closing_down : list closing_move := [Works (End "r1"); Works (Done "r1"); Works (Begin "r2")].
Definition left_over : closing := default idle (at_work closing_down (aclose true working)).

Lemma left_over_path : rtc (work hook) (aclose true working) left_over.
Proof. apply (at_work_path closing_down). vm_compute. reflexivity. Qed.

(** Closed with [cancel_in_flight], the runtime returns while a run it had
    accepted has only just begun to execute: the cancelled run's callback
    started it, nobody waits for it or cancels it, and with the reporting loop
    gone neither its events nor the first run's end are ever reported. *)
Theorem closing_leaves_a_run_executing :
  Closing.reachable hook working /\ rtc (work hook) (aclose true working) left_over /\ returned left_over /\
  state_of "r2" (c_rt left_over) = Some Running /\ c_reporting left_over = false /\
  rt_output (c_rt left_over) = [("r1", Some (JObj [])); ("r1", None)] /\ reported left_over = [("r1", Some (JObj []))].
Proof.
  split; [exact working_reachable|]. split; [exact left_over_path|]. split; [|vm_compute; by split_and!].
  exists {["r1"]}. split; [vm_compute; reflexivity|]. intros id ->%elem_of_singleton. vm_compute. reflexivity.
Qed.

Lemma closing_reports_nothing_witness :
  s_seen (c_system left_over) = s_seen (c_system working) /\ c_taken left_over = 1 /\ c_awaited left_over = Some {["r1"]}.
Proof.
  destruct (closing_reports_nothing hook true working left_over working_reachable left_over_path) as (Hs&Ht&Ha).
  split; [exact Hs|]. split; [rewrite Ht; vm_compute; reflexivity|]. rewrite Ha. vm_compute. reflexivity.
Defined.


Lemma left_over_reachable : rreachable hook (c_system left_over).
Proof.
  destruct (works_closed hook _ _ _ _ _ left_over_path (aclose_closed hook true working working_reachable)). done.
Qed.

Lemma r1_over : over "r1" (c_system left_over).
Proof.
  split_and!; [exists "thread"; vm_compute; reflexivity|vm_compute; reflexivity|..];
    [apply (bool_decide_eq_true_1 ("r1" ∉ rt_queued (s_rt (c_system left_over))))|
     apply (bool_decide_eq_true_1 ("r1" ∉ rt_dropped (s_rt (c_system left_over))))]; vm_compute; reflexivity.
Qed.

Lemma a_run_is_run_once_witness : over "r1" (moved (End "r2") (c_system left_over)).
Proof.
  apply (a_run_is_run_once hook "r1" (c_system left_over)); [exact left_over_reachable|exact r1_over|].
  apply rtc_once, moved_step. vm_compute. reflexivity.
Defined.
End Witness.
End ClosingOk.
