(* ===== verification/Link.v ===== *)
(** * The in-process link (funduq_provider_sdk/inprocess.py [InProcessLink],
    and runtime.py's [_report_output])

    What joins a provider's runtime to funduq's broker: a run handed over is
    delivered to the runtime and its verdict posted in the same call; the
    reporting loop posts what the runtime's tasks put on the output queue,
    one item at a time.  [ln_posted] remembers what the link posted, in
    order; everything else that happens to the broker is [link_elsewhere]. *)

From S2P Require Import Prelude Errors Json Models Repo BrokerState BrokerOps Runtime.

Module Link.
Import Broker.

Section link.
(** The provider's key, and its hooks. *)
Context (public_key : string) (takes_interjections : string -> bool).

(** [InProcessLink.deliver]. *)
Definition deliver (run : Runtime.DeliveredRun) (rt : Runtime.runtime) (b : broker) : Runtime.runtime * verdict * broker :=
  let '(answer, rt) := Runtime.deliver takes_interjections run rt in
  (rt, answer, (BrokerOps.answer_offer (Runtime.dr_run_id run) answer public_key b).2).

(** [report_event] and [finish_run], as the loop calls them. *)
Definition report_event (run_id : string) (event : json) (b : broker) : broker := (BrokerOps.report_event run_id event public_key b).2.
Definition finish_run (run_id : string) (b : broker) : broker := (BrokerOps.finish_stream run_id public_key b).2.

(** One turn of [_report_output]: the end marker is [None]. *)
Definition report_output (item : string * option json) (b : broker) : broker :=
  match item with
  | (run_id, None) => finish_run run_id b
  | (run_id, Some event) => report_event run_id event b
  end.

(** The message an item is posted as. *)
Definition message_of (item : string * option json) : message :=
  Said_ item.1 public_key (match item.2 with Some event => RelayEvent event | None => FinishStream end).

(** ** The system *)

Record linked : Type := mkLinked {
  ln_sys : Runtime.system;
  ln_reported : nat;
  ln_broker : broker;
  ln_posted : list message;
}.

(** Was the run answered over this link? *)
Definition answered (run_id : string) (posted : list message) : Prop := exists v, Answered_ run_id public_key v ∈ posted.

Inductive step : relation linked :=
| link_runtime sys sys' n b p :
    Runtime.step takes_interjections sys sys' -> Runtime.s_seen sys' = Runtime.s_seen sys ->
    step (mkLinked sys n b p) (mkLinked sys' n b p)
| link_deliver run rt rt' seen silent answer n b b' p :
    ~ answered (Runtime.dr_run_id run) p -> deliver run rt b = (rt', answer, b') ->
    step (mkLinked (Runtime.mkSystem rt seen silent) n b p)
         (mkLinked (Runtime.mkSystem rt'
             (match answer with Answer true => <[Runtime.dr_run_id run := Runtime.lane_key run]> seen | _ => seen end) silent)
            n b' (p ++ [Answered_ (Runtime.dr_run_id run) public_key answer]))
| link_report sys item n b p :
    Runtime.rt_output (Runtime.s_rt sys) !! n = Some item ->
    step (mkLinked sys n b p) (mkLinked sys (S n) (report_output item b) (p ++ [message_of item]))
| link_elsewhere sys n b b' p : step (mkLinked sys n b p) (mkLinked sys n b' p).

Definition initial (max_concurrent_runs : option Z) (max_queued_runs : Z) (b : broker) : linked :=
  mkLinked (Runtime.initial max_concurrent_runs max_queued_runs) 0 b [].

Definition reachable (l : linked) : Prop := exists m q b, rtc step (initial m q b) l.

End link.

(** ** Handles (funduq_provider_sdk/provider.py), and [Funduq.register_agents]' [declared] *)

Record AgentHandle : Type := mkHandle {
  ah_name : string;
  ah_description : string;
  ah_agent_card_extra : dict;
  ah_metadata : json;
  (** is there an [interject_stream]? *)
  ah_interject_stream : bool;
}.

Definition as_registration (h : AgentHandle) : Repo.Registration :=
  Repo.mkRegistration (ah_name h) (ah_description h) (ah_agent_card_extra h) (ah_metadata h) (ah_interject_stream h).

(** [HandleProvider]: a dict by name, the last of a name wins. *)
Definition agents (handles : list AgentHandle) : list (string * AgentHandle) :=
  foldl (fun d h => aset (ah_name h) h d) [] handles.

(** Whether the hook is there: what the runtime routes by and the link answers. *)
Definition interjection_hook (handles : list AgentHandle) (agent_name : string) : bool :=
  match aget agent_name (agents handles) with Some h => ah_interject_stream h | None => false end.

Definition declared (takes_interjections : string -> bool) (agent : Repo.Registration) : Repo.Registration :=
  Repo.mkRegistration (Repo.reg_name agent) (Repo.reg_description agent) (Repo.reg_agent_card_extra agent)
    (Repo.reg_metadata agent) (takes_interjections (Repo.reg_name agent)).

End Link.
