(* ===== verification/LinkOk.v ===== *)
(** * What the in-process link guarantees

    For every run its provider accepted, the link posts the acceptance first,
    then the run's output in the order the run put it, and an end marker at
    most once and last. *)

From S2P Require Import Prelude Errors Json Models Repo BrokerState BrokerOps Kyok Runtime RuntimeOk Link.

Module LinkOk.
Import Broker Runtime RuntimeOk Link.

(** ** The output queue only grows *)

Lemma advance_output key lane queue st : rt_output (advance key lane queue st) = rt_output st.
Proof.
  revert st. induction queue as [|run rest IH]; intros st; cbn [advance]; [done|].
  repeat case_match; try done. exact (IH _).
Qed.

Lemma lane_next_output key st : rt_output (_lane_next key st) = rt_output st.
Proof. unfold _lane_next. case_match; [apply advance_output|done]. Qed.

Lemma kick_output fuel st : rt_output (kick fuel st) = rt_output st.
Proof.
  revert st. induction fuel as [|fuel IH]; intros st; cbn [kick]; [done|]. repeat case_match; try done; rewrite IH; [|done].
  by rewrite lane_next_output.
Qed.

Lemma done_output id key st : rt_output (_done id key st) = rt_output st.
Proof. unfold _done, _kick_parked. rewrite kick_output. repeat case_match; try done. by rewrite lane_next_output. Qed.

Section link.
Context (public_key : string) (takes_interjections : string -> bool).

Lemma deliver_output run st : rt_output (Runtime.deliver takes_interjections run st).2 = rt_output st.
Proof. unfold Runtime.deliver. repeat case_match; try done. cbn. by rewrite lane_next_output. Qed.

Lemma deliver_refused run st v st' : Runtime.deliver takes_interjections run st = (v, st') -> v <> Answer true -> st' = st.
Proof. unfold Runtime.deliver. repeat case_match; intros [= <- <-]; done. Qed.

Lemma running_open id seen silent st : inv None false seen silent st -> state_of id st = Some Running ->
  is_Some (seen !! id) /\ ends id st = 0.
Proof.
  intros HI Hs. unfold state_of in Hs. destruct (rt_in_flight st !! id) as [f|] eqn:Hf; [|done]. injection Hs as Hs.
  pose proof (k_end_flight _ _ _ _ _ HI _ _ Hf) as He. rewrite decide_False in He by congruence.
  destruct (k_seen _ _ _ _ _ HI _ _ Hf) as (k&Hk&_). split; [by exists k|apply He].
Qed.

(** What a step puts: nothing, or one item of a run that was accepted and has not ended. *)
Lemma step_output s s' : Runtime.step takes_interjections s s' ->
  inv None false (s_seen s) (s_silent s) (s_rt s) ->
  rt_output (s_rt s') = rt_output (s_rt s) \/
  exists item, rt_output (s_rt s') = rt_output (s_rt s) ++ [item] /\ is_Some (s_seen s !! item.1) /\ ends item.1 (s_rt s) = 0.
Proof.
  intros Hs HI. destruct Hs as [| |run st st' seen silent Hf Hd| |id ev st seen silent Hs|id st seen silent Hs
    |id key st seen silent Hf|id st seen silent]; cbn [s_rt s_seen s_silent] in *.
  - by left.
  - by left.
  - left. pose proof (deliver_output run st) as E. by rewrite Hd in E.
  - by left.
  - right. exists (id, Some ev). split; [done|]. by apply (running_open id seen silent).
  - right. exists (id, None). split; [done|]. by apply (running_open id seen silent).
  - left. apply done_output.
  - unfold cancel. destruct (rt_in_flight st !! id) as [f|] eqn:Hf; [left; by destruct (f_state f)|].
    case_bool_decide as Hq; [|by left]. right. exists (id, None). split; [done|].
    split; [|by apply (k_end_wait _ _ _ _ _ HI)]. destruct (k_waiting _ _ _ _ _ HI id) as (key&lane&Hk&Hin); [set_solver|].
    destruct (k_queue _ _ _ _ _ HI _ _ _ Hk Hin) as [Hx _]. by exists key.
Qed.

(** ** One run's view *)

Definition outs (id : string) (items : list (string * option json)) : list (string * option json) :=
  filter (fun item => item.1 = id) items.

Definition of_run (id : string) (m : message) : Prop :=
  match m with Answered_ i _ _ | Said_ i _ _ => i = id | _ => False end.
#[global] Instance of_run_dec id m : Decision (of_run id m).
Proof. destruct m; cbn; apply _. Defined.

Lemma outs_app id l1 l2 : outs id (l1 ++ l2) = outs id l1 ++ outs id l2.
Proof. apply filter_app. Qed.

Lemma ends_outs id st : ends id st = length (filter (fun item => item.2 = None) (outs id (rt_output st))).
Proof.
  unfold ends, outs. rewrite list_filter_filter. f_equal. apply list_filter_iff. intros [i o]. cbn. naive_solver.
Qed.

(** Events, then nothing or the end marker. *)
Definition well_ended (items : list (string * option json)) : Prop :=
  exists events, Forall (fun item => item.2 <> None) events /\ (items = events \/ exists id, items = events ++ [(id, None)]).

Lemma well_ended_open items : well_ended items -> filter (fun item => item.2 = None) items = [] ->
  Forall (fun item => item.2 <> None) items.
Proof.
  intros (events&He&[->|[id ->]]) Hn; [done|]. rewrite filter_app in Hn. by apply app_eq_nil in Hn as [_ ?].
Qed.

Lemma well_ended_snoc items item : Forall (fun item => item.2 <> None) items -> well_ended (items ++ [item]).
Proof.
  intros Hf. destruct item as [i [e|]].
  - exists (items ++ [(i, Some e)]). split; [|by left]. apply Forall_app. by repeat constructor.
  - exists items. split; [done|]. right. by exists i.
Qed.

Tactic Notation "lred" "in" "*" := cbn [ln_sys ln_reported ln_broker ln_posted s_rt s_seen s_silent] in *.
Tactic Notation "lred" := cbn [ln_sys ln_reported ln_broker ln_posted s_rt s_seen s_silent].

(** ** The invariant *)

Notation sys_inv s := (inv None false (s_seen s) (s_silent s) (s_rt s)).

Record linv (l : linked) : Prop := {
  li_sys : sys_inv (ln_sys l);
  li_reported : ln_reported l <= length (rt_output (s_rt (ln_sys l)));
  li_outputs item : item ∈ rt_output (s_rt (ln_sys l)) -> is_Some (s_seen (ln_sys l) !! item.1);
  li_ended id : well_ended (outs id (rt_output (s_rt (ln_sys l))));
  li_accepted id : is_Some (s_seen (ln_sys l) !! id) ->
    filter (of_run id) (ln_posted l) =
      Answered_ id public_key (Answer true) :: map (message_of public_key) (outs id (take (ln_reported l) (rt_output (s_rt (ln_sys l)))));
  li_unseen id m : s_seen (ln_sys l) !! id = None -> m ∈ ln_posted l -> of_run id m -> exists v, m = Answered_ id public_key v;
}.

Lemma seen_answered l id : linv l -> is_Some (s_seen (ln_sys l) !! id) -> answered public_key id (ln_posted l).
Proof.
  intros HI Hs. exists (Answer true). assert (Answered_ id public_key (Answer true) ∈ filter (of_run id) (ln_posted l)) as Hin.
  { rewrite (li_accepted _ HI id Hs). by left. }
  by apply list_elem_of_filter in Hin as [_ ?].
Qed.

Lemma put_linv sys sys' n b p : linv (mkLinked sys n b p) -> sys_inv sys' -> s_seen sys' = s_seen sys ->
  rt_output (s_rt sys') = rt_output (s_rt sys) \/
  (exists item, rt_output (s_rt sys') = rt_output (s_rt sys) ++ [item] /\ is_Some (s_seen sys !! item.1) /\ ends item.1 (s_rt sys) = 0) ->
  linv (mkLinked sys' n b p).
Proof.
  intros [HI Hn Ho He Ha Hu] HI' Hseen Hout. lred in *. destruct Hout as [E|(item&E&Hi&H0)].
  - constructor; lred; [exact HI'|..]; intros *; rewrite ?E, ?Hseen; eauto.
  - constructor; lred; [exact HI'|..]; intros *; rewrite ?E, ?Hseen; [..|by eauto].
    + rewrite length_app. lia.
    + rename item0 into x. intros [Hx| ->%list_elem_of_singleton]%elem_of_app; [by apply Ho|done].
    + rewrite outs_app. unfold outs at 2. cbn. case_decide as Hid; [|by rewrite app_nil_r].
      apply well_ended_snoc, well_ended_open; [apply He|]. rewrite ends_outs, Hid in H0. by apply length_zero_iff_nil.
    + intros Hid. rewrite take_app_le by done. by apply Ha.
Qed.

Lemma outs_unseen id (seen : gmap string string) items : (forall item, item ∈ items -> is_Some (seen !! item.1)) ->
  seen !! id = None -> outs id items = [].
Proof.
  intros Ho Hn. unfold outs. induction items as [|item items IH]; [done|]. rewrite filter_cons. case_decide as E.
  - destruct (Ho item) as [? Hs]; [by left|]. congruence.
  - apply IH. intros x Hx. apply Ho. by right.
Qed.

Lemma no_answer_yet id p : (forall m, m ∈ p -> of_run id m -> exists v, m = Answered_ id public_key v) -> ~ answered public_key id p ->
  filter (of_run id) p = [].
Proof.
  intros Hu Hn. induction p as [|m p IH]; [done|]. rewrite filter_cons. case_decide as E.
  - destruct (Hu m) as [v ->]; [by left|done|]. destruct Hn. exists v. by left.
  - apply IH; [intros x Hx; apply Hu; by right|]. intros [v Hv]. apply Hn. exists v. by right.
Qed.

Lemma filter_snoc_ne id m p : ~ of_run id m -> filter (of_run id) (p ++ [m]) = filter (of_run id) p.
Proof. intros Hm. rewrite filter_app, filter_cons, decide_False by done. apply app_nil_r. Qed.

Lemma deliver_linv run rt rt' seen silent answer n b b' p : linv (mkLinked (mkSystem rt seen silent) n b p) ->
  ~ answered public_key (dr_run_id run) p -> deliver public_key takes_interjections run rt b = (rt', answer, b') ->
  linv (mkLinked (mkSystem rt' (match answer with Answer true => <[dr_run_id run := lane_key run]> seen | _ => seen end) silent)
          n b' (p ++ [Answered_ (dr_run_id run) public_key answer])).
Proof.
  intros HL Hna. pose proof HL as [HI Hn Ho He Ha Hu]. lred in *. unfold deliver. set (id := dr_run_id run) in *.
  destruct (Runtime.deliver takes_interjections run rt) as [v st'] eqn:Hd. intros [= <- <- <-].
  assert (Hnone : seen !! id = None).
  { destruct (seen !! id) eqn:E; [|done]. destruct Hna. apply (seen_answered _ _ HL). cbn. by rewrite E. }
  pose proof (deliver_output run rt) as Hout. rewrite Hd in Hout. cbn in Hout.
  assert (Hmine : filter (of_run id) p = []) by (apply no_answer_yet; [intros m; by apply Hu|done]).
  assert (Hposted : forall x, is_Some (seen !! x) ->
    filter (of_run x) (p ++ [Answered_ id public_key v]) =
    Answered_ x public_key (Answer true) :: map (message_of public_key) (outs x (take n (rt_output rt)))).
  { intros x Hx. rewrite filter_snoc_ne; [by apply Ha|]. cbn. intros <-. rewrite Hnone in Hx. by destruct Hx. }
  assert (v = Answer true \/ v <> Answer true) as [->|Hv] by (destruct v as [|[]]; auto).
  - constructor; lred; rewrite ?Hout; try done.
    + by eapply accept_ok.
    + intros item Hi. destruct (Ho item Hi) as [k Hk]. exists k. by apply seen_insert.
    + intros x Hx. destruct (decide (x = id)) as [->|Hne]; [|rewrite lookup_insert_ne in Hx by done; by apply Hposted].
      rewrite filter_app, Hmine, filter_cons, decide_True by done. cbn [app]. f_equal.
      rewrite (outs_unseen id seen); [done| |done]. intros item Hi. apply Ho. by apply elem_of_take in Hi as (?&?&_); eapply list_elem_of_lookup_2.
    + intros x m Hx [Hm| ->%list_elem_of_singleton]%elem_of_app Hof; [|by rewrite <- Hof in Hx; rewrite lookup_insert_eq in Hx].
      apply Hu; [|done|done]. destruct (decide (x = id)) as [->|]; [done|]. by rewrite lookup_insert_ne in Hx.
  - assert (match v with Answer true => <[id := lane_key run]> seen | _ => seen end = seen) as -> by (by destruct v as [|[]]).
    pose proof (deliver_refused _ _ _ _ Hd Hv) as ->. constructor; lred; try done.
    intros x m Hx [Hm| ->%list_elem_of_singleton]%elem_of_app Hof; [by apply Hu|]. cbn in Hof. subst x. by exists v.
Qed.

Lemma posted_one id item : filter (of_run id) [message_of public_key item] = map (message_of public_key) (outs id [item]).
Proof. unfold outs. rewrite !filter_cons. destruct item as [i e]. repeat case_decide; cbn in *; done. Qed.

Lemma report_linv sys item n b b' p : linv (mkLinked sys n b p) -> rt_output (s_rt sys) !! n = Some item ->
  linv (mkLinked sys (S n) b' (p ++ [message_of public_key item])).
Proof.
  intros [HI Hn Ho He Ha Hu] Hitem. lred in *. assert (Hin : item ∈ rt_output (s_rt sys)) by (by eapply list_elem_of_lookup_2).
  constructor; lred; try done.
  - by apply lookup_lt_Some in Hitem.
  - intros id Hid. rewrite (take_S_r _ _ _ Hitem), outs_app, filter_app, Ha by done. rewrite posted_one, map_app. done.
  - intros id m Hid [Hm| ->%list_elem_of_singleton]%elem_of_app Hof; [by apply Hu|]. cbn in Hof. subst id.
    destruct (Ho item Hin) as [k Hk]. congruence.
Qed.

Lemma link_step_ok l l' : step public_key takes_interjections l l' -> linv l -> linv l'.
Proof.
  intros [sys sys' n b p Hs Hseen|run rt rt' seen silent answer n b b' p Hna Hd|sys item n b p Hitem|sys n b b' p] HL.
  - eapply put_linv; [exact HL|by eapply step_ok, HL|done|apply step_output; [done|apply HL]].
  - by eapply deliver_linv.
  - by eapply report_linv.
  - by destruct HL.
Qed.

Lemma link_inv l : reachable public_key takes_interjections l -> linv l.
Proof.
  intros (m&q&b&Hs). remember (initial m q b) as l0 eqn:E0. assert (linv l0) as HL.
  { subst l0. constructor; lred; intros *.
    - apply (runtime_inv takes_interjections). by exists m, q.
    - cbn. lia.
    - by intros ?%not_elem_of_nil.
    - exists []. split; [constructor|by left].
    - intros [? ?]. done.
    - by intros _ ?%not_elem_of_nil. }
  clear E0. induction Hs; eauto using link_step_ok.
Qed.


End link.

(** ** A turn, reported *)
Module Witness.
Import RuntimeOk.RuntimeOk.Witness.

Definition spoken (rt : runtime) (n : nat) (p : list message) (seen : gmap string string) : linked :=
  mkLinked (mkSystem rt seen ∅) n (empty_broker None) p.

Definition rt0 : runtime := set_running true (new_runtime (Some 1%Z) 2).
Definition rt1 : runtime := (Runtime.deliver hook (turn "r1") rt0).2.
Definition rt2 : runtime := set_state "r1" Running rt1.
Definition rt3 : runtime := put ("r1", Some (JObj [])) rt2.
Definition rt4 : runtime := put ("r1", None) (set_state "r1" Over rt3).
Definition seen1 : gmap string string := {["r1" := "thread"]}.
Definition accepted : message := Answered_ "r1" "K" (Answer true).
Definition event : message := Said_ "r1" "K" (RelayEvent (JObj [])).

Lemma spoken_ok : reachable "K" hook (spoken rt4 1 [accepted; event] seen1).
Proof.
  exists (Some 1%Z), 2%Z, (empty_broker None).
  eapply rtc_l; [apply (link_runtime _ _ _ (mkSystem rt0 ∅ ∅)); [apply step_start|done]|].
  eapply rtc_l; [apply (link_deliver _ _ (turn "r1") rt0 rt1 ∅ ∅ (Answer true) 0 _ (empty_broker None) []);
    [by intros [v ?%not_elem_of_nil]|vm_compute; reflexivity]|].
  eapply rtc_l; [apply (link_runtime _ _ _ (mkSystem rt2 seen1 ∅)); [apply step_begin; vm_compute; reflexivity|reflexivity]|].
  eapply rtc_l; [apply (link_runtime _ _ _ (mkSystem rt3 seen1 ∅)); [apply step_emit; vm_compute; reflexivity|reflexivity]|].
  eapply rtc_l; [apply (link_runtime _ _ _ (mkSystem rt4 seen1 ∅)); [apply step_end; vm_compute; reflexivity|reflexivity]|].
  apply rtc_once. apply (link_report _ _ (mkSystem rt4 seen1 ∅) ("r1", Some (JObj [])) 0 (empty_broker None) [accepted]). reflexivity.
Qed.

End Witness.
End LinkOk.
