(* ===== verification/Facade.v ===== *)
(** * The facade as one object (funduq/core.py [Funduq], [RunHandle],
    [Health]; funduq/changes.py)

    [Core] models the operations on the part of the state each touches; here
    is the whole object: one broker, one relay, one store and one set of
    tickets under two rosters, the subscribers to its changes, its tasks.
    Each roster works on its view of the object ([agents_view],
    [llms_view]); what it changed, and the changes it announced, are put
    back. *)

From S2P Require Import Prelude Errors Json Pause Crypto Chain Identity Models Repo Coop BrokerState BrokerOps Dispatch Handlers LiveRoster Roster Kyok Doors Link Core.

Module Facade.
Import Broker Repo Roster Kyok Doors.

#[local] Existing Instances LiveRoster.broker_table LiveRoster.roster_table.

(** ** Changes *)

Inductive ChangeEvent : Type :=
| RosterChanged
| LlmRosterChanged
| RunStatusChanged (run_id : string) (status : run_status).

(** A subscriber is named by a number; the set is kept in the order it is listed. *)
Notation subscribers := (list nat).

(** [on_change]: a set's [add]. *)
Definition add_subscriber (id : nat) (l : subscribers) : subscribers := if bool_decide (id ∈ l) then l else l ++ [id].
(** [unsubscribe]: a set's [discard]. *)
Definition unsubscribe (id : nat) (l : subscribers) : subscribers := filter (fun x => x <> id) l.

(** What a callback does when it is called: to the subscribers, and whether it raises. *)
Notation callbacks := (nat -> ChangeEvent -> subscribers -> subscribers * option exn).

(** [_notify_change]: everyone in the copy of the set is called, whatever is raised. *)
Definition _notify_change (callback : callbacks) (event : ChangeEvent) (st : subscribers * list (nat * ChangeEvent))
    : subscribers * list (nat * ChangeEvent) :=
  foldl (fun st id => let '(l, _) := callback id event st.1 in (l, st.2 ++ [(id, event)])) st st.1.

(** ** Health *)

Record Health : Type := mkHealth {
  h_database : bool;
  h_schema_revision : option string;
  h_expected_schema_revision : string;
  h_dispatching : bool;
  h_database_error : option string;
}.

Definition EXPECTED_SCHEMA_REVISION : string := "d4a7c2e9f150".

Definition schema_current (h : Health) : bool :=
  bool_decide (h_schema_revision h = Some (h_expected_schema_revision h)).
Definition ready (h : Health) : bool := h_database h && schema_current h && h_dispatching h.

(** [repo.get_schema_revision]: the rows of alembic_version, if it is there. *)
Definition get_schema_revision (alembic_version : option (list string)) : option string := alembic_version ≫= head.

(** What asking the database within the timeout comes to. *)
Inductive probe : Type :=
| TimedOut
| Raised (type_name : string)
| Answered (alembic_version : option (list string)).

Definition health (p : probe) (b : broker) : Health :=
  match p with
  | TimedOut => mkHealth false None EXPECTED_SCHEMA_REVISION (b_running b) (Some "TimeoutError")
  | Raised name => mkHealth false None EXPECTED_SCHEMA_REVISION (b_running b) (Some name)
  | Answered rows => mkHealth true (get_schema_revision rows) EXPECTED_SCHEMA_REVISION (b_running b) None
  end.

(** ** The object *)

Record funduq : Type := mkFunduq {
  f_broker : broker;
  f_relay : LiveRoster.roster;
  f_store : Handlers.store;
  f_tickets : gmap string (string * Z);
  f_agent_links : gmap string (list ConnectedProvider);
  f_llm_links : gmap string (list ConnectedProvider);
  f_started : bool;
  f_tasks : gset nat;
  f_subscribers : list nat;
  f_called : list (nat * ChangeEvent);
}.

Definition f_now (f : funduq) : Z := Handlers.s_now (f_store f).

Definition set_f_started (v : bool) (f : funduq) : funduq :=
  mkFunduq (f_broker f) (f_relay f) (f_store f) (f_tickets f) (f_agent_links f) (f_llm_links f) v (f_tasks f) (f_subscribers f) (f_called f).
Definition set_f_tasks (v : gset nat) (f : funduq) : funduq :=
  mkFunduq (f_broker f) (f_relay f) (f_store f) (f_tickets f) (f_agent_links f) (f_llm_links f) (f_started f) v (f_subscribers f) (f_called f).
Definition set_f_world (b : broker) (s : Handlers.store) (f : funduq) : funduq :=
  mkFunduq b (f_relay f) s (f_tickets f) (f_agent_links f) (f_llm_links f) (f_started f) (f_tasks f) (f_subscribers f) (f_called f).
Definition set_f_subscribers (v : list nat) (f : funduq) : funduq :=
  mkFunduq (f_broker f) (f_relay f) (f_store f) (f_tickets f) (f_agent_links f) (f_llm_links f) (f_started f) (f_tasks f) v (f_called f).
Definition set_f_tickets (v : gmap string (string * Z)) (f : funduq) : funduq :=
  mkFunduq (f_broker f) (f_relay f) (f_store f) v (f_agent_links f) (f_llm_links f) (f_started f) (f_tasks f) (f_subscribers f) (f_called f).

Definition on_change (id : nat) (f : funduq) : funduq := set_f_subscribers (add_subscriber id (f_subscribers f)) f.

Section facade.
Context `{HC : Crypto}.
Variable identity : private_key.
Variable callback : callbacks.

Notation agents := (links broker Handlers.store).
Notation llms := (links LiveRoster.roster Handlers.store).

(** [count] announcements, one after another. *)
Definition announce (event : ChangeEvent) (count : nat) (f : funduq) : funduq :=
  let '(l, called) := Nat.iter count (_notify_change callback event) (f_subscribers f, f_called f) in
  mkFunduq (f_broker f) (f_relay f) (f_store f) (f_tickets f) (f_agent_links f) (f_llm_links f) (f_started f) (f_tasks f) l called.

(** ** Its two rosters *)

Definition agents_view (f : funduq) : agents := mkLinks (f_tickets f) (f_agent_links f) (f_broker f) (f_store f) 0 (f_now f).
Definition llms_view (f : funduq) : llms := mkLinks (f_tickets f) (f_llm_links f) (f_relay f) (f_store f) 0 (f_now f).

Definition put_agents (st : agents) (f : funduq) : funduq :=
  announce RosterChanged (k_changes st)
    (mkFunduq (k_table st) (f_relay f) (k_store st) (k_tickets st) (k_open st) (f_llm_links f) (f_started f) (f_tasks f)
       (f_subscribers f) (f_called f)).
Definition put_llms (st : llms) (f : funduq) : funduq :=
  announce LlmRosterChanged (k_changes st)
    (mkFunduq (f_broker f) (k_table st) (k_store st) (k_tickets st) (f_agent_links f) (k_open st) (f_started f) (f_tasks f)
       (f_subscribers f) (f_called f)).

(** A coroutine of one roster, run on the object. *)
Fixpoint zoom_susp {V A} (view : funduq -> V) (put : V -> funduq -> funduq) (s : susp V A) : susp funduq A :=
  match s with
  | Done a => Done a
  | Yield k => Yield (fun f => let '(v, s') := k (view f) in (put v f, zoom_susp view put s'))
  end.
Definition zoom {V A} (view : funduq -> V) (put : V -> funduq -> funduq) (c : comp V A) : comp funduq A := fun f =>
  let '(v, s) := c (view f) in (put v f, zoom_susp view put s).

(** ** Links *)

Definition issue_ticket (ticket public_key : string) (f : funduq) : funduq :=
  set_f_tickets (Roster.issue_ticket (f_now f) ticket public_key (f_tickets f)) f.

Definition attach_provider (new_ticket new_nonce : string) (link : Link) (ticket provider_nonce proof : option string) (f : funduq)
    : py string * funduq :=
  let '(r, st) := open identity new_ticket new_nonce link ticket provider_nonce proof (agents_view f) in (r, put_agents st f).

Definition attach_llm_provider (new_ticket new_nonce : string) (link : Link) (ticket provider_nonce proof : option string) (f : funduq)
    : py string * funduq :=
  let '(r, st) := open identity new_ticket new_nonce link ticket provider_nonce proof (llms_view f) in (r, put_llms st f).

Definition detach_provider (provider_public_key : string) (connection : ConnectedProvider) (f : funduq) : funduq :=
  put_agents (detach provider_public_key connection (agents_view f)) f.

Definition detach_llm_provider (public_key : string) (connection : ConnectedProvider) (f : funduq) : funduq :=
  put_llms (detach public_key connection (llms_view f)) f.

Definition detach_all_for (public_key : string) (f : funduq) : funduq :=
  let f := put_agents (detach_all public_key (agents_view f)) f in
  put_llms (detach_all public_key (llms_view f)) f.

(** ** Names *)

(** [fp] is the fingerprint of the connection's key. *)
Definition register_agents (fp : string) (connection : ConnectedProvider) (takes_interjections : string -> bool)
    (batch : list Registration) (provider_name : option string) : comp funduq (py (list (string * AgentRef))) :=
  cbind
    (zoom agents_view put_agents
       (register (fun now key names s => Handlers.set_s_db (touch_agents now key names (Handlers.s_db s)) s)
          connection (map reg_name batch)
          (fun now s =>
             '(refs, d) ← Repo.register_agents now (public_key connection) fp (map (Link.declared takes_interjections) batch)
                            provider_name (Handlers.s_db s);
             Ok (map ref_name refs, Handlers.set_s_db d s))))
    (fun registered => ret (names ← registered; Ok (map (fun n => (n, mkRef (public_key connection) n)) names))).

Definition register_llm_providers (fp : string) (connection : ConnectedProvider) (names : list string) (metadata : json)
    : comp funduq (py (list (string * LlmRef))) :=
  cbind
    (zoom llms_view put_llms
       (register (fun now key names s => Handlers.set_s_db (touch_llm_providers now key names (Handlers.s_db s)) s)
          connection names
          (fun now s =>
             '(refs, d) ← Repo.register_llm_providers now (public_key connection) fp names metadata (Handlers.s_db s);
             Ok (map ref_name refs, Handlers.set_s_db d s))))
    (fun registered => ret (names ← registered; Ok (map (fun n => (n, mkRef (public_key connection) n)) names))).

Definition delete_agent (connection : ConnectedProvider) (name : string) (f : funduq) : py funduq :=
  st ← Core.delete_agent connection name (agents_view f); Ok (put_agents st f).
Definition delete_llm_offering (connection : ConnectedProvider) (name : string) (f : funduq) : py funduq :=
  st ← Core.delete_llm_offering connection name (llms_view f); Ok (put_llms st f).

Definition is_serving (agent : AgentRef) (f : funduq) : bool := bool_decide (is_Some (BrokerOps.serving agent (f_broker f))).
Definition is_serving_llm (ref : LlmRef) (f : funduq) : bool := bool_decide (is_Some (LiveRoster.roster_serving ref (f_relay f))).

(** ** Its life *)

Definition spawn (task : nat) (f : funduq) : funduq := set_f_tasks ({[task]} ∪ f_tasks f) f.
(** A task's done callback. *)
Definition task_done (task : nat) (f : funduq) : funduq := set_f_tasks (f_tasks f ∖ {[task]}) f.

(** [RunBroker.stop]. *)
Definition stop (b : broker) : broker := set_b_running false b.

(** Every task is cancelled and waited for, so its callback has run. *)
Definition aclose (f : funduq) : funduq :=
  set_f_tasks ∅ (set_f_started false (set_f_world (stop (f_broker f)) (f_store f) f)).

Context `{HT : TokenCodec, HR : RunModel, HA : !Handlers.AGUI}.

Definition start (f : funduq) : py (list string * funduq) :=
  '(orphaned, w) ← Core.start (f_started f) (Dispatch.mkWorld (f_broker f) (f_store f));
  Ok (orphaned, set_f_started true (set_f_world (Dispatch.w_broker w) (Dispatch.w_store w) f)).

(** ** Readings *)

Definition get_run_input (run_id : string) (d : db) : py (option dict) :=
  match get_run run_id d with
  | Some run => input ← run_input_of run d; Ok (Some input)
  | None => Ok None
  end.

Definition create_thread (new_id : string) (agent : AgentRef) (parent_thread_id : option string) (metadata : json) (f : funduq)
    : py (string * funduq) :=
  '(t, d) ← Repo.create_thread (f_now f) new_id agent parent_thread_id metadata None (Handlers.s_db (f_store f));
  Ok (t, set_f_world (f_broker f) (Handlers.set_s_db d (f_store f)) f).

(** A handle: the run, and whether it belongs to a [Funduq]. *)
Record RunHandle : Type := mkRunHandle { rh_run_id : string; rh_thread_id : string; rh_events : option (list dict); rh_bound : bool }.

Definition handle_events (h : RunHandle) : list dict := default [] (rh_events h).

Definition handle_cancel (h : RunHandle) (w : Dispatch.world Handlers.store) : option (py (bool * Dispatch.world Handlers.store)) :=
  if rh_bound h then Core.cancel_run (rh_run_id h) [] w else Some (Ok (false, w)).

End facade.

(** ** What connections, hosts and doors call through it

    The broker's doors and the readings of the store, each in its own
    session, on the object. *)
Module Api.

(** A call that the broker takes or does not. *)
Definition on_its_broker {A} (call : broker -> A * broker) (f : funduq) : A * funduq :=
  let '(a, b) := call (f_broker f) in (a, set_f_world b (f_store f) f).

Definition answer_offer (run_id : string) (accepted : verdict) (provider_key : string) : funduq -> bool * funduq :=
  on_its_broker (BrokerOps.answer_offer run_id accepted provider_key).
Definition note_undelivered (run_id : string) : funduq -> bool * funduq := on_its_broker (BrokerOps.note_undelivered run_id).
Definition report_event (run_id : string) (event : json) (claimed_by : string) : funduq -> bool * funduq :=
  on_its_broker (BrokerOps.report_event run_id event claimed_by).
Definition finish_run (run_id claimed_by : string) : funduq -> bool * funduq :=
  on_its_broker (BrokerOps.finish_stream run_id claimed_by).

(** The stream is handed out when it was not already: [true] is a live one. *)
Definition subscribe (run_id : string) (f : funduq) : py (bool * funduq) :=
  '(live, b) ← BrokerOps.subscribe run_id (f_broker f); Ok (live, set_f_world b (f_store f) f).
Definition active_runs (f : funduq) : list string := BrokerOps.active_run_ids (f_broker f).

Definition reading {A} (query : db -> A) (f : funduq) : A := query (Handlers.s_db (f_store f)).

Definition get_agent (agent : AgentRef) : funduq -> option AgentRow := reading (Repo.get_agent agent).
Definition resolve_agent (provider name : string) : funduq -> option (AgentRef * AgentRow) := reading (Repo.resolve_agent provider name).
Definition get_thread (thread_id : string) : funduq -> option ThreadRow := reading (Repo.get_thread thread_id).
Definition get_run (run_id : string) : funduq -> option RunRecord := reading (Repo.get_run run_id).
Definition thread_runs (thread_id : string) : funduq -> list RunRecord := reading (Repo.runs_in_thread thread_id).
Definition root_runs (thread_id : string) : funduq -> list RunRecord := reading (Repo.root_runs_in_thread thread_id).
Definition get_run_events (run_id : string) (since_seq : Z) : funduq -> list dict := reading (Repo.get_run_events run_id since_seq).
Definition lineage (run_id : string) : funduq -> option (list RunRecord) := reading (Repo.lineage run_id).
End Api.
End Facade.
