(* ===== verification/FacadeOk.v ===== *)
(** * What the facade guarantees as a whole

    A ticket opens one link on either roster; only open links serve, on both
    sides at once, whatever is called in whatever order; a change is told to
    everyone subscribed, whoever raises; a process is ready exactly when it
    can dispatch on the schema it was built for. *)

From S2P Require Import Prelude Errors Json Crypto Payloads Identity Models Repo Coop BrokerState BrokerOps BrokerInv Dispatch Handlers LiveRoster Roster RosterFacts Kyok Doors Link Core Facade.

Module FacadeOk.
Import Broker LiveRoster Roster RosterFacts Facade.

#[local] Existing Instances LiveRoster.broker_table LiveRoster.roster_table.

(** ** Changes *)

Lemma told (callback : nat -> ChangeEvent -> list nat -> list nat * option exn) event ids st :
  (foldl (fun st id => let '(l, _) := callback id event st.1 in (l, st.2 ++ [(id, event)])) st ids).2 =
  st.2 ++ map (fun id => (id, event)) ids.
Proof.
  revert st. induction ids as [|id ids IH]; intros st; [by rewrite app_nil_r|]. cbn [foldl map]. rewrite IH.
  destruct (callback id event st.1). cbn [snd]. by rewrite <- app_assoc.
Qed.

Section facade.
Context `{HC : Crypto}.
Variable identity : private_key.
Variable callback : nat -> ChangeEvent -> list nat -> list nat * option exn.

Notation announce := (announce callback).
Notation put_agents := (put_agents callback).
Notation put_llms := (put_llms callback).

Lemma announce_called event f : f_called (announce event 1 f) = f_called f ++ map (fun id => (id, event)) (f_subscribers f).
Proof.
  unfold announce, Facade.announce. cbn [Nat.iter nat_rect]. destruct (_notify_change _ _ _) as [l called] eqn:E. cbn [f_called].
  apply (f_equal snd) in E. unfold _notify_change in E. rewrite told in E. exact (eq_sym E).
Qed.

Lemma announce_none event f : announce event 0 f = f.
Proof. by destruct f. Qed.

(** Announcing touches nothing but the subscribers. *)
Lemma announce_views event n f :
  agents_view (announce event n f) = agents_view f /\ llms_view (announce event n f) = llms_view f /\
  f_started (announce event n f) = f_started f /\ f_tasks (announce event n f) = f_tasks f.
Proof. unfold announce, Facade.announce. by destruct (Nat.iter _ _ _). Qed.

Lemma put_agents_views st f :
  f_tickets (put_agents st f) = k_tickets st /\ f_agent_links (put_agents st f) = k_open st /\ f_broker (put_agents st f) = k_table st /\
  f_store (put_agents st f) = k_store st /\ f_llm_links (put_agents st f) = f_llm_links f /\ f_relay (put_agents st f) = f_relay f.
Proof. unfold put_agents, Facade.put_agents, Facade.announce. by destruct (Nat.iter _ _ _). Qed.

Lemma put_llms_views st f :
  f_tickets (put_llms st f) = k_tickets st /\ f_llm_links (put_llms st f) = k_open st /\ f_relay (put_llms st f) = k_table st /\
  f_store (put_llms st f) = k_store st /\ f_agent_links (put_llms st f) = f_agent_links f /\ f_broker (put_llms st f) = f_broker f.
Proof. unfold put_llms, Facade.put_llms, Facade.announce. by destruct (Nat.iter _ _ _). Qed.

(** A change is told to everyone: detaching a link that serves something
    calls every subscriber there was with one [RosterChanged], in the order
    the set is listed, whichever of them raise, subscribe or unsubscribe
    while being called; detaching one that serves nothing calls nobody. *)
Theorem changes_reach_everyone key c f :
  f_called (detach_provider callback key c f) = f_called f ++
    (if bool_decide (attached key c (agents_view f) = []) then [] else map (fun id => (id, RosterChanged)) (f_subscribers f)).
Proof.
  unfold detach_provider, detach. assert (attached key c (close_link key c (agents_view f)) = attached key c (agents_view f)) as ->.
  { unfold attached. by destruct (close_link_frame key c (agents_view f)) as [-> _]. }
  pose proof (close_link_frame key c (agents_view f)) as [_ Hc]. destruct (attached key c (agents_view f)) as [|r refs].
  - rewrite bool_decide_eq_true_2 by done. unfold put_agents, Facade.put_agents. rewrite Hc.
    cbn [k_changes agents_view]. rewrite announce_none. by rewrite app_nil_r.
  - rewrite bool_decide_eq_false_2 by done. unfold put_agents, Facade.put_agents. cbn [notify k_changes set_k_table].
    rewrite Hc. cbn [k_changes agents_view plus Nat.add]. by rewrite announce_called.
Qed.

(** ** Calls *)

(** What may be called on the object, one uninterrupted step each; [llm] says
    on which side.  [CServe] is [register]'s write, [COffline] a deletion's;
    [CStore] and [CBroker] stand for everything else that writes the store or
    moves the broker. *)
Inductive call : Type :=
| CIssue (ticket key : string)
| CAttach (llm : bool) (new_ticket new_nonce : string) (link : Link) (ticket nonce proof : option string)
| CDetach (llm : bool) (key : string) (c : ConnectedProvider)
| CDetachAll (key : string)
| CServe (llm : bool) (c : ConnectedProvider) (names : list string)
| COffline (llm : bool) (c : ConnectedProvider) (name : string)
| CStore (s : Handlers.store)
| CBroker (b : broker).

Definition attach_on (llm : bool) (x n : string) (link : Link) (ticket nonce proof : option string) (f : funduq) : py string * funduq :=
  if llm then attach_llm_provider identity callback x n link ticket nonce proof f
  else attach_provider identity callback x n link ticket nonce proof f.

Definition exec (f : funduq) (c : call) : funduq :=
  match c with
  | CIssue x key => issue_ticket x key f
  | CAttach llm x n link ticket nonce proof => (attach_on llm x n link ticket nonce proof f).2
  | CDetach llm key c => if llm then detach_llm_provider callback key c f else detach_provider callback key c f
  | CDetachAll key => detach_all_for callback key f
  | CServe llm c names => if llm then put_llms (serve c names (llms_view f)) f else put_agents (serve c names (agents_view f)) f
  | COffline llm c name => if llm then put_llms (take_offline c name (llms_view f)) f else put_agents (take_offline c name (agents_view f)) f
  | CStore s => set_f_world (f_broker f) s f
  | CBroker b => set_f_world b (f_store f) f
  end.

(** The ticket a call mints, if it does. *)
Definition mints (c : call) : option string :=
  match c with CIssue x _ => Some x | CAttach _ x _ _ _ _ _ => Some x | _ => None end.

(** ** Tickets *)

Lemma issue_other now x key t m : x <> t -> m !! t = None -> Roster.issue_ticket now x key m !! t = None.
Proof.
  intros Hne Hm. unfold Roster.issue_ticket. rewrite lookup_insert_ne by done. apply map_lookup_filter_None. by left.
Qed.

Lemma claim_other now x key t m : m !! t = None -> (_claim_ticket now x key m).2 !! t = None.
Proof.
  intros Hm. unfold _claim_ticket. destruct (m !! x); [|done]. case_bool_decide; [done|].
  destruct (_ <? _)%Z; cbn [snd]; rewrite lookup_delete; by case_decide.
Qed.

Section open.
Context {T S : Type} `{LiveTable T}.
Implicit Types st : links T S.

Lemma admit_keeps_spent link ticket nonce proof t st : k_tickets st !! t = None ->
  k_tickets (admit_link identity link ticket nonce proof st).2 !! t = None.
Proof.
  intros Ht. unfold admit_link. destruct proof as [p|]; [|done]. destruct ticket as [x|]; [|done].
  pose proof (claim_other (k_now st) x (public_key (connection link)) t _ Ht) as Hc.
  destruct (_claim_ticket _ _ _ _) as [ok m]. cbn [snd] in Hc. repeat (case_match; cbn [snd]; try done).
Qed.

Lemma open_keeps_spent x n link ticket nonce proof t st : x <> t -> k_tickets st !! t = None ->
  k_tickets (open identity x n link ticket nonce proof st).2 !! t = None.
Proof.
  intros Hne Ht. unfold open. destruct proof as [p|]; [by apply admit_keeps_spent|].
  destruct (sign_connect link) as [signer|]; [|by apply admit_keeps_spent].
  destruct (signer _ _ _); [apply admit_keeps_spent|]; cbn; by apply issue_other.
Qed.

Lemma open_spends x n link t nonce p st answer st' :
  open identity x n link (Some t) nonce (Some p) st = (Ok answer, st') -> k_tickets st' !! t = None.
Proof.
  unfold open, admit_link. destruct (_claim_ticket _ _ _ _) as [[] m] eqn:Hc; [|done].
  apply claim_ok in Hc as (at_&_&_&->). intros Ho.
  assert (k_tickets st' = delete t (k_tickets st)) as ->; [|by rewrite lookup_delete_eq].
  repeat (case_match; simplify_eq; try done).
Qed.

Lemma spent_refused x n link t nonce p st : k_tickets st !! t = None ->
  (open identity x n link (Some t) nonce (Some p) st).1 = Err (InvalidRegistration "no live ticket").
Proof. intros Ht. unfold open, admit_link, _claim_ticket. by rewrite Ht. Qed.
End open.

Lemma serve_tickets {T S} `{LiveTable T} c names (st : links T S) : k_tickets (serve c names st) = k_tickets st.
Proof. unfold serve, withdraw_any. by destruct (filter _ _). Qed.

Lemma offline_tickets {T S} `{LiveTable T} c name (st : links T S) : k_tickets (take_offline c name st) = k_tickets st.
Proof. unfold take_offline. by destruct (is_conn _ _). Qed.

Lemma close_tickets {T S} `{LiveTable T} key c (st : links T S) : k_tickets (close_link key c st) = k_tickets st.
Proof. unfold close_link. destruct (listed _ _); [|done]. by destruct (remove_conn _ _). Qed.

Lemma detach_tickets {T S} `{LiveTable T} key c (st : links T S) : k_tickets (detach key c st) = k_tickets st.
Proof. unfold detach. destruct (attached _ _ _); cbn; apply close_tickets. Qed.

Lemma detach_all_tickets {T S} `{LiveTable T} key (st : links T S) : k_tickets (detach_all key st) = k_tickets st.
Proof. unfold detach_all. by destruct (served_by _ _). Qed.

Lemma exec_keeps_spent c t f : mints c <> Some t -> f_tickets f !! t = None -> f_tickets (exec f c) !! t = None.
Proof.
  intros Hm Ht. destruct c as [x key|llm x n link ticket nonce proof|llm key c|key|llm c names|llm c name|s|b]; cbn [exec mints] in *.
  - apply issue_other; congruence.
  - unfold attach_on, attach_llm_provider, attach_provider. destruct llm.
    + pose proof (open_keeps_spent x n link ticket nonce proof t (llms_view f) ltac:(congruence) Ht) as Ho.
      destruct (open _ _ _ _ _ _ _ _) as [r st]. cbn [snd] in *. by rewrite (proj1 (put_llms_views st f)).
    + pose proof (open_keeps_spent x n link ticket nonce proof t (agents_view f) ltac:(congruence) Ht) as Ho.
      destruct (open _ _ _ _ _ _ _ _) as [r st]. cbn [snd] in *. by rewrite (proj1 (put_agents_views st f)).
  - destruct llm; unfold detach_llm_provider, detach_provider.
    + rewrite (proj1 (put_llms_views _ f)), detach_tickets. done.
    + rewrite (proj1 (put_agents_views _ f)), detach_tickets. done.
  - unfold detach_all_for. rewrite (proj1 (put_llms_views _ _)), detach_all_tickets. cbn [llms_view k_tickets].
    rewrite (proj1 (put_agents_views _ f)), detach_all_tickets. done.
  - destruct llm; [rewrite (proj1 (put_llms_views _ f))|rewrite (proj1 (put_agents_views _ f))]; by rewrite serve_tickets.
  - destruct llm; [rewrite (proj1 (put_llms_views _ f))|rewrite (proj1 (put_agents_views _ f))]; by rewrite offline_tickets.
  - done.
  - done.
Qed.

(** C37. A ticket opens one link, on whichever roster: once an agent provider
    or an LLM provider opened a link with a ticket, whatever is called on the
    facade from then on, nobody opens another with it on either side, unless
    the same string is minted again. *)
Theorem a_ticket_opens_one_link llm x n link t nonce p f answer f1 calls llm' x' n' link' nonce' p' :
  attach_on llm x n link (Some t) nonce (Some p) f = (Ok answer, f1) ->
  Forall (fun c => mints c <> Some t) calls ->
  (attach_on llm' x' n' link' (Some t) nonce' (Some p') (foldl exec f1 calls)).1 = Err (InvalidRegistration "no live ticket").
Proof.
  intros Ha Hc. assert (f_tickets f1 !! t = None) as Ht.
  { unfold attach_on, attach_llm_provider, attach_provider in Ha. destruct llm.
    - destruct (open _ _ _ _ _ _ _ _) as [r st] eqn:Ho. injection Ha as -> <-. rewrite (proj1 (put_llms_views st f)). by eapply open_spends.
    - destruct (open _ _ _ _ _ _ _ _) as [r st] eqn:Ho. injection Ha as -> <-. rewrite (proj1 (put_agents_views st f)). by eapply open_spends. }
  clear Ha. revert f1 Ht. induction Hc as [|c calls Hm _ IH]; intros f1 Ht; cbn [foldl]; [|by apply IH, exec_keeps_spent].
  unfold attach_on, attach_llm_provider, attach_provider. destruct llm'.
  - pose proof (spent_refused x' n' link' t nonce' p' (llms_view f1) Ht) as Hr. by destruct (open _ _ _ _ _ _ _ _).
  - pose proof (spent_refused x' n' link' t nonce' p' (agents_view f1) Ht) as Hr. by destruct (open _ _ _ _ _ _ _ _).
Qed.

(** ** Both sides *)

Definition both (f : funduq) : Prop := served_on_open (agents_view f) /\ served_on_open (llms_view f).

(** What each call asks of the object: a link is detached under its own key,
    names are written while their link is open, and the broker by itself only
    takes names offline. *)
Definition legal (f : funduq) (c : call) : Prop :=
  match c with
  | CDetach _ key c => key = public_key c
  | CServe llm c _ => if llm then require_open c (llms_view f) = Ok () else require_open c (agents_view f) = Ok ()
  | CBroker b => table_ok b /\ forall r c, live r b = Some c -> live r (f_broker f) = Some c
  | _ => True
  end.

Inductive step : funduq -> funduq -> Prop :=
| step_call f c : legal f c -> step f (exec f c).

Lemma put_agents_both st f : served_on_open st -> served_on_open (llms_view f) -> both (put_agents st f).
Proof.
  intros Hs Hl. destruct (put_agents_views st f) as (_&Eo&Eb&_&El&Er). split.
  - apply (so_same st); [exact Eb| |done]. intros c. unfold open_links. cbn [k_open agents_view]. by rewrite Eo.
  - apply (so_same (llms_view f)); [exact Er| |done]. intros c. unfold open_links. cbn [k_open llms_view]. by rewrite El.
Qed.

Lemma put_llms_both st f : served_on_open st -> served_on_open (agents_view f) -> both (put_llms st f).
Proof.
  intros Hs Hl. destruct (put_llms_views st f) as (_&Eo&Eb&_&El&Er). split.
  - apply (so_same (agents_view f)); [exact Er| |done]. intros c. unfold open_links. cbn [k_open agents_view]. by rewrite El.
  - apply (so_same st); [exact Eb| |done]. intros c. unfold open_links. cbn [k_open llms_view]. by rewrite Eo.
Qed.

(** Only open links serve, on both sides of the facade: whatever is
    called, in whatever order, every agent the broker routes and every
    offering the relay routes is served by a connection on an open link of
    its own key. *)
Theorem both_rosters_serve_open_links f f' : both f -> rtc step f f' -> both f'.
Proof.
  intros Hb Hs. induction Hs as [f|f f1 f' [f0 c Hl] _ IH]; [done|]. apply IH. clear IH. destruct Hb as [Ha Hm].
  destruct c as [x key|llm x n link ticket nonce proof|llm key c|key|llm c names|llm c name|s|b]; cbn [exec legal] in *.
  - split; [by apply (so_same (agents_view f0))|by apply (so_same (llms_view f0))].
  - unfold attach_on, attach_llm_provider, attach_provider. destruct llm.
    + pose proof (open_served identity x n link ticket nonce proof _ Hm) as Ho. destruct (open _ _ _ _ _ _ _ _). by apply put_llms_both.
    + pose proof (open_served identity x n link ticket nonce proof _ Ha) as Ho. destruct (open _ _ _ _ _ _ _ _). by apply put_agents_both.
  - subst key. destruct llm; [apply put_llms_both|apply put_agents_both]; try done; by apply detach_served.
  - unfold detach_all_for. destruct (put_agents_both (detach_all key (agents_view f0)) f0) as [Ha' Hm']; [by apply detach_all_served|done|].
    apply put_llms_both; [by apply detach_all_served|done].
  - destruct llm; [apply put_llms_both|apply put_agents_both]; try done; by apply serve_served.
  - destruct llm; [apply put_llms_both|apply put_agents_both]; try done; by apply take_offline_served.
  - split; [by apply (so_same (agents_view f0))|by apply (so_same (llms_view f0))].
  - destruct Hl as [Hok Hlive]. split; [|by apply (so_same (llms_view f0))]. split; [exact Hok|].
    intros r c Hr. destruct Ha as [_ Ho]. exact (Ho r c (Hlive r c Hr)).
Qed.

(** ** Registering *)

Lemma register_agent_stored now key a d d' : Repo.register_agent now key a d = Ok d' ->
  is_Some (d_agents d' !! mkRef key (Repo.reg_name a)) /\ forall r, is_Some (d_agents d !! r) -> is_Some (d_agents d' !! r).
Proof.
  unfold Repo.register_agent. intros (card&_&[= <-])%bind_ok. cbn. split; [by rewrite lookup_insert_eq|].
  intros r Hr. rewrite lookup_insert. by case_decide.
Qed.

Lemma register_all_stored now key batch d d' : fold_res (Repo.register_agent now key) batch d = Ok d' ->
  (forall a, a ∈ batch -> is_Some (d_agents d' !! mkRef key (Repo.reg_name a))) /\
  forall r, is_Some (d_agents d !! r) -> is_Some (d_agents d' !! r).
Proof.
  revert d. induction batch as [|a batch IH]; intros d; cbn [fold_res].
  - intros [= <-]. split; [by intros a ?%not_elem_of_nil|done].
  - intros (d1&Ha&Hf)%bind_ok. apply register_agent_stored in Ha as [Ha1 Ha2]. destruct (IH _ Hf) as [H1 H2].
    split; [intros a' [->|Hin]%elem_of_cons; [by apply H2|by apply H1]|]. intros r Hr. by apply H2, Ha2.
Qed.

Lemma touched_still_there now key names d r : is_Some (d_agents d !! r) -> is_Some (d_agents (Repo.touch_agents now key names d) !! r).
Proof.
  unfold Repo.touch_agents. cbn [d_agents set_d_agents]. generalize (d_agents d). induction names as [|n names IH]; intros m Hm; [done|].
  cbn [foldl]. apply IH. by rewrite lookup_alter_is_Some.
Qed.

Lemma put_view f : put_agents (agents_view f) f = f.
Proof. unfold put_agents, Facade.put_agents. cbn [k_changes agents_view]. rewrite announce_none. by destruct f. Qed.

Lemma view_put st f : k_changes st = 0 -> k_now st = Handlers.s_now (k_store st) -> agents_view (put_agents st f) = st.
Proof.
  intros Hc Hn. unfold put_agents, Facade.put_agents. rewrite Hc, announce_none. destruct st. cbn in *. unfold agents_view, f_now. cbn.
  by rewrite Hc, Hn.
Qed.

Lemma put_put st st' f : k_changes st' = 0 -> put_agents st (put_agents st' f) = put_agents st f.
Proof. intros Hc. unfold put_agents at 2, Facade.put_agents. by rewrite Hc, announce_none. Qed.

Lemma serve_frame {T S} `{LiveTable T} c names (st : links T S) :
  k_changes (serve c names st) = k_changes st /\ k_now (serve c names st) = k_now st /\ k_store (serve c names st) = k_store st /\
  k_open (serve c names st) = k_open st /\ k_tickets (serve c names st) = k_tickets st.
Proof. unfold serve, withdraw_any. by destruct (filter _ _). Qed.

(** [register_agents] with nothing in between its suspensions. *)
Definition registered_alone (fp : string) (c : ConnectedProvider) (takes : string -> bool) (batch : list Repo.Registration)
    (name : option string) (f : funduq) : funduq * susp funduq (py (list (string * AgentRef))) :=
  let '(f1, s) := register_agents callback fp c takes batch name f in run_alone (repeat id 4) s f1.

(** What it comes to: the names written, served and marked as seen, one announcement. *)
Definition registered_state (c : ConnectedProvider) (names : list string) (d' : db) (f : funduq) : links broker Handlers.store :=
  let st := serve c names (set_k_store (Handlers.set_s_db d' (f_store f)) (agents_view f)) in
  set_k_store (Handlers.set_s_db (Repo.touch_agents (k_now st) (public_key c) names (Handlers.s_db (k_store st))) (k_store st)) st.

Lemma registered_alone_eq fp c takes batch name f refs d' :
  require_open c (agents_view f) = Ok () -> batch <> [] ->
  Repo.register_agents (f_now f) (public_key c) fp (map (Link.declared takes) batch) name (Handlers.s_db (f_store f)) = Ok (refs, d') ->
  registered_alone fp c takes batch name f =
    (put_agents (notify (registered_state c (map Repo.reg_name batch) d' f)) f,
     Done (Ok (map (fun a => (Repo.reg_name a, mkRef (public_key c) (Repo.reg_name a))) batch))).
Proof.
  intros Ho Hne Hreg. unfold registered_alone, register_agents, cbind, zoom, register. cbv beta. rewrite Ho.
  assert (exists n names, map Repo.reg_name batch = n :: names) as (n&names&Hn) by (destruct batch; [done|by do 2 eexists]).
  assert (map ref_name refs = map Repo.reg_name batch) as Hns.
  { unfold Repo.register_agents in Hreg. apply bind_ok in Hreg as (d1&_&Hreg). apply bind_ok in Hreg as (d3&Hf&[= <- <-]).
    rewrite !map_map. by apply map_ext; intros []. }
  unfold registered_state. rewrite <- Hns.
  rewrite Hns at 1. rewrite Hn. cbn -[put_agents serve announce agents_view Facade.put_agents]. rewrite put_view.
  set (st1 := set_k_store (Handlers.set_s_db d' (f_store f)) (agents_view f)). set (ns := map ref_name refs) in *.
  pose proof (serve_frame c ns st1) as (Sc&Sn&Ss&So&Stk). set (st2 := serve c ns st1) in *.
  change (k_now (agents_view f)) with (f_now f). change (k_store (agents_view f)) with (f_store f). rewrite Hreg.
  cbn -[put_agents serve announce agents_view Facade.put_agents]. fold ns st1.
  rewrite (view_put st1) by done. fold st2. rewrite (put_put st2 st1) by done.
  assert (agents_view (put_agents st2 f) = st2) as -> by (apply view_put; rewrite ?Sc, ?Sn, ?Ss; done).
  set (st3 := set_k_store _ st2). rewrite (put_put st3 st2) by by rewrite Sc.
  assert (k_changes st3 = 0) as Hc3 by (transitivity (k_changes st2); [done|by rewrite Sc]).
  assert (k_now st3 = Handlers.s_now (k_store st3)) as Hn3.
  { transitivity (k_now st2); [done|]. rewrite Sn. transitivity (Handlers.s_now (k_store st2)); [by rewrite Ss|done]. }
  rewrite (view_put st3 f Hc3 Hn3).
  rewrite ?(put_put _ st3) by done. rewrite ?(put_put _ st2) by by rewrite Sc.
  rewrite Hns. by rewrite map_map.
Qed.

(** Registering publishes: on an open link, with something to publish and
    a database that takes it, [register_agents] returns the ref of every
    registration in order; each has its record and is served by the
    connection; the LLM side is as it was, and every subscriber is told once
    that the roster changed. *)
Theorem registered_agents_are_served fp c takes batch name f refs d' :
  require_open c (agents_view f) = Ok () -> batch <> [] -> table_ok (f_broker f) ->
  Repo.register_agents (f_now f) (public_key c) fp (map (Link.declared takes) batch) name (Handlers.s_db (f_store f)) = Ok (refs, d') ->
  exists f', registered_alone fp c takes batch name f =
      (f', Done (Ok (map (fun a => (Repo.reg_name a, mkRef (public_key c) (Repo.reg_name a))) batch))) /\
    (forall a, a ∈ batch -> live (mkRef (public_key c) (Repo.reg_name a)) (f_broker f') = Some c /\
       is_Some (Repo.get_agent (mkRef (public_key c) (Repo.reg_name a)) (Handlers.s_db (f_store f')))) /\
    llms_view f' = mkLinks (f_tickets f) (f_llm_links f) (f_relay f) (f_store f') 0 (f_now f) /\
    f_called f' = f_called f ++ map (fun id => (id, RosterChanged)) (f_subscribers f).
Proof.
  intros Ho Hne Hok Hreg. eexists. split; [by eapply registered_alone_eq|]. set (names := map Repo.reg_name batch).
  set (st3 := registered_state c names d' f). destruct (put_agents_views (notify st3) f) as (Et&_&Eb&Es&El&Er).
  set (st1 := set_k_store (Handlers.set_s_db d' (f_store f)) (agents_view f)).
  pose proof (serve_frame c names st1) as (Sc&Sn&Ss&So&Stk). split; [|split].
  - intros a Ha. rewrite Eb, Es. split.
    + pose proof (serve_live c names st1 (mkRef (public_key c) (Repo.reg_name a)) Hok) as Hl.
      rewrite bool_decide_eq_true_2 in Hl; [exact Hl|]. unfold names. rewrite map_map.
      by apply (list_elem_of_fmap_2 (fun a => ref c (Repo.reg_name a))).
    + unfold Repo.register_agents in Hreg. apply bind_ok in Hreg as (d1&_&Hreg). apply bind_ok in Hreg as (d3&Hf&[= _ <-]).
      change (is_Some (d_agents (Repo.touch_agents (k_now (serve c names st1)) (public_key c) names (Handlers.s_db (k_store (serve c names st1)))) !!
        mkRef (public_key c) (Repo.reg_name a))). apply touched_still_there. rewrite Ss. apply register_all_stored in Hf as [Hf _].
      destruct (Hf (Link.declared takes a)) as [row Hrow]; [by apply list_elem_of_fmap_2|]. by exists row.
  - unfold llms_view, f_now. rewrite Er, El, Es, Et.
    change (k_tickets (notify st3)) with (k_tickets (serve c names st1)).
    change (Handlers.s_now (k_store (notify st3))) with (Handlers.s_now (k_store (serve c names st1))). rewrite Stk, Ss. done.
  - unfold put_agents, Facade.put_agents. change (k_changes (notify st3)) with (k_changes (serve c names st1) + 1). rewrite Sc.
    change (k_changes st1 + 1) with 1. by rewrite announce_called.
Qed.

(** ** Ready *)

(** A process is ready exactly when its database answered, on the one
    revision it was built for, and its broker dispatches. *)
Theorem ready_means_it_can_dispatch p b :
  ready (health p b) = true <-> b_running b = true /\ exists rest, p = Answered (Some (EXPECTED_SCHEMA_REVISION :: rest)).
Proof.
  unfold ready, schema_current. destruct p as [|name|[[|r rest]|]]; cbn [health h_database h_schema_revision h_expected_schema_revision h_dispatching get_schema_revision];
    rewrite ?andb_true_iff, ?bool_decide_eq_true; cbn; try naive_solver congruence.
Qed.

End facade.

(** ** A facade at work *)
Module Witness.
#[local] Existing Instance Toy.crypto.

Definition alice : ConnectedProvider := mkConn 1 "alice" (Some 2%Z).
Definition alice_link : Link := InProcessLink (H := Toy.crypto) "alice" (Some "hub") 1 (Some 2%Z).
Definition llm_link : Link := InProcessLink (H := Toy.crypto) "alice" (Some "hub") 2 None.

(** Two subscribers, the first of which raises and unsubscribes the other. *)
Definition moody : nat -> ChangeEvent -> list nat -> list nat * option exn := fun id _ l =>
  if Nat.eqb id 1 then (unsubscribe 2 l, Some RuntimeError) else (l, None).

Definition fresh : funduq :=
  mkFunduq (BrokerOps.start (empty_broker None)) (new_roster ["completions"]) (Handlers.mkStore empty_db ∅ [] 0) ∅ ∅ ∅ true ∅ [1; 2] [].

Definition proof : string := sign_hex (Crypto := Toy.crypto) "alice" (Payloads.provider_connect_payload "hub" "T" "n").
Definition issued : funduq := issue_ticket "T" "alice" fresh.
Definition opened : funduq := (attach_on (HC := Toy.crypto) "hub" moody false "x" "y" alice_link (Some "T") (Some "n") (Some proof) issued).2.

(** Spent on the agents' side, the ticket is refused on the models'. *)
Lemma a_ticket_opens_one_link_witness :
  (attach_on (HC := Toy.crypto) "hub" moody true "x" "y" llm_link (Some "T") (Some "n") (Some proof)
     (foldl (exec (HC := Toy.crypto) "hub" moody) opened [CDetachAll "bob"; CIssue "T2" "alice"])).1 =
  Err (InvalidRegistration "no live ticket").
Proof.
  apply (a_ticket_opens_one_link (HC := Toy.crypto) "hub" moody false "x" "y" alice_link "T" (Some "n") proof issued
    (sign_hex (Crypto := Toy.crypto) "hub" (Payloads.funduq_connect_payload "T" "n")) opened).
  - vm_compute. reflexivity.
  - repeat constructor; discriminate.
Defined.

Lemma fresh_ok : table_ok (f_broker fresh).
Proof.
  split; [intros r k Hr; discriminate Hr|intros r k Hr; by apply not_elem_of_nil in Hr].
Qed.

Lemma fresh_both : both fresh.
Proof. split; (split; [|intros r c Hr; discriminate Hr]); [exact fresh_ok|by intros ref c]. Qed.

Definition writer : Repo.Registration := Repo.mkRegistration "writer" "" [] (JObj []) false.

Definition served_names (f : funduq) : list AgentRef := BrokerOps.agents_served_by "alice" (f_broker f).

Lemma opened_open : require_open alice (agents_view opened) = Ok ().
Proof. vm_compute. reflexivity. Qed.

Lemma both_rosters_serve_open_links_witness :
  both (exec (HC := Toy.crypto) "hub" moody opened (CServe false alice ["writer"])) /\
  served_names (exec (HC := Toy.crypto) "hub" moody opened (CServe false alice ["writer"])) = [mkRef "alice" "writer"].
Proof.
  split; [|vm_compute; reflexivity].
  apply (both_rosters_serve_open_links (HC := Toy.crypto) "hub" moody fresh); [exact fresh_both|].
  eapply rtc_l; [exact (step_call (HC := Toy.crypto) "hub" moody fresh (CIssue "T" "alice") I)|].
  eapply rtc_l; [exact (step_call (HC := Toy.crypto) "hub" moody issued (CAttach false "x" "y" alice_link (Some "T") (Some "n") (Some proof)) I)|].
  apply rtc_once. exact (step_call (HC := Toy.crypto) "hub" moody opened (CServe false alice ["writer"]) opened_open).
Defined.

Lemma registered_agents_are_served_witness : exists f',
  registered_alone moody "fp" alice (fun _ => true) [writer] None opened = (f', Done (Ok [("writer", mkRef "alice" "writer")])) /\
  f_called f' = [(1, RosterChanged); (2, RosterChanged)].
Proof.
  destruct (registered_agents_are_served moody "fp" alice (fun _ => true) [writer] None opened [mkRef "alice" "writer"]
    match Repo.register_agents (f_now opened) "alice" "fp" (map (Link.declared (fun _ => true)) [writer]) None (Handlers.s_db (f_store opened)) with
    | Ok (_, d) => d | Err _ => empty_db end) as (f'&Hr&_&_&Hc); [exact opened_open|discriminate|exact fresh_ok|vm_compute; reflexivity|].
  exists f'. split; [exact Hr|]. rewrite Hc. vm_compute. reflexivity.
Defined.

End Witness.
End FacadeOk.
