(* ===== verification/MigrationsOk.v ===== *)
(** * What the migrations guarantee

    On either backend they build exactly the schema the application queries
    through, at the revision it expects; from any revision, a database that
    keeps its constraints is brought to the head, whatever its rows; and the
    last revision can be undone without loss. *)

From S2P Require Import Prelude Json Models Relational Schema Migrations RelationalFacts BrokerState Facade.

Module MigrationsOk.
Import Relational Schema Migrations RelationalFacts.

(** ** Schemas along the chain *)

(** The same declarations, in whatever order. *)
Record same_table (t u : Table) : Prop := {
  st_columns : t_columns t ≡ₚ t_columns u;
  st_pk : t_pk t = t_pk u;
  st_fks : t_fks t ≡ₚ t_fks u;
  st_uniques : t_uniques t ≡ₚ t_uniques u;
  st_checks : t_checks t ≡ₚ t_checks u;
  st_indexes : t_indexes t ≡ₚ t_indexes u;
}.

Definition same_schema (s s' : schema) : Prop :=
  dom s = dom s' /\ forall name t u, s !! name = Some t -> s' !! name = Some u -> same_table t u.

Definition same_tableb (t u : Table) : bool :=
  bool_decide (t_columns t ≡ₚ t_columns u) && bool_decide (t_pk t = t_pk u) && bool_decide (t_fks t ≡ₚ t_fks u) &&
  bool_decide (t_uniques t ≡ₚ t_uniques u) && bool_decide (t_checks t ≡ₚ t_checks u) && bool_decide (t_indexes t ≡ₚ t_indexes u).

Definition same_schemab (s s' : schema) : bool :=
  bool_decide (dom s = dom s') &&
  forallb (fun kv => match s' !! kv.1 with Some u => same_tableb kv.2 u | None => false end) (map_to_list s).

Lemma same_tableb_ok t u : same_tableb t u = true -> same_table t u.
Proof. unfold same_tableb. rewrite !andb_true_iff, !bool_decide_eq_true. intros (((((?&?)&?)&?)&?)&?). by split. Qed.

Lemma same_schemab_ok s s' : same_schemab s s' = true -> same_schema s s'.
Proof.
  intros [Hd%bool_decide_eq_true Ha]%andb_prop. split; [done|]. intros name t u Ht Hu. rewrite forallb_forall in Ha.
  specialize (Ha (name, t) ltac:(by apply list_elem_of_In, elem_of_map_to_list)). cbn in Ha. rewrite Hu in Ha. by apply same_tableb_ok.
Qed.

(** The schema after the first [n] revisions. *)
Definition schema_at (b : backend) (n : nat) : schema := schema_effects (flat_map (fun r => upgrade r b) (take n versions)) ∅.

Lemma head_schema b : same_schema (schema_at b 8) metadata.
Proof. apply same_schemab_ok. destruct b; vm_compute; reflexivity. Qed.

Lemma schema_next b n r : versions !! n = Some r -> schema_effects (upgrade r b) (schema_at b n) = schema_at b (S n).
Proof.
  intros Hr. unfold schema_at. rewrite (take_S_r _ _ _ Hr), flat_map_app. unfold schema_effects. rewrite foldl_app. cbn. by rewrite app_nil_r.
Qed.

(** Every upgrade is safe where it comes. *)
Lemma upgrades_safe b n r : versions !! n = Some r -> safe_script (upgrade r b) (schema_at b n) = true.
Proof.
  assert (forallb (fun n => match versions !! n with Some r => safe_script (upgrade r b) (schema_at b n) | None => false end) (seq 0 8) = true) as Hall
    by (destruct b; vm_compute; reflexivity).
  intros Hr. rewrite forallb_forall in Hall. specialize (Hall n). rewrite Hr in Hall. apply Hall, in_seq.
  apply lookup_lt_Some in Hr. cbn in Hr. lia.
Qed.

(** ** What the rows must meet, revision by revision *)

Lemma rows_hit s d m : m = target s -> rows m (effect s d) = rows_effect s (rows m d).
Proof. intros ->. by rewrite rows_after, decide_True. Qed.
Lemma rows_miss s d m : m <> target s -> rows m (effect s d) = rows m d.
Proof. intros Hm. by rewrite rows_after, decide_False. Qed.

Ltac rows_simpl := repeat first [rewrite rows_hit by reflexivity | rewrite rows_miss by discriminate].

(** Of every message whose run there is, the thread is the run's. *)
Definition coherent (d : database) : Prop :=
  forall m r, m ∈ rows "thread_messages" d -> r ∈ rows "runs" d ->
    cell m "run_id" = cell r "run_id" -> cell m "thread_id" = cell r "thread_id".

Lemma delete_all l : filter (fun r => holds Always r = false) l = [].
Proof. induction l; [done|]. rewrite filter_cons_False; done. Qed.

(** A row of a table is one of a table that asks no more. *)
Definition asks_no_more (t' t : Table) : bool :=
  forallb (fun c => bool_decide (c ∈ t_columns t)) (t_columns t') &&
  forallb (fun n => bool_decide (n ∈ column_names t')) (column_names t) &&
  forallb (fun ck' => existsb (fun ck => String.eqb (ck_column ck) (ck_column ck') && forallb (fun w => bool_decide (w ∈ ck_in ck')) (ck_in ck)) (t_checks t))
    (t_checks t').

Lemma passes_wider ck ck' r : String.eqb (ck_column ck) (ck_column ck') = true ->
  forallb (fun w => bool_decide (w ∈ ck_in ck')) (ck_in ck) = true -> passes ck r = true -> passes ck' r = true.
Proof.
  intros Hc%String.eqb_eq Hw. rewrite forallb_forall in Hw. unfold passes. rewrite Hc. destruct (r !! ck_column ck') as [[]|]; try done.
  rewrite !bool_decide_eq_true. intros Hs. apply (bool_decide_eq_true_1 _), Hw. by apply list_elem_of_In.
Qed.

Lemma asks_no_more_ok t' t r : asks_no_more t' t = true -> row_ok t r -> row_ok t' r.
Proof.
  intros [[Hc Hn]%andb_prop Hck]%andb_prop (H1&H2&H3). rewrite forallb_forall in Hc, Hn, Hck. split_and!.
  - apply Forall_forall. intros c Hin. apply (proj1 (Forall_forall _ _) H1 c). apply (bool_decide_eq_true_1 _), Hc. by apply list_elem_of_In.
  - etrans; [exact H2|]. intros n. rewrite !elem_of_list_to_set. intros Hin. apply (bool_decide_eq_true_1 _), Hn. by apply list_elem_of_In.
  - apply Forall_forall. intros ck' Hin. specialize (Hck ck' ltac:(by apply list_elem_of_In)). apply existsb_exists in Hck as (ck&Hk&[He Hw]%andb_prop).
    eapply passes_wider; [exact He|exact Hw|]. apply (proj1 (Forall_forall _ _) H3 ck). by apply list_elem_of_In.
Qed.

(** Rows known apart by one key are apart by another that tells as much. *)
Lemma unique_transfer cols cols' l : unique_on cols l ->
  (forall r r' k, r ∈ l -> r' ∈ l -> key_on cols' r = Some k -> key_on cols' r' = Some k -> is_Some (key_on cols r) /\ key_on cols r = key_on cols r') ->
  unique_on cols' l.
Proof.
  unfold unique_on. induction l as [|r l IH]; intros Hn Ht; [by apply NoDup_nil|]. cbn [omap list_omap] in *.
  assert (NoDup (omap (key_on cols') l)) as Hl.
  { apply IH; [destruct (key_on cols r); [by apply NoDup_cons in Hn as [_ ?]|done]|].
    intros r1 r2 k H1 H2. apply Ht; by right. }
  destruct (key_on cols' r) as [k|] eqn:Hk; [|done]. apply NoDup_cons. split; [|done].
  intros (r'&Hr'&Hk')%list_elem_of_omap. destruct (Ht r r' k ltac:(by left) ltac:(by right) Hk Hk') as [[k0 Hk0] He].
  rewrite Hk0 in Hn, He. apply NoDup_cons in Hn as [Hn _]. apply Hn, list_elem_of_omap. by exists r'.
Qed.

Lemma key_on_two c1 c2 r k : key_on [c1; c2] r = Some k <-> exists v1 v2, cell r c1 = Some v1 /\ cell r c2 = Some v2 /\ k = [v1; v2].
Proof.
  unfold key_on. cbn [mapM]. split.
  - destruct (cell r c1) as [v1|]; [|done]. cbn. destruct (cell r c2) as [v2|]; [|done]. cbn. intros [= <-]. by exists v1, v2.
  - intros (v1&v2&->&->&->). done.
Qed.

Lemma key_on_one c r k : key_on [c] r = Some k <-> exists v, cell r c = Some v /\ k = [v].
Proof.
  unfold key_on. cbn [mapM]. split; [destruct (cell r c) as [v|]; [cbn; intros [= <-]; by exists v|done]|]. intros (v&->&->). done.
Qed.

(** A required column is never null. *)
Lemma required_cell t r c ty : row_ok t r -> mkColumn c ty false None ∈ t_columns t -> is_Some (cell r c).
Proof.
  intros (H1&_) Hc. pose proof (proj1 (Forall_forall _ _) H1 _ Hc) as Hr. cbn in Hr. unfold cell.
  destruct (r !! c) as [[]|]; cbn in Hr; try done; by eexists.
Qed.

(** Alterations of an empty table ask for nothing. *)
Lemma demands_empty name l d : rows name d = [] -> script_demands (map (Alter name) l) d.
Proof.
  revert d. induction l as [|a l IH]; intros d He; cbn [map script_demands]; [done|]. split.
  - destruct a; cbn [demands]; try done; [by right|by rewrite He|rewrite He; by apply NoDup_nil].
  - apply IH. rewrite rows_hit by done. cbn [rows_effect]. by rewrite He.
Qed.

Lemma rows_elsewhere name l d m : m <> name -> rows m (effects (map (Alter name) l) d) = rows m d.
Proof. intros Hm. revert d. induction l as [|a l IH]; intros d; cbn; [done|]. etrans; [apply IH|]. by rewrite rows_miss. Qed.

Section revisions.
Variable b : backend.
Variable d : database.
Hypothesis Hv : valid d.

(** The table of a name, at a point of the chain. *)
Lemma table_there n name t : d_schema d = schema_at b n -> schema_at b n !! name = Some t -> table_valid d name t.
Proof. intros Hs Ht. apply Hv. by rewrite Hs. Qed.

Lemma demands_c4d9e17b52aa : d_schema d = schema_at b 2 -> script_demands (upgrade_c4d9e17b52aa b) d.
Proof.
  intros Hs. assert (exists t, schema_at b 2 !! "runs" = Some t /\ asks_no_more (_runs status_offering) t = true /\ status_before ∈ t_checks t) as (t&Ht&Ha&Hck)
    by (destruct b; eexists; (split; [vm_compute; reflexivity|]); (split; [vm_compute; reflexivity|apply (bool_decide_eq_true_1 _); vm_compute; reflexivity])).
  destruct (table_there 2 "runs" t Hs Ht) as (H1&_&_).
  assert (Forall (fun r => passes status_offering r = true) (rows "runs" d)) as Hp.
  { eapply Forall_impl; [exact H1|]. intros r (_&_&H3). apply (passes_wider status_before); [done|vm_compute; reflexivity|].
    exact (proj1 (Forall_forall _ _) H3 _ Hck). }
  assert (Forall (row_ok (_runs status_offering)) (rows "runs" d)) as Hr by (eapply Forall_impl; [exact H1|]; intros r; by apply asks_no_more_ok).
  unfold upgrade_c4d9e17b52aa, _replace_status_check, batch_alter_table. destruct b; cbn [script_demands map app demands]; split_and!; try done;
    rows_simpl; cbn [rows_effect]; by rewrite map_id.
Qed.

Lemma demands_a1f4c9d27e3b : d_schema d = schema_at b 4 -> script_demands (upgrade_a1f4c9d27e3b b) d.
Proof.
  intros Hs.
  assert (referrers "run_events" (schema_at b 4) = [] /\ referrers "thread_messages" (schema_at b 4) = [] /\
    (forall m, m ∈ referrers "runs" (schema_at b 4) -> m = "run_events" \/ m = "thread_messages")) as (E1&E2&E3).
  { split_and!; [destruct b; vm_compute; reflexivity..|]. assert (referrers "runs" (schema_at b 4) ⊆ ["run_events"; "thread_messages"]) as Hsub
      by (apply (bool_decide_eq_true_1 _); destruct b; vm_compute; reflexivity). intros m Hm. apply Hsub in Hm. set_solver. }
  assert (Hd : script_demands delete_runs d).
  { cbn [delete_runs script_demands demands d_schema effect schema_effect]. rewrite Hs, E1, E2. split; [by apply Forall_nil|]. split; [by apply Forall_nil|]. split; [|done].
    apply Forall_forall. intros m [-> | ->]%E3; rows_simpl; cbn [rows_effect]; apply delete_all. }
  assert (He : forall m, m = "runs" \/ m = "thread_messages" -> rows m (effects delete_runs d) = [])
    by (intros m [-> | ->]; cbn [effects delete_runs foldl]; rows_simpl; cbn [rows_effect]; apply delete_all).
  unfold upgrade_a1f4c9d27e3b. rewrite !script_demands_app. split; [done|]. revert He. generalize (effects delete_runs d). intros d1 He.
  pose proof (He "runs" ltac:(by left)) as Hr. pose proof (He "thread_messages" ltac:(by right)) as Hm.
  unfold batch_alter_table. destruct b; cbn [app]; (split; apply demands_empty; [exact Hr|by rewrite rows_elsewhere]).
Qed.

(** A message id is known in its run as it was in its thread. *)
Lemma unique_in_run t u m_rows r_rows : Forall (row_ok t) m_rows -> mkColumn "thread_id" String_ false None ∈ t_columns t ->
  refers_to (references "run_id" "runs" "run_id") m_rows r_rows ->
  (forall m r, m ∈ m_rows -> r ∈ r_rows -> cell m "run_id" = cell r "run_id" -> cell m "thread_id" = cell r "thread_id") ->
  unique_on ["thread_id"; "message_id"] m_rows -> u_columns u = ["run_id"; "message_id"] -> unique_on (u_columns u) m_rows.
Proof.
  intros Hok Hc Hfk Hco Hu ->. apply (unique_transfer ["thread_id"; "message_id"]); [done|].
  assert (Hrun : forall m v, m ∈ m_rows -> cell m "run_id" = Some v -> exists r, r ∈ r_rows /\ cell r "run_id" = Some v).
  { intros m v Hm Hv'. pose proof (proj1 (Forall_forall _ _) Hfk m Hm) as Hr. cbn in Hr. rewrite Hv' in Hr. cbn in Hr.
    apply list_elem_of_omap in Hr as (r&Hr&(v'&Hv''&[= ->])%key_on_one). by exists r. }
  intros m m' k Hm Hm' (v1&v2&Hr&Hi&->)%key_on_two (v1'&v2'&Hr'&Hi'&[= <- <-])%key_on_two.
  destruct (Hrun m v1 Hm Hr) as (r&Hin&Hrr).
  pose proof (Hco m r Hm Hin ltac:(congruence)) as Ht. pose proof (Hco m' r Hm' Hin ltac:(congruence)) as Ht'.
  destruct (required_cell t m "thread_id" String_ (proj1 (Forall_forall _ _) Hok m Hm) Hc) as [v Hv'].
  assert (key_on ["thread_id"; "message_id"] m = Some [v; v2]) as -> by (apply key_on_two; by exists v, v2).
  assert (key_on ["thread_id"; "message_id"] m' = Some [v; v2]) as -> by (apply key_on_two; exists v, v2; split_and!; congruence). done.
Qed.

Lemma demands_b5d2e8f0a7c4 : d_schema d = schema_at b 5 -> coherent d -> script_demands (upgrade_b5d2e8f0a7c4 b) d.
Proof.
  intros Hs Hco.
  assert (exists t, schema_at b 5 !! "thread_messages" = Some t /\ mkColumn "thread_id" String_ false None ∈ t_columns t /\
    references "run_id" "runs" "run_id" ∈ t_fks t /\ ["thread_id"; "message_id"] ∈ keys_of t) as (t&Ht&Hc&Hf&Hk).
  { destruct b; eexists; (split; [vm_compute; reflexivity|]); split_and!; apply (bool_decide_eq_true_1 _); vm_compute; reflexivity. }
  destruct (table_there 5 "thread_messages" t Hs Ht) as (H1&H2&H3).
  pose proof (unique_in_run t run_message_unique _ _ H1 Hc (proj1 (Forall_forall _ _) H3 _ Hf) Hco (proj1 (Forall_forall _ _) H2 _ Hk) eq_refl) as Hu.
  unfold upgrade_b5d2e8f0a7c4, batch_alter_table. destruct b; cbn [script_demands map app demands]; split_and!; try done;
    rows_simpl; cbn [rows_effect]; by rewrite map_id.
Qed.

Lemma demands_c8e1f3a6b902 : d_schema d = schema_at b 6 -> script_demands (upgrade_c8e1f3a6b902 b) d.
Proof.
  intros Hs. assert (referrers "thread_messages" (schema_at b 6) = []) as He by (destruct b; vm_compute; reflexivity).
  unfold upgrade_c8e1f3a6b902, batch_alter_table. destruct b; cbn [script_demands map app demands]; rewrite Hs, He; by split_and!; [apply Forall_nil|..].
Qed.

(** What a revision asks of the rows, on its place in the chain. *)
Lemma upgrade_demands n r : versions !! n = Some r -> d_schema d = schema_at b n -> (n = 5 -> coherent d) ->
  script_demands (upgrade r b) d.
Proof.
  intros Hr Hs Hco. destruct n as [|[|[|[|[|[|[|[|n]]]]]]]]; [injection Hr as <-..|done]; cbn [upgrade].
  - cbn. tauto.
  - cbn [upgrade_a11c3b7d42e9 script_demands demands]. split_and!; try done; by left.
  - by apply demands_c4d9e17b52aa.
  - cbn [upgrade_e7b3a94c1f60 script_demands demands]. split; [by left|done].
  - by apply demands_a1f4c9d27e3b.
  - apply demands_b5d2e8f0a7c4; [done|by apply Hco].
  - by apply demands_c8e1f3a6b902.
  - unfold upgrade_d4a7c2e9f150, batch_alter_table. destruct b; cbn [script_demands map app demands]; split_and!; try done; by left.
Qed.

End revisions.

(** ** Upgrading *)

(** A deployment at the [n]th revision: its schema is the chain's, and its rows
    keep the constraints; at a1f4c9d27e3b, where message ids are still unique in
    their thread, each message is on its run's thread. *)
Record at_revision (b : backend) (n : nat) (dp : deployment) : Prop := {
  ar_version : match n with O => dp_version dp = None | S n => exists r, versions !! n = Some r /\ dp_version dp = Some (revision r) end;
  ar_schema : d_schema (dp_database dp) = schema_at b n;
  ar_valid : valid (dp_database dp);
  ar_coherent : n = 5 -> coherent (dp_database dp);
}.

Lemma revision_applies b n r dp : versions !! n = Some r -> at_revision b n dp ->
  apply_revision b r dp = Ok (mkDeployment (effects (upgrade r b) (dp_database dp)) (Some (revision r))) /\
  at_revision b (S n) (mkDeployment (effects (upgrade r b) (dp_database dp)) (Some (revision r))).
Proof.
  intros Hr [Hver Hs Hv Hco].
  destruct (safe_script_runs (upgrade r b) (dp_database dp) Hv) as (Hrun&Hv'&Hs').
  - rewrite Hs. by apply upgrades_safe.
  - by apply (upgrade_demands b _ Hv n).
  - unfold apply_revision. rewrite Hrun. split; [done|]. split; cbn [dp_version dp_database].
    + by exists r.
    + rewrite Hs', Hs. by apply schema_next.
    + done.
    + intros [= ->]. injection Hr as <-. intros m x Hm. exfalso. revert Hm.
      cbn [upgrade]. unfold upgrade_a1f4c9d27e3b. rewrite effects_app.
      assert (rows "thread_messages" (effects delete_runs (dp_database dp)) = []) as He
        by (cbn [effects delete_runs foldl]; rows_simpl; cbn [rows_effect]; apply delete_all).
      revert He. generalize (effects delete_runs (dp_database dp)). intros d1 He. unfold batch_alter_table.
      assert (forall d0 l, rows "thread_messages" d0 = [] -> rows "thread_messages" (effects (map (Alter "thread_messages") l) d0) = []) as Hkeep.
      { intros d0 l. revert d0. induction l as [|a l IH]; intros d0 H0; cbn; [done|]. apply IH. rewrite rows_hit by done. cbn [rows_effect]. by rewrite H0. }
      destruct b; cbn [app]; rewrite effects_app, Hkeep by (by rewrite rows_elsewhere); apply not_elem_of_nil.
Qed.

Lemma heads_versions : heads versions = drop 7 versions.
Proof. vm_compute. reflexivity. Qed.

(** The one head is found, and the way to it from every revision. *)
Lemma path_to_head n h : n <= 8 -> versions !! 7 = Some h ->
  path 9 versions (match n with O => None | S n => revision <$> versions !! n end) h [] = Some (drop n versions).
Proof.
  intros Hn [= <-]. do 9 (destruct n as [|n]; [vm_compute; reflexivity|]). lia.
Qed.

Lemma rows_untouched m l d : forallb (fun s => negb (String.eqb (target s) m)) l = true -> rows m (effects l d) = rows m d.
Proof.
  revert d. induction l as [|s l IH]; intros d; cbn; [done|]. intros [Hs%negb_true_iff Hl]%andb_prop.
  etrans; [by apply IH|]. apply rows_miss. intros ->. by rewrite String.eqb_refl in Hs.
Qed.

(** The rows no revision after the first writes. *)
Notation kept_tables := ["providers"; "agents"; "llm_providers"].

Lemma kept_by_upgrades b n r m d : versions !! S n = Some r -> m ∈ kept_tables -> rows m (effects (upgrade r b) d) = rows m d.
Proof.
  intros Hr Hm. apply rows_untouched.
  assert (forallb (fun r => forallb (fun m => forallb (fun s => negb (String.eqb (target s) m)) (upgrade r b)) kept_tables) (drop 1 versions) = true) as Hall
    by (destruct b; vm_compute; reflexivity).
  rewrite forallb_forall in Hall. specialize (Hall r). rewrite forallb_forall in Hall. apply Hall; apply list_elem_of_In; [|done].
  apply list_elem_of_lookup. exists n. by rewrite lookup_drop.
Qed.

Lemma revisions_apply b k n dp : n + k = 8 -> at_revision b n dp -> exists dp',
  fold_res (apply_revision b) (drop n versions) dp = Ok dp' /\ at_revision b 8 dp' /\
  (1 <= n -> forall m, m ∈ kept_tables -> rows m (dp_database dp') = rows m (dp_database dp)).
Proof.
  revert n dp. induction k as [|k IH]; intros n dp Hn Har.
  - assert (n = 8) as -> by lia. exists dp. split; [by rewrite drop_ge|done].
  - assert (is_Some (versions !! n)) as [r Hr] by (apply lookup_lt_is_Some; cbn; lia). rewrite (drop_S _ _ _ Hr). cbn [fold_res].
    destruct (revision_applies b n r dp Hr Har) as [Ha Har']. rewrite Ha.
    destruct (IH (S n) _ ltac:(lia) Har') as (dp'&Hd&Hat&Hk). exists dp'. split; [exact Hd|]. split; [done|].
    intros H1 m Hm. rewrite (Hk ltac:(lia) m Hm). cbn [dp_database]. destruct n as [|n]; [lia|]. by eapply kept_by_upgrades.
Qed.

Lemma migrate_runs b n dp : n <= 8 -> at_revision b n dp -> exists dp', migrate b dp = Ok dp' /\ at_revision b 8 dp' /\
  (1 <= n -> forall m, m ∈ kept_tables -> rows m (dp_database dp') = rows m (dp_database dp)).
Proof.
  intros Hn Har. destruct (revisions_apply b (8 - n) n dp ltac:(lia) Har) as (dp'&Hd&Hat&Hk). exists dp'. split; [|done].
  assert (is_Some (versions !! 7)) as [h Hh] by (by eexists).
  assert (dp_version dp = match n with O => None | S n => revision <$> versions !! n end) as Hver.
  { pose proof (ar_version _ _ _ Har) as Hver. destruct n as [|n]; [done|]. destruct Hver as (r&->&->). done. }
  unfold migrate. rewrite heads_versions. assert (drop 7 versions = [h]) as -> by (by rewrite (drop_S _ _ _ Hh)).
  change (S (length versions)) with 9. by rewrite Hver, (path_to_head n h).
Qed.

Lemma head_version b dp : at_revision b 8 dp -> dp_version dp = Some Facade.EXPECTED_SCHEMA_REVISION.
Proof. intros [(r&Hr&Hver) _ _ _]. rewrite Hver. by injection Hr as <-. Qed.

Lemma fresh_at_base b : at_revision b 0 fresh.
Proof. split; [done|by destruct b| |done]. intros n t Ht. cbn in Ht. by rewrite lookup_empty in Ht. Qed.

(** ** What the probe compares *)

Lemma describe_agrees render t u a : same_table t u -> NoDup (column_names t) ->
  agrees a (describe_table render t) (describe_table render u) = true.
Proof.
  intros [Hc Hp Hf Hu _ Hi] Hn. destruct a; apply bool_decide_eq_true_2; cbn.
  - apply list_to_map_proper; [|by apply Permutation_map]. unfold column_names in Hn. by rewrite map_map.
  - done.
  - by apply Permutation_map.
  - by apply Permutation_map.
  - by apply Permutation_map.
Qed.

Lemma no_differences render s s' : same_schema s s' -> (forall n t, s !! n = Some t -> NoDup (column_names t)) ->
  differences (_describe render s) (_describe render s') = [].
Proof.
  intros [Hd Hs] Hn. unfold differences. set (l := merge_sort _ _).
  assert (forall n, n ∈ l -> n ∈ dom s) as Hl.
  { intros n Hin. unfold l in Hin. rewrite merge_sort_Permutation, elem_of_elements, elem_of_union in Hin. unfold _describe in Hin.
    rewrite !dom_fmap in Hin. rewrite <- Hd in Hin. tauto. }
  clearbody l. induction l as [|n l IH]; [done|]. cbn [flat_map]. rewrite IH by (intros n' Hn'; apply Hl; by right). rewrite app_nil_r.
  pose proof (Hl n ltac:(by left)) as Hin. pose proof Hin as Hin'. rewrite Hd in Hin'.
  apply elem_of_dom in Hin as [t Ht]. apply elem_of_dom in Hin' as [u Hu].
  unfold compare, _describe. rewrite !lookup_fmap, Ht, Hu. cbn [fmap option_fmap option_map].
  assert (forall a, agrees a (describe_table render t) (describe_table render u) = true) as Ha by (intros a; apply describe_agrees; eauto).
  destruct (filter _ _) as [|a l'] eqn:Hf; [done|]. assert (a ∈ a :: l') as Hin by by left.
  rewrite <- Hf in Hin. apply list_elem_of_filter in Hin as [Hin _]. by rewrite Ha in Hin.
Qed.

Lemma head_columns b n t : schema_at b 8 !! n = Some t -> NoDup (column_names t).
Proof.
  assert (forallb (fun kv => bool_decide (NoDup (column_names kv.2))) (map_to_list (schema_at b 8)) = true) as Hall by (destruct b; vm_compute; reflexivity).
  intros Ht. rewrite forallb_forall in Hall. apply (bool_decide_eq_true_1 _), (Hall (n, t)), list_elem_of_In. by apply elem_of_map_to_list.
Qed.

(** C16. The migrations build the schema the application queries through: on
    either backend an empty database is brought to the revision the
    application expects, where every table of schema.py is there, and no
    other, with the same columns, types, nullability and server defaults,
    keys, references, checks and indexes, constraint names included; so the
    probe finds no difference, however the backend writes its types. *)
Theorem migrations_build_the_schema b : exists dp,
  migrate b fresh = Ok dp /\ dp_version dp = Some Facade.EXPECTED_SCHEMA_REVISION /\
  same_schema (d_schema (dp_database dp)) metadata /\ forall render, probe_schema_agrees render b = Ok 0.
Proof.
  destruct (migrate_runs b 0 fresh ltac:(lia) (fresh_at_base b)) as (dp&Hm&Har&_). exists dp. pose proof (ar_schema _ _ _ Har) as Hs.
  split; [done|]. split; [by eapply head_version|]. rewrite Hs. split; [apply head_schema|].
  intros render. unfold probe_schema_agrees. rewrite Hm. cbn. rewrite Hs.
  by rewrite (no_differences render _ _ (head_schema b) (head_columns b)).
Qed.


(** ** The last revision, there and back *)

(** What the upgrade makes of a run's row. *)
Definition asked (r : row) : row :=
  let r' := <["cancel_requested" := VBool (bool_decide (is_Some (cell r "cancel_requested_by")))]> r in
  if bool_decide (cell r "cancel_requested_by" = Some (VString "")) then <["cancel_requested_by" := VNull]> r' else r'.

Definition upgrade_row (r : row) : row :=
  update_row "cancel_requested_by" VNull (Equals "cancel_requested_by" (VString ""))
    (update_row "cancel_requested" (VBool true) (IsNotNull "cancel_requested_by") (<["cancel_requested" := VBool false]> r)).

Definition downgrade_row (r : row) : row :=
  delete "cancel_requested" (update_row "cancel_requested_by" (VString "") (TrueAndNull "cancel_requested" "cancel_requested_by") r).

Lemma cell_insert_ne r c c' v : c <> c' -> cell (<[c := v]> r) c' = cell r c'.
Proof. intros Hc. unfold cell. by rewrite lookup_insert_ne. Qed.

Lemma cell_insert_eq r c v : cell (<[c := v]> r) c = match v with VNull => None | v => Some v end.
Proof. unfold cell. rewrite lookup_insert_eq. by destruct v. Qed.

Lemma upgrade_row_asked r : upgrade_row r = asked r.
Proof.
  unfold upgrade_row, asked, update_row. cbn [holds]. rewrite (cell_insert_ne r) by done.
  destruct (cell r "cancel_requested_by") as [v|] eqn:Hc.
  - rewrite (bool_decide_eq_true_2 (is_Some (Some v))) by by eexists. rewrite insert_insert_eq, cell_insert_ne, Hc by done. done.
  - rewrite (bool_decide_eq_false_2 (is_Some None)) by by intros []. by rewrite cell_insert_ne, Hc.
Qed.

(** A row that says who asked, or that nobody did, and nothing more, is had back. *)
Lemma row_round_trip r v : r !! "cancel_requested_by" = Some v -> v = VNull \/ (exists s, v = VString s) ->
  r !! "cancel_requested" = None -> downgrade_row (asked r) = r.
Proof.
  intros Hby Hv Hn. apply map_eq. intros c. unfold downgrade_row, update_row, asked. cbn [holds].
  assert (cell r "cancel_requested_by" = match v with VNull => None | v => Some v end) as Hc by (unfold cell; rewrite Hby; by destruct v).
  rewrite Hc. destruct (decide (c = "cancel_requested")) as [->|H1]; [by rewrite lookup_delete_eq, Hn|]. rewrite lookup_delete_ne by done.
  destruct Hv as [->|[s ->]].
  - rewrite (bool_decide_eq_false_2 (is_Some None)), (bool_decide_eq_false_2 (None = Some _)) by (done || by intros []).
    rewrite cell_insert_eq, (bool_decide_eq_false_2 (Some (VBool false) = _)) by done. cbn [andb]. by rewrite lookup_insert_ne.
  - rewrite (bool_decide_eq_true_2 (is_Some _)) by by eexists. destruct (decide (s = "")) as [->|Hs].
    + rewrite (bool_decide_eq_true_2 (Some (VString "") = _)) by done. rewrite (cell_insert_ne _ "cancel_requested_by"), cell_insert_eq, cell_insert_eq by done.
      rewrite !bool_decide_eq_true_2 by done. cbn [andb]. destruct (decide (c = "cancel_requested_by")) as [->|H2]; [by rewrite lookup_insert_eq|].
      by rewrite !lookup_insert_ne.
    + rewrite (bool_decide_eq_false_2 (Some (VString s) = _)) by congruence.
      rewrite cell_insert_eq, (cell_insert_ne _ "cancel_requested" "cancel_requested_by"), Hc by done.
      rewrite (bool_decide_eq_false_2 (Some _ = None)), andb_false_r by done. by rewrite lookup_insert_ne.
Qed.

Lemma d4a7_rows b d m : rows m (effects (upgrade_d4a7c2e9f150 b) d) = if decide (m = "runs") then map asked (rows m d) else rows m d.
Proof.
  unfold upgrade_d4a7c2e9f150, batch_alter_table. destruct b; cbn [effects map app foldl];
    (case_decide as Hm; [subst m; rows_simpl; cbn [rows_effect]; rewrite !map_map; apply map_ext; intros r; apply upgrade_row_asked|
       by rewrite !rows_miss]).
Qed.

Lemma d4a7_back_rows b d m : rows m (effects (downgrade_d4a7c2e9f150 b) d) = if decide (m = "runs") then map downgrade_row (rows m d) else rows m d.
Proof.
  unfold downgrade_d4a7c2e9f150, batch_alter_table. destruct b; cbn [effects map app foldl];
    (case_decide as Hm; [subst m; rows_simpl; cbn [rows_effect]; by rewrite map_map|by rewrite !rows_miss]).
Qed.

Lemma runs_before_last b : exists t, schema_at b 7 !! "runs" = Some t /\ mkColumn "cancel_requested_by" String_ true None ∈ t_columns t /\
  "cancel_requested" ∉ column_names t.
Proof.
  destruct b; eexists; (split; [vm_compute; reflexivity|]); split.
  - apply (bool_decide_eq_true_1 _). vm_compute. reflexivity.
  - apply (bool_decide_eq_true_1 ("cancel_requested" ∉ _)). vm_compute. reflexivity.
  - apply (bool_decide_eq_true_1 _). vm_compute. reflexivity.
  - apply (bool_decide_eq_true_1 ("cancel_requested" ∉ _)). vm_compute. reflexivity.
Qed.

(** The last revision keeps what it moves: on any valid database it makes of
    every run's row the row that says whether the run was asked to stop, and
    by whom unless by nobody in particular; undone at once, it gives back the
    schema and every row, the empty string of an unbound run included. *)
Theorem cancel_column_round_trip b r dp : versions !! 7 = Some r -> at_revision b 7 dp ->
  exists up down, apply_revision b r dp = Ok up /\ rows "runs" (dp_database up) = map asked (rows "runs" (dp_database dp)) /\
    revert b r up = Ok down /\ d_schema (dp_database down) = d_schema (dp_database dp) /\ dp_version down = dp_version dp /\
    forall m, rows m (dp_database down) = rows m (dp_database dp).
Proof.
  intros Hr Har. destruct (revision_applies b 7 r dp Hr Har) as [Ha Hat]. injection Hr as <-. cbn [upgrade] in *.
  set (up := mkDeployment _ _) in *. exists up.
  assert (safe_script (downgrade_d4a7c2e9f150 b) (schema_at b 8) = true) as Hsafe by (destruct b; vm_compute; reflexivity).
  destruct (safe_script_runs (downgrade_d4a7c2e9f150 b) (dp_database up) (ar_valid _ _ _ Hat)) as (Hrun&_&Hs).
  { by rewrite (ar_schema _ _ _ Hat). }
  { unfold downgrade_d4a7c2e9f150, batch_alter_table. destruct b; cbn [script_demands map app demands]; by split_and!. }
  eexists. split; [exact Ha|]. split; [apply d4a7_rows|]. unfold revert. cbn [downgrade down_revision]. rewrite Hrun. split; [done|].
  cbn [dp_database dp_version]. split; [rewrite Hs, (ar_schema _ _ _ Hat), (ar_schema _ _ _ Har); destruct b; vm_compute; reflexivity|].
  split; [destruct (ar_version _ _ _ Har) as (r'&Hr'&->); by injection Hr' as <-|].
  intros m. rewrite d4a7_back_rows. cbn [dp_database up]. rewrite d4a7_rows. case_decide as Hm; [|done]. subst m. rewrite map_map.
  destruct (runs_before_last b) as (t&Ht&Hc&Hn).
  destruct (ar_valid _ _ _ Har "runs" t) as (Hok&_&_); [by rewrite (ar_schema _ _ _ Har)|].
  rewrite <- (map_id (rows "runs" (dp_database dp))) at 2. apply map_ext_in. intros x Hx%list_elem_of_In.
  destruct (proj1 (Forall_forall _ _) Hok x Hx) as (H1&H2&_). pose proof (proj1 (Forall_forall _ _) H1 _ Hc) as Hby. cbn in Hby.
  destruct (x !! "cancel_requested_by") as [v|] eqn:Hv; [|done]. apply (row_round_trip x v Hv).
  - destruct v; try done; [by left|right; by eexists].
  - apply not_elem_of_dom. intros Hin. apply Hn. apply H2 in Hin. by apply elem_of_list_to_set in Hin.
Qed.

(** ** Databases with rows *)
Module Witness.

Definition row_of (l : list (string * value)) : row := list_to_map l.

Definition provider : row :=
  row_of [("public_key", VString "K"); ("fingerprint", VString "f"); ("display_name", VNull); ("updated_at", VTime 0)].
Definition agent : row :=
  row_of [("provider_key", VString "K"); ("name", VString "a"); ("agent_card", VJson (JObj [])); ("metadata", VJson (JObj []));
          ("joined_at", VTime 0); ("last_seen_at", VTime 0)].
Definition thread : row :=
  row_of [("thread_id", VString "t"); ("provider_key", VString "K"); ("agent_name", VString "a"); ("parent_thread_id", VNull);
          ("metadata", VJson (JObj [])); ("created_at", VTime 0); ("last_activity_at", VTime 0); ("head_key", VNull)].
Definition run (id : string) (asked_by : value) : row :=
  row_of [("run_id", VString id); ("thread_id", VString "t"); ("provider_key", VString "K"); ("agent_name", VString "a");
          ("status", VString "cancelled"); ("actor_chain", VNull); ("started_at", VNull); ("completed_at", VTime 1);
          ("last_activity_at", VTime 1); ("created_at", VTime 0); ("parent_run_id", VNull); ("state", VNull);
          ("tools", VJson (JList [])); ("context", VJson (JList [])); ("forwarded_props", VNull); ("resume", VNull);
          ("cancel_requested_by", asked_by)].
Definition message (id : Z) (run_id said : string) : list (string * value) :=
  [("id", VInt id); ("thread_id", VString "t"); ("run_id", VString run_id); ("message_id", VString said);
   ("message_json", VJson (JObj [])); ("metadata", VJson (JObj [])); ("created_at", VTime 0)].
Definition from (origin : string) (l : list (string * value)) : row := row_of (("origin", VString origin) :: l).

Definition stocked (b : backend) (n : nat) (messages : list row) : deployment :=
  mkDeployment
    (mkDatabase (schema_at b n)
       {["providers" := [provider]; "agents" := [agent]; "threads" := [thread];
         "runs" := [run "r1" (VString ""); run "r2" VNull; run "r3" (VString "H")]; "thread_messages" := messages]})
    (match n with O => None | S n => revision <$> versions !! n end).

Definition coherentb (d : database) : bool :=
  forallb (fun m => forallb (fun r => negb (bool_decide (cell m "run_id" = cell r "run_id")) || bool_decide (cell m "thread_id" = cell r "thread_id"))
    (rows "runs" d)) (rows "thread_messages" d).

Lemma stocked_at b n messages : 1 <= n <= 8 -> bool_decide (valid (dp_database (stocked b n messages))) = true ->
  coherentb (dp_database (stocked b n messages)) = true -> at_revision b n (stocked b n messages).
Proof.
  intros [H1 H8] Hv%bool_decide_eq_true Hc. split; [|done|done|].
  - destruct n as [|n]; [lia|]. assert (is_Some (versions !! n)) as [r Hr] by (apply lookup_lt_is_Some; cbn; lia).
    exists r. split; [done|]. unfold stocked. cbn [dp_version]. by rewrite Hr.
  - intros _ m r Hm Hr He. unfold coherentb in Hc. rewrite forallb_forall in Hc. specialize (Hc m ltac:(by apply list_elem_of_In)).
    rewrite forallb_forall in Hc. specialize (Hc r ltac:(by apply list_elem_of_In)). rewrite (bool_decide_eq_true_2 _ He) in Hc.
    by apply bool_decide_eq_true in Hc.
Qed.

(** Before message ids were unique in their run: one said by each side. *)
Definition early (b : backend) : deployment := stocked b 5 [from "caller" (message 1 "r1" "m1"); from "agent" (message 2 "r1" "m2")].

Lemma early_at b : at_revision b 5 (early b).
Proof. apply stocked_at; [lia|destruct b; vm_compute; reflexivity..]. Qed.


(** Only what callers said is still there. *)
Example early_upgraded : (fun dp => length (rows "thread_messages" (dp_database dp))) <$> migrate Sqlite (early Sqlite) = Ok 1.
Proof. vm_compute. reflexivity. Qed.

Definition late (b : backend) : deployment := stocked b 7 [row_of (message 1 "r1" "m1")].

Lemma late_at b : at_revision b 7 (late b).
Proof. apply stocked_at; [lia|destruct b; vm_compute; reflexivity..]. Qed.

Lemma cancel_column_round_trip_witness : exists r up down,
  apply_revision Sqlite r (late Sqlite) = Ok up /\
  map (fun x => (cell x "cancel_requested", cell x "cancel_requested_by")) (rows "runs" (dp_database up)) =
    [(Some (VBool true), None); (Some (VBool false), None); (Some (VBool true), Some (VString "H"))] /\
  revert Sqlite r up = Ok down /\ rows "runs" (dp_database down) = rows "runs" (dp_database (late Sqlite)).
Proof.
  destruct (cancel_column_round_trip Sqlite (mkRevision "d4a7c2e9f150" (Some "c8e1f3a6b902") upgrade_d4a7c2e9f150 downgrade_d4a7c2e9f150)
    (late Sqlite) eq_refl (late_at Sqlite)) as (up&down&Hu&Hr&Hd&_&_&Hrows).
  eexists _, up, down. split; [exact Hu|]. split; [rewrite Hr; vm_compute; reflexivity|]. split; [exact Hd|]. apply Hrows.
Defined.

(** One thread, two runs, and the same message in both: what a conversation
    carried on looks like since b5d2e8f0a7c4. *)
Definition carried_on (b : backend) : deployment :=
  stocked b 6 [from "caller" (message 1 "r1" "m1"); from "caller" (message 2 "r2" "m1")].

(** Undoing b5d2e8f0a7c4 asks message ids to be unique in their thread again,
    and does nothing to make them so: it is refused where the upgrade was
    ever made use of. *)
Theorem downgrade_is_refused b r : versions !! 5 = Some r ->
  at_revision b 6 (carried_on b) /\ revert b r (carried_on b) = Err (Failed ConstraintViolated).
Proof.
  intros [= <-]. split; [apply stocked_at; [lia|destruct b; vm_compute; reflexivity..]|destruct b; vm_compute; reflexivity].
Qed.

(** Put back by undoing c8e1f3a6b902, the origin column has a server default
    it did not have. *)
Theorem downgrade_leaves_a_default b r : versions !! 6 = Some r ->
  match schema_effects (downgrade r b) (schema_at b 7) !! "thread_messages", schema_at b 6 !! "thread_messages" with
  | Some t, Some t' =>
      map c_server_default (filter (fun c => c_name c = "origin") (t_columns t)) = [Some (VString "caller")] /\
      map c_server_default (filter (fun c => c_name c = "origin") (t_columns t')) = [None]
  | _, _ => False
  end.
Proof. intros [= <-]. destruct b; vm_compute; done. Qed.
End Witness.
End MigrationsOk.
