(* ===== verification/Whole.v ===== *)
(** * The whole process

    The facade with its broker's thread tasks running: roster calls, what
    connections and hosts call on the broker, and segments of the tasks, in
    any order.  Every step of the whole is steps of [System] on the facade's
    broker and store, so what [BrokerProps] proves holds of it; and because
    nothing a thread's task does serves a name, only open links serve, as
    [FacadeOk] has it, whatever the tasks do in between. *)

From S2P Require Import Prelude Errors Json Crypto Payloads Models Repo Coop BrokerState BrokerOps Dispatch Handlers BrokerInv BrokerQuiet System HandlersOk LiveRoster Roster RosterFacts Facade FacadeOk BrokerProps.

Module Whole.
Import Broker BrokerOps Dispatch Handlers System HandlersOk LiveRoster Roster RosterFacts Facade FacadeOk.

#[local] Existing Instances LiveRoster.broker_table LiveRoster.roster_table.

(** ** What can only take names offline *)

Definition shrinks (b b' : broker) : Prop :=
  broker_ok b -> broker_ok b' /\ forall r c, serving r b' = Some c -> serving r b = Some c.

#[export] Instance shrinks_preorder : PreOrder shrinks.
Proof.
  split; [intros b Hb; by split|]. intros b1 b2 b3 H12 H23 H1. destruct (H12 H1) as [H2 Hs]. destruct (H23 H2) as [H3 Hs']. split; eauto.
Qed.

Lemma same_shrinks b b' : same_table b b' -> shrinks b b'.
Proof.
  intros Hs Hb. split; [by eapply same_table_ok|]. intros r c. by rewrite (same_table_serving b b').
Qed.

Lemma shrinks_unregister refs b : shrinks b (unregister_provider refs b).
Proof.
  intros Hb. split; [by apply unregister_ok|]. intros r c. rewrite unregister_live. by case_bool_decide.
Qed.

(** A provider's counts change, not its connection. *)
Lemma shrinks_upd_provider key f b : (forall p, p_connection (f p) = p_connection p) -> shrinks b (upd_provider key f b).
Proof.
  intros Hf [Hs Hk].
  assert (Hl : forall r, serving r (upd_provider key f b) = serving r b).
  { intros r. unfold serving. cbn. destruct (aget r (b_serving b)) as [k|]; [|done]. rewrite lookup_insert. case_decide; [|done]. subst k.
    rewrite Hf. unfold _provider. by destruct (b_providers b !! key). }
  split; [|intros r c; by rewrite Hl]. split; [|done]. intros r k Hg. cbn in Hg. destruct (Hs r k Hg) as (p&c&Hp&Hc&Hkey).
  cbn. rewrite lookup_insert. destruct (decide (key = k)) as [->|]; [|by exists p, c]. exists (f p), c. unfold _provider. rewrite Hp. cbn. by rewrite Hf.
Qed.

Lemma shrinks_note_abnormal key ev b : shrinks b (_note_abnormal key ev b).
Proof.
  unfold _note_abnormal. etrans; [by apply (shrinks_upd_provider key (bump ev))|]. repeat case_match; try done. apply shrinks_unregister.
Qed.

Lemma shrinks_note_misdeclared key b : shrinks b (_note_misdeclared key b).
Proof. unfold _note_misdeclared. case_match; [apply shrinks_note_abnormal|done]. Qed.

Lemma same_provider_connection key p p' b : b_providers b !! key = Some p -> p_connection p' = p_connection p ->
  same_table b (set_b_providers (<[key := p']> (b_providers b)) b).
Proof. intros Hp Hc. split; [done|]. intros k. cbn. rewrite lookup_insert. case_decide; [|done]. subst k. by rewrite Hp; cbn; rewrite Hc. Qed.

Lemma shrinks_release id b : shrinks b (_release id b).
Proof.
  apply same_shrinks. unfold _release. destruct (b_heap b !! id) as [run|]; [|done]. destruct (r_offered_to run) as [key|]; [|done].
  cbn [b_providers upd_run set_b_heap]. destruct (b_providers b !! key) as [p|] eqn:Hp; [|done].
  apply (same_provider_connection key p (free_place p) (upd_run id (fun r => set_r_offered_conn None (set_r_offered_to None r)) b)); [exact Hp|].
  unfold free_place. by case_match.
Qed.

Lemma shrinks_poke b : shrinks b (_poke_threads (set_b_work_to_do true b)).
Proof. by apply same_shrinks. Qed.

Lemma upd_run_shrinks id f b : shrinks b (upd_run id f b).
Proof. by apply same_shrinks. Qed.

Lemma upd_thread_shrinks t f b : shrinks b (upd_thread t f b).
Proof. by apply same_shrinks. Qed.

Lemma shrinks_forget id b : shrinks b (forget id b).
Proof.
  unfold forget. set (b1 := set_b_handlers _ _). assert (shrinks b b1) by by apply same_shrinks.
  destruct (tracked id b); [|done]. etrans; [|apply shrinks_poke]. etrans; [eassumption|].
  case_bool_decide; [apply upd_run_shrinks|]. etrans; [apply (upd_run_shrinks id (set_r_settled true))|apply shrinks_release].
Qed.

Lemma shrinks_take_place id c i b : shrinks b (take_place id c i b).
Proof. unfold take_place. etrans; [apply upd_run_shrinks|by apply shrinks_upd_provider]. Qed.

Lemma shrinks_leave t b : shrinks b (leave t b).
Proof. apply same_shrinks. unfold leave. repeat case_match; done. Qed.

Lemma shrinks_push id cmd b : shrinks b (push id cmd b).2.
Proof. apply same_shrinks, same_table_post. Qed.

Create HintDb shrinks.
#[export] Hint Resolve shrinks_unregister shrinks_note_abnormal shrinks_note_misdeclared shrinks_release shrinks_forget
  shrinks_take_place shrinks_leave shrinks_push upd_run_shrinks upd_thread_shrinks : shrinks.

(** ** The tasks only take names offline *)

Section tame.
Context `{HA : !Handlers.AGUI}.
#[local] Existing Instance Handlers.store_seams.
Notation world := (world Handlers.store).
Notation coro := (comp world).

Definition free (_ : world) : Prop := True.
Definition anything (_ _ : world) : Prop := True.
Definition less (w w' : world) : Prop := shrinks (w_broker w) (w_broker w').

Notation WP := (wp free anything less).

#[local] Instance less_preorder : PreOrder less.
Proof. split; [intros w; red; reflexivity|]. intros w1 w2 w3. unfold less. by apply transitivity. Qed.

(** Whatever the others do meanwhile, every segment takes names offline at most. *)
Definition tame (c : coro ()) : Prop := forall w0 w, less w0 w -> WP c (fun _ v0 v => less v0 v) w0 w.

Lemma tame_ret : tame (ret ()).
Proof. by intros w0 w Hw. Qed.

Lemma tame_do f : (forall b, shrinks b (f b)) -> tame (do f).
Proof. intros Hf w0 w Hw. apply wp_modify. etrans; [exact Hw|]. apply Hf. Qed.

Lemma tame_seq c k : tame c -> tame k -> tame (cbind c (fun _ => k)).
Proof. intros Hc Hk w0 w Hw. apply (wp_bind _ _ _ c (fun _ => k)). eapply wp_mono; [|by apply Hc]. intros [] v0 v. apply Hk. Qed.

Lemma tame_with_run id k : (forall r, tame (k r)) -> tame (with_run id k).
Proof. intros Hk w0 w Hw. unfold with_run, wp. destruct (b_heap (w_broker w) !! id); [by apply Hk|done]. Qed.

Lemma tame_with_thread t k : (forall h, tame (k h)) -> tame (with_thread t k).
Proof. intros Hk w0 w Hw. unfold with_thread, wp. destruct (b_threads (w_broker w) !! t); [by apply Hk|done]. Qed.

Lemma tame_with_broker k : (forall b, tame (k b)) -> tame (with_broker k).
Proof. intros Hk w0 w Hw. unfold with_broker, wp. by apply Hk. Qed.

Lemma tame_when c k : tame k -> tame (when c k).
Proof. intros Hk. destruct c; [done|apply tame_ret]. Qed.

Lemma less_put id v w0 w : less w0 w -> less w0 (run_put id v w).
Proof. intros Hw. etrans; [exact Hw|]. by apply same_shrinks. Qed.

Lemma tame_focus_susp id (s : susp (Run * Handlers.store) ()) v w0 w : less w0 w ->
  post free anything less (focus_susp (run_view id) (run_put id) s) (fun _ v0 v => less v0 v) w0 (run_put id v w).
Proof.
  revert s v w0 w. fix IH 1. intros [[]|k] v w0 w Hw; simpl; [by apply less_put|].
  split; [by apply less_put|]. split; [done|]. intros w' _ _. destruct (run_view id w'); [|simpl; reflexivity].
  destruct (k p) as [v' s']. by apply IH.
Qed.

Lemma tame_record id cmd : tame (_record id cmd).
Proof.
  apply tame_with_broker. intros b. apply tame_when. intros w0 w Hw. unfold focus, wp.
  destruct (run_view id w); [|done]. destruct (handler_of cmd p) as [v s]. by apply tame_focus_susp.
Qed.

Create HintDb tame.
#[local] Hint Resolve tame_ret tame_do tame_seq tame_with_run tame_with_thread tame_with_broker tame_when tame_record : tame.

Ltac tame := repeat lazymatch goal with
  | |- tame (ret _) => apply tame_ret
  | |- tame (_record _ _) => apply tame_record
  | |- tame (cbind _ _) => apply tame_seq
  | |- tame (when _ _) => apply tame_when
  | |- tame (do _) => apply tame_do; intros ?; auto with shrinks
  | |- tame (with_run _ _) => apply tame_with_run; intros ?
  | |- tame (with_thread _ _) => apply tame_with_thread; intros ?
  | |- tame (with_broker _) => apply tame_with_broker; intros ?
  end.

Lemma tame_settle t id : tame (_settle t id).
Proof.
  unfold _settle. tame. intros w0 w Hw. apply wp_modify. etrans; [exact Hw|]. exact (shrinks_forget id (w_broker w)).
Qed.

Lemma tame_record_and_settle t id cmd : tame (record_and_settle t id cmd).
Proof. unfold record_and_settle. tame. apply tame_settle. Qed.

Lemma tame_record_and_maybe_settle t id cmd : tame (_record_and_maybe_settle t id cmd).
Proof.
  unfold _record_and_maybe_settle. tame. destruct (r_poison _); [apply tame_record_and_settle|].
  destruct cmd; try apply tame_ret. apply tame_settle.
Qed.

Lemma tame_offer t id i : tame (_offer t id i).
Proof.
  unfold _offer, no_place. tame. destruct (serving _ _); [|by tame]. destruct (negb _); [by tame|].
  destruct (run_agent_input_error _); [apply tame_record_and_settle|by tame].
Qed.

Lemma tame_advance t : tame (_advance t).
Proof. unfold _advance. tame. destruct (t_queue _); [by tame|]. tame. destruct (_ || _); [apply tame_ret|apply tame_offer]. Qed.

Lemma tame_offer_each t l : tame (offer_each t l).
Proof. induction l as [|x l IH]; cbn [offer_each]; tame; [apply tame_offer|exact IH]. Qed.

Lemma tame_release_interjections t id : tame (_release_interjections t id).
Proof. unfold _release_interjections. tame. apply tame_offer_each. Qed.

Lemma tame_on_answered t id key v : tame (_on_answered t id key v).
Proof.
  unfold _on_answered, with_live. tame. destruct (_ || _); [apply tame_ret|]. tame. destruct v as [reason|[]].
  - tame. apply tame_record_and_settle.
  - tame. destruct (negb _); tame. apply tame_release_interjections.
  - tame. destruct (r_cancel_requested _); tame; apply tame_record_and_settle.
Qed.

Lemma tame_on_cancel_asked t id : tame (_on_cancel_asked t id).
Proof.
  unfold _on_cancel_asked, with_live. tame. destruct (r_verdict_open _); [apply tame_ret|].
  destruct (bool_decide _); [apply tame_record|apply tame_record_and_settle].
Qed.

Lemma tame_on_message t m : tame (_on_message t m).
Proof.
  unfold _on_message. apply tame_seq; [|apply tame_advance]. destruct m; cbn.
  - unfold _on_queued. tame. destruct (joins_head _ _ _); [apply tame_offer|by tame].
  - apply tame_on_answered.
  - unfold _on_said, with_live. tame. destruct (bool_decide _); [apply tame_ret|apply tame_record_and_maybe_settle].
  - unfold _on_trusted, with_live. tame. destruct cmd; try apply tame_record_and_maybe_settle; [apply tame_on_cancel_asked|].
    tame; [|apply tame_record_and_settle]. destruct (r_claimed_by _); by tame.
  - apply tame_on_cancel_asked.
  - unfold _on_offer_lapsed, with_live. tame. destruct (_ || _); [apply tame_ret|]. tame.
    + destruct (r_offered_to _); by tame.
    + destruct (r_cancel_requested _); apply tame_record_and_settle.
  - unfold _on_undelivered, with_live. tame. destruct (r_claimed_by _); by tame.
  - apply tame_ret.
Qed.

Lemma tame_turn t w c : thread_turn t w = Some c -> tame c.
Proof.
  unfold thread_turn. destruct (b_threads (w_broker w) !! t) as [h|]; [|done]. destruct (t_inbox h); [done|]. intros [= <-].
  tame; [apply tame_on_message|]. unfold maybe_leave. by tame.
Qed.

(** Tasks parked so that no segment does more, whatever the rest does meanwhile. *)
Notation tasks := (gmap string (susp world ())).
Definition parked (w : world) (m : tasks) : Prop :=
  sys_inv free (fun _ _ => True) (fun _ => anything) (fun _ => less) (w, m).

#[local] Instance anything_preorder : PreOrder anything.
Proof. by split. Qed.

Lemma turn_less t c w : thread_turn t w = Some c ->
  WP c (fun _ v0 v => less v0 v /\ free v /\ True) w w.
Proof. intros Ht. eapply wp_mono; [|exact (tame_turn _ _ _ Ht w w (reflexivity w))]. by intros [] v0 v. Qed.

Lemma parked_step w m w' m' : sys_step thread_turn anything (w, m) (w', m') -> parked w m -> parked w' m'.
Proof.
  intros Hs. eapply (sys_step_inv thread_turn anything free (fun _ _ => True) (fun _ => anything) (fun _ => less)); [..|exact Hs];
    try done. intros t c v _ _. apply turn_less.
Qed.

Lemma parked_anywhere w w' m : parked w m -> parked w' m.
Proof. by apply parked_step, sys_outside. Qed.

Lemma post_less (s : susp world ()) (Q : () -> world -> world -> Prop) w0 w :
  (forall a v0 v, Q a v0 v -> less v0 v) -> post free anything less s Q w0 w -> less w0 w.
Proof. intros HQ. destruct s as [a|k]; [by apply HQ|by intros [? _]]. Qed.

(** A step of the tasks' own. *)
Definition nobody (_ _ : world) : Prop := False.
Notation task_step := (sys_step thread_turn nobody).

Lemma task_step_less w m w' m' : task_step (w, m) (w', m') -> parked w m -> less w w'.
Proof.
  intros Hs [_ Hp]. inversion Hs as [|t c ? ? s ? Hm Ht Hc|t k ? ? s ? Hm Hk]; subst; [done|..].
  - pose proof (turn_less t c w Ht) as Hw. unfold wp in Hw. rewrite Hc in Hw. eapply post_less; [|exact Hw]. by intros a v0 v [? _].
  - specialize (Hp t). cbn in Hp. rewrite Hm in Hp. specialize (Hp w I I). rewrite Hk in Hp.
    eapply post_less; [|exact Hp]. by intros a v0 v [? _].
Qed.

Lemma task_step_any (out : world -> world -> Prop) st st' : task_step st st' -> sys_step thread_turn out st st'.
Proof. intros []; [done|by eapply sys_start|by eapply sys_resume]. Qed.

(** ** What is called from outside *)

(** The rosters alone write the table; nothing else that is called serves a name. *)
Definition not_the_table (c : System.call Handlers.store) : bool :=
  match c with RegisterProvider _ | UnregisterProvider _ => false | _ => true end.

Lemma same_offer_clock id b : same_table b (_offer_clock id b).
Proof. unfold _offer_clock. by repeat case_match. Qed.

Lemma same_hand_over raised id b : same_table b (_hand_over raised id b).
Proof. unfold _hand_over. by repeat case_match. Qed.

Lemma same_thread_handler t agent b : same_table b (_thread_handler t agent b).
Proof. unfold _thread_handler. by case_match. Qed.

Lemma same_expire timeout b : same_table b (expire_queued timeout b).2.
Proof.
  enough (forall l st, same_table st.2 (foldl (expire_one timeout) st l).2) as Hf by apply Hf.
  induction l as [|x l IH]; intros st; [reflexivity|]. cbn [foldl]. etrans; [|apply IH]. destruct st as [expired b0]. unfold expire_one.
  destruct (b_heap b0 !! x); [|reflexivity]. destruct (expires _ _ _); [apply same_table_post|reflexivity].
Qed.

Lemma exec_less c w : not_the_table c = true -> less w (System.exec c w).
Proof.
  intros Hc. apply same_shrinks. destruct c; try done; cbn; try apply same_table_post.
  - unfold request_cancel. destruct (tracked _ _); [|done]. etrans; [|apply same_table_post]. done.
  - destruct (subscribe _ _) as [[x b']|] eqn:Hs; [|done]. unfold subscribe in Hs. by repeat case_match; simplify_eq.
  - apply same_offer_clock.
  - apply same_hand_over.
  - apply same_hand_over.
  - exact (same_expire timeout (w_broker w)).
  - unfold BrokerOps.start. by destruct (b_running _).
  - unfold enqueue_run. destruct (b_running _); [|done]. exact (same_thread_handler thread_id agent (w_broker w)).
Qed.

End tame.

(** ** What the rosters do to their table *)

Section moved.
Context `{HC : Crypto} {T S : Type} `{LiveTable T}.
Implicit Types st : links T S.

(** Names are taken offline or written, nothing else. *)
Inductive moves : T -> T -> Prop :=
| moves_withdraw refs t : moves t (withdraw refs t)
| moves_write l t : moves t (write_live l t).

(** The store is as it was, and the table moved. *)
Definition on_the_table st st' : Prop := rtc moves (k_table st) (k_table st') /\ k_store st' = k_store st.

#[local] Instance on_the_table_preorder : PreOrder on_the_table.
Proof. split; [by intros st|]. intros st1 st2 st3 [H12 E12] [H23 E23]. split; [by etrans|by rewrite E23]. Qed.

Lemma same_on_table st st' : k_table st' = k_table st -> k_store st' = k_store st -> on_the_table st st'.
Proof. intros Et Es. split; [by rewrite Et|done]. Qed.

Lemma withdraw_on_table refs st : on_the_table st (withdraw_any refs st).
Proof. destruct refs; [reflexivity|]. split; [apply rtc_once, moves_withdraw|done]. Qed.

Lemma serve_on_table c names st : on_the_table st (serve c names st).
Proof.
  unfold serve. etrans; [apply withdraw_on_table|]. split; [apply rtc_once, moves_write|done].
Qed.

Lemma take_offline_on_table c name st : on_the_table st (take_offline c name st).
Proof. unfold take_offline. case_match; [|reflexivity]. split; [apply rtc_once, moves_withdraw|done]. Qed.

Lemma close_on_table key c st : on_the_table st (close_link key c st).
Proof. unfold close_link. destruct (listed _ _); [|reflexivity]. by destruct (remove_conn _ _). Qed.

Lemma detach_on_table key c st : on_the_table st (detach key c st).
Proof.
  unfold detach. etrans; [apply (close_on_table key c)|]. destruct (attached _ _ _); [reflexivity|].
  split; [apply rtc_once, moves_withdraw|done].
Qed.

Lemma detach_all_on_table key st : on_the_table st (detach_all key st).
Proof.
  unfold detach_all. destruct (served_by _ _); [by apply same_on_table|]. split; [apply rtc_once, moves_withdraw|done].
Qed.

Lemma open_on_table identity x n link ticket nonce proof st : on_the_table st (open identity x n link ticket nonce proof st).2.
Proof.
  assert (Ha : forall ticket nonce proof st0, on_the_table st0 (admit_link identity link ticket nonce proof st0).2).
  { intros ticket' nonce' proof' st0. unfold admit_link. repeat (case_match; cbn [snd]; try by apply same_on_table). }
  unfold open. destruct proof as [p|]; [apply Ha|]. destruct (sign_connect link) as [signer|]; [|apply Ha].
  destruct (signer _ _ _); [|by apply same_on_table]. etrans; [|apply Ha]. by apply same_on_table.
Qed.
End moved.

(** ** The whole *)

Section whole.
Context `{HC : Crypto} `{HA : !Handlers.AGUI}.
Variable identity : private_key.
Variable callback : nat -> ChangeEvent -> list nat -> list nat * option exn.

#[local] Existing Instance Handlers.store_seams.
#[local] Existing Instance HandlersOk.store_laws.

Notation world := (world Handlers.store).
Notation tasks := (gmap string (susp world ())).
Notation roster_exec := (FacadeOk.exec identity callback).

(** What the object's broker and store are to the broker's tasks. *)
Definition its_world (f : funduq) : world := mkWorld (f_broker f) (f_store f).
Definition with_world (w : world) (f : funduq) : funduq := set_f_world (w_broker w) (w_store w) f.

(** The calls of the two rosters, as against everything else that moves the broker or writes the store. *)
Definition roster_call (c : FacadeOk.call) : bool := match c with CStore _ | CBroker _ => false | _ => true end.

(** One uninterrupted step of the process: a roster's, a call on the broker
    from a connection, a host or a timer, a write of the store by a door, a
    segment of a thread's task, or one that touches nothing of the rosters,
    the broker and the store. *)
Inductive whole_step : funduq * tasks -> funduq * tasks -> Prop :=
| whole_roster f c m : roster_call c = true -> legal f c -> whole_step (f, m) (roster_exec f c, m)
| whole_call f c m : not_the_table c = true -> permitted c (its_world f) ->
    whole_step (f, m) (with_world (System.exec c (its_world f)) f, m)
| whole_task f m w m' : sys_step thread_turn nobody (its_world f, m) (w, m') -> whole_step (f, m) (with_world w f, m')
| whole_aside f f' m : agents_view f' = agents_view f -> llms_view f' = llms_view f -> whole_step (f, m) (f', m).

(** What a connection or a host calls through the object is such a step. *)
Lemma answers_are_steps f m run_id accepted key event :
  whole_step (f, m) ((Api.answer_offer run_id accepted key f).2, m) /\ whole_step (f, m) ((Api.note_undelivered run_id f).2, m) /\
  whole_step (f, m) ((Api.report_event run_id event key f).2, m) /\ whole_step (f, m) ((Api.finish_run run_id key f).2, m).
Proof.
  assert (forall A (g : broker -> A * broker) c, not_the_table c = true -> permitted c (its_world f) ->
    System.exec c (its_world f) = mkWorld (g (f_broker f)).2 (f_store f) -> whole_step (f, m) ((Api.on_its_broker g f).2, m)) as Hg.
  { intros A g c Hc Hp He. pose proof (whole_call f c m Hc Hp) as Hs. rewrite He in Hs. unfold Api.on_its_broker. by destruct (g (f_broker f)). }
  split_and!; [apply (Hg _ _ (AnswerOffer run_id accepted key))|apply (Hg _ _ (NoteUndelivered run_id))|
    apply (Hg _ _ (ReportEvent run_id event key))|apply (Hg _ _ (FinishRun run_id key))]; done.
Qed.

Lemma subscribing_is_a_step f m run_id live f' : Api.subscribe run_id f = Ok (live, f') -> whole_step (f, m) (f', m).
Proof.
  unfold Api.subscribe. intros ([x b]&Hs&[= _ <-])%bind_ok. pose proof (whole_call f (Subscribe run_id) m eq_refl I) as Hw.
  cbn in Hw. by rewrite Hs in Hw.
Qed.

(** The object when it is made, over a store. *)
Definition made (tolerance : option nat) (required : list string) (s : Handlers.store) : funduq :=
  mkFunduq (empty_broker tolerance) (LiveRoster.new_roster required) s ∅ ∅ ∅ false ∅ [] [].

Notation broker_path := (rtc (System.step (S := Handlers.store))).

Lemma its_world_with w f : its_world (with_world w f) = w.
Proof. by destruct w. Qed.

(** A call that the broker's system permits is a step of it. *)
Lemma call_step c w m : permitted c w -> System.step (w, m) (System.exec c w, m).
Proof. intros Hp. apply sys_outside. by exists c. Qed.

Lemma moves_path b b' s m : rtc moves b b' -> broker_path (mkWorld b s, m) (mkWorld b' s, m).
Proof.
  induction 1 as [b|b b1 b' Hm _ IH]; [done|]. refine (rtc_l _ _ _ _ _ IH). destruct Hm as [refs b|l b].
  - exact (call_step (UnregisterProvider refs) (mkWorld b s) m I).
  - exact (call_step (RegisterProvider l) (mkWorld b s) m I).
Qed.

Lemma put_agents_path st f m : on_the_table (agents_view f) st ->
  broker_path (its_world f, m) (its_world (put_agents callback st f), m).
Proof.
  intros [Ht Hs]. destruct (put_agents_views callback st f) as (_&_&Eb&Es&_&_). unfold its_world. rewrite Eb, Es, Hs. by apply moves_path.
Qed.

Lemma put_llms_path st f m : on_the_table (llms_view f) st ->
  broker_path (its_world f, m) (its_world (put_llms callback st f), m).
Proof.
  intros [_ Hs]. destruct (put_llms_views callback st f) as (_&_&_&Es&_&Eb). unfold its_world. by rewrite Eb, Es, Hs.
Qed.

Lemma on_either_path (llm : bool) sa sl f m :
  on_the_table (agents_view f) sa -> on_the_table (llms_view f) sl ->
  broker_path (its_world f, m) (its_world (if llm then put_llms callback sl f else put_agents callback sa f), m).
Proof. intros Ha Hl. destruct llm; [by apply put_llms_path|by apply put_agents_path]. Qed.

Lemma roster_path f c m : roster_call c = true -> broker_path (its_world f, m) (its_world (roster_exec f c), m).
Proof.
  intros Hc. destruct c as [x key|llm x n link ticket nonce proof|llm key c|key|llm c names|llm c name|s|b]; try done; cbn [FacadeOk.exec].
  - unfold attach_on, attach_llm_provider, attach_provider. destruct llm.
    + pose proof (open_on_table identity x n link ticket nonce proof (llms_view f)) as Ho.
      destruct (open _ _ _ _ _ _ _ _). by apply put_llms_path.
    + pose proof (open_on_table identity x n link ticket nonce proof (agents_view f)) as Ho.
      destruct (open _ _ _ _ _ _ _ _). by apply put_agents_path.
  - apply (on_either_path llm); apply detach_on_table.
  - unfold detach_all_for. etrans; [by apply put_agents_path, (detach_all_on_table key)|].
    apply put_llms_path, (detach_all_on_table key).
  - apply (on_either_path llm); apply serve_on_table.
  - apply (on_either_path llm); apply take_offline_on_table.
Qed.

(** Every step of the whole is a path of the broker's system. *)
Lemma whole_step_path f m f' m' : whole_step (f, m) (f', m') -> broker_path (its_world f, m) (its_world f', m').
Proof.
  intros Hs. inversion Hs as [? c ? Hc _|? c ? _ Hp|? ? w ? Ht|? ? ? Ha _]; subst.
  - by apply roster_path.
  - rewrite its_world_with. apply rtc_once. by apply call_step.
  - rewrite its_world_with. apply rtc_once. exact (task_step_any _ _ _ Ht).
  - apply (f_equal (fun v => (k_table v, k_store v))) in Ha. cbn in Ha. injection Ha as Eb Es. unfold its_world. by rewrite Eb, Es.
Qed.

(** What only takes names offline leaves open links serving on both sides. *)
Lemma less_both w f : both f -> less (its_world f) w -> both (with_world w f).
Proof.
  intros Hb Hl. pose proof Hb as [[Hok _] _]. destruct (Hl Hok) as [Hok' Hlive].
  eapply (both_rosters_serve_open_links identity callback f); [done|].
  eapply rtc_l; [apply (step_call identity callback f (CBroker (w_broker w))); by split|].
  apply rtc_once. exact (step_call identity callback (set_f_world (w_broker w) (f_store f) f) (CStore (w_store w)) I).
Qed.

Definition sound (st : funduq * tasks) : Prop := both st.1 /\ parked (its_world st.1) st.2.

Lemma whole_step_sound st st' : whole_step st st' -> sound st -> sound st'.
Proof.
  intros Hs [Hb Hp]. destruct Hs as [f c m Hc Hl|f c m Hc Hp'|f m w m' Ht|f f' m Ha Hl]; cbn [fst snd] in *.
  - split; [|by eapply parked_anywhere]. eapply (both_rosters_serve_open_links identity callback f); [done|]. apply rtc_once. by constructor.
  - split; [|by eapply parked_anywhere]. apply less_both; [done|]. by apply exec_less.
  - split; [apply less_both; [done|by eapply task_step_less]|]. cbn [snd fst]. rewrite its_world_with.
    eapply parked_step; [|exact Hp]. by apply task_step_any.
  - split; [|by eapply parked_anywhere]. unfold both. cbn [fst]. by rewrite Ha, Hl.
Qed.

Lemma made_sound tolerance required s : sound (made tolerance required s, ∅).
Proof.
  split.
  - split; (split; [|intros r c Hr; discriminate Hr]); [|by intros r c].
    split; [intros r k Hr; discriminate Hr|intros r k Hr; by apply not_elem_of_nil in Hr].
  - split; [done|]. intros t. cbn. by rewrite lookup_empty.
Qed.


(** ** A schedule of the process, executed *)

Inductive whole_move : Type :=
| OnRoster (c : FacadeOk.call)
| OnBroker (m : BrokerProps.move).

Definition legalb (f : funduq) (c : FacadeOk.call) : bool :=
  match c with
  | CDetach _ key c => String.eqb key (public_key c)
  | CServe llm c _ =>
      match (if llm then require_open c (llms_view f) else require_open c (agents_view f)) with Ok _ => true | Err _ => false end
  | _ => roster_call c
  end.

Definition make_whole_move (x : whole_move) (st : funduq * tasks) : option (funduq * tasks) :=
  let '(f, m) := st in
  match x with
  | OnRoster c => if legalb f c then Some (roster_exec f c, m) else None
  | OnBroker b =>
      let allowed := match b with BrokerProps.Call c => not_the_table c | _ => true end in
      if allowed then (fun st' => (with_world st'.1 f, st'.2)) <$> BrokerProps.make_move b (its_world f, m) else None
  end.

Fixpoint drive_whole (xs : list whole_move) (st : funduq * tasks) : option (funduq * tasks) :=
  match xs with [] => Some st | x :: xs => make_whole_move x st ≫= drive_whole xs end.

Lemma legalb_ok f c : legalb f c = true -> roster_call c = true /\ legal f c.
Proof.
  destruct c as [x key|llm x n link ticket nonce proof|llm key c|key|llm c names|llm c name|s|b]; cbn; try done.
  - by intros ->%String.eqb_eq.
  - destruct llm; (destruct (require_open _ _) as [[]|]; [done|discriminate]).
Qed.

Lemma make_whole_move_step x st st' : make_whole_move x st = Some st' -> whole_step st st'.
Proof.
  destruct st as [f m], x as [c|b]; cbn; intros Hx.
  - destruct (legalb f c) eqn:Hl; [|done]. injection Hx as <-. apply legalb_ok in Hl as [Hc Hl]. by apply whole_roster.
  - assert (forall m0 w m1, (forall c, m0 <> BrokerProps.Call c) -> BrokerProps.make_move m0 (its_world f, m) = Some (w, m1) ->
      whole_step (f, m) (with_world w f, m1)) as Ht by (intros m0 w m1 Hn Hm; by apply whole_task, (BrokerProps.task_move_step _ m0)).
    destruct b as [c|t|t].
    + destruct (not_the_table c) eqn:Hc; [|done]. cbn in Hx. destruct (BrokerProps.permittedb c (its_world f)) eqn:Hp; [|done].
      injection Hx as <-. apply whole_call; [done|]. by apply BrokerProps.permittedb_ok.
    + apply fmap_Some in Hx as ([w m1]&Hm&->). by eapply (Ht (BrokerProps.Turn t)).
    + apply fmap_Some in Hx as ([w m1]&Hm&->). by eapply (Ht (BrokerProps.Resume t)).
Qed.

Lemma drive_whole_path xs st st' : drive_whole xs st = Some st' -> rtc whole_step st st'.
Proof.
  revert st. induction xs as [|x xs IH]; intros st; cbn; [intros [= ->]; apply rtc_refl|].
  destruct (make_whole_move x st) as [st1|] eqn:Hx; [|done]. cbn. intros Hd. eapply rtc_l; [by apply (make_whole_move_step x)|by apply IH].
Qed.
End whole.

(** ** A process at work *)
Module Witness.
#[local] Existing Instance Toy.crypto.
#[local] Existing Instance BrokerProps.Scene.agui.

Definition link : Link := Roster.InProcessLink (H := Toy.crypto) "K" (Some "hub") 1 (Some 2%Z).
Definition proof : string := sign_hex (Crypto := Toy.crypto) "K" (Payloads.provider_connect_payload "hub" "T" "n").

(** A provider opens a link and serves an agent; a run comes in, is offered to
    it and claimed; the provider's other name is taken offline. *)
Definition day : list whole_move :=
  [OnBroker (BrokerProps.Call Start); OnRoster (CIssue "T" "K");
   OnRoster (CAttach false "x" "y" link (Some "T") (Some "n") (Some proof));
   OnRoster (CServe false (connection link) ["a"; "b"]);
   OnBroker (BrokerProps.Call (Enqueue "r1" BrokerProps.Scene.agent "t" [] 0 None))] ++
  map OnBroker (BrokerProps.Scene.turn 2) ++
  [OnRoster (COffline false (connection link) "b"); OnBroker (BrokerProps.Call (AnswerOffer "r1" (Answer true) "K"))] ++
  map OnBroker (BrokerProps.Scene.turn 2).

Definition dawn := (made None ["completions"] BrokerProps.Scene.store0, (∅ : gmap string (susp (world Handlers.store) ()))).
Definition dusk := default dawn (drive_whole (HC := Toy.crypto) "hub" FacadeOk.Witness.moody day dawn).

End Witness.
End Whole.
