(* ===== verification/A2aTranslate.v ===== *)
(** * Runs as A2A tasks (funduq/protocols/a2a_translate.py)

    An AG-UI run's status and events as an A2A task, and as the updates its
    stream carries; an A2A message as an AG-UI message and back.

    A protobuf message is a record of the fields funduq sets; assigning
    anything but a string to a string field raises [TypeError].  A [Struct]
    is a [dict].  [str.upper] is modelled on ASCII: no other character
    becomes one of the letters compared here. *)

From S2P Require Import Prelude Errors Json Models Pause.

Module Translate.

(** [str] of a string is the string; of anything else, what Python prints. *)
Class PyRepr : Type := { py_repr : json -> string }.
Definition py_str `{PyRepr} (j : json) : string := match j with JStr s => s | _ => py_repr j end.

(** AG-UI's [AssistantMessage] and [UserMessage]: validated, then dumped. *)
Class MessageModel : Type := { dumped_message : bool -> json -> string -> option dict }.
Class MessageLaws `{MessageModel} : Prop := {
  dumped_message_ok assistant i c : exists d, dumped_message assistant (JStr i) c = Some d /\
    get "id" d = JStr i /\ get "role" d = JStr (if assistant then "assistant" else "user") /\ get "content" d = JStr c;
  dumped_message_str assistant j c d : dumped_message assistant j c = Some d -> exists i, j = JStr i;
}.

(** ** A2A's data *)

Inductive TaskState : Type :=
| TASK_STATE_UNSPECIFIED | TASK_STATE_SUBMITTED | TASK_STATE_WORKING | TASK_STATE_COMPLETED | TASK_STATE_FAILED
| TASK_STATE_CANCELED | TASK_STATE_INPUT_REQUIRED | TASK_STATE_REJECTED | TASK_STATE_AUTH_REQUIRED.
#[global] Instance TaskState_eq_dec : EqDecision TaskState.
Proof. solve_decision. Defined.

Inductive Role : Type := ROLE_USER | ROLE_AGENT.

Record Message : Type := mkMessage {
  m_message_id : string; m_context_id : string; m_role : Role; m_parts : list string }.
Record Artifact : Type := mkArtifact { a_artifact_id : string; a_parts : list string }.
Record TaskStatus : Type := mkStatus {
  ts_state : TaskState; ts_message : option Message; ts_timestamp : option Z }.
Record Task : Type := mkTask {
  t_id : string; t_context_id : string; t_status : TaskStatus; t_history : list Message;
  t_artifacts : list Artifact; t_metadata : dict }.

Inductive Event : Type :=
| TaskStatusUpdateEvent (task_id context_id : string) (status : TaskStatus) (metadata : dict)
| TaskArtifactUpdateEvent (task_id context_id : string) (artifact : Artifact) (append : bool).

(** Assigning to a string field. *)
Definition pb_string (j : json) : py string := match j with JStr s => Ok s | _ => Err TypeError end.

(** ** Constants *)

Definition RUN_STATUS_TO_A2A_STATE (s : run_status) : TaskState :=
  match s with
  | queued | offering => TASK_STATE_SUBMITTED
  | running | cancelling => TASK_STATE_WORKING
  | completed => TASK_STATE_COMPLETED
  | failed => TASK_STATE_FAILED
  | cancelled => TASK_STATE_CANCELED
  end.

Definition TERMINAL_STATES : list TaskState := [TASK_STATE_COMPLETED; TASK_STATE_FAILED; TASK_STATE_CANCELED].
Definition LIFECYCLE_EVENT_TYPES : list string := [RUN_STARTED; RUN_FINISHED; RUN_ERROR].
Definition TEXT_EVENT_TYPES : list string := [TEXT_MESSAGE_CONTENT; TEXT_MESSAGE_CHUNK].
Definition MAPPED_EVENT_TYPES : list string := LIFECYCLE_EVENT_TYPES ++ TEXT_EVENT_TYPES.
Definition FUNDUQ : string := "funduq".
Definition OVERFLOW_METADATA_KEY : string := "agui_event".
Definition OVERFLOW_METADATA_LIST_KEY : string := "agui_events".
Definition INTERRUPTS_METADATA_KEY : string := "interrupts".
Definition CANCEL_REQUESTED_METADATA_KEY : string := "cancelRequested".

(** ** Statuses *)

(** [x in frozenset]: the value is hashed. *)
Definition typed_in (types : list string) (event : dict) : py bool :=
  k ← to_key (get "type" event);
  Ok (match k with KStr t => bool_decide (t ∈ types) | _ => false end).

Definition is_mapped : dict -> py bool := typed_in MAPPED_EVENT_TYPES.

Definition state_for_run_status (s : run_status) : TaskState := RUN_STATUS_TO_A2A_STATE s.

Definition task_state_of (s : run_status) (run_events : list dict) (cancel_requested : bool) : py TaskState :=
  if bool_decide (s = completed) then
    asks ← Pause.open_asks run_events;
    Ok (if bool_decide (asks = ∅) then state_for_run_status s
        else if cancel_requested then TASK_STATE_CANCELED else TASK_STATE_INPUT_REQUIRED)
  else Ok (state_for_run_status s).

Definition _cancel_metadata (s : run_status) (cancel_requested : bool) : dict :=
  if bool_decide (s = cancelling) || cancel_requested then [(CANCEL_REQUESTED_METADATA_KEY, JBool true)] else [].

(** [metadata.update({"funduq": ours})], if there is anything to say. *)
Definition under_funduq (ours : dict) : dict := match ours with [] => [] | _ => [(FUNDUQ, JObj ours)] end.

(** [funduq_metadata_of] reads it back. *)
Definition funduq_metadata_of (metadata : dict) : json := get_or FUNDUQ (JObj []) metadata.

Section translate.
Context `{PyRepr}.

Definition _status_update (task_id context_id : string) (state : TaskState) (message : json)
    (agui_event : option dict) (metadata : dict) : Event :=
  TaskStatusUpdateEvent task_id context_id
    (mkStatus state
       (match message with
        | JNull => None
        | _ => Some (mkMessage (task_id +:+ "-error") "" ROLE_AGENT [py_str message])
        end) None)
    (under_funduq (match agui_event with
                   | Some e => aset OVERFLOW_METADATA_KEY (JObj e) metadata
                   | None => metadata
                   end)).

Definition status_update_for_run_status (task_id context_id : string) (s : run_status) : Event :=
  _status_update task_id context_id (state_for_run_status s) JNull None (_cancel_metadata s false).

(** ** Events *)

Definition text_delta_of (event : dict) : py (option (json * json)) :=
  is_text ← typed_in TEXT_EVENT_TYPES event;
  Ok (if is_text : bool
      then Some (py_or (get "messageId" event) (JStr "text"), py_or (py_or (get "delta" event) (get "content" event)) (JStr ""))
      else None).

(** [opened] is the caller's set, written in place. *)
Definition agui_event_to_a2a_update (event : dict) (task_id context_id : string) (opened : gset key)
    : py (Event * gset key) :=
  if has_type RUN_STARTED event then Ok (_status_update task_id context_id TASK_STATE_WORKING JNull None [], opened)
  else if has_type RUN_FINISHED event then
    match Pause.interrupt_outcome_of event with
    | Some interrupts =>
        Ok (_status_update task_id context_id TASK_STATE_INPUT_REQUIRED JNull None [(INTERRUPTS_METADATA_KEY, interrupts)], opened)
    | None => Ok (_status_update task_id context_id TASK_STATE_COMPLETED JNull None [], opened)
    end
  else if has_type RUN_ERROR event then
    Ok (_status_update task_id context_id TASK_STATE_FAILED (get "message" event) None [], opened)
  else
    delta ← text_delta_of event;
    match delta with
    | Some (artifact_id, text) =>
        k ← to_key artifact_id;
        i ← pb_string artifact_id;
        t ← pb_string text;
        Ok (TaskArtifactUpdateEvent task_id context_id (mkArtifact i [t]) (bool_decide (k ∈ opened)), {[k]} ∪ opened)
    | None => Ok (_status_update task_id context_id TASK_STATE_WORKING JNull (Some event) [], opened)
    end.

(** The loop of a stream over the events it drains. *)
Fixpoint relay_events (task_id context_id : string) (events : list dict) (opened : gset key) : py (list Event * gset key) :=
  match events with
  | [] => Ok ([], opened)
  | event :: rest =>
      '(u, opened) ← agui_event_to_a2a_update event task_id context_id opened;
      '(us, opened) ← relay_events task_id context_id rest opened;
      Ok (u :: us, opened)
  end.

(** ** Messages *)

Definition upper_ascii (c : Ascii.ascii) : Ascii.ascii :=
  let n := Ascii.nat_of_ascii c in
  if Nat.leb 97 n && Nat.leb n 122 then Ascii.ascii_of_nat (n - 32) else c.
Fixpoint upper (s : string) : string :=
  match s with EmptyString => EmptyString | String c s' => String (upper_ascii c) (upper s') end.

(** A part's text; [None] is a part of another kind. *)
Definition part_text (part : json) : py (option string) :=
  d ← as_dict part; Ok (match get "text" d with JStr t => Some t | _ => None end).

Definition from_agent (a2a_message : dict) : bool :=
  bool_decide (upper (py_str (get_or "role" (JStr "") a2a_message)) ∈ ["ROLE_AGENT"; "AGENT"]).

Definition a2a_message_to_agui_messages `{MessageModel} (a2a_message : dict) : py (list dict) :=
  parts ← py_iter (get_or "parts" (JList []) a2a_message);
  texts ← traverse part_text parts;
  match mapM id texts with
  | None => Err ContentTypeNotSupportedError
  | Some texts =>
      let text := foldr String.append "" texts in
      let message_id := get "messageId" a2a_message in
      guard_or InvalidParamsError (truthy message_id)
      match dumped_message (from_agent a2a_message) message_id text with
      | None => Err (ValueError "invalid AG-UI message")
      | Some dumped =>
          Ok [match get "metadata" a2a_message with
              | JObj (kv :: rest) => aset "metadata" (JObj (kv :: rest)) dumped
              | _ => dumped
              end]
      end
  end.

(** [l[-limit:] if limit else []]: a negative limit drops that many. *)
Definition last_of {A} (limit : option Z) (l : list A) : list A :=
  match limit with
  | None => l
  | Some 0%Z => []
  | Some n => if (0 <? n)%Z then drop (length l - Z.to_nat n) l else drop (Z.to_nat (- n)) l
  end.

Definition carries_text (message : dict) : bool :=
  bool_decide (get "role" message ∈ [JStr "user"; JStr "assistant"]) && truthy (get "content" message).

Definition history_of (thread_messages : list dict) (context_id : string) (limit : option Z) : list Message :=
  last_of limit
    (map (fun m => mkMessage (py_str (py_or (get "id" m) (JStr ""))) context_id
                     (if bool_decide (get "role" m = JStr "assistant") then ROLE_AGENT else ROLE_USER)
                     [py_str (py_or (get "content" m) (JStr ""))])
       (filter (fun m => carries_text m = true) thread_messages)).

(** ** The task *)

(** The loop over [run_events]: each message's deltas, and the events A2A has no word for. *)
Definition merge_step (event : dict) (st : list (key * (json * list json)) * list dict)
    : py (list (key * (json * list json)) * list dict) :=
  let '(merged, overflow) := st in
  delta ← text_delta_of event;
  match delta with
  | Some (artifact_id, text) =>
      k ← to_key artifact_id;
      let chunks := match aget k merged with Some (i, c) => (i, c ++ [text]) | None => (artifact_id, [text]) end in
      Ok (aset k chunks merged, overflow)
  | None =>
      mapped ← is_mapped event;
      Ok (merged, if mapped : bool then overflow else overflow ++ [event])
  end.

(** ["".join(chunks)] in a [Part] of an [Artifact]. *)
Definition artifact_of (entry : key * (json * list json)) : py Artifact :=
  chunks ← traverse pb_string entry.2.2;
  i ← pb_string entry.2.1;
  Ok (mkArtifact i [foldr String.append "" chunks]).

Definition build_task (task_id context_id : string) (s : run_status) (run_events thread_messages : list dict)
    (history_length : option Z) (cancel_requested : bool) (tail_events : option (list dict)) (status_at : option Z) : py Task :=
  '(merged, overflow) ← fold_res merge_step run_events ([], []);
  state ← task_state_of s (default run_events tail_events) cancel_requested;
  artifacts ← traverse artifact_of merged;
  Ok (mkTask task_id context_id (mkStatus state None status_at) (history_of thread_messages context_id history_length) artifacts
        (under_funduq (match overflow with [] => [] | _ => [(OVERFLOW_METADATA_LIST_KEY, JList (map JObj overflow))] end
                       ++ _cancel_metadata s cancel_requested))).
End translate.
End Translate.
