(* ===== verification/A2aTranslateOk.v ===== *)
(** * What the A2A projection keeps

    A stream and a snapshot of the same events say the same; a message
    survives the way in and back; a task is well formed. *)

From S2P Require Import Prelude Errors Json Models Pause A2aTranslate.

Module TranslateOk.
Import Translate.

Section translate.
Context `{HP : PyRepr}.

Notation joined := (foldr String.append "").

(** ** The receiver *)

(** What an A2A client holds of a task: each artifact's text, by id; an
    appending update extends it, another replaces it. *)
Definition receive (held : list (string * string)) (u : Event) : list (string * string) :=
  match u with
  | TaskArtifactUpdateEvent _ _ a append =>
      let i := a_artifact_id a in
      aset i ((if append then default "" (aget i held) else "") +:+ joined (a_parts a)) held
  | TaskStatusUpdateEvent _ _ _ _ => held
  end.

Definition texts_of (t : Task) : list (string * string) := map (fun a => (a_artifact_id a, joined (a_parts a))) (t_artifacts t).
Definition opened_by (t : Task) : gset key := list_to_set (map (fun a => KStr (a_artifact_id a)) (t_artifacts t)).

(** The raw events funduq attached, to a task and to an update. *)
Definition attached (field : string) (metadata : dict) : json :=
  match funduq_metadata_of metadata with JObj ours => get field ours | _ => JNull end.
Definition overflow_of (t : Task) : list json := match attached OVERFLOW_METADATA_LIST_KEY (t_metadata t) with JList l => l | _ => [] end.
Definition overflow_in (u : Event) : list json :=
  match u with
  | TaskStatusUpdateEvent _ _ _ metadata =>
      match attached OVERFLOW_METADATA_KEY metadata with JNull => [] | e => [e] end
  | TaskArtifactUpdateEvent _ _ _ _ => []
  end.

(** Recorded events: a string type, and of a text event a string id and delta. *)
Definition carriable (event : dict) : bool :=
  match text_delta_of event with Ok None | Ok (Some (JStr _, JStr _)) => true | _ => false end.

(** ** Snapshots *)

(** The artifacts so far, by id, as lists of chunks; and as the merge keeps them. *)
Definition enc (cl : list (string * list string)) : list (key * (json * list json)) :=
  map (fun e => (KStr e.1, (JStr e.1, map JStr e.2))) cl.
Definition texts (cl : list (string * list string)) : list (string * string) := map (fun e => (e.1, joined e.2)) cl.
Definition ids (cl : list (string * list string)) : gset key := list_to_set (map (fun e => KStr e.1) cl).

Lemma aget_enc i cl : aget (KStr i) (enc cl) = (fun c => (JStr i, map JStr c)) <$> aget i cl.
Proof.
  induction cl as [|[j c] cl IH]; cbn; [done|]. destruct (decide (i = j)) as [<-|Hne]; [by rewrite decide_True|].
  rewrite decide_False by congruence. apply IH.
Qed.

Lemma aset_enc i c cl : aset (KStr i) (JStr i, map JStr c) (enc cl) = enc (aset i c cl).
Proof.
  induction cl as [|[j c'] cl IH]; cbn; [done|]. destruct (decide (i = j)) as [<-|Hne]; [by rewrite decide_True|].
  rewrite decide_False by congruence. cbn. f_equal. apply IH.
Qed.

Lemma aget_texts i cl : aget i (texts cl) = joined <$> aget i cl.
Proof. induction cl as [|[j c] cl IH]; cbn; [done|]. by destruct (decide (i = j)). Qed.

Lemma aset_texts i c cl : aset i (joined c) (texts cl) = texts (aset i c cl).
Proof. induction cl as [|[j c'] cl IH]; cbn; [done|]. destruct (decide (i = j)); cbn; [done|]. f_equal. apply IH. Qed.

Lemma joined_app l l' : joined (l ++ l') = joined l +:+ joined l'.
Proof. induction l as [|x l IH]; cbn; [done|]. rewrite IH. by rewrite <- str_app_assoc. Qed.

Lemma elem_ids i cl : KStr i ∈ ids cl <-> is_Some (aget i cl).
Proof.
  unfold ids. rewrite elem_of_list_to_set, list_elem_of_fmap. split.
  - intros ([j c]&[= ->]&Hin). clear HP. induction cl as [|[j' c'] cl IH]; [by apply not_elem_of_nil in Hin|].
    cbn. destruct (decide (j = j')); [by eexists|]. apply IH. by apply elem_of_cons in Hin as [[= -> ->]|].
  - intros [c Hc]. exists (i, c). split; [done|]. by apply aget_Some_elem.
Qed.

Lemma ids_aset i c cl : ids (aset i c cl) = {[KStr i]} ∪ ids cl.
Proof.
  unfold ids. induction cl as [|[j c'] cl IH]; cbn; [done|]. destruct (decide (i = j)) as [<-|]; cbn; [set_solver|].
  rewrite IH. set_solver.
Qed.

Lemma jstrs_inj l l' : map JStr l = map JStr l' -> l = l'.
Proof. revert l'. induction l as [|x l IH]; intros [|y l']; cbn; try done. intros [= -> H]. f_equal. by apply IH. Qed.

Lemma artifacts_enc cl : traverse artifact_of (enc cl) = Ok (map (fun e => mkArtifact e.1 [joined e.2]) cl).
Proof.
  assert (Hs : forall c, traverse pb_string (map JStr c) = Ok c) by (intros c; induction c as [|x c IH]; cbn; [done|by rewrite IH]).
  unfold enc. induction cl as [|[i c] cl IH]; [done|]. cbn [map traverse]. rewrite IH. unfold artifact_of. cbn. by rewrite Hs.
Qed.

(** ** One event, streamed and merged *)

Lemma typed_in_str types event t : get "type" event = JStr t -> typed_in types event = Ok (bool_decide (t ∈ types)).
Proof. unfold typed_in. by intros ->. Qed.

Lemma lifecycle_mapped t : t ∈ LIFECYCLE_EVENT_TYPES ->
  bool_decide (t ∈ TEXT_EVENT_TYPES) = false /\ bool_decide (t ∈ MAPPED_EVENT_TYPES) = true.
Proof.
  unfold LIFECYCLE_EVENT_TYPES. rewrite !elem_of_cons. intros [->|[->|[->|Hn]]]; [by vm_compute..|by apply not_elem_of_nil in Hn].
Qed.

Lemma unmapped_rest event : text_delta_of event = Ok None -> has_type RUN_STARTED event = false ->
  has_type RUN_FINISHED event = false -> has_type RUN_ERROR event = false -> is_mapped event = Ok false.
Proof.
  unfold text_delta_of, is_mapped, typed_in, has_type. destruct (get "type" event) as [| | |t| |]; cbn [to_key mbind result_bind]; try done.
  rewrite !bool_decide_eq_false. destruct (bool_decide (t ∈ TEXT_EVENT_TYPES)) eqn:Ht; [done|]. intros _ H1 H2 H3.
  apply bool_decide_eq_false in Ht. rewrite bool_decide_eq_false_2; [done|]. unfold MAPPED_EVENT_TYPES, LIFECYCLE_EVENT_TYPES.
  rewrite elem_of_app, !elem_of_cons. intros [[->|[->|[->|Hn]]]|Hn]; [done..|by apply not_elem_of_nil in Hn|done].
Qed.

Lemma event_step task_id context_id event cl ov : carriable event = true ->
  exists u cl' raw, agui_event_to_a2a_update event task_id context_id (ids cl) = Ok (u, ids cl') /\
    merge_step event (enc cl, ov) = Ok (enc cl', ov ++ raw) /\ overflow_in u = map JObj raw /\ receive (texts cl) u = texts cl'.
Proof.
  unfold carriable, agui_event_to_a2a_update, merge_step. intros Hc.
  assert (Hmapped : forall t, has_type t event = true -> t ∈ LIFECYCLE_EVENT_TYPES ->
    text_delta_of event = Ok None /\ is_mapped event = Ok true).
  { intros t Ht%has_type_spec Hin. unfold text_delta_of, is_mapped. rewrite !(typed_in_str _ _ _ Ht). by destruct (lifecycle_mapped _ Hin) as [-> ->]. }
  destruct (has_type RUN_STARTED event) eqn:H1.
  { destruct (Hmapped _ H1) as [-> ->]; [by left|]. cbn. eexists _, cl, []. by rewrite app_nil_r. }
  destruct (has_type RUN_FINISHED event) eqn:H2.
  { destruct (Hmapped _ H2) as [-> ->]; [by right; left|]. cbn.
    destruct (Pause.interrupt_outcome_of event); eexists _, cl, []; by rewrite app_nil_r. }
  destruct (has_type RUN_ERROR event) eqn:H3.
  { destruct (Hmapped _ H3) as [-> ->]; [by right; right; left|]. cbn. eexists _, cl, []. by rewrite app_nil_r. }
  destruct (text_delta_of event) as [[[i t]|]|] eqn:Hd; [| |done].
  - destruct i as [| | |i| |]; [done..| |done|done]. destruct t as [| | |t| |]; [done..| |done|done]. cbn.
    eexists _, (aset i (default [] (aget i cl) ++ [t]) cl), []. rewrite aget_enc, ids_aset, app_nil_r. split_and!; [done| |done|].
    + destruct (aget i cl) as [c|]; cbn; rewrite <- aset_enc, ?map_app; done.
    + cbn. rewrite str_app_nil_r, <- aset_texts, joined_app, aget_texts. cbn. rewrite str_app_nil_r. f_equal. f_equal.
      case_bool_decide as Hi; rewrite elem_ids in Hi; destruct (aget i cl); cbn; try done; exfalso; first [by apply Hi; eexists|by destruct Hi].
  - cbn. rewrite (unmapped_rest event) by done. cbn. eexists _, cl, [event]. split_and!; [done|done| |done].
    cbn. unfold attached, funduq_metadata_of. cbn. by rewrite decide_True.
Qed.

Lemma events_merge task_id context_id events cl ov : forallb carriable events = true ->
  exists us cl' raw, relay_events task_id context_id events (ids cl) = Ok (us, ids cl') /\
    fold_res merge_step events (enc cl, ov) = Ok (enc cl', ov ++ raw) /\
    flat_map overflow_in us = map JObj raw /\ foldl receive (texts cl) us = texts cl'.
Proof.
  revert cl ov. induction events as [|event events IH]; intros cl ov; cbn [forallb relay_events fold_res].
  - intros _. exists [], cl, []. by rewrite app_nil_r.
  - intros [He Hes]%andb_prop. destruct (event_step task_id context_id event cl ov He) as (u&cl1&raw1&->&->&Ho&Hr). cbn [mbind result_bind].
    destruct (IH cl1 (ov ++ raw1) Hes) as (us&cl2&raw2&->&->&Hos&Hrs).
    exists (u :: us), cl2, (raw1 ++ raw2). split_and!; [done|by rewrite app_assoc|cbn; by rewrite Ho, Hos, map_app|]. cbn. by rewrite Hr.
Qed.
Lemma build_task_keeps task_id context_id s events messages limit cancel tail at_ t : forallb carriable events = true ->
  build_task task_id context_id s events messages limit cancel tail at_ = Ok t ->
  exists cl raw, fold_res merge_step events ([], []) = Ok (enc cl, raw) /\
    texts_of t = texts cl /\ opened_by t = ids cl /\ overflow_of t = map JObj raw.
Proof.
  intros Hc. unfold build_task. destruct (events_merge task_id context_id events [] [] Hc) as (us&cl&raw&_&Hm&_).
  cbn [enc map app] in Hm. rewrite Hm. cbn [mbind result_bind]. destruct (task_state_of _ _ _); [|done]. cbn [mbind result_bind].
  rewrite artifacts_enc. cbn [mbind result_bind]. intros [= <-]. exists cl, raw. unfold texts_of, opened_by, texts, ids, overflow_of, attached.
  cbn [t_artifacts t_metadata]. split_and!; [done| | |].
  - rewrite map_map. apply map_ext. intros [i c]. cbn. by rewrite str_app_nil_r.
  - by rewrite map_map.
  - unfold _cancel_metadata. by destruct raw, (bool_decide _ || cancel).
Qed.

(** C28. A stream continues its snapshot exactly: take the task funduq builds
    from the events so far, and the updates it streams for the events after
    them, told which artifacts the snapshot opened.  A client that applies
    the updates to the snapshot (an appending one extends its artifact,
    another starts it) holds precisely the artifacts of the task built from
    all the events; and the raw events attached to the snapshot and then to
    the updates are precisely those attached to that task, in order, so no
    event is dropped on either path. *)
Theorem stream_completes_the_snapshot task_id context_id before after
    s1 messages1 limit1 cancel1 tail1 at1 opening s2 messages2 limit2 cancel2 tail2 at2 final :
  forallb carriable (before ++ after) = true ->
  build_task task_id context_id s1 before messages1 limit1 cancel1 tail1 at1 = Ok opening ->
  build_task task_id context_id s2 (before ++ after) messages2 limit2 cancel2 tail2 at2 = Ok final ->
  exists updates opened, relay_events task_id context_id after (opened_by opening) = Ok (updates, opened) /\
    foldl receive (texts_of opening) updates = texts_of final /\
    overflow_of opening ++ flat_map overflow_in updates = overflow_of final.
Proof.
  intros Hc H1 H2. pose proof Hc as Hc'. rewrite forallb_app in Hc'. apply andb_prop in Hc' as [Hc1 Hc2].
  apply build_task_keeps in H1 as (cl1&raw1&Hm1&->&->&->); [|done].
  apply build_task_keeps in H2 as (cl2&raw2&Hm2&->&_&->); [|done].
  destruct (events_merge task_id context_id after cl1 raw1 Hc2) as (us&cl&raw&Hr&Hm&Ho&Hrec).
  rewrite fold_res_app, Hm1 in Hm2. cbn [mbind result_bind] in Hm2. rewrite Hm in Hm2. injection Hm2 as Henc <-.
  exists us, (ids cl). split_and!; [done| |by rewrite Ho, map_app]. rewrite Hrec.
  revert Henc. clear. revert cl2. induction cl as [|[i c] cl IH]; intros [|[i2 c2] cl2]; cbn; try done.
  intros [= -> _ Hcs Hrest]. apply jstrs_inj in Hcs as ->. f_equal. by apply IH.
Qed.

(** ** Well-formedness *)

(** A merged artifact: the key hashes the id, which is a true value. *)
Definition entry_ok (e : key * (json * list json)) : Prop := to_key e.2.1 = Ok e.1 /\ truthy e.2.1 = true.
Definition merged_ok (merged : list (key * (json * list json))) : Prop := NoDup merged.*1 /\ Forall entry_ok merged.

Lemma aset_Forall {K V} `{EqDecision K} (P : K * V -> Prop) k v (d : list (K * V)) : P (k, v) -> Forall P d -> Forall P (aset k v d).
Proof. intros Hp. induction 1 as [|[k' v'] d Hk Hd IH]; cbn; [by constructor|]. destruct (decide (k = k')); by constructor. Qed.

Lemma merge_wf events st : fold_res merge_step events ([], []) = Ok st -> merged_ok st.1.
Proof.
  apply (fold_res_inv (fun st => merged_ok st.1)); [by split; constructor|]. intros event [merged ov] st2 _ [Hnd Hall]. unfold merge_step.
  destruct (text_delta_of event) as [[[i t]|]|] eqn:Hd; cbn [mbind result_bind]; [| |done].
  - destruct (to_key i) as [k|] eqn:Hk; cbn [mbind result_bind]; [|done]. intros [= <-]. cbn. split.
    + by apply akeys_aset_NoDup.
    + apply aset_Forall; [|done]. destruct (aget k merged) as [[i0 c]|] eqn:Hg.
      * apply aget_Some_elem in Hg. rewrite Forall_forall in Hall. by apply (Hall _ Hg).
      * split; [done|]. cbn. unfold text_delta_of in Hd. destruct (typed_in _ _) as [[]|]; cbn in Hd; try done.
        injection Hd as <- _. unfold py_or. by destruct (truthy (get "messageId" event)) eqn:Ht.
  - destruct (is_mapped event) as [[]|]; cbn [mbind result_bind]; [| |done]; by intros [= <-].
Qed.

Lemma artifact_entry e a : entry_ok e -> artifact_of e = Ok a -> e.1 = KStr (a_artifact_id a) /\ a_artifact_id a <> "" /\ length (a_parts a) = 1.
Proof.
  destruct e as [k [i c]]. unfold artifact_of, entry_ok. cbn. intros [Hk Ht].
  destruct (traverse pb_string c); cbn; [|done]. destruct i; cbn; try done. intros [= <-]. cbn in *. injection Hk as <-.
  split_and!; [done| |done]. intros ->. done.
Qed.

Lemma artifacts_wf merged artifacts : merged_ok merged -> traverse artifact_of merged = Ok artifacts ->
  NoDup (map a_artifact_id artifacts) /\ Forall (fun a => a_artifact_id a <> "" /\ length (a_parts a) = 1) artifacts.
Proof.
  intros [Hnd Hall] Ht%traverse_ok. assert (merged.*1 = map (fun a => KStr (a_artifact_id a)) artifacts /\
    Forall (fun a => a_artifact_id a <> "" /\ length (a_parts a) = 1) artifacts) as [Hk Hf].
  { clear Hnd. induction Ht as [|e a merged artifacts Hea _ IH]; cbn; [by split; constructor|]. apply Forall_cons in Hall as [He Hall].
    destruct (IH Hall) as [-> Hf]. destruct (artifact_entry _ _ He Hea) as (->&?&?). split; [done|by constructor]. }
  split; [|done]. rewrite Hk in Hnd. rewrite <- (map_map a_artifact_id KStr) in Hnd. by apply NoDup_fmap_1 in Hnd.
Qed.

Lemma last_of_Forall {A} (P : A -> Prop) limit l : Forall P l -> Forall P (last_of limit l).
Proof. intros Hl. unfold last_of. repeat case_match; try done; by apply Forall_drop. Qed.

Lemma last_of_length {A} (l : list A) n : length (last_of (Some (Z.of_nat n)) l) <= n.
Proof.
  unfold last_of. destruct n as [|n]; [done|]. destruct (Z.of_nat (S n)) eqn:Hn; [done| |lia]. rewrite <- Hn.
  rewrite (proj2 (Z.ltb_lt _ _)) by lia. rewrite length_drop. lia.
Qed.

(** ** Messages *)

Context `{HM : MessageModel, HL : !MessageLaws}.

(** An A2A message goes in and comes back: a message whose parts are all
    text, under a non-empty [messageId], becomes one AG-UI message from which
    [history_of] builds the A2A message again (its id, its side, its text as
    one part; nothing when the text is empty), its own metadata travelling
    with it.  A part of any other kind, and a missing id, is refused. *)
Theorem message_round_trip m context_id parts texts :
  py_iter (get_or "parts" (JList []) m) = Ok parts -> traverse part_text parts = Ok texts ->
  match mapM id texts, get "messageId" m with
  | None, _ => a2a_message_to_agui_messages m = Err ContentTypeNotSupportedError
  | Some ts, JStr i =>
      if decide (i = "") then a2a_message_to_agui_messages m = Err InvalidParamsError
      else exists d, a2a_message_to_agui_messages m = Ok [d] /\
        history_of [d] context_id None =
          (if decide (joined ts = "") then []
           else [mkMessage i context_id (if from_agent m then ROLE_AGENT else ROLE_USER) [joined ts]]) /\
        (forall kv rest, get "metadata" m = JObj (kv :: rest) -> get "metadata" d = JObj (kv :: rest))
  | Some _, j => is_ok (a2a_message_to_agui_messages m) = false
  end.
Proof.
  intros Hp Ht. unfold a2a_message_to_agui_messages. rewrite Hp. cbn [mbind result_bind]. rewrite Ht. cbn [mbind result_bind].
  destruct (mapM id texts) as [ts|]; [|done].
  assert (Hno : forall j, (forall i, j <> JStr i) -> dumped_message (from_agent m) j (joined ts) = None).
  { intros j Hj. destruct (dumped_message _ j _) eqn:E; [|done]. apply dumped_message_str in E as [i ->]. by destruct (Hj i). }
  destruct (get "messageId" m) as [| | |i| |] eqn:Hi; try (rewrite Hno by done; unfold guard_or; by destruct (truthy _)).
  cbn [truthy]. destruct (decide (i = "")) as [->|Hne]; [done|].
  rewrite (proj2 (String.eqb_neq _ _)) by done. cbn [negb guard_or].
  destruct (dumped_message_ok (from_agent m) i (joined ts)) as (d&->&Hid&Hr&Hc).
  assert (Hh : forall d', get "id" d' = JStr i -> get "role" d' = JStr (if from_agent m then "assistant" else "user") ->
    get "content" d' = JStr (joined ts) -> history_of [d'] context_id None =
      (if decide (joined ts = "") then [] else [mkMessage i context_id (if from_agent m then ROLE_AGENT else ROLE_USER) [joined ts]])).
  { intros d' Hid' Hr' Hc'. unfold history_of, last_of. rewrite filter_cons, filter_nil. unfold carries_text. rewrite Hc', Hr'. cbn [truthy].
    rewrite (bool_decide_eq_true_2 (_ ∈ _)) by (destruct (from_agent m); [right|]; left). cbn [andb].
    destruct (decide (joined ts = "")) as [->|Hj]; [done|]. rewrite (proj2 (String.eqb_neq _ _)) by done. cbn [negb].
    rewrite decide_True by done. cbn [map]. rewrite Hid', Hr', Hc'. unfold py_or. cbn [truthy].
    rewrite !(proj2 (String.eqb_neq _ _)) by done. cbn [negb py_str]. by destruct (from_agent m). }
  assert (Hset : forall k v, k <> "metadata" -> get k (aset "metadata" v d) = get k d).
  { intros k v Hk. unfold get. by rewrite aget_aset_ne. }
  destruct (get "metadata" m) as [| | | | |[|kv rest]] eqn:Hmeta; try (exists d; split_and!; [done|by apply Hh|done]).
  eexists. split_and!; [done|apply Hh; by rewrite Hset|]. intros kv' rest' E. unfold get. rewrite aget_aset_eq. by injection E as -> ->.
Qed.
End translate.

(** ** Witnesses *)
Module Witness.

#[export] Instance repr : PyRepr := { py_repr _ := "?" }.
#[export] Instance messages : MessageModel := {
  dumped_message assistant i c :=
    match i with
    | JStr _ => Some [("id", i); ("role", JStr (if assistant then "assistant" else "user")); ("content", JStr c)]
    | _ => None
    end }.
#[export] Instance messages_laws : MessageLaws.
Proof. split; [intros a i c; by eexists|]. intros a [| | |i| |] c dd; cbn; try done. by exists i. Qed.

Definition says (i t : string) : dict := [("type", JStr TEXT_MESSAGE_CONTENT); ("messageId", JStr i); ("delta", JStr t)].
Definition step_started : dict := [("type", JStr "STEP_STARTED"); ("stepName", JStr "plan")].
Definition finished : dict := [("type", JStr RUN_FINISHED)].
Definition so_far : list dict := [says "m1" "Hel"; step_started].
Definition to_come : list dict := [says "m1" "lo"; says "m2" "Bye"; step_started; finished].

Definition task_of (s : run_status) (events : list dict) : Task :=
  match build_task "t" "c" s events [] None false None None with
  | Ok t => t
  | Err _ => mkTask "" "" (mkStatus TASK_STATE_UNSPECIFIED None None) [] [] []
  end.

Lemma stream_completes_the_snapshot_witness :
  texts_of (task_of completed (so_far ++ to_come)) = [("m1", "Hello"); ("m2", "Bye")] /\
  exists updates opened, relay_events "t" "c" to_come (opened_by (task_of running so_far)) = Ok (updates, opened) /\
    foldl receive (texts_of (task_of running so_far)) updates = texts_of (task_of completed (so_far ++ to_come)) /\
    overflow_of (task_of running so_far) ++ flat_map overflow_in updates = overflow_of (task_of completed (so_far ++ to_come)).
Proof.
  split; [vm_compute; reflexivity|].
  apply (stream_completes_the_snapshot "t" "c" so_far to_come running [] None false None None _ completed [] None false None None);
    vm_compute; reflexivity.
Defined.


Definition hi : dict := [("messageId", JStr "m1"); ("role", JStr "ROLE_USER"); ("parts", JList [JObj [("text", JStr "hi")]])].

Lemma message_round_trip_witness : exists d, a2a_message_to_agui_messages hi = Ok [d] /\
  history_of [d] "c" None = [mkMessage "m1" "c" ROLE_USER ["hi"]].
Proof.
  destruct (message_round_trip hi "c" [JObj [("text", JStr "hi")]] [Some "hi"]) as (d&Hd&Hh&_); [reflexivity|reflexivity|].
  by exists d.
Defined.
End Witness.
End TranslateOk.
