(* ===== verification/A2a.v ===== *)
(** * The A2A door (funduq/protocols/a2a.py [A2AAdapter])

    A task is a lineage of runs, named by its first run's id.  Sending opens a
    run and reports its task; reading builds the task from the record;
    cancelling asks the task's last run to stop; listing pages through one
    context's tasks.

    What arrives was made by [MessageToDict] from a protobuf, so ids are
    strings; anything else in their place is read as absent.  An operation
    that waits is split where it waits: [send_task] and the two streams stop
    at the subscription, and what they answer is a function of the state
    they find when they go on. *)

From stdpp Require Import pretty.
From S2P Require Import Prelude Errors Json Pause Crypto Chain Identity Models Repo BrokerState BrokerOps Dispatch Handlers Kyok Doors Core A2aTranslate.

Module A2a.
Import Broker Repo Kyok Doors Translate.

Definition INTERJECTION_EXTENSION_URI : string := "https://github.com/hukaichun/funduq/ext/interjection/v1".
Definition ADDRESSED_RUN_METADATA_KEY : string := INTERJECTION_EXTENSION_URI +:+ "/addressedRunId".

(** ** Slices *)

(** An index of a slice, clamped. *)
Definition slice_index (i : Z) (n : nat) : nat :=
  if (i <? 0)%Z then Z.to_nat (Z.max 0 (i + Z.of_nat n)) else Nat.min (Z.to_nat i) n.

(** [l[a:b]]. *)
Definition slice {A} (a b : Z) (l : list A) : list A :=
  let i := slice_index a (length l) in
  let j := slice_index b (length l) in
  take (j - i) (drop i l).

(** [except _BAD_PARAMETER]. *)
Definition _in_a2as_words {A} (r : loop A) : loop A :=
  match r with
  | Some (Err ThreadNotFound) | Some (Err ThreadOwnershipMismatch) | Some (Err LlmProviderNotFound)
  | Some (Err (InvalidRunInput _)) => Some (Err InvalidParamsError)
  | _ => r
  end.

Definition _params (message : dict) (actor_chain : option (list string)) (metadata : option dict) : dict :=
  let combined := default [] metadata in
  let combined := match actor_chain with
                  | Some (t :: rest) => aset "actorChain" (JList (map JStr (t :: rest))) combined
                  | _ => combined
                  end in
  [("message", JObj message); ("contextId", get "contextId" message); ("taskId", get "taskId" message);
   ("metadata", JObj combined)].

(** A string that is there and not empty. *)
Definition nonempty (j : json) : option string := match j with JStr s => if String.eqb s "" then None else Some s | _ => None end.
Definition as_bag (j : json) : dict := match j with JObj d => d | _ => [] end.

Definition _lineage_parent (params : dict) (d : db) : option string :=
  match get "referenceTaskIds" (as_bag (get "message" params)) with
  | JList (JStr id :: _) => rr_thread_id <$> get_run id d
  | _ => None
  end.

Definition tm_le (a b : Task) : Prop := (default 0 (ts_timestamp (t_status b)) <= default 0 (ts_timestamp (t_status a)))%Z.
#[global] Instance tm_le_dec : RelDecision tm_le.
Proof. intros a b. unfold tm_le. apply _. Defined.

Section a2a.
Context `{HC : Crypto, HT : TokenCodec, HR : RunModel, HA : !Handlers.AGUI, HP : PyRepr, HM : MessageModel}.
Notation world := (Dispatch.world Handlers.store).
Notation db_of w := (Handlers.s_db (Dispatch.w_store w)).
Open Scope door_scope.

(** ** Reading a task *)

Definition _task (agent : AgentRef) (task_id : string) (history_length : option Z) (cancel_requested : bool) (d : db)
    : loop (option Task) :=
  match lineage task_id d with
  | None => None
  | Some line =>
      match head line, last line with
      | Some root, Some tail =>
          if bool_decide (rr_agent root = agent) then
            let events := flat_map (fun run => get_run_events (rr_run_id run) 0 d) line in
            messages <~ Core.task_messages task_id d ;;
            task <- build_task task_id (rr_thread_id tail) (rr_status tail) events messages history_length
                      (cancel_requested || rr_cancel_requested tail) (Some (get_run_events (rr_run_id tail) 0 d))
                      (Some (default (rr_created_at tail) (rr_last_activity_at tail))) ;;
            Some (Ok (Some task))
          else Some (Ok None)
      | _, _ => Some (Ok None)
      end
  end.

(** [get_task]. *)
Definition get_task (agent : AgentRef) (task_id : string) (history_length : option Z) (d : db) : loop (option Task) :=
  _task agent task_id history_length false d.

Definition _run_of (agent : AgentRef) (task_id : string) (d : db) : option RunRecord :=
  match nonempty (JStr task_id) with
  | Some id => run ← get_run id d; if bool_decide (rr_agent run = agent) then Some run else None
  | None => None
  end.

(** ** Sending *)

(** The run the message answers, and its task's first run. *)
Definition answered_by (agent : AgentRef) (params : dict) (d : db) : loop (option (RunRecord * RunRecord)) :=
  match nonempty (get "taskId" params) with
  | None => Some (Ok None)
  | Some task_id =>
      match get_run task_id d with
      | Some root =>
          if bool_decide (rr_agent root = agent) then
            if match nonempty (get "contextId" params) with Some c => bool_decide (c <> rr_thread_id root) | None => false end
            then Some (Err InvalidParamsError)
            else match lineage_tail task_id d with
                 | None => None
                 | Some None => Some (Err AttributeError)
                 | Some (Some tail) =>
                     waiting <~ waiting_on tail d ;;
                     match waiting with
                     | None => Some (Err UnsupportedOperationError)
                     | Some _ => Some (Ok (Some (root, tail)))
                     end
                 end
          else Some (Err TaskNotFoundError)
      | None => Some (Err TaskNotFoundError)
      end
  end.

(** [caller.props.get(ADDRESSED_RUN_METADATA_KEY)]: what is neither absent
    nor a string names no run, which [enter] finds out after the chain. *)
Definition addressed_by (cfg : settings) (agent : AgentRef) (caller : Caller) : py (option string) :=
  match get ADDRESSED_RUN_METADATA_KEY (ca_props caller) with
  | JNull => Ok None
  | JStr s => Ok (Some s)
  | j =>
      _ ← relayed_chain cfg (ca_actor_chain caller) agent;
      _ ← to_key j;
      Err (InvalidRunInput "interjection names no live run on this thread")
  end.

Definition _start_run (cfg : settings) (new_thread new_run : string) (agent : AgentRef) (params : dict)
    (presenter_key : option string) (w : world) : loop (string * string * bool * world) :=
  let s := Dispatch.w_store w in
  let d := Handlers.s_db s in
  match get_agent agent d with
  | None => Some (Err AgentNotFound)
  | Some _ =>
      caller <- read_caller (JObj (as_bag (get "metadata" params))) presenter_key d ;;
      let parent_thread_id := _lineage_parent params d in
      answered <~ answered_by agent params d ;;
      let context_id := match nonempty (get "contextId" params) with
                        | Some c => Some c
                        | None => (fun rt => rr_thread_id rt.1) <$> answered
                        end in
      thread <- ensure_thread (Handlers.s_now s) new_thread agent context_id parent_thread_id (JObj (ca_props caller)) false
                  (ca_head_key caller) d ;;
      let '(thread_id, d) := thread in
      said <- conversation_of (filter (fun r => rr_status r = completed) (runs_in_thread thread_id d)) d ;;
      new <- a2a_message_to_agui_messages (as_bag (get "message" params)) ;;
      addressed <- addressed_by cfg agent caller ;;
      let inbound := mkInbound agent (map snd said ++ new) (ca_head_key caller) (ca_actor_chain caller) (ca_kyok caller)
                       addressed JNull JNull JNull JNull None (ca_forwarded_props caller) in
      entered <~ enter cfg new_run inbound thread_id (snd <$> answered) d w ;;
      let '(entered, w) := entered in
      Some (Ok (en_run_id entered, match answered with Some (root, _) => rr_run_id root | None => en_run_id entered end,
                en_live entered, w))
  end.

(** What a send stands at: the task to read when it goes on, and whether the
    run's stream is to be drained first. *)
Record Sent : Type := mkSent { sn_run_id : string; sn_task_id : string; sn_drains : bool }.

Definition subscribed (run_id : string) (w : world) : py (bool * world) :=
  '(taken, b) ← BrokerOps.subscribe run_id (Dispatch.w_broker w);
  Ok (taken, Dispatch.mkWorld b (Dispatch.w_store w)).

(** [send_task] up to its wait. *)
Definition send_task (cfg : settings) (new_thread new_run : string) (agent : AgentRef) (message : dict)
    (actor_chain : option (list string)) (metadata : option dict) (presenter_key : option string)
    (return_immediately : bool) (w : world) : loop (Sent * world) :=
  started <~ _in_a2as_words (_start_run cfg new_thread new_run agent (_params message actor_chain metadata) presenter_key w) ;;
  let '(run_id, task_id, is_live, w) := started in
  if negb return_immediately && is_live && bool_decide (is_Some (BrokerOps.get run_id (Dispatch.w_broker w)))
  then Some ('(taken, w) ← subscribed run_id w; Ok (mkSent run_id task_id taken, w))
  else Some (Ok (mkSent run_id task_id false, w)).

(** [send_task_streaming] stops where [send_task] does, with its stream taken. *)
Definition send_task_streaming (cfg : settings) (new_thread new_run : string) (agent : AgentRef) (message : dict)
    (actor_chain : option (list string)) (metadata : option dict) (presenter_key : option string) (w : world) : loop (Sent * world) :=
  send_task cfg new_thread new_run agent message actor_chain metadata presenter_key false w.

(** Its answer, once the run settled or at once. *)
Definition sent_task (agent : AgentRef) (sent : Sent) (history_length : option Z) (d : db) : loop (option Task) :=
  _task agent (sn_task_id sent) history_length false d.

(** ** Streams *)

(** The events a drained stream turned into, and the closing update. *)
Definition stream_updates (opening : Task) (task_id : string) (drained : list dict) (stored : option RunRecord) : py (list Event) :=
  '(updates, _) ← relay_events task_id (t_context_id opening) drained (list_to_set (map (fun a => KStr (a_artifact_id a)) (t_artifacts opening)));
  Ok (updates ++ match stored with
                 | Some run => if bool_decide (rr_status run = completed) then []
                               else [status_update_for_run_status task_id (t_context_id opening) (rr_status run)]
                 | None => []
                 end).

(** The one update of a stream with nothing to drain. *)
Definition settled_update (opening : Task) (task_id : string) (s : run_status) : Event :=
  status_update_for_run_status task_id (t_context_id opening) s.

(** What [results()] yields after the opening snapshot: [drained] is what the
    stream gave, if there was one; [stored] the run as it is read then. *)
Definition results (opening : Task) (task_id : string) (drained : option (list dict)) (stored : option RunRecord) : py (list Event) :=
  match drained with
  | None => Ok [settled_update opening task_id (default completed (rr_status <$> stored))]
  | Some items => stream_updates opening task_id items stored
  end.

(** [resubscribe_task] up to its stream: the snapshot, the tail, whether it is drained. *)
Definition resubscribe_task (agent : AgentRef) (task_id : string) (w : world) : loop (Task * RunRecord * bool * world) :=
  opening <~ _task agent task_id None false (db_of w) ;;
  match opening with
  | None => Some (Err TaskNotFoundError)
  | Some opening =>
      if bool_decide (ts_state (t_status opening) ∈ TERMINAL_STATES) then Some (Err UnsupportedOperationError)
      else match lineage task_id (db_of w) with
           | None => None
           | Some line =>
               match last line with
               | None => Some (Err (ValueError "list index out of range"))
               | Some tail =>
                   match subscribed (rr_run_id tail) w with
                   | Ok (taken, w) => Some (Ok (opening, tail, taken, w))
                   | Err StreamTaken => Some (Err UnsupportedOperationError)
                   | Err e => Some (Err e)
                   end
               end
           end
  end.

(** ** Cancelling *)

Definition cancel_task (agent : AgentRef) (task_id : string) (metadata : dict) (w : world) : loop (option Task * world) :=
  let d := db_of w in
  match _run_of agent task_id d with
  | None => Some (Ok (None, w))
  | Some run =>
      _ <- authorize_cancel (Handlers.s_now (Dispatch.w_store w)) run metadata ;;
      match lineage task_id d with
      | None => None
      | Some line =>
          match last line with
          | None => Some (Err (ValueError "list index out of range"))
          | Some tail =>
              state <- task_state_of (rr_status tail) (get_run_events (rr_run_id tail) 0 d) (rr_cancel_requested tail) ;;
              if bool_decide (state ∈ TERMINAL_STATES) then Some (Err TaskNotCancelableError)
              else
                as_it_stood <~ _task agent task_id None true d ;;
                asked <~ (match Core.cancel_run (rr_run_id tail) metadata w with
                          | Some (Err RunNotCancellable) => Some (Err TaskNotCancelableError)
                          | r => r
                          end) ;;
                let '(asked, w) := asked in
                if asked then Some (Ok (as_it_stood, w))
                else now <~ _task agent task_id None false (db_of w) ;; Some (Ok (now, w))
          end
      end
  end.

(** ** Listing *)

Record ListTasksResponse : Type := mkPage {
  lt_tasks : list Task; lt_next_page_token : string; lt_page_size : nat; lt_total_size : nat }.

Definition clear_artifacts (t : Task) : Task :=
  mkTask (t_id t) (t_context_id t) (t_status t) (t_history t) [] (t_metadata t).

(** The filters of the loop: a status asked for, and the age of the status. *)
Definition wanted (status : option TaskState) (status_timestamp_after : option Z) (task : Task) : bool :=
  match status with
  | Some s => bool_decide (s = TASK_STATE_UNSPECIFIED) || bool_decide (ts_state (t_status task) = s)
  | None => true
  end &&
  match status_timestamp_after with
  | Some after => (after <? default 0 (ts_timestamp (t_status task)))%Z
  | None => true
  end.

Fixpoint tasks_of (agent : AgentRef) (roots : list RunRecord) (status : option TaskState) (history_length status_timestamp_after : option Z)
    (d : db) : loop (list Task) :=
  match roots with
  | [] => Some (Ok [])
  | root :: rest =>
      if bool_decide (rr_agent root = agent) then
        task <~ _task agent (rr_run_id root) history_length false d ;;
        tasks <~ tasks_of agent rest status history_length status_timestamp_after d ;;
        Some (Ok match task with
                 | Some t => if wanted status status_timestamp_after t then t :: tasks else tasks
                 | None => tasks
                 end)
      else tasks_of agent rest status history_length status_timestamp_after d
  end.

(** [page_size if page_size and page_size > 0 else 50]. *)
Definition size_of (page_size : option Z) : Z := match page_size with Some n => if (0 <? n)%Z then n else 50 | None => 50 end.

Definition offset_of (page_token : option string) : py Z :=
  match page_token with
  | None | Some "" => Ok 0%Z
  | Some t => match Identity.int_of_string t with Some n => Ok n | None => Err InvalidParamsError end
  end.

(** The page at a cursor of the sorted tasks. *)
Definition page_of (size : Z) (page_token : option string) (include_artifacts : bool) (tasks : list Task) : py ListTasksResponse :=
  offset ← offset_of page_token;
  let page := slice offset (offset + size) tasks in
  Ok (mkPage (if include_artifacts then page else map clear_artifacts page)
        (if (offset + size <? Z.of_nat (length tasks))%Z then pretty (offset + size)%Z else "")
        (length page) (length tasks)).

Definition list_tasks (agent : AgentRef) (context_id : option string) (status : option TaskState) (page_size : option Z)
    (page_token : option string) (history_length status_timestamp_after : option Z) (include_artifacts : bool) (d : db)
    : loop ListTasksResponse :=
  match context_id with
  | None | Some "" => Some (Ok (mkPage [] "" 0 0))
  | Some context_id =>
      tasks <~ tasks_of agent (root_runs_in_thread context_id d) status history_length status_timestamp_after d ;;
      Some (page_of (size_of page_size) page_token include_artifacts (merge_sort tm_le tasks))
  end.
End a2a.

(** ** Agent cards *)

(** a2a-sdk's [TransportProtocol], by name, and [ParseDict] into an
    [AgentSkill], whose ParseError is [None]. *)
Class A2aTypes : Type := {
  transport_protocol : string -> option string;
  PROTOCOL_VERSION : string;
  Skill : Type;
  parse_skill : json -> option Skill;
}.

Record ServedInterface : Type := mkServed { si_url : string; si_binding : string }.

(** [__post_init__]. *)
Definition served_interface `{A2aTypes} (url binding : string) : py ServedInterface :=
  guard_or (ValueError "unknown A2A binding") (bool_decide (is_Some (transport_protocol binding))) (Ok (mkServed url binding)).

Record AgentCard `{A2aTypes} : Type := mkCard {
  ac_name : string;
  ac_description : string;
  ac_version : string;
  ac_supported_interfaces : list (string * string * string);
  ac_extensions : list string;
  ac_skills : list Skill;
}.
#[global] Arguments mkCard {_} _ _ _ _ _ _.

Section card.
Context `{A2aTypes}.

Definition _skills (raw_skills : list json) : list Skill := omap parse_skill raw_skills.

Definition agent_interface (served : ServedInterface) : py (string * string * string) :=
  match transport_protocol (si_binding served) with
  | Some value => Ok (si_url served, value, PROTOCOL_VERSION)
  | None => Err KeyError
  end.

(** A string field of a protobuf constructor: [None] leaves it empty. *)
Definition pb_field (j : json) : py string := match j with JNull => Ok "" | _ => pb_string j end.

Definition agent_card (agent : AgentRef) (interfaces : list ServedInterface) (d : db) : py AgentCard :=
  match get_agent agent d with
  | None => Err AgentNotFound
  | Some record =>
      let card := ag_card record in
      served ← traverse agent_interface interfaces;
      extensions ← (uris ← py_iter (get_or "extensions" (JList []) card); traverse pb_field uris);
      skills ← py_iter (get_or "skills" (JList []) card);
      name ← pb_field (get_or "name" (JStr (ref_name agent)) card);
      description ← pb_field (get_or "description" (JStr "") card);
      version ← pb_field (get_or "version" (JStr "0.1.0") card);
      Ok (mkCard name description version served extensions (_skills skills))
  end.
End card.
End A2a.
