(* ===== verification/A2aOk.v ===== *)
(** * What the A2A door guarantees

    Paging through a context reaches each task once; a message that names a
    task answers it; a cancel's answer is the task as it stood. *)

From stdpp Require Import pretty.
From S2P Require Import Prelude Errors Json Pause Payloads Crypto Chain Identity Models Repo RepoFacts Lineage BrokerState BrokerOps Dispatch Handlers System Kyok Doors DoorsOk Core CoreOk A2aTranslate A2aTranslateOk A2a.

Module A2aOk.
Import Broker Repo RepoFacts Lineage Kyok Doors DoorsOk Core CoreOk Translate A2a.

(** ** A page token is read back *)

Lemma digit_char n : (n < 10)%N -> Ascii.nat_of_ascii (pretty_N_char n) = 48 + N.to_nat n.
Proof. intros H. destruct n as [|p]; [done|]. do 4 (destruct p as [p|p|]; try reflexivity; try (exfalso; lia)). Qed.

Lemma digits_cons acc n s : (n < 10)%N -> Identity.digits acc (String (pretty_N_char n) s) = Identity.digits (10 * acc + Z.of_N n) s.
Proof.
  intros H. cbn [Identity.digits]. rewrite digit_char by done.
  replace (Nat.leb 48 (48 + N.to_nat n) && Nat.leb (48 + N.to_nat n) 57) with true
    by (symmetry; apply andb_true_intro; rewrite !Nat.leb_le; lia).
  f_equal. lia.
Qed.

Lemma digits_go n s : Identity.digits 0 (pretty_N_go n s) = Identity.digits (Z.of_N n) s.
Proof.
  revert s. induction (N.lt_wf_0 n) as [n _ IH]. intros s. destruct (decide (n = 0)%N) as [->|Hn]; [by rewrite pretty_N_go_0|].
  rewrite pretty_N_go_step by lia. rewrite IH by (apply N.div_lt; lia). rewrite digits_cons by (by apply N.mod_lt). f_equal.
  pose proof (N.div_mod n 10 ltac:(done)). lia.
Qed.

Lemma starts_go n s : Identity.starts_digit s = true \/ n <> 0%N -> Identity.starts_digit (pretty_N_go n s) = true.
Proof.
  revert s. induction (N.lt_wf_0 n) as [n _ IH]. intros s. destruct (decide (n = 0)%N) as [->|Hn]; [rewrite pretty_N_go_0; naive_solver|].
  intros _. rewrite pretty_N_go_step by lia. apply IH; [apply N.div_lt; lia|]. left.
  pose proof (N.mod_lt n 10 ltac:(done)) as Hm. revert Hm. generalize (n `mod` 10)%N as m. intros m Hm. cbn [Identity.starts_digit].
  rewrite digit_char by done. apply andb_true_intro. rewrite !Nat.leb_le. lia.
Qed.

Lemma int_of_digits s : Identity.starts_digit s = true -> Identity.int_of_string s = Identity.digits 0 s.
Proof.
  intros Hs. destruct s as [|c s]; [done|]. pose proof Hs as Hc. cbn [Identity.starts_digit] in Hc. apply andb_prop in Hc as [H1%Nat.leb_le H2%Nat.leb_le].
  unfold Identity.int_of_string. cbn [Identity.lstrip]. unfold Identity.blank.
  rewrite (proj2 (Nat.eqb_neq (Ascii.nat_of_ascii c) 32)) by lia.
  rewrite (proj2 (Nat.leb_gt (Ascii.nat_of_ascii c) 13)) by lia. rewrite andb_false_r. cbn [orb].
  rewrite (proj2 (Nat.eqb_neq _ 45)), (proj2 (Nat.eqb_neq _ 43)) by lia. by rewrite Hs.
Qed.

Lemma int_of_pretty n : Identity.int_of_string (pretty (Z.of_nat n)) = Some (Z.of_nat n).
Proof.
  assert (HN : forall m : N, Identity.int_of_string (pretty m) = Some (Z.of_N m)).
  { intros m. unfold pretty, pretty_N. destruct (decide (m = 0)%N) as [->|Hm]; [done|].
    rewrite int_of_digits by (apply starts_go; by right). by rewrite digits_go. }
  destruct n as [|n]; [done|]. cbn [Z.of_nat]. unfold pretty, pretty_Z. apply (HN (N.pos _)).
Qed.

Lemma pretty_nonempty n : pretty (Z.of_nat n) <> "".
Proof. intros E. pose proof (int_of_pretty n) as H. by rewrite E in H. Qed.

(** ** Paging *)

Section a2a.
Context `{HC : Crypto, HT : TokenCodec, HR : RunModel, HA : !Handlers.AGUI, HP : PyRepr, HM : MessageModel}.
Notation world := (Dispatch.world Handlers.store).
Notation db_of w := (Handlers.s_db (Dispatch.w_store w)).

(** A client that asks for the next page until there is none. *)
Fixpoint follow (fuel : nat) (ask : option string -> loop ListTasksResponse) (token : option string) : loop (list Task) :=
  match fuel with
  | O => None
  | S fuel =>
      then_ (ask token) (fun page =>
        if String.eqb (lt_next_page_token page) "" then Some (Ok (lt_tasks page))
        else then_ (follow fuel ask (Some (lt_next_page_token page))) (fun rest => Some (Ok (lt_tasks page ++ rest))))
  end.

Lemma slice_from {A} o n (l : list A) : slice (Z.of_nat o) (Z.of_nat o + Z.of_nat n) l = take n (drop o l).
Proof.
  unfold slice, slice_index. rewrite !(proj2 (Z.ltb_ge _ _)) by lia.
  rewrite <- Nat2Z.inj_add, !Nat2Z.id. destruct (decide (o <= length l)) as [Ho|Ho].
  - rewrite (Nat.min_l o) by done. destruct (decide (o + n <= length l)) as [Hn|Hn].
    + rewrite Nat.min_l by done. f_equal. lia.
    + rewrite Nat.min_r by lia. rewrite !take_ge; [done|rewrite length_drop; lia..].
  - rewrite !drop_ge by lia. by rewrite !take_nil.
Qed.

Lemma page_at o n tasks token : 0 < n -> offset_of token = Ok (Z.of_nat o) ->
  page_of (Z.of_nat n) token true tasks =
    Ok (mkPage (take n (drop o tasks)) (if decide (o + n < length tasks) then pretty (Z.of_nat (o + n)) else "")
          (length (take n (drop o tasks))) (length tasks)).
Proof.
  intros Hn Ho. unfold page_of. rewrite Ho. cbn [mbind result_bind]. rewrite slice_from. f_equal. f_equal.
  rewrite <- Nat2Z.inj_add. destruct (decide (o + n < length tasks)); [by rewrite (proj2 (Z.ltb_lt _ _)) by lia|].
  by rewrite (proj2 (Z.ltb_ge _ _)) by lia.
Qed.

Lemma follow_pages fuel o n tasks token : 0 < n -> offset_of token = Ok (Z.of_nat o) -> length tasks < fuel + o ->
  follow fuel (fun token => Some (page_of (Z.of_nat n) token true tasks)) token = Some (Ok (drop o tasks)) \/ fuel = 0.
Proof.
  intros Hn. revert o token. induction fuel as [|fuel IH]; intros o token Ho Hf; [by right|left]. cbn [follow].
  rewrite (page_at o n) by done. cbn [then_ attempt lt_next_page_token lt_tasks].
  destruct (decide (o + n < length tasks)) as [Hl|Hl].
  - rewrite (proj2 (String.eqb_neq _ _)) by apply pretty_nonempty.
    destruct (IH (o + n) (Some (pretty (Z.of_nat (o + n))))) as [->| ->]; [|lia| |lia].
    + pose proof (pretty_nonempty (o + n)). cbn [offset_of]. destruct (pretty (Z.of_nat (o + n))) eqn:E; [done|].
      by rewrite <- E, int_of_pretty.
    + cbn [then_ attempt]. by rewrite <- drop_drop, take_drop.
  - cbn. by rewrite take_ge by (rewrite length_drop; lia).
Qed.

(** C30. Paging through a context reaches each of its tasks exactly once: a
    client that starts with no token and follows each page's next token until
    there is none gets, in as many pages as there are tasks at most, exactly
    the context's tasks of the agent that pass the filters, newest status
    first, whatever the page size asked for; the record not changing
    meanwhile. *)
Theorem pages_reach_every_task agent context_id status page_size history_length after d tasks :
  context_id <> "" ->
  tasks_of agent (root_runs_in_thread context_id d) status history_length after d = Some (Ok tasks) ->
  exists pages, follow (S (length tasks))
      (fun token => list_tasks agent (Some context_id) status page_size token history_length after true d) None = Some (Ok pages) /\
    pages ≡ₚ tasks /\ Sorted tm_le pages.
Proof.
  intros Hc Ht. exists (merge_sort tm_le tasks). split_and!; [|apply merge_sort_Permutation|].
  - assert (exists n, size_of page_size = Z.of_nat n /\ 0 < n) as (n&Hn&H0).
    { unfold size_of. destruct page_size as [z|]; [|by exists 50; split; [|lia]].
      destruct (0 <? z)%Z eqn:Hz; [exists (Z.to_nat z); lia|by exists 50; split; [|lia]]. }
    assert (E : forall token, list_tasks agent (Some context_id) status page_size token history_length after true d =
      Some (page_of (Z.of_nat n) token true (merge_sort tm_le tasks))).
    { intros token. unfold list_tasks. destruct context_id; [done|]. rewrite Ht. cbn [then_ attempt]. by rewrite Hn. }
    destruct (follow_pages (S (length tasks)) 0 n (merge_sort tm_le tasks) None) as [Hf|]; [done|done| | |done].
    + rewrite (Permutation_length (merge_sort_Permutation _ _)). lia.
    + rewrite drop_0 in Hf. rewrite <- Hf. clear -E. generalize (S (length tasks)) as fuel. generalize (@None string) as token. intros token fuel. revert token.
      induction fuel as [|fuel IH]; intros token; cbn [follow]; [done|]. rewrite E. destruct (page_of _ _ _ _) as [p|]; [|done].
      cbn [then_ attempt]. by rewrite IH.
  - apply Sorted_merge_sort. intros a b. unfold tm_le. lia.
Qed.
(** ** Cancelling *)

Lemma task_of_lineage agent id limit cancel d t : _task agent id limit cancel d = Some (Ok (Some t)) ->
  exists line tail, lineage id d = Some line /\ last line = Some tail /\ t_id t = id /\
    task_state_of (rr_status tail) (get_run_events (rr_run_id tail) 0 d) (cancel || rr_cancel_requested tail) = Ok (ts_state (t_status t)) /\
    (cancel = true -> TranslateOk.attached CANCEL_REQUESTED_METADATA_KEY (t_metadata t) = JBool true).
Proof.
  unfold _task. destruct (lineage id d) as [line|]; [|done]. destruct (head line) as [root|]; [|done].
  destruct (last line) as [tail|] eqn:Hl; [|done]. destruct (bool_decide (rr_agent root = agent)); [|done].
  destruct (Core.task_messages id d) as [[messages|]|]; cbn [then_ attempt]; try done. unfold build_task.
  destruct (fold_res merge_step _ _) as [[merged overflow]|]; cbn [mbind result_bind attempt]; [|done]. cbn [default from_option].
  destruct (task_state_of _ _ _) as [state|] eqn:Hs; cbn [mbind result_bind attempt]; [|done].
  destruct (traverse artifact_of merged); cbn [mbind result_bind attempt]; [|done]. intros [= <-]. exists line, tail. cbn [t_id t_status ts_state t_metadata].
  split_and!; [done..|]. intros ->. unfold _cancel_metadata. rewrite orb_true_r. by destruct overflow.
Qed.

Lemma lineage_from_head fuel d cur l : lineage_from fuel d cur = Some l -> head l = Some cur.
Proof.
  destruct fuel as [|fuel]; [done|]. cbn. destruct (newest_child _ d); [|by intros [= <-]].
  destruct (lineage_from fuel d _); [|done]. by intros [= <-].
Qed.

(** The last run of a lineage, as every reading of it sees it. *)
Lemma lineage_last d id line tail : lineage_ok d -> lineage id d = Some line -> last line = Some tail ->
  get_run (rr_run_id tail) d = Some tail /\ lineage_tail (rr_run_id tail) d = Some (Some tail).
Proof.
  intros (Hk&rank&Hr) Hl Ht. unfold lineage in Hl. destruct (get_run id d) as [r|] eqn:Hg; [|by injection Hl as <-].
  pose proof (get_stored d Hk _ _ Hg) as Hs. destruct (measures_bounded d rank (rank (rr_run_id r))) as [Hab _].
  destruct (lineage_from_total d rank Hk Hr (fuel_of d) r Hs) as (l&t&Hl'&_&Hlast&_&Hno); [unfold fuel_of; lia|].
  rewrite Hl in Hl'. injection Hl' as <-. rewrite Ht in Hlast. injection Hlast as <-.
  assert (stored d tail) as Hst.
  { clear -Hl Ht Hs Hk. revert r line Hl Ht Hs. generalize (fuel_of d) as fuel. induction fuel as [|fuel IH]; intros r line; [done|]. cbn.
    destruct (newest_child (rr_run_id r) d) as [c|] eqn:Hc; [|by intros [= <-] [= <-]].
    destruct (lineage_from fuel d c) as [l|] eqn:Hf; [|done]. intros [= <-] Ht Hs. apply (IH c l Hf).
    - apply lineage_from_head in Hf. destruct l; [done|by rewrite <- Ht].
    - by eapply newest_child_stored. }
  split; [exact Hst|]. unfold lineage_tail, get_run. rewrite Hst. unfold fuel_of. cbn [tail_from]. by rewrite Hno.
Qed.

Lemma lineage_head d id line r : lineage id d = Some line -> get_run id d = Some r -> head line = Some r.
Proof.
  unfold lineage. intros Hl Hg. rewrite Hg in Hl. by eapply lineage_from_head.
Qed.

Lemma task_not_missing agent id limit cancel d r : get_run id d = Some r -> rr_agent r = agent ->
  _task agent id limit cancel d <> Some (Ok None).
Proof.
  intros Hg Ha. unfold _task. destruct (lineage id d) as [line|] eqn:Hl; [|done]. rewrite (lineage_head _ _ _ _ Hl Hg).
  pose proof (lineage_head _ _ _ _ Hl Hg) as Hh. destruct (last line) eqn:Hlast; [|by apply last_None in Hlast as ->].
  rewrite bool_decide_eq_true_2 by done. destruct (Core.task_messages id d) as [[|]|]; cbn [then_ attempt]; try done.
  by destruct (build_task _ _ _ _ _ _ _ _ _).
Qed.

(** A cancel's answer never says more than was done.  When [cancel_task]
    answers with a task, its last run had neither ended nor been closed, the
    request is on that run's row and nothing else of the database changed;
    the answer is the task as it stood, marked with the pending request, in
    the state its run was in (so never [CANCELED] while a provider holds it),
    or [CANCELED] if it was waiting for input, the wait now closed; only when
    the broker no longer holds the run is it the task as recorded now. *)
Theorem cancel_answers_as_it_stood agent id meta w t w' :
  rtc minted empty_db (db_of w) -> cancel_task agent id meta w = Some (Ok (Some t, w')) ->
  exists line tail by_, lineage id (db_of w) = Some line /\ last line = Some tail /\
    rr_status tail ∉ [failed; cancelled] /\
    d_runs (db_of w') = <[rr_run_id tail := cancelled_by by_ tail]> (d_runs (db_of w)) /\ t_id t = id /\
    ((TranslateOk.attached CANCEL_REQUESTED_METADATA_KEY (t_metadata t) = JBool true /\
      ts_state (t_status t) =
        if bool_decide (rr_status tail = completed) then TASK_STATE_CANCELED else RUN_STATUS_TO_A2A_STATE (rr_status tail)) \/
     (rr_status tail <> completed /\ (BrokerOps.request_cancel (rr_run_id tail) (Dispatch.w_broker w)).1 = false /\
      _task agent id None false (db_of w') = Some (Ok (Some t)))).
Proof.
  intros Hm%minted_reachable_ok. unfold cancel_task. destruct (_run_of agent id (db_of w)) as [run|] eqn:Hrun; [|done].
  assert (get_run id (db_of w) = Some run /\ rr_agent run = agent) as [Hgr Har].
  { unfold _run_of in Hrun. cbn in Hrun. destruct (String.eqb id ""); [done|]. destruct (get_run id (db_of w)) as [x|]; cbn in Hrun; [|done].
    case_bool_decide; [|done]. by injection Hrun as <-. }
  destruct (authorize_cancel _ run meta) as [b|]; [|done]. cbn [attempt].
  destruct (lineage id (db_of w)) as [line|] eqn:Hl; [|done]. destruct (last line) as [tail|] eqn:Ht; [|done].
  destruct (lineage_last _ _ _ _ Hm Hl Ht) as [Hg Htail].
  destruct (task_state_of _ _ _) as [state|] eqn:Hstate; [|done]. cbn [attempt].
  destruct (bool_decide (state ∈ TERMINAL_STATES)) eqn:Hterm; [done|]. apply bool_decide_eq_false in Hterm.
  destruct (_task agent id None true (db_of w)) as [[[stood|]|]|] eqn:Hstood; cbn [then_ attempt]; try done.
  2:{ by destruct (task_not_missing agent id None true (db_of w) run Hgr Har). }
  apply task_of_lineage in Hstood as (line'&tail'&Hl'&Ht'&Hid&Hst&Hmark). rewrite Hl in Hl'. injection Hl' as <-. rewrite Ht in Ht'. injection Ht' as <-.
  unfold Core.cancel_run. rewrite Hg. destruct (authorize_cancel _ tail meta) as [by_|e]; [|by destruct e]. cbn [attempt].
  intros Hc. exists line, tail, by_. split; [done|]. split; [done|].
  assert (Hrow : d_runs (db_of (record_cancel (rr_run_id tail) by_ w)) = <[rr_run_id tail := cancelled_by by_ tail]> (d_runs (db_of w)))
    by by apply record_cancel_row.
  destruct (bool_decide (rr_status tail ∈ [failed; cancelled])) eqn:Hended.
  { exfalso. apply bool_decide_eq_true in Hended. apply Hterm. unfold task_state_of in Hstate.
    apply elem_of_cons in Hended as [E|E%list_elem_of_singleton]; rewrite E in Hstate; cbn in Hstate; injection Hstate as <-;
      unfold TERMINAL_STATES; set_solver. }
  apply bool_decide_eq_false in Hended. split; [done|].
  unfold task_state_of in Hst, Hstate. destruct (bool_decide (rr_status tail = completed)) eqn:Hcomp.
  - apply bool_decide_eq_true in Hcomp. cbn [mbind result_bind] in *.
    destruct (Pause.open_asks _) as [asks|] eqn:Hasks; [|done]. cbn [mbind result_bind] in *.
    destruct (bool_decide (asks = ∅)) eqn:Hempty; [exfalso; injection Hstate as <-; rewrite Hcomp in Hterm; apply Hterm; unfold TERMINAL_STATES; set_solver|].
    destruct (rr_cancel_requested tail) eqn:Hreq; [exfalso; injection Hstate as <-; apply Hterm; unfold TERMINAL_STATES; set_solver|].
    unfold waiting_on in Hc. rewrite Hcomp, Hreq, Htail in Hc. cbn in Hc. rewrite !bool_decide_eq_false_2 in Hc by naive_solver.
    rewrite Hasks in Hc. cbn in Hc. rewrite Hempty in Hc. cbn in Hc. injection Hc as <- <-.
    split; [exact Hrow|]. split; [done|]. left. split; [by apply Hmark|]. cbn in Hst. by injection Hst as <-.
  - cbn [then_ attempt] in Hc. injection Hst as Hst.
    destruct (BrokerOps.request_cancel (rr_run_id tail) (Dispatch.w_broker (record_cancel (rr_run_id tail) by_ w))) as [asked b1] eqn:Hq.
    cbn [then_ attempt] in Hc. destruct asked.
    + injection Hc as <- <-. split; [exact Hrow|]. split; [done|]. left. split; [by apply Hmark|done].
    + destruct (_task agent id None false _) as [[now|]|] eqn:Hnow; cbn [then_ attempt] in Hc; try done. injection Hc as -> <-.
      split; [exact Hrow|]. pose proof (task_of_lineage _ _ _ _ _ _ Hnow) as (_&_&_&_&Hid'&_). split; [done|]. right.
      split; [by apply bool_decide_eq_false in Hcomp|]. split; [|exact Hnow]. change (Dispatch.w_broker (record_cancel (rr_run_id tail) by_ w)) with (Dispatch.w_broker w) in Hq. by rewrite Hq.
Qed.
(** ** Answering *)

Context `{HL : !RunModelLaws}.

Lemma ensure_thread_runs now new_id agent t parent meta create head d t' d' :
  ensure_thread now new_id agent t parent meta create head d = Ok (t', d') -> d_runs d' = d_runs d.
Proof. unfold ensure_thread, create_thread, guard_or. intros He. repeat case_match; simplify_eq; done. Qed.

(** The row a message writes, and every other row as it was. *)
Lemma message_row cfg new_thread new_run agent params presenter w run_id task_id live w' :
  _start_run cfg new_thread new_run agent params presenter w = Some (Ok (run_id, task_id, live, w')) ->
  keyed (db_of w) -> b_run_threads (Dispatch.w_broker w) !! new_run = None ->
  (forall id r, d_runs (db_of w) !! id = Some r -> d_runs (db_of w') !! id = Some r) /\
  run_id = new_run /\ exists row, d_runs (db_of w') !! new_run = Some row /\ rr_agent row = agent /\
  match nonempty (get "taskId" params) with
  | None => task_id = new_run /\ rr_parent_run_id row = None
  | Some t => task_id = t /\ exists root tail events,
      get_run t (db_of w) = Some root /\ rr_agent root = agent /\
      lineage_tail t (db_of w) = Some (Some tail) /\ waiting_on tail (db_of w) = Some (Ok (Some events)) /\
      rr_parent_run_id row = Some (rr_run_id tail) /\ rr_thread_id row = rr_thread_id root
  end.
Proof.
  intros Hst Hk Hth. unfold _start_run in Hst. set (d := db_of w) in *.
  change (Handlers.s_db (Dispatch.w_store w)) with d in Hst.
  destruct (get_agent agent d); [|done]. destruct (read_caller _ presenter d) as [caller|]; [|done]. cbn [attempt] in Hst.
  destruct (answered_by agent params d) as [[answered|]|] eqn:Hans; cbn [then_ attempt] in Hst; try done.
  destruct (ensure_thread _ _ _ _ _ _ _ _ _) as [[thread_id d1]|] eqn:Het; cbn [attempt] in Hst; [|done].
  destruct (conversation_of _ d1) as [said|]; cbn [attempt] in Hst; [|done].
  destruct (a2a_message_to_agui_messages _) as [new|]; cbn [attempt] in Hst; [|done].
  destruct (addressed_by cfg agent caller) as [addressed|]; cbn [attempt] in Hst; [|done].
  destruct (enter _ _ _ _ _ _ _) as [[[entered w1]|]|] eqn:Hen; cbn [then_ attempt] in Hst; try done. injection Hst as <- <- _ <-.
  apply entered_row in Hen as (Hid&Hold&row&Hrow&Ht&Ha&Hp&_); [|done]. cbn [ib_agent ib_parent_run_id] in Ha, Hp.
  split; [intros id r Hr; apply Hold; by rewrite (ensure_thread_runs _ _ _ _ _ _ _ _ _ _ _ Het)|].
  split; [done|]. exists row. split; [done|]. split; [done|]. unfold answered_by in Hans.
  destruct (nonempty (get "taskId" params)) as [t|]; [|by injection Hans as <-].
  destruct (get_run t d) as [root|] eqn:Hg; [|done]. case_bool_decide as Hagent; [|done].
  destruct (match nonempty (get "contextId" params) with Some c => _ | None => false end) eqn:Hctx; [done|].
  destruct (lineage_tail t d) as [[tail|]|] eqn:Htail; [|done..].
  destruct (waiting_on tail d) as [[[events|]|]|] eqn:Hw; cbn [then_ attempt] in Hans; try done. injection Hans as <-.
  cbn [fmap option_fmap option_map fst snd] in *. split; [by apply Hk|]. exists root, tail, events. split_and!; [done..|].
  rewrite Ht. clear -Het Hctx. assert (match nonempty (get "contextId" params) with Some c => Some c | None => Some (rr_thread_id root) end = Some (rr_thread_id root)) as E.
  { destruct (nonempty (get "contextId" params)); [|done]. apply bool_decide_eq_false in Hctx. f_equal. by apply dec_stable. }
  rewrite E in Het. unfold ensure_thread in Het. destruct (get_thread (rr_thread_id root) d); [|done].
  repeat case_match; try done; by injection Het as <- _.
Qed.

(** A message that names a task is that task's answer and nothing else: it
    is accepted only when the task is this agent's and its last run waits for
    input, the run it opens names that run as its parent on the task's own
    thread, and the task keeps its id.  A message that names none opens a run
    with no parent, which is a task of its own. *)
Theorem message_answers_its_task cfg new_thread new_run agent params presenter w run_id task_id live w' :
  _start_run cfg new_thread new_run agent params presenter w = Some (Ok (run_id, task_id, live, w')) ->
  keyed (db_of w) -> b_run_threads (Dispatch.w_broker w) !! new_run = None ->
  run_id = new_run /\ exists row, d_runs (db_of w') !! new_run = Some row /\ rr_agent row = agent /\
  match nonempty (get "taskId" params) with
  | None => task_id = new_run /\ rr_parent_run_id row = None
  | Some t => task_id = t /\ exists root tail events,
      get_run t (db_of w) = Some root /\ rr_agent root = agent /\
      lineage_tail t (db_of w) = Some (Some tail) /\ waiting_on tail (db_of w) = Some (Ok (Some events)) /\
      rr_parent_run_id row = Some (rr_run_id tail) /\ rr_thread_id row = rr_thread_id root
  end.
Proof. intros Hs Hk Hf. exact (proj2 (message_row _ _ _ _ _ _ _ _ _ _ _ Hs Hk Hf)). Qed.
Lemma proof_agrees cancel s1 s2 sig1 sig2 ts1 ts2 : Identity.proof_fields cancel s1 sig1 -> Identity.proof_fields cancel s2 sig2 ->
  Identity.proof_time cancel ts1 -> Identity.proof_time cancel ts2 -> s1 = s2 /\ sig1 = sig2 /\ ts1 = ts2.
Proof.
  unfold Identity.proof_fields, Identity.proof_time. intros F1 F2 T1 T2. naive_solver congruence.
Qed.

(** A cancel of a task that was answered, both its runs bound: the one proof
    must verify over the first run's id and over the last run's. *)
Theorem answered_cancel_needs_two_signatures agent id meta w t w' root line tail h1 h2 :
  cancel_task agent id meta w = Some (Ok (Some t, w')) ->
  get_run id (db_of w) = Some root -> lineage id (db_of w) = Some line -> last line = Some tail ->
  keyed (db_of w) -> get_run (rr_run_id tail) (db_of w) = Some tail ->
  head_key_of root = Ok (Some h1) -> head_key_of tail = Ok (Some h2) ->
  exists signer sig ts, sig_verifies signer sig (Payloads.cancel_payload id ts) = true /\
    sig_verifies signer sig (Payloads.cancel_payload (rr_run_id tail) ts) = true.
Proof.
  intros Hc Hg Hl Ht Hk Hgt H1 H2. unfold cancel_task, _run_of in Hc. cbn [nonempty] in Hc. destruct (String.eqb id ""); [done|].
  rewrite Hg in Hc. cbn in Hc. destruct (bool_decide (rr_agent root = agent)); [|done].
  destruct (authorize_cancel _ root meta) as [s1|] eqn:Ha1; [|done]. cbn [attempt] in Hc. rewrite Hl, Ht in Hc.
  destruct (task_state_of _ _ _); [|done]. cbn [attempt] in Hc. destruct (bool_decide (_ ∈ TERMINAL_STATES)); [done|].
  destruct (_task agent id None true _) as [[stood|]|]; cbn [then_ attempt] in Hc; try done.
  unfold Core.cancel_run in Hc. rewrite Hgt in Hc.
  destruct (authorize_cancel _ tail meta) as [s2|e] eqn:Ha2; [|by destruct e].
  unfold authorize_cancel in Ha1, Ha2. rewrite H1 in Ha1. rewrite H2 in Ha2.
  destruct (Identity.verify_cancel _ _ (rr_run_id root) _) as [x1|] eqn:V1; [|done].
  destruct (Identity.verify_cancel _ _ (rr_run_id tail) _) as [x2|] eqn:V2; [|done].
  apply Identity.verify_cancel_sound in V1 as (sig1&ts1&F1&T1&_&_&W1). apply Identity.verify_cancel_sound in V2 as (sig2&ts2&F2&T2&_&_&W2).
  destruct (proof_agrees _ _ _ _ _ _ _ F1 F2 T1 T2) as (<-&<-&<-). rewrite (Hk _ _ Hg) in W1. by exists x1, sig1, ts1.
Qed.
End a2a.

(** ** Witnesses *)
(** ** Cards *)

Section card.
Context `{HA : A2aTypes}.

Lemma existsb_json x l : existsb (json_eqb x) l = true -> x ∈ l.
Proof. intros (y&Hy%list_elem_of_In&E%json_eqb_eq)%existsb_exists. by subst. Qed.

(** An agent with an interjection hook says so: whatever card its
    registration published, when it takes interjections its A2A card, if it
    has one, lists the interjection extension. *)
Theorem card_declares_interjections now key r d d' interfaces card :
  register_agent now key r d = Ok d' -> reg_takes_interjections r = true ->
  agent_card (mkRef key (reg_name r)) interfaces d' = Ok card -> Repo.INTERJECTION_EXTENSION_URI ∈ ac_extensions card.
Proof.
  intros (c&Hc&Hd)%bind_ok Ht Hcard. unfold Repo.agent_card in Hc. rewrite Ht in Hc.
  apply bind_ok in Hc as (declared&_&[= <-]). set (all := if existsb _ declared then declared else _) in *.
  assert (Hin : JStr Repo.INTERJECTION_EXTENSION_URI ∈ all).
  { unfold all. destruct (existsb _ declared) eqn:E; [by apply existsb_json|set_solver]. }
  injection Hd as <-. unfold agent_card, get_agent in Hcard. cbn [d_agents set_d_agents] in Hcard. rewrite lookup_insert_eq in Hcard.
  match type of Hcard with context [ag_card ?row] => set (stored := row) in * end.
  assert (Hx : get_or "extensions" (JList []) (ag_card stored) = JList all).
  { unfold stored, get_or. destruct (d_agents d !! _); cbn [ag_card]; by rewrite aget_aset_eq. }
  rewrite Hx in Hcard. apply bind_ok in Hcard as (served&_&Hcard). cbn [py_iter mbind result_bind] in Hcard.
  apply bind_ok in Hcard as (exts&He%traverse_ok&Hcard).
  apply bind_ok in Hcard as (skills&_&Hcard). apply bind_ok in Hcard as (n&_&Hcard). apply bind_ok in Hcard as (de&_&Hcard).
  apply bind_ok in Hcard as (v&_&[= <-]). cbn [ac_extensions].
  apply list_elem_of_lookup in Hin as [i Hi]. destruct (Forall2_lookup_l _ _ _ _ _ He Hi) as (y&Hy&E).
  cbn in E. injection E as <-. by eapply list_elem_of_lookup_2.
Qed.

End card.

Module Witness.
Import RepoFacts.Witness Lineage.Witness DoorsOk.Witness TranslateOk.Witness.
#[local] Existing Instance Toy.crypto.
#[local] Existing Instance Toy.laws.
#[local] Existing Instance Kyok.Witness.codec.
#[local] Existing Instance DoorsOk.Witness.agui.

Definition tasks_in (d : db) : list Task :=
  match tasks_of agent (root_runs_in_thread "t" d) None None None d with Some (Ok l) => l | _ => [] end.

Lemma pages_reach_every_task_witness : exists pages, follow (S (length (tasks_in e1)))
    (fun token => list_tasks agent (Some "t") None (Some 1%Z) token None None true e1) None = Some (Ok pages) /\ length pages = 1.
Proof.
  destruct (pages_reach_every_task agent "t" None (Some 1%Z) None None e1 (tasks_in e1)) as (pages&Hf&Hp&_); [done|vm_compute; reflexivity|].
  exists pages. split; [exact Hf|]. rewrite (Permutation_length Hp). vm_compute. reflexivity.
Defined.

(** [r1] is queued, and the broker holds it. *)
Definition holding : Dispatch.world Handlers.store :=
  match BrokerOps.enqueue_run "r1" agent "t" [] 0 None served with Ok b => world_of b e1 | Err _ => world_of served e1 end.
Definition cancelled : Dispatch.world Handlers.store :=
  match cancel_task agent "r1" [] holding with Some (Ok (_, w)) => w | _ => holding end.
Definition as_it_stood : Task :=
  match cancel_task agent "r1" [] holding with Some (Ok (Some t, _)) => t | _ => task_of queued [] end.

Lemma e1_minted : rtc minted empty_db e1.
Proof.
  eapply rtc_l; [split; [by apply (step_other _ base)|]|].
  { intros id _ Hs k r. unfold base. cbn. by rewrite lookup_empty. }
  apply rtc_once, (minted_create 1 "r1" [] base e1); [vm_compute; reflexivity|done|vm_compute; reflexivity].
Qed.

Lemma cancel_answers_as_it_stood_witness : t_id as_it_stood = "r1" /\ ts_state (t_status as_it_stood) = TASK_STATE_SUBMITTED.
Proof.
  destruct (cancel_answers_as_it_stood agent "r1" [] holding as_it_stood cancelled) as (line&tail&by_&_&_&_&_&Hid&_);
    [exact e1_minted|vm_compute; reflexivity|].
  split; [exact Hid|vm_compute; reflexivity].
Defined.

(** [r1] finished asking, on a thread nobody bound. *)
Definition interrupted : dict :=
  [("type", JStr RUN_FINISHED); ("outcome", JObj [("type", JStr "interrupt"); ("interrupts", JList [JObj [("id", JStr "i1")]])])].
Definition pausing : db :=
  set_d_run_events [mkEventRow "r1" 1 interrupted]
    (set_d_threads {["t" := mkThreadRow "t" "K" "a" None None JNull 0 0]} asked).
Definition answer_params : dict :=
  _params [("messageId", JStr "m2"); ("role", JStr "ROLE_USER"); ("parts", JList [JObj [("text", JStr "yes")]]); ("taskId", JStr "r1")] None None.
Definition answered : Dispatch.world Handlers.store :=
  match _start_run cfg "t2" "r2" agent answer_params None (world_of served pausing) with Some (Ok (_, w)) => w | _ => world_of served pausing end.

Lemma pausing_keyed : keyed pausing.
Proof.
  assert (forallb (fun kv => String.eqb (rr_run_id kv.2) kv.1) (map_to_list (d_runs pausing)) = true) as Hall by (vm_compute; reflexivity).
  intros id r Hr%elem_of_map_to_list. rewrite forallb_forall in Hall. apply list_elem_of_In, Hall in Hr. by apply String.eqb_eq.
Qed.

Lemma message_answers_its_task_witness : exists row, d_runs (Handlers.s_db (Dispatch.w_store answered)) !! "r2" = Some row /\
  exists tail, rr_parent_run_id row = Some (rr_run_id tail) /\ lineage_tail "r1" pausing = Some (Some tail).
Proof.
  destruct (message_answers_its_task (HL := model_laws) cfg "t2" "r2" agent answer_params None (world_of served pausing) "r2" "r1" true answered)
    as (_&row&Hrow&_&_&root&tail&ev&_&_&Ht&_&Hp&_); [vm_compute; reflexivity|exact pausing_keyed|reflexivity|].
  exists row. split; [exact Hrow|]. exists tail. split; [exact Hp|exact Ht].
Defined.

(** ** A stream taken late says everything twice

    [r1] has said "Hel" and nobody has drained its stream yet, as after a
    send that returned at once; then it says "lo" and finishes.  Whoever
    resubscribes in between is given the first delta in the snapshot and
    again from the stream. *)
Definition saying : db :=
  set_d_run_events [mkEventRow "r1" 1 (says "m1" "Hel")] (set_d_runs (alter (set_rr_status running) "r1" (d_runs e1)) e1).
Definition undrained : Dispatch.world Handlers.store :=
  let w := holding in
  Dispatch.mkWorld (BrokerOps.upd_run "r1" (fun r => set_r_out_queue [Item (JObj (says "m1" "Hel"))] r) (Dispatch.w_broker w))
    (Handlers.set_s_db saying (Dispatch.w_store w)).

Theorem late_stream_repeats :
  match resubscribe_task agent "r1" undrained with
  | Some (Ok (opening, _, taken, _)) =>
      taken = true /\ TranslateOk.texts_of opening = [("m1", "Hel")] /\
      match stream_updates opening "r1" [says "m1" "Hel"; says "m1" "lo"; finished] None with
      | Ok updates => foldl TranslateOk.receive (TranslateOk.texts_of opening) updates = [("m1", "HelHello")]
      | Err _ => False
      end
  | _ => False
  end.
Proof. vm_compute. by split_and!. Qed.
(** *** Cards *)
#[local] Instance a2a_types : A2aTypes := {|
  transport_protocol n := if String.eqb n "JSONRPC" then Some "JSONRPC" else None;
  PROTOCOL_VERSION := "1.0";
  Skill := json;
  parse_skill j := match j with JObj _ => Some j | _ => None end;
|}.

Definition published (extra : dict) (hooked : bool) : Registration := mkRegistration "a" "an agent" extra JNull hooked.
Definition registered (r : Registration) : db := match register_agent 3 "K" r empty_db with Ok d => d | Err _ => empty_db end.
Definition card_of (r : Registration) : py AgentCard := A2a.agent_card (mkRef "K" "a") [mkServed "https://hub" "JSONRPC"] (registered r).
Definition hooked_card : AgentCard := match card_of (published [] true) with Ok c => c | Err _ => mkCard "" "" "" [] [] [] end.

Lemma card_declares_interjections_witness : Repo.INTERJECTION_EXTENSION_URI ∈ ac_extensions hooked_card.
Proof.
  apply (card_declares_interjections 3 "K" (published [] true) empty_db (registered (published [] true)) [mkServed "https://hub" "JSONRPC"]);
    [vm_compute; reflexivity|reflexivity|vm_compute; reflexivity].
Defined.

(** The extension on the card of an agent that has no such hook; and a
    registration funduq accepts whose card can never be read. *)
Definition claiming : Registration :=
  published [("extensions", JList [JStr Repo.INTERJECTION_EXTENSION_URI])] false.
Definition unreadable : Registration := published [("version", JNum 2)] false.

Theorem card_can_claim_the_extension :
  (c ← card_of claiming; Ok (ac_extensions c)) = Ok [Repo.INTERJECTION_EXTENSION_URI] /\
  is_ok (register_agent 3 "K" unreadable empty_db) = true /\ card_of unreadable = Err TypeError.
Proof. vm_compute. split_and!; reflexivity. Qed.

End Witness.
End A2aOk.
