(* ===== verification/A2aHandler.v ===== *)
(** * The A2A door as a2a.server's RequestHandler
    (funduq/protocols/a2a.py [A2ARequestHandler])

    One handler is bound to one agent.  A request is a protobuf message: a
    field with presence ([HasField]) is an option, a field without is its
    value, and [MessageToDict] gives its [message] and [metadata] as dicts.
    What a2a-sdk's [validate_request_params] accepts is the interface
    [RequestRules]; the presenter's key is what the transport's hook says of
    a call's context. *)

From S2P Require Import Prelude Errors Json Crypto Models Repo BrokerState BrokerOps Dispatch Handlers Kyok Doors Core A2aTranslate A2a.

Module A2aHandler.
Import Broker Repo Kyok Doors Translate A2a.

(** ** Requests *)

Record SendMessageRequest : Type := mkSend {
  sm_message : option dict;            (* MessageToDict(params).get("message") *)
  sm_metadata : option dict;           (* MessageToDict(params).get("metadata") *)
  sm_return_immediately : bool;        (* params.configuration *)
  sm_history_length : option Z;
}.

Record GetTaskRequest : Type := mkGet { gt_id : string; gt_history_length : option Z }.
Record CancelTaskRequest : Type := mkCancelTask { ct_id : string; ct_metadata : option dict }.
Record SubscribeToTaskRequest : Type := mkSubscribe { sb_id : string }.

Record ListTasksRequest : Type := mkList {
  lr_context_id : string;
  lr_status : TaskState;
  lr_page_size : option Z;
  lr_page_token : string;
  lr_history_length : option Z;
  lr_status_timestamp_after : option Z;
  lr_include_artifacts : option bool;
}.

(** The operations of the protocol; those of push notifications and the
    extended card carry nothing the handler looks at. *)
Inductive Request : Type :=
| MessageSend (params : SendMessageRequest)
| MessageSendStream (params : SendMessageRequest)
| GetTask (params : GetTaskRequest)
| CancelTask (params : CancelTaskRequest)
| SubscribeToTask (params : SubscribeToTaskRequest)
| CreatePushConfig | GetPushConfig | ListPushConfigs | DeletePushConfig
| ListTasks (params : ListTasksRequest)
| GetExtendedAgentCard.

Class RequestRules : Type := { request_valid : Request -> bool }.

(** What a call has answered, or stands at. *)
Inductive Reply : Type :=
| Sending (sent : Sent)                                        (* a send, at its wait *)
| Streaming (opening : Task) (tail : RunRecord) (drains : bool) (* a subscription, at its stream *)
| TaskReply (task : option Task)
| PageReply (page : ListTasksResponse).

Section handler.
Context `{HC : Crypto, HT : TokenCodec, HR : RunModel, HA : !Handlers.AGUI, HP : PyRepr, HM : MessageModel, HQ : RequestRules}.
Notation world := (Dispatch.world Handlers.store).
Notation db_of w := (Handlers.s_db (Dispatch.w_store w)).
Open Scope door_scope.

(** [ServerCallContext] is the transport's. *)
Variable ServerCallContext : Type.

Record handler : Type := mkHandler {
  h_agent : AgentRef;
  h_presenter_key_of : option (ServerCallContext -> option string);
}.

Definition _presenter_key (h : handler) (context : ServerCallContext) : option string :=
  match h_presenter_key_of h with Some f => f context | None => None end.

(** [@validate_request_params]. *)
Definition validated {A} (r : Request) (k : loop A) : loop A :=
  if request_valid r then k else Some (Err InvalidParamsError).

(** [x or None] of a string. *)
Definition or_none (s : string) : option string := if String.eqb s "" then None else Some s.

(** ** The operations *)

Variable cfg : settings.

Definition on_message_send (h : handler) (ids : string * string) (params : SendMessageRequest) (context : ServerCallContext) (w : world)
    : loop (Sent * world) :=
  validated (MessageSend params)
    (send_task cfg ids.1 ids.2 (h_agent h) (default [] (sm_message params)) None (sm_metadata params) (_presenter_key h context)
       (sm_return_immediately params) w).

(** What it answers when it goes on. *)
Definition message_sent (h : handler) (params : SendMessageRequest) (sent : Sent) (d : db) : loop (option Task) :=
  sent_task (h_agent h) sent (sm_history_length params) d.

Definition on_message_send_stream (h : handler) (ids : string * string) (params : SendMessageRequest) (context : ServerCallContext)
    (w : world) : loop (Sent * world) :=
  validated (MessageSendStream params)
    (send_task_streaming cfg ids.1 ids.2 (h_agent h) (default [] (sm_message params)) None (sm_metadata params)
       (_presenter_key h context) w).

Definition on_get_task (h : handler) (params : GetTaskRequest) (w : world) : loop (option Task) :=
  validated (GetTask params) (get_task (h_agent h) (gt_id params) (gt_history_length params) (db_of w)).

Definition on_cancel_task (h : handler) (params : CancelTaskRequest) (w : world) : loop (option Task * world) :=
  validated (CancelTask params) (cancel_task (h_agent h) (ct_id params) (default [] (ct_metadata params)) w).

Definition on_subscribe_to_task (h : handler) (params : SubscribeToTaskRequest) (w : world) : loop (Task * RunRecord * bool * world) :=
  validated (SubscribeToTask params) (resubscribe_task (h_agent h) (sb_id params) w).

Definition on_create_task_push_notification_config {A} : loop A := Some (Err PushNotificationNotSupportedError).
Definition on_get_task_push_notification_config {A} : loop A := Some (Err PushNotificationNotSupportedError).
Definition on_list_task_push_notification_configs {A} : loop A := Some (Err PushNotificationNotSupportedError).
Definition on_delete_task_push_notification_config {A} : loop A := Some (Err PushNotificationNotSupportedError).

(** [status or None]: the unspecified state is 0. *)
Definition on_list_tasks (h : handler) (params : ListTasksRequest) (w : world) : loop ListTasksResponse :=
  list_tasks (h_agent h) (or_none (lr_context_id params))
    (if bool_decide (lr_status params = TASK_STATE_UNSPECIFIED) then None else Some (lr_status params))
    (lr_page_size params) (or_none (lr_page_token params)) (lr_history_length params) (lr_status_timestamp_after params)
    (default false (lr_include_artifacts params)) (db_of w).

Definition on_get_extended_agent_card {A} : loop A := Some (Err UnsupportedOperationError).

(** A call of any operation; [ids] are the ids a send mints. *)
Definition handle (h : handler) (ids : string * string) (context : ServerCallContext) (r : Request) (w : world) : loop (Reply * world) :=
  match r with
  | MessageSend params => x <~ on_message_send h ids params context w ;; Some (Ok (Sending x.1, x.2))
  | MessageSendStream params => x <~ on_message_send_stream h ids params context w ;; Some (Ok (Sending x.1, x.2))
  | GetTask params => t <~ on_get_task h params w ;; Some (Ok (TaskReply t, w))
  | CancelTask params => x <~ on_cancel_task h params w ;; Some (Ok (TaskReply x.1, x.2))
  | SubscribeToTask params =>
      x <~ on_subscribe_to_task h params w ;;
      let '(opening, tail, drains, w) := x in Some (Ok (Streaming opening tail drains, w))
  | CreatePushConfig => on_create_task_push_notification_config
  | GetPushConfig => on_get_task_push_notification_config
  | ListPushConfigs => on_list_task_push_notification_configs
  | DeletePushConfig => on_delete_task_push_notification_config
  | ListTasks params => p <~ on_list_tasks h params w ;; Some (Ok (PageReply p, w))
  | GetExtendedAgentCard => on_get_extended_agent_card
  end.
End handler.
End A2aHandler.
