(* ===== verification/A2aHandlerOk.v ===== *)
(** * What the request handler guarantees

    A handler speaks for one agent only: no operation names a task of
    another.  Only sends ask who presents them; reads write nothing; and the
    operations that are not offered refuse everything. *)

From S2P Require Import Prelude Errors Json Crypto Models Repo RepoFacts Lineage BrokerState BrokerOps Dispatch Handlers Kyok Doors DoorsOk Core CoreOk A2aTranslate A2aTranslateOk A2a A2aOk A2aHandler.

Module A2aHandlerOk.
Import Broker Repo RepoFacts Lineage Kyok Doors DoorsOk CoreOk Translate A2a A2aOk A2aHandler.

Section handler.
Context `{HC : Crypto, HT : TokenCodec, HR : RunModel, HA : !Handlers.AGUI, HP : PyRepr, HM : MessageModel, HQ : RequestRules}.
Context `{!CryptoLaws, HL : !RunModelLaws}.
Notation world := (Dispatch.world Handlers.store).
Notation db_of w := (Handlers.s_db (Dispatch.w_store w)).

(** A task of this agent: its first run is the agent's. *)
Definition owns (agent : AgentRef) (d : db) (task_id : string) : Prop :=
  exists root, get_run task_id d = Some root /\ rr_agent root = agent.

Definition named (r : Reply) : list string :=
  match r with
  | Sending s => [sn_task_id s]
  | Streaming opening _ _ => [t_id opening]
  | TaskReply (Some t) => [t_id t]
  | TaskReply None => []
  | PageReply p => map t_id (lt_tasks p)
  end.

Lemma task_owned agent id limit cancel d t : _task agent id limit cancel d = Some (Ok (Some t)) -> t_id t = id /\ owns agent d id.
Proof.
  intros Ht. destruct (task_of_lineage _ _ _ _ _ _ Ht) as (line&tail&Hl&_&Hid&_). split; [done|].
  unfold _task in Ht. rewrite Hl in Ht. destruct (head line) as [root|] eqn:Hh; [|done]. destruct (last line); [|done].
  case_bool_decide as Ha; [|done]. exists root. split; [|done]. unfold lineage in Hl. destruct (get_run id d) as [r0|] eqn:Hg.
  - apply lineage_from_head in Hl. congruence.
  - by injection Hl as <-.
Qed.

Lemma owned_later agent d d' id : rtc db_step d d' -> owns agent d id -> owns agent d' id.
Proof.
  intros Hs (r&Hr&Ha). unfold owns, get_run in *. revert r Hr Ha. induction Hs as [d|d d1 d' H1 _ IH]; intros r0 Hr0 Ha0; [by exists r0|].
  destruct (db_step_run _ _ _ _ H1 Hr0) as (r1&Hr1&Hs1). apply (IH r1); [done|]. rewrite <- Ha0.
  destruct Hs1 as [->|now s l _ _ ->|who ->|now ->|now _ ->]; try done; by destruct r0, s.
Qed.

Lemma tasks_owned agent roots status limit after d tasks :
  tasks_of agent roots status limit after d = Some (Ok tasks) -> Forall (fun t => owns agent d (t_id t)) tasks.
Proof.
  revert tasks. induction roots as [|root roots IH]; intros tasks; cbn [tasks_of]; [by intros [= <-]|].
  case_bool_decide; [|apply IH]. destruct (_task agent _ _ _ _) as [[t|]|] eqn:Ht; cbn [then_ attempt]; try done.
  destruct (tasks_of agent roots _ _ _ _) as [[ts|]|]; cbn [then_ attempt]; try done. intros [= <-]. specialize (IH _ eq_refl).
  destruct t as [t|]; [|done]. apply task_owned in Ht as [Hid Ho]. destruct (wanted _ _ _); [|done]. constructor; [by rewrite Hid|done].
Qed.

Lemma slice_Forall {A} (P : A -> Prop) a b l : Forall P l -> Forall P (slice a b l).
Proof. intros Hl. unfold slice. by apply Forall_take, Forall_drop. Qed.

Lemma page_owned (P : string -> Prop) size token artifacts tasks page : Forall (fun t => P (t_id t)) tasks ->
  page_of size token artifacts tasks = Ok page -> Forall (fun t => P (t_id t)) (lt_tasks page).
Proof.
  intros Hf. unfold page_of. intros (o&_&[= <-])%bind_ok. cbn [lt_tasks]. destruct artifacts; [by apply slice_Forall|].
  apply Forall_fmap. unfold compose. cbn. by apply slice_Forall.
Qed.

Lemma subscribed_store id w taken w' : subscribed id w = Ok (taken, w') -> Dispatch.w_store w' = Dispatch.w_store w.
Proof. unfold subscribed. by intros ([x b]&_&[= _ <-])%bind_ok. Qed.

(** What a cancel leaves of the database is a cancel request, or nothing. *)
Lemma cancel_steps agent id meta w t w' : cancel_task agent id meta w = Some (Ok (t, w')) -> rtc db_step (db_of w) (db_of w').
Proof.
  unfold cancel_task. destruct (_run_of agent id _) as [run|]; [|by intros [= _ <-]; apply rtc_refl].
  destruct (authorize_cancel _ _ _); cbn [attempt]; [|done]. destruct (lineage id _) as [line|]; [|done].
  destruct (last line) as [tail|]; [|done]. destruct (task_state_of _ _ _); cbn [attempt]; [|done].
  case_bool_decide; [done|]. destruct (_task agent id None true _) as [[stood|]|]; cbn [then_ attempt]; try done.
  destruct (Core.cancel_run _ meta w) as [[[asked w1]|e]|] eqn:Hc; [|by destruct e|done]. cbn [then_ attempt].
  assert (rtc db_step (db_of w) (db_of w1)) as Hs.
  { unfold Core.cancel_run in Hc. destruct (get_run _ _) as [stored|]; [|injection Hc as _ <-; apply rtc_refl].
    destruct (authorize_cancel _ stored _); cbn [attempt] in Hc; [|done]. case_bool_decide; [injection Hc as _ <-; apply rtc_refl|].
    case_bool_decide.
    - destruct (waiting_on _ _) as [[[ev|]|]|]; cbn [then_ attempt] in Hc; try done; injection Hc as _ <-; [|apply rtc_refl].
      apply rtc_once. by eapply step_cancel.
    - cbn in Hc. destruct (BrokerOps.request_cancel _ _). injection Hc as _ <-. apply rtc_once. by eapply step_cancel. }
  destruct asked; [by intros [= _ <-]|]. destruct (_task agent id None false _) as [[now|]|]; cbn [then_ attempt]; try done. by intros [= _ <-].
Qed.

Lemma cancel_names agent id meta w t w' : cancel_task agent id meta w = Some (Ok (Some t, w')) ->
  t_id t = id /\ owns agent (db_of w') id.
Proof.
  intros Hc. pose proof (cancel_steps _ _ _ _ _ _ Hc) as Hs. unfold cancel_task in Hc.
  destruct (_run_of agent id _) as [run|]; [|done]. destruct (authorize_cancel _ _ _); cbn [attempt] in Hc; [|done].
  destruct (lineage id _) as [line|]; [|done]. destruct (last line) as [tail|]; [|done].
  destruct (task_state_of _ _ _); cbn [attempt] in Hc; [|done]. case_bool_decide; [done|].
  destruct (_task agent id None true _) as [[stood|]|] eqn:Hstood; cbn [then_ attempt] in Hc; try done.
  destruct (Core.cancel_run _ meta w) as [[[asked w1]|e]|]; [|by destruct e|done]. cbn [then_ attempt] in Hc. destruct asked.
  - injection Hc as -> ->. apply task_owned in Hstood as [Hid Ho]. split; [done|]. by eapply owned_later.
  - destruct (_task agent id None false _) as [[now|]|] eqn:Hnow; cbn [then_ attempt] in Hc; try done. injection Hc as -> ->.
    by eapply task_owned.
Qed.

(** What a send stands at is the agent's task. *)
Lemma sent_owned cfg nt nr agent message metadata presenter immediately w s w' :
  send_task cfg nt nr agent message None metadata presenter immediately w = Some (Ok (s, w')) ->
  keyed (db_of w) -> b_run_threads (Dispatch.w_broker w) !! nr = None -> owns agent (db_of w') (sn_task_id s).
Proof.
  intros Hs Hk Hf. unfold send_task in Hs. destruct (_start_run _ _ _ _ _ _ _) as [[[[[run_id task_id] live] w1]|e]|] eqn:Hst;
    [|by destruct e|done].
  cbn [_in_a2as_words then_ attempt] in Hs.
  assert (Dispatch.w_store w' = Dispatch.w_store w1 /\ sn_task_id s = task_id) as [-> ->].
  { destruct (_ && _ && _).
    - injection Hs as Hs. apply bind_ok in Hs as ([taken w2]&Hsub%subscribed_store&[= <- <-]). done.
    - by injection Hs as <- <-. }
  destruct (message_row _ _ _ _ _ _ _ _ _ _ _ Hst Hk Hf) as (Hold&_&row&Hrow&Ha&Hm).
  destruct (nonempty (get "taskId" _)) as [t|].
  - destruct Hm as (->&root&_&_&Hg&Hra&_). exists root. split; [by apply Hold|done].
  - destruct Hm as [-> _]. by exists row.
Qed.

Variable Ctx : Type.
Notation handle := (handle Ctx).

(** C36. A handler never speaks of another agent's tasks: whatever is asked of
    it and in whatever state, every task a send, a stream, a read, a cancel
    or a page names is one whose first run, in the database as the call
    leaves it, is the agent's the handler is bound to. *)
Theorem handler_keeps_to_its_agent cfg h ids context r w reply w' :
  handle cfg h ids context r w = Some (Ok (reply, w')) ->
  keyed (db_of w) -> b_run_threads (Dispatch.w_broker w) !! ids.2 = None ->
  Forall (owns (h_agent Ctx h) (db_of w')) (named reply).
Proof.
  intros Hh Hk Hf. destruct r; cbn [handle] in Hh; try done.
  - unfold on_message_send, validated in Hh. destruct (request_valid _); [|done].
    destruct (send_task _ _ _ _ _ _ _ _ _ _) as [[[s w1]|]|] eqn:Hs; cbn [then_ attempt fst snd] in Hh; try done. injection Hh as <- <-.
    repeat constructor. by eapply sent_owned.
  - unfold on_message_send_stream, validated in Hh. destruct (request_valid _); [|done].
    destruct (send_task_streaming _ _ _ _ _ _ _ _ _) as [[[s w1]|]|] eqn:Hs; cbn [then_ attempt fst snd] in Hh; try done. injection Hh as <- <-.
    repeat constructor. by eapply sent_owned.
  - unfold on_get_task, validated in Hh. destruct (request_valid _); [|done]. unfold get_task in Hh.
    destruct (_task _ _ _ _ _) as [[[t|]|]|] eqn:Ht; cbn [then_ attempt] in Hh; try done; injection Hh as <- <-; [|constructor].
    apply task_owned in Ht as [Hid Ho]. repeat constructor. by rewrite Hid.
  - unfold on_cancel_task, validated in Hh. destruct (request_valid _); [|done].
    destruct (cancel_task _ _ _ _) as [[[t w1]|]|] eqn:Hc; cbn [then_ attempt fst snd] in Hh; try done. injection Hh as <- <-.
    destruct t as [t|]; [|constructor]. cbn [named]. repeat constructor.
    destruct (cancel_names _ _ _ _ _ _ Hc) as (Hid&Ho). by rewrite Hid.
  - unfold on_subscribe_to_task, validated in Hh. destruct (request_valid _); [|done].
    destruct (resubscribe_task _ _ _) as [[[[[opening tail] drains] w1]|]|] eqn:Hs; cbn [then_ attempt] in Hh; try done. injection Hh as <- <-.
    cbn [named]. repeat constructor. unfold resubscribe_task in Hs. destruct (_task _ _ _ _ _) as [[[o|]|]|] eqn:Ht; cbn [then_ attempt] in Hs; try done.
    case_bool_decide; [done|]. destruct (lineage _ _) as [line|]; [|done]. destruct (last line) as [x|]; [|done].
    destruct (subscribed _ _) as [[taken w2]|e] eqn:Hsub; [|by destruct e]. injection Hs as -> _ _ ->.
    apply subscribed_store in Hsub. apply task_owned in Ht as [Hid Ho]. by rewrite Hsub, Hid.
  - unfold on_list_tasks in Hh. destruct (list_tasks _ _ _ _ _ _ _ _ _) as [[page|]|] eqn:Hp; cbn [then_ attempt] in Hh; try done.
    injection Hh as <- <-. cbn [named]. apply Forall_fmap. unfold compose. unfold list_tasks in Hp.
    destruct (or_none _) as [[|c cs]|]; [by injection Hp as <-; constructor| |by injection Hp as <-; constructor].
    destruct (tasks_of _ _ _ _ _ _) as [[tasks|]|] eqn:Ht; cbn [then_ attempt] in Hp; try done. injection Hp as Hp.
    apply tasks_owned in Ht. eapply page_owned; [|exact Hp]. by rewrite (merge_sort_Permutation tm_le).
Qed.

Definition sends (r : Request) : bool := match r with MessageSend _ | MessageSendStream _ => true | _ => false end.
Definition offered (r : Request) : bool :=
  match r with
  | CreatePushConfig | GetPushConfig | ListPushConfigs | DeletePushConfig | GetExtendedAgentCard => false
  | _ => true
  end.
Definition cancels (r : Request) : bool := match r with CancelTask _ => true | _ => false end.

(** Only a send asks who presents it.  What any other operation answers is
    the same whatever key the transport's hook would have handed down; if it
    answers, it is one the handler offers, and unless it cancels it left the
    store as it was; a cancel leaves at most a request. *)
Theorem only_sends_ask_who_presents cfg h h' ids ids' context context' r w :
  sends r = false -> h_agent Ctx h = h_agent Ctx h' ->
  handle cfg h ids context r w = handle cfg h' ids' context' r w /\
  forall reply w', handle cfg h ids context r w = Some (Ok (reply, w')) ->
    offered r = true /\ rtc db_step (db_of w) (db_of w') /\
    (cancels r = false -> Dispatch.w_store w' = Dispatch.w_store w).
Proof.
  intros Hr Ha. destruct r; try discriminate Hr; cbn [handle offered cancels];
    try (by split; [done|]).
  - unfold on_get_task. rewrite Ha. split; [done|]. intros reply w'. destruct (validated _ _) as [[t|]|]; cbn [then_ attempt]; try done.
    intros [= _ <-]. split_and!; [done|apply rtc_refl|done].
  - unfold on_cancel_task. rewrite Ha. split; [done|]. intros reply w'. unfold validated. destruct (request_valid _); [|done].
    destruct (cancel_task _ _ _ _) as [[[t w1]|]|] eqn:Hc; cbn [then_ attempt snd]; try done. intros [= _ <-].
    apply cancel_steps in Hc. done.
  - unfold on_subscribe_to_task. rewrite Ha. split; [done|]. intros reply w'. unfold validated. destruct (request_valid _); [|done].
    destruct (resubscribe_task _ _ _) as [[[[[opening tail] drains] w1]|]|] eqn:Hs; cbn [then_ attempt]; try done. intros [= _ <-].
    assert (Dispatch.w_store w1 = Dispatch.w_store w) as Hst; [|rewrite Hst; split_and!; [done|apply rtc_refl|done]].
    unfold resubscribe_task in Hs. destruct (_task _ _ _ _ _) as [[[o|]|]|]; cbn [then_ attempt] in Hs; try done.
    case_bool_decide; [done|]. destruct (lineage _ _) as [line|]; [|done]. destruct (last line); [|done].
    destruct (subscribed _ _) as [[taken w2]|e] eqn:Hsub; [|by destruct e]. injection Hs as _ _ _ ->. by eapply subscribed_store.
  - unfold on_list_tasks. rewrite Ha. split; [done|]. intros reply w'. destruct (list_tasks _ _ _ _ _ _ _ _ _) as [[p|]|]; cbn [then_ attempt]; try done.
    intros [= _ <-]. split_and!; [done|apply rtc_refl|done].
Qed.

End handler.

(** ** A handler at work *)
Module Witness.
Import RepoFacts.Witness Lineage.Witness DoorsOk.Witness TranslateOk.Witness A2aOk.Witness.
#[local] Existing Instance Toy.crypto.
#[local] Existing Instance Toy.laws.
#[local] Existing Instance Kyok.Witness.codec.
#[local] Existing Instance DoorsOk.Witness.agui.

(** A task's id is required. *)
#[local] Instance rules : RequestRules := {
  request_valid r := match r with GetTask p => negb (String.eqb (gt_id p) "") | CancelTask p => negb (String.eqb (ct_id p) "") | _ => true end }.

Definition anyone : handler unit := mkHandler unit agent None.
Definition keyed_door : handler unit := mkHandler unit agent (Some (fun _ => Some "ann")).
Definition read_r1 (limit : option Z) : Request := GetTask (mkGet "r1" limit).

Definition e1_world : Dispatch.world Handlers.store := world_of served e1.
Definition task_read (limit : option Z) : option Task :=
  match handle unit cfg anyone ("t2", "r2") () (read_r1 limit) (world_of served DoorsOk.Witness.first.2) with Some (Ok (TaskReply t, _)) => t | _ => None end.

(** An explicit zero is no history; an absent one is all of it. *)
Example history_lengths : (fun t => length (t_history t)) <$> task_read (Some 0%Z) = Some 0 /\
  (fun t => length (t_history t)) <$> task_read None = Some 1.
Proof. split; vm_compute; reflexivity. Qed.

Lemma e1_keyed : keyed e1.
Proof.
  assert (forallb (fun kv => String.eqb (rr_run_id kv.2) kv.1) (map_to_list (d_runs e1)) = true) as Hall by (vm_compute; reflexivity).
  intros id r Hr%elem_of_map_to_list. rewrite forallb_forall in Hall. apply list_elem_of_In, Hall in Hr. by apply String.eqb_eq.
Qed.

Lemma handler_keeps_to_its_agent_witness : exists t,
  handle unit cfg anyone ("t2", "r2") () (read_r1 None) e1_world = Some (Ok (TaskReply (Some t), e1_world)) /\ owns agent e1 (t_id t).
Proof.
  assert (exists t, handle unit cfg anyone ("t2", "r2") () (read_r1 None) e1_world = Some (Ok (TaskReply (Some t), e1_world))) as [t Ht]
    by (eexists; vm_compute; reflexivity).
  exists t. split; [exact Ht|].
  pose proof (handler_keeps_to_its_agent (HL := model_laws) unit cfg anyone ("t2", "r2") () (read_r1 None) e1_world _ _ Ht e1_keyed eq_refl) as Ho.
  by apply Forall_inv in Ho.
Defined.

Lemma only_sends_ask_who_presents_witness :
  handle unit cfg anyone ("t2", "r2") () (read_r1 None) e1_world = handle unit cfg keyed_door ("t3", "r3") () (read_r1 None) e1_world.
Proof. apply (only_sends_ask_who_presents unit cfg anyone keyed_door ("t2", "r2") ("t3", "r3") () () (read_r1 None) e1_world); reflexivity. Defined.

End Witness.
End A2aHandlerOk.
