(* ===== verification/KyokAdapter.v ===== *)
(** * The KYOK door (funduq/protocols/kyok.py)

    [complete] admits one completion call: the bearer token, the run it names,
    the agent's signature over this very call, then the run's binding and the
    link that serves the bound offering.  Each argument is the state at the
    moment the code reads it: the broker on arrival, the database behind the
    [await] of the session, the relay after it.

    What the link answers is a [stream]: the chunks, and how it stopped.
    [counted] is the relay draining it, [collapsed] and [streamed] the two
    ways a caller takes it. *)

From S2P Require Import Prelude Errors Json Payloads Crypto Identity Models Repo BrokerState BrokerOps Handlers LiveRoster Kyok.

Module KyokAdapter.
Import Broker Kyok.

(** ** Chunks and completions (openai's models, the fields the code reads) *)

Record ChunkChoice : Type := mkChunkChoice {
  cc_index : Z;
  cc_content : option string;
  cc_finish_reason : option string;
}.

Record ChatCompletionChunk : Type := mkChunk {
  ck_id : string;
  ck_created : Z;
  ck_model : string;
  ck_choices : list ChunkChoice;
}.

Record Choice : Type := mkChoice { ch_index : Z; ch_content : string; ch_finish_reason : string }.

Record ChatCompletion : Type := mkCompletion {
  co_id : string;
  co_created : Z;
  co_model : string;
  co_choices : list Choice;
}.

(** ** [collapse_stream] *)

(** [content_by_index] and [finish_reason_by_index], in insertion order. *)
Record merged : Type := mkMerged {
  content_by_index : list (Z * string);
  finish_reason_by_index : list (Z * string);
}.

Definition merge_choice (m : merged) (c : ChunkChoice) : merged :=
  mkMerged
    (aset (cc_index c) (default "" (aget (cc_index c) (content_by_index m)) +:+ default "" (cc_content c))
          (content_by_index m))
    (match cc_finish_reason c with
     | None | Some EmptyString => finish_reason_by_index m
     | Some reason => aset (cc_index c) reason (finish_reason_by_index m)
     end).

Definition merge_chunk (m : merged) (c : ChatCompletionChunk) : merged := foldl merge_choice m (ck_choices c).

(** [sorted(content_by_index.items())]: a dict's keys differ, so the index decides. *)
Definition index_le (a b : Z * string) : Prop := (a.1 <= b.1)%Z.
#[global] Instance index_le_dec : RelDecision index_le.
Proof. intros a b. unfold index_le. apply _. Defined.

Definition collapse_stream (chunks : list ChatCompletionChunk) : ChatCompletion :=
  match chunks with
  | [] => mkCompletion "" 0 "" [mkChoice 0 "" "stop"]
  | first :: _ =>
      let m := foldl merge_chunk (mkMerged [] []) chunks in
      mkCompletion (ck_id first) (ck_created first) (ck_model first)
        (map (fun ic => mkChoice ic.1 ic.2 (default "stop" (aget ic.1 (finish_reason_by_index m))))
             (merge_sort index_le (content_by_index m)))
  end.

(** ** Streams *)

(** An exception of the link's: its text, and its [refusal] attribute if it has one. *)
Record LinkError : Type := mkLinkError { le_text : string; le_refusal : option json }.

(** What a link yields, and what it raised at the end, if anything. *)
Record stream : Type := mkStream { s_chunks : list ChatCompletionChunk; s_raised : option LinkError }.

Definition _refusal_of (e : LinkError) : option dict :=
  match le_refusal e with Some (JObj d) => Some d | _ => None end.

(** [CompletionFailure]: the provider's own refusal, or funduq's [ErrorObject]. *)
Inductive failure_payload : Type :=
| Refusal (refusal : dict)
| RelayFailed (message : string).

Record CompletionFailure : Type := mkFailure { cf_payload : failure_payload; cf_refused : bool }.

(** A link that fails is answered with status 502 and its refusal. *)
Inductive collapsed_result : Type :=
| Collapsed (c : ChatCompletion)
| BridgeFailed (status : Z) (refusal : option dict).

Definition collapsed (s : stream) : collapsed_result :=
  match s_raised s with
  | Some e => BridgeFailed 502 (_refusal_of e)
  | None => Collapsed (collapse_stream (s_chunks s))
  end.

Definition streamed (s : stream) : list (ChatCompletionChunk + CompletionFailure) :=
  map inl (s_chunks s) ++
  match s_raised s with
  | None => []
  | Some e => [inr (match _refusal_of e with
                    | Some refusal => mkFailure (Refusal refusal) true
                    | None => mkFailure (RelayFailed (le_text e)) false
                    end)]
  end.

(** [_counted] drained: what it passes on, and the counters after. *)
Definition _counted (public_key : string) (s : stream) (r : relay) : py (stream * relay) :=
  r ← note_outcome public_key
        (match s_raised s with
         | Some e => match _refusal_of e with Some _ => "refused" | None => "failed" end
         | None => "completions"
         end) r;
  Ok (s, r).

(** ** Admission *)

(** [json.loads] of bytes, and pydantic's validation of a chat-completion body. *)
Inductive load_error : Type := NotJson | NotUtf8.

Class CompletionCodec : Type := {
  json_loads : string -> result load_error json;
  completion_body : json -> option json;
}.

Class CompletionLaws `{CompletionCodec} : Prop := {
  (** a TypedDict accepts only objects *)
  completion_body_object j v : completion_body j = Some v -> exists d, j = JObj d;
}.

Record DeliveredCompletion : Type := mkDelivered {
  dc_run_id : string;
  dc_provider_key : string;
  dc_agent_name : string;
  dc_body : json;
  dc_llm_name : string;
  dc_context : json;
  dc_actor_chain : option (list string);
}.

(** An admitted call: [link.complete(delivered)], counted against the offering's key. *)
Record CompletionRelay : Type := mkCompletionRelay {
  cr_stream_requested : bool;
  cr_public_key : string;
  cr_link : ConnectedProvider;
  cr_delivered : DeliveredCompletion;
}.

Section adapter.
Context `{HC : Crypto, HT : TokenCodec, HB : CompletionCodec}.

Definition _verify_caller (now : Z) (token : KyokToken) (bearer body timestamp signature : string) (d : db) : py () :=
  if String.eqb timestamp "" || String.eqb signature "" then Err (KyokRejected "missing call-time signature" 401) else
  match Identity.int_of_string timestamp with
  | None => Err (KyokRejected "malformed timestamp" 401)
  | Some at_ =>
      guard_or (KyokRejected "stale timestamp" 401) (Identity.is_timestamp_fresh now at_)
      match Repo.get_agent (kt_agent token) d with
      | None => Err (KyokRejected "agent not registered" 403)
      | Some _ =>
          guard_or (KyokRejected "signature verification failed" 401)
            (sig_verifies (ref_provider_key (kt_agent token)) signature
               (Payloads.kyok_call_payload bearer at_ (sha256_hex body)))
            (Ok ())
      end
  end.

(** The run a token may speak for now. *)
Definition active_run (token : KyokToken) (b : broker) : option Run :=
  match BrokerOps.get (kt_run_id token) b with
  | Some run => if r_cancel_requested run then None else if decide (r_agent run = kt_agent token) then Some run else None
  | None => None
  end.

Definition complete (now : Z) (signing_secret bearer body timestamp signature : string)
    (b : broker) (d : db) (r : relay) : py CompletionRelay :=
  token ← verify_kyok_token now bearer signing_secret;
  match token with
  | None => Err (KyokRejected "invalid or expired token" 401)
  | Some token =>
  match active_run token b with
  | None => Err (KyokRejected "run not active for this token" 403)
  | Some _ =>
  _ ← _verify_caller now token bearer body timestamp signature d;
  match json_loads body with
  | Err NotJson => Err (KyokRejected "body is not valid JSON" 400)
  | Err NotUtf8 => Err (ValueError "UnicodeDecodeError")
  | Ok payload =>
  match binding_for (kt_run_id token) r with
  | None => Err (KyokRejected "no binding any more" 503)
  | Some binding =>
  match LiveRoster.roster_serving (Handlers.kb_llm_provider binding) (k_live r) with
  | None => Err (KyokRejected "LLM provider not attached" 503)
  | Some link =>
  match completion_body payload with
  | None => Err (KyokRejected "not a chat-completion request" 400)
  | Some validated =>
      asked ← as_dict payload;
      Ok (mkCompletionRelay (truthy (get "stream" asked)) (ref_provider_key (Handlers.kb_llm_provider binding)) link
            (mkDelivered (kt_run_id token) (ref_provider_key (kt_agent token)) (ref_name (kt_agent token)) validated
               (ref_name (Handlers.kb_llm_provider binding)) (Handlers.kb_context binding)
               (Handlers.kb_actor_chain binding)))
  end end end end end end.

End adapter.
End KyokAdapter.
