(* ===== verification/KyokAdapterOk.v ===== *)
(** * What the KYOK door guarantees

    A collapsed stream says, index by index, what its chunks said; a call is
    admitted exactly for the bound run's own agent; and a drained completion
    moves exactly one counter. *)

From S2P Require Import Prelude Errors Json Payloads Crypto Identity Models Repo RepoFacts BrokerState BrokerOps Dispatch Handlers LiveRoster Kyok Doors DoorsOk KyokAdapter.

Module KyokAdapterOk.
Import Broker LiveRoster Kyok DoorsOk KyokAdapter.

(** ** The reference: what was said under an index *)

Definition choices_of (chunks : list ChatCompletionChunk) : list ChunkChoice := concat (map ck_choices chunks).
Definition under (i : Z) (l : list ChunkChoice) : list ChunkChoice := filter (fun c => cc_index c = i) l.
Definition said (l : list ChunkChoice) : string := foldr (fun c s => default "" (cc_content c) +:+ s) "" l.
Definition gave_reason (c : ChunkChoice) : option string :=
  match cc_finish_reason c with Some EmptyString => None | x => x end.
Definition reason (l : list ChunkChoice) : option string := last (omap gave_reason l).

Lemma under_snoc i l c : under i (l ++ [c]) = under i l ++ (if decide (cc_index c = i) then [c] else []).
Proof. unfold under. by rewrite filter_app. Qed.

(** Something was said under exactly the indexes that occur. *)
Lemma under_nil i l : under i l = [] <-> i ∉ map cc_index l.
Proof.
  induction l as [|c l IH]; [split; [intros _; apply not_elem_of_nil|done]|]. unfold under in *. rewrite filter_cons. cbn [map].
  rewrite not_elem_of_cons. case_decide as E; [naive_solver|]. rewrite IH. naive_solver.
Qed.

Lemma said_app l1 l2 : said (l1 ++ l2) = said l1 +:+ said l2.
Proof. induction l1 as [|c l1 IH]; [done|]. cbn [app said foldr]. unfold said in IH. by rewrite IH, str_app_assoc. Qed.

Lemma reason_snoc l c : reason (l ++ [c]) = match gave_reason c with Some x => Some x | None => reason l end.
Proof.
  unfold reason. rewrite omap_app. cbn. destruct (gave_reason c) as [x|]; [by rewrite last_snoc|]. by rewrite app_nil_r.
Qed.

Lemma merge_all chunks m : foldl merge_chunk m chunks = foldl merge_choice m (choices_of chunks).
Proof.
  revert m. induction chunks as [|c chunks IH]; intros m; [done|]. cbn [foldl choices_of map concat].
  rewrite foldl_app. apply IH.
Qed.

Lemma aget_elem_NoDup {V} (d : list (Z * V)) k v : NoDup (akeys d) -> (k, v) ∈ d -> aget k d = Some v.
Proof.
  induction d as [|[k' v'] d IH]; [set_solver|]. intros [Hk Hn]%NoDup_cons Hin. cbn. apply elem_of_cons in Hin as [[= -> ->]|Hin].
  - by rewrite decide_True.
  - case_decide as E; [|by apply IH]. subst k'. destruct Hk. by apply (list_elem_of_fmap_2 fst d (k, v)).
Qed.

(** The two dicts after any prefix of the choices. *)
Record merges (l : list ChunkChoice) (m : merged) : Prop := {
  mg_keys : NoDup (akeys (content_by_index m));
  mg_content i : aget i (content_by_index m) =
    if decide (i ∈ map cc_index l) then Some (said (under i l)) else None;
  mg_reason i : aget i (finish_reason_by_index m) = reason (under i l);
}.

Lemma merge_step_ok l c m : merges l m -> merges (l ++ [c]) (merge_choice m c).
Proof.
  intros [Hk Hc Hr]. split.
  - by apply akeys_aset_NoDup.
  - intros i. cbn [merge_choice content_by_index]. rewrite aget_aset, under_snoc, said_app, map_app. cbn [map].
    rewrite (Hc (cc_index c)). destruct (decide (cc_index c = i)) as [<-|Hne].
    + rewrite (decide_True (P := cc_index c ∈ map cc_index l ++ [cc_index c])) by set_solver. f_equal.
      cbn [said foldr]. rewrite str_app_nil_r. f_equal. case_decide as Hin; [done|]. symmetry.
      by rewrite (proj2 (under_nil _ _)).
    + cbn. rewrite str_app_nil_r, Hc. repeat case_decide; set_solver.
  - intros i. rewrite under_snoc. pose proof (reason_snoc (under i l) c) as Hs. unfold merge_choice, gave_reason in *.
    destruct (decide (cc_index c = i)) as [<-|Hne].
    + rewrite Hs. destruct (cc_finish_reason c) as [[|a x]|]; cbn [finish_reason_by_index]; [apply Hr| |apply Hr].
      by rewrite aget_aset_eq.
    + rewrite app_nil_r. destruct (cc_finish_reason c) as [[|a x]|]; cbn [finish_reason_by_index]; [apply Hr| |apply Hr].
      by rewrite aget_aset_ne.
Qed.

Lemma merges_all l : merges l (foldl merge_choice (mkMerged [] []) l).
Proof.
  induction l as [|c l IH] using rev_ind; [split; [constructor|done|done]|]. rewrite foldl_app. by apply merge_step_ok.
Qed.

#[local] Instance index_le_trans : Transitive index_le.
Proof. intros a b c. unfold index_le. lia. Qed.
#[local] Instance index_le_total : Total index_le.
Proof. intros a b. unfold index_le. lia. Qed.

(** Sorted by index with no index twice: strictly increasing. *)
Lemma sorted_strictly (l : list (Z * string)) : NoDup l.*1 -> StronglySorted index_le l -> StronglySorted Z.lt l.*1.
Proof.
  induction l as [|x l IH]; intros Hn Hs; [constructor|]. apply NoDup_cons in Hn as [Hx Hn]. inversion_clear Hs as [|?? Hs' Hall].
  constructor; [by apply IH|]. apply Forall_forall. intros i Hi. apply list_elem_of_fmap in Hi as (y&->&Hy).
  rewrite Forall_forall in Hall. specialize (Hall y Hy). unfold index_le in Hall.
  assert (x.1 <> y.1) by (intros E; apply Hx; rewrite E; by apply list_elem_of_fmap_2). lia.
Qed.

(** C32. Collapsing a stream is exact: the answer carries the first chunk's
    id, time and model; its choices are in strictly increasing index order;
    and they are precisely one per index the stream spoke under, holding all
    of that index's deltas in order and its last finish reason (["stop"] when
    none was given). *)
Theorem collapse_says_what_was_streamed first rest c :
  collapse_stream (first :: rest) = c ->
  co_id c = ck_id first /\ co_created c = ck_created first /\ co_model c = ck_model first /\
  StronglySorted Z.lt (map ch_index (co_choices c)) /\
  forall ch, ch ∈ co_choices c <->
    let l := under (ch_index ch) (choices_of (first :: rest)) in
    l <> [] /\ ch_content ch = said l /\ ch_finish_reason ch = default "stop" (reason l).
Proof.
  intros <-. unfold collapse_stream. rewrite merge_all. set (l := choices_of (first :: rest)).
  destruct (merges_all l) as [Hk Hc Hr]. revert Hk Hc Hr. generalize (foldl merge_choice (mkMerged [] []) l) as m.
  intros m Hk Hc Hr. cbn [co_id co_created co_model co_choices]. do 3 (split; [done|]). split.
  - rewrite map_map. cbn [ch_index]. apply sorted_strictly; [by rewrite merge_sort_Permutation|]. apply StronglySorted_merge_sort; apply _.
  - intros [i t f]. cbn [ch_index ch_content ch_finish_reason].
    assert (Hin : under i l <> [] <-> i ∈ map cc_index l).
    { rewrite under_nil. destruct (decide (i ∈ map cc_index l)); naive_solver. }
    rewrite Hin. rewrite list_elem_of_fmap. split.
    + intros ([j u]&[= -> -> ->]&Hj). rewrite merge_sort_Permutation in Hj. specialize (Hc j). rewrite Hr.
      rewrite (aget_elem_NoDup _ _ _ Hk Hj) in Hc. case_decide as Hd; [|done]. by injection Hc as ->.
    + intros (Hi&->&->). exists (i, said (under i l)). cbn [fst snd]. rewrite Hr. split; [done|]. rewrite merge_sort_Permutation.
      apply aget_Some_elem. rewrite Hc. by rewrite decide_True.
Qed.

(** ** Admission *)

Section adapter.
Context `{HC : Crypto, HT : TokenCodec, HB : CompletionCodec, !CompletionLaws}.

Lemma active_run_ok token b run : active_run token b = Some run <->
  BrokerOps.get (kt_run_id token) b = Some run /\ r_cancel_requested run = false /\ r_agent run = kt_agent token.
Proof.
  unfold active_run. destruct (BrokerOps.get _ b) as [run'|]; [|naive_solver].
  destruct (r_cancel_requested run') eqn:Ec; [naive_solver congruence|]. case_decide; naive_solver congruence.
Qed.

(** What a caller's signature proves. *)
Definition caller_proved (now : Z) (agent : AgentRef) (bearer body timestamp signature : string) (d : db) : Prop :=
  timestamp <> "" /\ signature <> "" /\ is_Some (Repo.get_agent agent d) /\
  exists at_, Identity.int_of_string timestamp = Some at_ /\ (Z.abs (now - at_ * 1000000) <= 60 * 1000000)%Z /\
    sig_verifies (ref_provider_key agent) signature (Payloads.kyok_call_payload bearer at_ (sha256_hex body)) = true.

Lemma verify_caller_ok now token bearer body timestamp signature d :
  _verify_caller now token bearer body timestamp signature d = Ok () <->
  caller_proved now (kt_agent token) bearer body timestamp signature d.
Proof.
  unfold _verify_caller, caller_proved. destruct (String.eqb_spec timestamp ""); [naive_solver|].
  destruct (String.eqb_spec signature ""); [naive_solver|]. cbn [orb].
  destruct (Identity.int_of_string timestamp) as [at_|]; [|naive_solver]. rewrite guard_or_ok.
  unfold Identity.is_timestamp_fresh. rewrite Z.leb_le. destruct (Repo.get_agent _ d) as [row|].
  - rewrite guard_or_ok. split.
    + intros (Hf&Hv&_). split_and!; [done|done|done|]. by exists at_.
    + intros (_&_&_&a&[= <-]&Hf&Hv). done.
  - split; [naive_solver|]. by intros (_&_&[? [=]]&_).
Qed.

(** C31. A completion call is admitted exactly when its bearer is a live token
    funduq signed for a run the broker tracks, uncancelled and of the token's
    agent; the agent is registered and its own key signed this bearer, this
    time (within 60 seconds) and this body; and the run is bound to an
    offering with a link serving it.  It then goes to that link, for that run
    and that agent, with the context and the chain the run was bound with. *)
Theorem complete_admits_the_bound_agent now secret bearer body timestamp signature b d r cr :
  complete now secret bearer body timestamp signature b d r = Ok cr <->
  exists token run asked validated binding link,
    verify_kyok_token now bearer secret = Ok (Some token) /\
    BrokerOps.get (kt_run_id token) b = Some run /\ r_cancel_requested run = false /\ r_agent run = kt_agent token /\
    caller_proved now (kt_agent token) bearer body timestamp signature d /\
    json_loads body = Ok (JObj asked) /\ completion_body (JObj asked) = Some validated /\
    binding_for (kt_run_id token) r = Some binding /\
    live (Handlers.kb_llm_provider binding) (k_live r) = Some link /\
    cr = mkCompletionRelay (truthy (get "stream" asked)) (ref_provider_key (Handlers.kb_llm_provider binding)) link
           (mkDelivered (kt_run_id token) (ref_provider_key (kt_agent token)) (ref_name (kt_agent token)) validated
              (ref_name (Handlers.kb_llm_provider binding)) (Handlers.kb_context binding) (Handlers.kb_actor_chain binding)).
Proof.
  unfold complete. split.
  - rewrite bind_ok. intros ([token|]&Ht&Hr); [|done]. destruct (active_run token b) as [run|] eqn:Ha; [|done].
    apply active_run_ok in Ha as (Hg&Hc&Hag). apply bind_ok in Hr as ([]&Hv%verify_caller_ok&Hr).
    destruct (json_loads body) as [payload|[]] eqn:Hj; [|done|done].
    destruct (binding_for _ r) as [binding|] eqn:Hb; [|done].
    destruct (LiveRoster.roster_serving _ _) as [link|] eqn:Hl; [|done].
    destruct (completion_body payload) as [validated|] eqn:Hvb; [|done].
    destruct (completion_body_object _ _ Hvb) as [asked ->]. injection Hr as <-.
    exists token, run, asked, validated, binding, link. done.
  - intros (token&run&asked&validated&binding&link&Ht&Hg&Hc&Hag&Hv&Hj&Hvb&Hb&Hl&->).
    rewrite Ht. cbn [mbind result_bind]. rewrite (proj2 (active_run_ok token b run)) by done.
    rewrite (proj2 (verify_caller_ok _ _ _ _ _ _ _) Hv). cbn [mbind result_bind]. rewrite Hj, Hb.
    change (LiveRoster.roster_serving (Handlers.kb_llm_provider binding) (k_live r) = Some link) in Hl. by rewrite Hl, Hvb.
Qed.

(** The call is the run's own agent speaking: its token is funduq's and live,
    its run is active, and its key signed the call. *)
Definition speaks_for_the_run (now : Z) (secret bearer body timestamp signature : string) (b : broker) (d : db) : Prop :=
  exists token, verify_kyok_token now bearer secret = Ok (Some token) /\ is_Some (active_run token b) /\
    caller_proved now (kt_agent token) bearer body timestamp signature d.

(** The offering the bearer's run is bound to, if a link serves it. *)
Definition bound_link (now : Z) (secret bearer : string) (r : relay) : option ConnectedProvider :=
  match verify_kyok_token now bearer secret with
  | Ok (Some token) => binding ← binding_for (kt_run_id token) r; live (Handlers.kb_llm_provider binding) (k_live r)
  | _ => None
  end.

Lemma verify_caller_err now token bearer body timestamp signature d e :
  _verify_caller now token bearer body timestamp signature d = Err e ->
  (exists m, e = KyokRejected m 401) \/ (Repo.get_agent (kt_agent token) d = None /\ exists m, e = KyokRejected m 403).
Proof.
  unfold _verify_caller. destruct (_ || _); [intros [= <-]; left; by eexists|].
  destruct (Identity.int_of_string _); [|intros [= <-]; left; by eexists].
  destruct (Identity.is_timestamp_fresh _ _); [|intros [= <-]; left; by eexists]. cbn [guard_or].
  destruct (Repo.get_agent _ d); [|intros [= <-]; right; split; [done|by eexists]].
  destruct (sig_verifies _ _ _); [done|]. intros [= <-]. left. by eexists.
Qed.


End adapter.

(** ** The counters *)

Definition relay_ok (r : relay) : Prop :=
  counters_ok (k_live r) /\ l_counter_names (k_live r) = ["completions"; "refused"; "failed"].

(** The counter a completion belongs under, from what its caller sees. *)
Definition outcome (c : collapsed_result) : string :=
  match c with
  | Collapsed _ => "completions"
  | BridgeFailed _ (Some _) => "refused"
  | BridgeFailed _ None => "failed"
  end.

Lemma note_known key c t : counters_ok t -> c ∈ l_counter_names t -> exists t', note key c t = Ok t'.
Proof.
  intros Hok Hc. unfold note. rewrite bool_decide_eq_true_2 by done. cbn [guard_or].
  set (bucket := default _ _). assert (Hin : c ∈ akeys bucket).
  { unfold bucket. destruct (l_counters t !! key) as [l|] eqn:E; cbn [default from_option id]; [by rewrite (Hok _ _ E)|].
    unfold akeys. rewrite <- list_fmap_compose. change (c ∈ id <$> l_counter_names t). by rewrite list_fmap_id. }
  destruct (aget c bucket) eqn:E; [by eexists|]. apply aget_None in E. done.
Qed.

(** A drained completion is counted once: its offering's key moves by one
    under exactly one counter, the one that says what the caller was told
    (completed, refused by the provider, failed), nothing else moves, and the
    bindings stay. *)
Theorem completion_is_counted_once key s r : relay_ok r ->
  exists r', _counted key s r = Ok (s, r') /\ relay_ok r' /\ k_bindings r' = k_bindings r /\
    forall key' c, count key' c (k_live r') = count key' c (k_live r) +
      (if bool_decide (key' = key /\ c = outcome (collapsed s)) then 1 else 0).
Proof.
  intros [Hok Hn]. unfold _counted, note_outcome.
  assert (Ho : match s_raised s with Some e => match _refusal_of e with Some _ => "refused" | None => "failed" end
               | None => "completions" end = outcome (collapsed s)).
  { unfold collapsed. destruct (s_raised s) as [e|]; [|done]. cbn [outcome]. by destruct (_refusal_of e). }
  rewrite Ho. destruct (note_known key (outcome (collapsed s)) (k_live r) Hok) as [t Ht].
  { rewrite Hn, <- Ho. destruct (s_raised s) as [e|]; [destruct (_refusal_of e)|]; set_solver. }
  rewrite Ht. cbn [mbind result_bind]. eexists. split; [reflexivity|]. cbn [k_live k_bindings].
  destruct (count_note _ _ _ _ Hok Ht) as [Hok' Hc]. split_and!; [split; [done|]|done|exact Hc].
  rewrite <- Hn. revert Ht. unfold note. rewrite guard_or_ok. intros [_ Hr]. case_match; [|done]. by injection Hr as <-.
Qed.

(** ** Concrete calls *)
Module Witness.
Import RepoFacts.RepoFacts.Witness DoorsOk.Witness.
#[local] Existing Instance Toy.crypto.
#[local] Existing Instance Kyok.Witness.codec.

(** A codec that reads ["{}"] as a request for a stream. *)
#[local] Instance bodies : CompletionCodec := {
  json_loads s := if String.eqb s "{}" then Ok (JObj [("stream", JBool true)]) else Err NotJson;
  completion_body j := match j with JObj d => Some (JObj d) | _ => None end }.
#[local] Instance bodies_laws : CompletionLaws.
Proof. split. intros [] v; cbn; try done. intros _. by eexists. Qed.

Definition chunk (i : Z) (t : string) (f : option string) : ChatCompletionChunk := mkChunk "c" 7 "m" [mkChunkChoice i (Some t) f].

Lemma collapse_says_what_was_streamed_witness :
  co_choices (collapse_stream [chunk 1 "x" None; chunk 0 "he" None; chunk 0 "y" (Some "length")]) =
    [mkChoice 0 "hey" "length"; mkChoice 1 "x" "stop"] /\
  StronglySorted Z.lt (map ch_index (co_choices (collapse_stream [chunk 1 "x" None; chunk 0 "he" None; chunk 0 "y" (Some "length")]))).
Proof.
  split; [vm_compute; reflexivity|].
  destruct (collapse_says_what_was_streamed (chunk 1 "x" None) [chunk 0 "he" None; chunk 0 "y" (Some "length")] _ eq_refl)
    as (_&_&_&Hs&_). exact Hs.
Defined.

Definition gpt : AgentRef := mkRef "L" "gpt".
Definition bound : relay :=
  mkRelay {["r1" := Handlers.mkKyokBinding gpt JNull None]}
    (attach [(gpt, mkConn 5 "L" None)] (new_roster ["completions"; "refused"; "failed"])).
Definition bearer : string := issue_kyok_token 0 "r1" agent "secret".
Definition signature : string := sign_hex "K" (Payloads.kyok_call_payload bearer 0 (sha256_hex "{}")).

Definition broker_now : broker := Dispatch.w_broker (came_in served).2.
Definition relayed_call : CompletionRelay :=
  mkCompletionRelay true "L" (mkConn 5 "L" None)
    (mkDelivered "r1" "K" "a" (JObj [("stream", JBool true)]) "gpt" JNull None).

Lemma complete_admits_the_bound_agent_witness : exists run,
  complete 0 "secret" bearer "{}" "0" signature broker_now base bound = Ok relayed_call /\
  BrokerOps.get "r1" broker_now = Some run /\ r_agent run = agent.
Proof.
  assert (complete 0 "secret" bearer "{}" "0" signature broker_now base bound = Ok relayed_call) as Hc
    by (vm_compute; reflexivity).
  destruct (proj1 (complete_admits_the_bound_agent _ _ _ _ _ _ _ _ _ _) Hc)
    as (token&run&_&_&_&_&Ht&Hg&_&Ha&_).
  assert (token = mkKyokToken "r1" agent) as ->.
  { assert (verify_kyok_token 0 bearer "secret" = Ok (Some (mkKyokToken "r1" agent))) as E by (vm_compute; reflexivity). congruence. }
  exists run. split; [exact Hc|]. split; [exact Hg|exact Ha].
Defined.


Definition refusal : stream := mkStream [] (Some (mkLinkError "no" (Some (JObj [])))).

Lemma completion_is_counted_once_witness : exists r', _counted "L" refusal bound = Ok (refusal, r') /\
  count "L" "refused" (k_live r') = 1 /\ count "L" "failed" (k_live r') = 0.
Proof.
  destruct (completion_is_counted_once "L" refusal bound) as (r'&Hr&_&_&Hc); [split; [by intros k v|done]|].
  exists r'. split; [exact Hr|]. rewrite !Hc. vm_compute. split; reflexivity.
Defined.

End Witness.
End KyokAdapterOk.
