(* ===== verification/AgUi.v ===== *)
(** * The AG-UI door (funduq/protocols/agui.py [AGUIAdapter])

    Every input is a run.  One that answers everything the thread's newest
    run left open is the next run, after the one that asked; a [resume] that
    lands on nothing opens no run and is answered with a snapshot. *)

From S2P Require Import Prelude Errors Json Pause Crypto Models Repo BrokerState Dispatch Handlers Kyok Doors.

Module AgUi.
Import Broker Repo Pause Kyok Doors.

(** ag_ui's [RunAgentInput], each model in it as [model_dump(by_alias)] gives it. *)
Record RunAgentInput : Type := mkInput {
  ra_thread_id : string;
  ra_parent_run_id : option string;
  ra_messages : list dict;
  ra_tools : list dict;
  ra_context : list dict;
  ra_resume : option (list dict);
  ra_state : json;
  ra_forwarded_props : json;
}.

Definition objects (l : list dict) : json := JList (map JObj l).

(** [EventStream] is named by its ids, [ThreadSnapshot] by its data. *)
Inductive answer : Type :=
| EventStream (thread_id run_id : string) (live : bool)
| ThreadSnapshot (data : option (string * option (string * run_status))).

(** [body.resume] when it has entries. *)
Definition resume_of (body : RunAgentInput) : option (list dict) :=
  match ra_resume body with Some (e :: l) => Some (e :: l) | _ => None end.

Definition answers_a_tool_call (body : RunAgentInput) : bool :=
  existsb (fun m => bool_decide (get "role" m = JStr "tool")) (ra_messages body).

Section agui.
Context `{HC : Crypto, HT : TokenCodec, HR : RunModel, HA : !Handlers.AGUI}.
Notation world := (Dispatch.world Handlers.store).
Open Scope door_scope.

(** The run that may be asking: read only when the input carries answers. *)
Definition asking_run (body : RunAgentInput) (thread_id : string) (d : db) : option RunRecord :=
  if bool_decide (is_Some (resume_of body)) || answers_a_tool_call body then latest_run_for_thread thread_id d else None.

(** [asks and asks <= answered_asks(messages, resume, events)]: the asks are
    read first, and the answers only when something was asked. *)
Definition completes (body : RunAgentInput) (events : list dict) : py bool :=
  asks ← open_asks events;
  if bool_decide (asks = ∅) then Ok false
  else answered ← answered_asks (ra_messages body) (resume_of body) events; Ok (bool_decide (asks ⊆ answered)).

Definition inbound_of (agent : AgentRef) (body : RunAgentInput) (caller : Caller) : InboundRun :=
  mkInbound agent (ra_messages body) (ca_head_key caller) (ca_actor_chain caller) (ca_kyok caller) None
    (ra_state body) (objects (ra_tools body)) (objects (ra_context body))
    match resume_of body with Some l => objects l | None => JNull end
    (ra_parent_run_id body) (ca_forwarded_props caller).

Definition run (cfg : settings) (new_thread new_run : string) (agent : AgentRef) (body : RunAgentInput)
    (presenter_key : option string) (w : world) : loop (answer * world) :=
  let s := Dispatch.w_store w in
  let d := Handlers.s_db s in
  match get_agent agent d with
  | None => Some (Err AgentNotFound)
  | Some _ =>
      caller <- read_caller (ra_forwarded_props body) presenter_key d ;;
      thread <- ensure_thread (Handlers.s_now s) new_thread agent (Some (ra_thread_id body)) None
                  (JObj (ca_props caller)) true (ca_head_key caller) d ;;
      let '(thread_id, d) := thread in
      let latest := asking_run body thread_id d in
      waiting <~ match latest with Some run => waiting_on run d | None => Some (Ok None) end ;;
      completes_the_ask <- completes body (default [] waiting) ;;
      if bool_decide (is_Some (resume_of body)) && negb completes_the_ask
      then Some (Ok (ThreadSnapshot (get_thread_snapshot thread_id d), w))
      else
        entered <~ enter cfg new_run (inbound_of agent body caller) thread_id
                     (if completes_the_ask : bool then latest else None) d w ;;
        let '(entered, w) := entered in
        Some (Ok (EventStream (en_thread_id entered) (en_run_id entered) (en_live entered), w))
  end.

End agui.
End AgUi.
