(* ===== verification/AgUiOk.v ===== *)
(** * What the AG-UI door guarantees

    An input that carries resume entries either becomes the answer to
    everything its thread's newest run asked, after which that pause is
    closed, or opens nothing. *)

From S2P Require Import Prelude Errors Json Pause Crypto Models Repo RepoFacts Lineage BrokerState Dispatch Handlers Kyok Doors DoorsOk AgUi.

Module AgUiOk.
Import Broker Repo RepoFacts Lineage Pause Kyok Doors DoorsOk AgUi.

Section agui.
Context `{HC : Crypto, HT : TokenCodec, HR : RunModel, HA : !Handlers.AGUI, !CryptoLaws, !RunModelLaws}.
Notation world := (Dispatch.world Handlers.store).

Lemma ensure_thread_minted now id agent t parent meta create head d thread d' :
  ensure_thread now id agent t parent meta create head d = Ok (thread, d') -> minted d d' /\ d_runs d' = d_runs d.
Proof.
  intros He. assert (d_runs d' = d_runs d) as Hr.
  { revert He. unfold ensure_thread, create_thread. destruct t as [t|]; [destruct (get_thread t d)|].
    - case_bool_decide; [done|]. repeat case_match; try done; by intros [= <- <-].
    - destruct create; [|done]. rewrite !guard_or_ok. by intros (_&_&_&[= <- <-]).
    - rewrite !guard_or_ok. by intros (_&_&_&[= <- <-]). }
  split; [|done]. split; [by apply step_other|]. intros k Hn. rewrite Hr, Hn. by intros [].
Qed.

Lemma completes_ok body events : completes body events = Ok true -> exists asks answered,
  open_asks events = Ok asks /\ asks <> ∅ /\
  answered_asks (ra_messages body) (resume_of body) events = Ok answered /\ asks ⊆ answered.
Proof.
  unfold completes. intros (asks&Ha&Hr)%bind_ok. case_bool_decide; [done|]. apply bind_ok in Hr as (answered&Hans&Hr).
  injection Hr as Hr%bool_decide_eq_true. by exists asks, answered.
Qed.

(** A waiting run is one the database holds. *)
Lemma latest_stored t d run : keyed d -> latest_run_for_thread t d = Some run -> get_run (rr_run_id run) d = Some run.
Proof.
  intros Hk Hl. unfold latest_run_for_thread, runs_in_thread in Hl. apply last_Some_elem_of, list_elem_of_filter in Hl as [_ Hin].
  unfold runs_sorted in Hin. rewrite (merge_sort_Permutation run_le) in Hin. unfold all_runs in Hin.
  apply list_elem_of_fmap in Hin as ([k r]&->&Hin%elem_of_map_to_list). cbn. unfold get_run. by rewrite (Hk k r Hin).
Qed.

(** C33. A resume lands whole or not at all: when an input with resume entries
    was let in, its thread's newest run was waiting, with asks open; the
    input's tool messages and resume entries answer every one of them; the
    run that opened names that run as its parent; and with it written the
    pause is closed, so no door takes a second answer to it. *)
Theorem resume_lands_on_the_open_asks cfg new_thread new_run agent body key w thread_id run_id live w' :
  rtc minted empty_db (Handlers.s_db (Dispatch.w_store w)) -> unnamed new_run (Handlers.s_db (Dispatch.w_store w)) ->
  resume_of body <> None ->
  run cfg new_thread new_run agent body key w = Some (Ok (EventStream thread_id run_id live, w')) ->
  exists d asked events asks answered row d',
    latest_run_for_thread thread_id d = Some asked /\ waiting_on asked d = Some (Ok (Some events)) /\
    open_asks events = Ok asks /\ asks <> ∅ /\
    answered_asks (ra_messages body) (resume_of body) events = Ok answered /\ asks ⊆ answered /\
    d_runs d' !! run_id = Some row /\ rr_parent_run_id row = Some (rr_run_id asked) /\ rr_thread_id row = thread_id /\
    rr_agent row = agent /\ waiting_on asked d' = Some (Ok None) /\
    exists ib op, dispatch ib op (Dispatch.mkWorld (Dispatch.w_broker w) (Handlers.set_s_db d' (Dispatch.w_store w))) = Ok (live, w').
Proof.
  intros Hm Hu Hres. unfold run. destruct (get_agent agent _); [|done]. destruct (read_caller _ _ _) as [caller|]; [|done].
  cbn [attempt]. destruct (ensure_thread _ _ _ _ _ _ _ _ _) as [[t d]|] eqn:He; [|done]. cbn [attempt].
  apply ensure_thread_minted in He as [He Hruns].
  assert (Hmd : rtc minted empty_db d) by (eapply rtc_r; eassumption).
  destruct (match asking_run body t d with Some r => _ | None => _ end) as [[waiting|]|] eqn:Hw; [|done..]. cbn [then_ attempt].
  destruct (completes _ _) as [c|] eqn:Hc; [|done]. cbn [attempt]. rewrite (bool_decide_eq_true_2 (is_Some (resume_of body)))
    by (by apply not_eq_None_Some). destruct c; [|done]. cbn [negb andb].
  apply completes_ok in Hc as (asks&answered&Hasks&Hne&Hans&Hsub).
  destruct waiting as [events|]; [|cbn in Hasks; injection Hasks as <-; done]. cbn [default from_option id] in *.
  destruct (asking_run body t d) as [asked|] eqn:Hask; [|done].
  assert (Hlatest : latest_run_for_thread t d = Some asked) by (revert Hask; unfold asking_run; by case_match).
  unfold enter. destruct (relayed_chain _ _ _) as [chain|]; [|done]. cbn [attempt].
  destruct (open_run _ _ _ _ _ _ _ _) as [[[op d']|]|] eqn:Ho; [|done..]. cbn [then_ attempt].
  destruct (dispatch _ _ _) as [[live0 w0]|] eqn:Hd; [|done]. cbn [mbind result_bind then_ attempt en_thread_id en_run_id en_live].
  intros [= <- <- <- <-]. apply open_run_write in Ho. cbn [ib_parent_run_id] in Ho.
  assert (Hstored : get_run (rr_run_id asked) d = Some asked) by (apply (latest_stored t); [by apply minted_reachable_ok|done]).
  destruct (answer_written _ _ _ _ _ _ _ _ _ Hmd Hstored ltac:(unfold unnamed; by rewrite Hruns) Ho) as [Hclosed _].
  destruct (written_row _ _ _ _ _ _ _ _ _ Ho) as (row&Hrow&Hpar&Ht&Ha). exists d, asked, events, asks, answered, row, d'.
  split_and!; try done. by eexists _, _.
Qed.

End agui.

(** ** A concrete thread *)
Module Witness.
Import RepoFacts.RepoFacts.Witness Lineage.Lineage.Witness DoorsOk.Witness.
#[local] Existing Instance Toy.crypto.
#[local] Existing Instance Toy.laws.
#[local] Existing Instance Kyok.Witness.codec.
#[local] Existing Instance DoorsOk.Witness.agui.

Definition marked (s : run_status) (d : db) : db :=
  match mark_run_status 5 "r1" s d with Ok (_, d') => d' | Err _ => d end.
Definition finished : db := marked completed (marked running (marked offering e1)).

(** [r1] finished asking on an unbound thread ["t"]. *)
Definition open_thread : ThreadRow := mkThreadRow "t" "K" "a" None None JNull 0 0.
Definition asked : db :=
  set_d_run_events (map (mkEventRow "r1" 1) paused_events) (set_d_threads {["t" := open_thread]} finished).

Lemma same_rows d d' : db_step d d' -> dom (d_runs d') = dom (d_runs d) -> minted d d'.
Proof.
  intros Hs Hd. split; [done|]. intros id Hn Hi. exfalso. apply elem_of_dom in Hi. rewrite Hd in Hi.
  by apply not_elem_of_dom in Hn.
Qed.

Lemma other_rows d d' : d_runs d' = d_runs d -> minted d d'.
Proof. intros Hr. apply same_rows; [by apply step_other|by rewrite Hr]. Qed.

Lemma around_rows d threads events : minted d (set_d_run_events events (set_d_threads threads d)).
Proof. by apply other_rows. Qed.

Lemma asked_minted : rtc minted empty_db asked.
Proof.
  eapply rtc_l; [apply (other_rows _ base); reflexivity|].
  eapply rtc_l; [apply (minted_create 1 "r1" [] base e1); [vm_compute; reflexivity|done|vm_compute; reflexivity]|].
  eapply rtc_l; [apply (same_rows _ (marked offering e1)); [apply (step_mark _ _ 5 "r1" offering true)|]; vm_compute; reflexivity|].
  eapply rtc_l; [apply (same_rows _ (marked running (marked offering e1)));
    [apply (step_mark _ _ 5 "r1" running true)|]; vm_compute; reflexivity|].
  eapply rtc_l; [apply (same_rows _ finished); [apply (step_mark _ _ 5 "r1" completed true)|]; vm_compute; reflexivity|].
  apply rtc_once, around_rows.
Qed.

Definition tool_said : dict := [("id", JStr "m2"); ("role", JStr "tool"); ("toolCallId", JStr "c2"); ("content", JStr "42")].
Definition resuming : RunAgentInput :=
  mkInput "t" None [tool_said] [] [] (Some [[("interruptId", JStr "i1")]]) JNull JNull.

Definition outcome (body : RunAgentInput) (d : db) : AgUi.answer * Dispatch.world Handlers.store :=
  match run cfg "new" "r2" agent body None (world_of served d) with
  | Some (Ok x) => x
  | _ => (ThreadSnapshot None, world_of served d)
  end.

Lemma resume_lands_on_the_open_asks_witness : exists d' row r, d_runs d' !! "r2" = Some row /\
  rr_parent_run_id row = Some (rr_run_id r) /\ waiting_on r d' = Some (Ok None).
Proof.
  destruct (resume_lands_on_the_open_asks cfg "new" "r2" agent resuming None (world_of served asked) "t" "r2" true
    (outcome resuming asked).2) as (d&r&events&asks&answered&row&d'&Hl&_&_&_&_&_&Hrow&Hp&_&_&Hw&_);
    [exact asked_minted|apply unnamed_check; vm_compute; reflexivity|done|vm_compute; reflexivity|].
  exists d', row, r. split; [exact Hrow|]. split; [exact Hp|exact Hw].
Defined.

(** *** A later run hides the ask

    [x], said into the thread after [r1] asked, failed.  [r1] still waits, and
    its A2A task can be answered; the same answer on AG-UI is told there is
    nothing to answer. *)
Definition said_later : db :=
  match create_run 6 "x" "t" agent [] None asked with
  | Ok d => match mark_run_status 7 "x" failed d with Ok (_, d) => d | Err _ => d end
  | Err _ => asked
  end.

Theorem resume_misses_an_older_ask :
  match get_run "r1" said_later with
  | Some r1 => match waiting_on r1 said_later with Some (Ok (Some _)) => true | _ => false end
  | None => false
  end = true /\
  (outcome resuming said_later).1 = ThreadSnapshot (Some ("t", None)) /\
  (outcome resuming asked).1 = EventStream "t" "r2" true.
Proof. split; [|split]; vm_compute; reflexivity. Qed.

End Witness.
End AgUiOk.
