(* ===== verification/Keys.v ===== *)
(** * Keys, and the LLM provider's side (funduq_provider_sdk/identity.py,
    funduq/identity.py [FunduqIdentity], funduq_provider_sdk/llm)

    Who holds a private key, what it signs and where it is kept.  [KeyBytes]
    is what [cryptography] and [bytes] do with raw keys and hex; a file system
    is the contents and mode of each path. *)

From S2P Require Import Prelude Errors Json Crypto Payloads Chain Identity Models BrokerState Roster KyokAdapter.

Module Keys.
Import Broker.

(** Raw keys and hex. *)
Class KeyBytes `{Crypto} : Type := {
  (** private_bytes_raw() *)
  private_bytes_raw : private_key -> string;
  (** Ed25519PrivateKey.from_private_bytes(_): [None] is a ValueError *)
  from_private_bytes : string -> option private_key;
  (** bytes.hex() and bytes.fromhex(_): [None] is a ValueError *)
  hex_of : string -> string;
  fromhex : string -> option string;
}.

Class KeyBytesLaws `{KeyBytes} : Prop := {
  raw_key k : from_private_bytes (private_bytes_raw k) = Some k;
  raw_length k : String.length (private_bytes_raw k) = 32;
  raw_only s k : from_private_bytes s = Some k -> String.length s = 32;
  raw_any s : String.length s = 32 -> is_Some (from_private_bytes s);
  hex_again s : fromhex (hex_of s) = Some s;
}.

Section keys.
Context `{HC : Crypto, HB : !KeyBytes}.

(** ** [ProviderIdentity] *)

Record ProviderIdentity : Type := mkIdentity { _private_key : private_key; public_key : string }.

Definition identity_of (k : private_key) : ProviderIdentity := mkIdentity k (public_hex k).

(** A file: its bytes and its mode. *)
Notation files := (gmap string (string * nat)).

Definition mode_600 : nat := 384.

(** [load_or_create]: the file systems it passes through, the last one what it
    leaves; [generated] is the key drawn and [umask] the mode a new file gets. *)
Definition load_or_create (path : string) (generated : private_key) (umask : nat) (fs : files) : py (ProviderIdentity * list files) :=
  match fs !! path with
  | Some (bytes, _) =>
      match from_private_bytes bytes with
      | Some k => Ok (identity_of k, [fs])
      | None => Err (ValueError "not an Ed25519 private key")
      end
  | None =>
      Ok (identity_of generated,
          [fs; <[path := (private_bytes_raw generated, umask)]> fs; <[path := (private_bytes_raw generated, mode_600)]> fs])
  end.

Definition sign (i : ProviderIdentity) (payload : string) : string := sign_hex (_private_key i) payload.

Definition sign_connect (i : ProviderIdentity) (funduq_public_key funduq_nonce provider_nonce : string) : string :=
  sign i (Payloads.provider_connect_payload funduq_public_key funduq_nonce provider_nonce).

Definition sign_resolution (i : ProviderIdentity) (run_id : string) (ask_ids : list string) : string :=
  sign i (Payloads.resolve_payload sha256_hex run_id ask_ids).

(** [int(time.time())] when no timestamp is given. *)
Definition sign_cancel (now : Z) (i : ProviderIdentity) (run_id : string) (timestamp : option Z) : string * Z :=
  let timestamp := default (now / Identity.second)%Z timestamp in
  (sign i (Payloads.cancel_payload run_id timestamp), timestamp).

Definition sign_hop (i : ProviderIdentity) (prev_token : option string) : string := Chain.sign_hop (_private_key i) prev_token None.
Definition new_chain (i : ProviderIdentity) : list string := Chain.new_chain (_private_key i).
Definition extend_chain (i : ProviderIdentity) (prev_chain : list string) : py (list string) := Chain.extend_chain (_private_key i) prev_chain.

(** ** [FunduqIdentity] *)

Record FunduqIdentity : Type := mkFunduqIdentity { fi_private_key : private_key; fi_public_key : string }.

Definition dispatch_hop (i : FunduqIdentity) (prev_chain : list string) (agent : AgentRef) : py (list string) :=
  Chain.dispatch_hop (fi_private_key i) prev_chain
    {| Chain.dt_provider_key := ref_provider_key agent; Chain.dt_name := ref_name agent |}.

Definition from_hex (private_key_hex : string) : py FunduqIdentity :=
  match fromhex private_key_hex with
  | None => Err (ValueError "identity_private_key is not valid hex")
  | Some raw =>
      guard_or (ValueError "identity_private_key must be a 32-byte seed") (Nat.eqb (String.length raw) 32)
      match from_private_bytes raw with
      | Some k => Ok (mkFunduqIdentity k (public_hex k))
      | None => Err (ValueError "from_private_bytes")
      end
  end.

(** Of the key drawn. *)
Definition generate_hex (k : private_key) : string := hex_of (private_bytes_raw k).

Definition funduq_sign (i : FunduqIdentity) (payload : string) : string := sign_hex (fi_private_key i) payload.

(** ** [InProcessLLMProvider] *)

(** The author's handler: what it yields and how it ends. *)
Record InProcessLLMProvider : Type := mkLLM {
  llm_identity : ProviderIdentity;
  llm_handler : KyokAdapter.DeliveredCompletion -> KyokAdapter.stream;
  llm_funduq_public_key : option string;
}.

Definition llm_sign_connect (p : InProcessLLMProvider) (funduq_public_key funduq_nonce provider_nonce : string) : py string :=
  if match llm_funduq_public_key p with Some pin => bool_decide (funduq_public_key <> pin) | None => false end
  then Err WrongFunduq
  else Ok (sign_connect (llm_identity p) funduq_public_key funduq_nonce provider_nonce).

Definition llm_confirm_connect (p : InProcessLLMProvider) (funduq_nonce provider_nonce : string) (answer : option string) : py () :=
  match llm_funduq_public_key p with
  | None => Ok ()
  | Some pin =>
      match answer with
      | None => Err WrongFunduq
      | Some answer =>
          verified ← Identity.verify_signature pin (JStr answer) (Payloads.funduq_connect_payload funduq_nonce provider_nonce);
          guard_or WrongFunduq verified (Ok ())
      end
  end.

Definition llm_complete (p : InProcessLLMProvider) (request : KyokAdapter.DeliveredCompletion) : KyokAdapter.stream := llm_handler p request.

(** The connection funduq holds; funduq always answers. *)
Definition llm_link (id : nat) (p : InProcessLLMProvider) : Roster.Link :=
  Roster.mkLink (mkConn id (public_key (llm_identity p)) None) (Some (llm_sign_connect p))
    (Some (fun funduq_nonce provider_nonce answer => llm_confirm_connect p funduq_nonce provider_nonce (Some answer))).

(** Raising [CompletionRefused(refusal)]. *)
Definition CompletionRefused (text : string) (refusal : dict) : KyokAdapter.LinkError := KyokAdapter.mkLinkError text (Some (JObj refusal)).

End keys.
End Keys.
