(* ===== verification/KeysOk.v ===== *)
(** * What keys guarantee

    What an identity signs, funduq takes; a key once written is the key
    loaded; a funduq's seed is its identity; and a pinned LLM link opens on
    its own funduq only. *)

From S2P Require Import Prelude Errors Json Crypto Payloads Chain Identity Models Repo RepoFacts BrokerState LiveRoster Dispatch BrokerOps Coop Handlers Roster RosterFacts Kyok KyokAdapter Doors Facade FacadeOk Keys.

Module KeysOk.
Import Models Repo Doors Facade FacadeOk Keys.

Section keys.
Context `{HC : Crypto, HB : !KeyBytes, !CryptoLaws, !KeyBytesLaws}.

(** The proofs as the bags carry them. *)
Definition cancel_proof (i : ProviderIdentity) (signed : string * Z) : json :=
  JObj [("publicKey", JStr (public_key i)); ("signature", JStr signed.1); ("timestamp", JNum signed.2)].
Definition resolution_proof (i : ProviderIdentity) (signature : string) : json :=
  JObj [("publicKey", JStr (public_key i)); ("signature", JStr signature)].

Lemma now_is_fresh now later : (0 <= later - now <= 59 * Identity.second)%Z ->
  (Z.abs (later - now / Identity.second * 1000000) <= 60 * 1000000)%Z.
Proof.
  unfold Identity.second. intros Hl. pose proof (Z.mod_pos_bound now 1000000 ltac:(lia)). pose proof (Z.div_mod now 1000000 ltac:(lia)). lia.
Qed.

(** What an identity signs, funduq takes.  A cancel of a run signed by an
    authority of the run under the clock is accepted as that key's for at
    least the next 59 seconds; its resolution of a pause is accepted for the
    asks it signed in whatever order they are read, at any time; a run bound
    to a chain it heads takes its cancel at the door. *)
Theorem own_proofs_are_taken k now later run_id allowed ids ids' run meta :
  (0 <= later - now <= 59 * Identity.second)%Z -> public_hex k ∈ allowed -> ids ≡ₚ ids' ->
  let i := identity_of k in
  Identity.verify_cancel later (cancel_proof i (sign_cancel now i run_id None)) run_id allowed = Ok (public_hex k) /\
  Identity.verify_resolution (resolution_proof i (sign_resolution i run_id ids)) run_id ids' allowed = Ok (public_hex k) /\
  (head_key_of run = Ok (Some (public_hex k)) -> rr_run_id run = run_id ->
   authorize_cancel later run (aset "cancel" (cancel_proof i (sign_cancel now i run_id None)) meta) = Ok (Some (public_hex k))).
Proof.
  intros Hl Hin Hp i.
  assert (forall allowed, public_hex k ∈ allowed ->
    Identity.verify_cancel later (cancel_proof i (sign_cancel now i run_id None)) run_id allowed = Ok (public_hex k)) as Hc.
  { intros allowed' Hin'. apply Identity.verify_cancel_complete. exists (sign_cancel now i run_id None).1, (now / Identity.second)%Z.
    split; [by eexists|]. split; [by do 2 eexists|]. split; [done|]. split; [by apply now_is_fresh|]. apply sign_verifies. }
  split; [by apply Hc|]. split.
  - apply Identity.verify_resolution_complete. exists (sign_resolution i run_id ids). split; [by eexists|]. split; [done|].
    unfold sign_resolution, sign. cbn. rewrite (Payloads.resolve_payload_proper sha256_hex run_id ids ids' Hp). apply sign_verifies.
  - intros Hh Hr. unfold authorize_cancel. rewrite Hh, Hr. unfold get. rewrite aget_aset_eq. cbn [default from_option id].
    unfold py_or. cbn [truthy]. unfold cancel_proof in *. rewrite Hc; [done|]. set_solver.
Qed.

(** ** Keys that are kept *)

Definition last_files {A} (r : py (A * list (gmap string (string * nat)))) : option (gmap string (string * nat)) :=
  match r with Ok (_, states) => last states | Err _ => None end.

(** A key is drawn once and kept.  Whatever [load_or_create] answers, it
    answers again from the files it left, with another key on offer, and
    leaves them as they are; if it made the file, its mode is 0600 in the end.
    The seed [generate_hex] writes for a key is the identity [from_hex]
    builds; and it builds one exactly from the hex of 32 bytes. *)
Theorem keys_are_kept path g umask fs i states :
  load_or_create path g umask fs = Ok (i, states) ->
  exists fs', last states = Some fs' /\
    (forall g' umask', load_or_create path g' umask' fs' = Ok (i, [fs'])) /\
    (fs !! path = None -> fs' = <[path := (private_bytes_raw g, mode_600)]> fs /\ i = identity_of g) /\
    from_hex (generate_hex (_private_key i)) = Ok (mkFunduqIdentity (_private_key i) (public_key i)).
Proof.
  assert (forall k, from_hex (generate_hex k) = Ok (mkFunduqIdentity k (public_hex k))) as Hh.
  { intros k. unfold from_hex, generate_hex. by rewrite hex_again, raw_length, raw_key. }
  unfold load_or_create at 1. destruct (fs !! path) as [[bytes mode]|] eqn:Hp.
  - destruct (from_private_bytes bytes) as [k|] eqn:Hk; [|done]. intros [= <- <-]. exists fs. split; [done|].
    split; [|split; [done|apply Hh]]. intros g' u'. unfold load_or_create. by rewrite Hp, Hk.
  - intros [= <- <-]. eexists. split; [reflexivity|]. split; [|split; [done|apply Hh]].
    intros g' u'. unfold load_or_create. by rewrite lookup_insert_eq, raw_key.
Qed.

Lemma from_hex_ok s i : from_hex s = Ok i <->
  exists raw, fromhex s = Some raw /\ from_private_bytes raw = Some (fi_private_key i) /\ fi_public_key i = public_hex (fi_private_key i).
Proof.
  unfold from_hex. destruct (fromhex s) as [raw|]; [|naive_solver]. rewrite guard_or_ok, Nat.eqb_eq. split.
  - intros [_ Hf]. destruct (from_private_bytes raw) as [k|] eqn:Hk; [|done]. injection Hf as <-. by exists raw.
  - intros (raw'&[= <-]&Hk&Hp). split; [by eapply raw_only|]. rewrite Hk. destruct i; cbn in *. by subst.
Qed.

(** The file is made with the process's mode before it is closed to others. *)
Theorem new_key_is_open_for_a_moment path g umask fs : fs !! path = None ->
  exists i mid fs', load_or_create path g umask fs = Ok (i, [fs; mid; fs']) /\ mid !! path = Some (private_bytes_raw g, umask).
Proof. intros Hp. unfold load_or_create. rewrite Hp. do 3 eexists. split; [reflexivity|]. by rewrite lookup_insert_eq. Qed.

(** ** The LLM provider's link *)

(** An LLM provider pinned to a funduq opens a link on that one only: on its
    own, [attach_llm_provider] opens a link for its key; on any other it
    raises [WrongFunduq] and no link is opened. *)
Theorem pinned_llm_opens_its_own_funduq identity callback id k handler pin new_ticket new_nonce f :
  let link := llm_link id (mkLLM (identity_of k) handler (Some pin)) in
  let '(r, f') := attach_llm_provider identity callback new_ticket new_nonce link None None None f in
  if decide (pin = public_hex identity)
  then is_ok r = true /\ Roster.require_open (Roster.connection link) (llms_view f') = Ok ()
  else r = Err WrongFunduq /\ f_llm_links f' = f_llm_links f.
Proof.
  intros link. unfold attach_llm_provider.
  pose proof (RosterFacts.pinned_link_opens_its_own_funduq (T := LiveRoster.roster) (S := Handlers.store) identity k pin id None new_ticket new_nonce (llms_view f)) as Hp.
  change (Roster.InProcessLink k (Some pin) id None) with link in Hp. cbv zeta in Hp.
  destruct (Roster.open identity new_ticket new_nonce link None None None (llms_view f)) as [r st].
  destruct (put_llms_views callback st f) as (_&Eo&_). destruct (decide _).
  - destruct Hp as [Hr Ho]. split; [done|]. unfold Roster.require_open, Roster.open_links in *. cbn [Roster.k_open llms_view]. by rewrite Eo.
  - destruct Hp as [Hr Ho]. split; [done|]. by rewrite Eo.
Qed.

End keys.

(** ** Instances *)
Module Witness.

(** A key is a string of 32 characters and is its own hex. *)
Definition seed : Type := { s : string | Nat.eqb (String.length s) 32 = true }.

#[local] Instance crypto : Crypto := {|
  private_key := seed;
  public_hex k := proj1_sig k;
  sha256_hex s := s;
  sign_hex k p := proj1_sig k +:+ p;
  sig_verifies k s p := String.eqb s (k +:+ p);
  jwt_encode c k := Toy.print c (proj1_sig k);
  jwt_decode t := fst <$> Toy.parse t;
  pubkey_parses _ := true;
  jwt_verifies t k := match Toy.parse t with Some (_, k') => String.eqb k k' | None => false end;
|}.

#[local] Instance laws : CryptoLaws.
Proof.
  split; cbn.
  - intros k p. apply String.eqb_refl.
  - intros c k. by rewrite Toy.parse_print.
  - intros c k. rewrite Toy.parse_print. apply String.eqb_refl.
  - done.
  - by intros x y.
Qed.

#[local] Instance bytes : KeyBytes := {|
  private_bytes_raw (k : private_key) := proj1_sig (k : seed);
  from_private_bytes s := match decide (Nat.eqb (String.length s) 32 = true) with left H => Some (exist _ s H) | right _ => None end;
  hex_of s := s;
  fromhex s := Some s;
|}.

#[local] Instance bytes_laws : KeyBytesLaws.
Proof.
  split; cbn.
  - intros [s Hs]. cbn. destruct (decide _) as [H|H]; [|done]. do 2 f_equal. apply proof_irrel.
  - intros [s Hs]. by apply Nat.eqb_eq.
  - intros s k. destruct (decide _) as [H|H]; [|done]. intros _. by apply Nat.eqb_eq.
  - intros s Hs. destruct (decide _) as [H|H]; [by eexists|]. by destruct H; apply Nat.eqb_eq.
  - done.
Qed.

Definition alice : private_key (Crypto := crypto) := exist _ "alicealicealicealicealicealice00" eq_refl.
Definition bob : private_key (Crypto := crypto) := exist _ "bobbobbobbobbobbobbobbobbobbob00" eq_refl.

Lemma own_proofs_are_taken_witness :
  Identity.verify_cancel 1700000059000000 (cancel_proof (identity_of alice) (sign_cancel 1700000000000000 (identity_of alice) "r1" None)) "r1"
    {[public_hex alice]} = Ok (public_hex alice).
Proof.
  pose proof (fun H1 H2 H3 => proj1 (own_proofs_are_taken (HC := crypto) alice 1700000000000000 1700000059000000 "r1" {[public_hex alice]}
    ["m2"; "m1"] ["m1"; "m2"] (RepoFacts.Witness.row_of empty_db) [] H1 H2 H3)) as Hown.
  cbv zeta in Hown. apply Hown; clear Hown.
  - unfold Identity.second. lia.
  - by apply elem_of_singleton.
  - apply Permutation_swap.
Defined.

Lemma keys_are_kept_witness : exists fs',
  load_or_create (HC := crypto) "id" bob 420 fs' = Ok (identity_of alice, [fs']) /\ fs' !! "id" = Some ("alicealicealicealicealicealice00", mode_600).
Proof.
  destruct (keys_are_kept (HC := crypto) "id" alice 420 ∅ (identity_of (HC := crypto) alice)
    [∅; <["id" := (private_bytes_raw alice, 420)]> ∅; <["id" := (private_bytes_raw alice, mode_600)]> ∅]
    ltac:(unfold load_or_create; rewrite lookup_empty; reflexivity)) as (fs'&_&Ha&Hm&_).
  destruct (Hm eq_refl) as [-> _]. eexists. split; [exact (Ha bob 420)|]. reflexivity.
Defined.

End Witness.
End KeysOk.
