(* ===== verification/Views.v ===== *)
(** * What funduq shows of itself (models.py, broker.py [RunSnapshot],
    [ProviderQuality], kyok.py [LlmProviderQuality], repo.py's listings)

    The records handed to hosts and doors: copies of the broker's runs and
    counters, and the roster's summaries, which pydantic validates when they
    are made from a stored row. *)

From S2P Require Import Prelude Errors Json Crypto Models Repo Coop BrokerState BrokerOps Dispatch Handlers LiveRoster Kyok Doors Core.

Module Views.
Import Broker Repo.

(** ** The broker's *)

Record RunSnapshot : Type := mkSnapshot {
  sn_run_id : string;
  sn_agent : AgentRef;
  sn_thread_id : string;
  sn_offered_to : option string;
  sn_claimed_by : option string;
  sn_cancel_requested : bool;
}.

Definition is_claimed (s : RunSnapshot) : bool := bool_decide (sn_claimed_by s <> None).
Definition is_offered (s : RunSnapshot) : bool := bool_decide (sn_offered_to s <> None).

Definition _snapshot (run : Run) : RunSnapshot :=
  mkSnapshot (r_run_id run) (r_agent run) (r_thread_id run) (r_offered_to run) (r_claimed_by run) (r_cancel_requested run).

Definition get (run_id : string) (b : broker) : option RunSnapshot := _snapshot <$> BrokerOps.get run_id b.

Record ProviderQuality : Type := mkQuality {
  q_in_flight : Z;
  q_declared : option Z;
  q_misdeclared : nat;
  q_abandoned : nat;
  q_undelivered : nat;
  q_unanswered : nat;
}.

(** [counters]' keys are [_COUNTERS], so each field is given once. *)
Definition quality_of (p : ProviderHandler) : ProviderQuality :=
  mkQuality (p_in_flight p) (p_declared p) (counter misdeclared p) (counter abandoned p) (counter undelivered p) (counter unanswered p).

Definition quality (b : broker) : gmap string ProviderQuality := quality_of <$> b_providers b.

(** ** The relay's *)

Record LlmProviderQuality : Type := mkLlmQuality { lq_completions : nat; lq_refused : nat; lq_failed : nat }.

(** [LlmProviderQuality( **counters)]: what is not given is 0. *)
Definition llm_quality_of (counters : list (string * nat)) : LlmProviderQuality :=
  mkLlmQuality (default 0 (aget "completions" counters)) (default 0 (aget "refused" counters)) (default 0 (aget "failed" counters)).

(** [LiveRoster.counters]. *)
Definition counters (t : LiveRoster.roster) : gmap string (list (string * nat)) := LiveRoster.l_counters t.

Definition llm_quality (r : Kyok.relay) : gmap string LlmProviderQuality := llm_quality_of <$> counters (Kyok.k_live r).

(** ** The roster's *)

Record AgentSummary : Type := mkAgentSummary {
  as_provider_key : string;
  as_name : string;
  as_description : string;
  as_skills : list dict;
  as_joined_at : Z;
  as_last_seen_at : Z;
  as_online : bool;
  as_provider_name : option string;
}.

Record LlmSummary : Type := mkLlmSummary {
  ls_provider_key : string;
  ls_name : string;
  ls_metadata : dict;
  ls_joined_at : Z;
  ls_last_seen_at : Z;
  ls_online : bool;
  ls_provider_name : option string;
}.

Record AgentRecord : Type := mkAgentRecord {
  ar_provider_key : string;
  ar_name : string;
  ar_agent_card : dict;
  ar_metadata : dict;
  ar_joined_at : Z;
  ar_last_seen_at : Z;
}.

Definition set_as_online (v : bool) (s : AgentSummary) : AgentSummary :=
  mkAgentSummary (as_provider_key s) (as_name s) (as_description s) (as_skills s) (as_joined_at s) (as_last_seen_at s) v (as_provider_name s).
Definition set_ls_online (v : bool) (s : LlmSummary) : LlmSummary :=
  mkLlmSummary (ls_provider_key s) (ls_name s) (ls_metadata s) (ls_joined_at s) (ls_last_seen_at s) v (ls_provider_name s).

(** pydantic's [str], [dict[str, Any]] and [list[dict[str, Any]]] of JSON; its
    [ValidationError] is a [ValueError]. *)
Definition a_str (j : json) : py string := match j with JStr s => Ok s | _ => Err (ValueError "string_type") end.
Definition a_dict (j : json) : py dict := match j with JObj d => Ok d | _ => Err (ValueError "dict_type") end.
Definition dicts (j : json) : py (list dict) := match j with JList l => traverse a_dict l | _ => Err (ValueError "list_type") end.

(** The outer join with the provider's row. *)
Definition display_name (key : string) (d : db) : option string := d_providers d !! key ≫= pv_display_name.

Definition agent_summary (d : db) (row : AgentRef * AgentRow) : py AgentSummary :=
  let '(ref, a) := row in
  description ← a_str (get_or "description" (JStr "") (ag_card a));
  skills ← dicts (get_or "skills" (JList []) (ag_card a));
  Ok (mkAgentSummary (ref_provider_key ref) (ref_name ref) description skills (ag_joined_at a) (ag_last_seen_at a) false
        (display_name (ref_provider_key ref) d)).

Definition llm_summary (d : db) (row : LlmRef * LlmRow) : py LlmSummary :=
  let '(ref, a) := row in
  metadata ← a_dict (lp_metadata a);
  Ok (mkLlmSummary (ref_provider_key ref) (ref_name ref) metadata (lp_joined_at a) (lp_last_seen_at a) false
        (display_name (ref_provider_key ref) d)).

Definition agent_record (row : AgentRef * AgentRow) : py AgentRecord :=
  let '(ref, a) := row in
  metadata ← a_dict (ag_metadata a);
  Ok (mkAgentRecord (ref_provider_key ref) (ref_name ref) (ag_card a) metadata (ag_joined_at a) (ag_last_seen_at a)).

Definition get_agent (agent : AgentRef) (d : db) : py (option AgentRecord) :=
  match Repo.get_agent agent d with Some a => r ← agent_record (agent, a); Ok (Some r) | None => Ok None end.

Definition list_agents (now window : Z) (d : db) : py (list AgentSummary) := traverse (agent_summary d) (Repo.list_agents now window d).
Definition list_llm_providers (now window : Z) (d : db) : py (list LlmSummary) :=
  traverse (llm_summary d) (Repo.list_llm_providers now window d).

(** [Funduq.list_agents], [Funduq.list_llm_providers]: with [online]. *)
Definition agents_online (window : Z) (w : Dispatch.world Handlers.store) : py (list AgentSummary) :=
  stored ← list_agents (Handlers.s_now (Dispatch.w_store w)) window (Handlers.s_db (Dispatch.w_store w));
  Ok (map (fun s => set_as_online (bool_decide (is_Some (BrokerOps.serving (mkRef (as_provider_key s) (as_name s)) (Dispatch.w_broker w)))) s) stored).

Definition llms_online (window : Z) (live : LiveRoster.roster) (s : Handlers.store) : py (list LlmSummary) :=
  stored ← list_llm_providers (Handlers.s_now s) window (Handlers.s_db s);
  Ok (map (fun l => set_ls_online (bool_decide (is_Some (LiveRoster.roster_serving (mkRef (ls_provider_key l) (ls_name l)) live))) l) stored).

(** ** Failing runs *)

Definition _fail_runs (now : Z) (where_ : RunRecord -> bool) (d : db) : list string * db :=
  let rows := filter (fun kv => where_ kv.2 = true) (map_to_list (d_runs d)) in
  (rows.*1, set_d_runs (foldl (fun m kv => <[kv.1 := set_rr_completed_at (Some now) (set_rr_status failed kv.2)]> m) (d_runs d) rows) d).

(** ** What they show *)

(** The restart's update is this one, over the statuses a process can hold. *)
Lemma orphans_are_failed now d : Repo.fail_orphaned_runs now d = _fail_runs now (fun r => bool_decide (rr_status r ∈ HELD)) d.
Proof.
  unfold Repo.fail_orphaned_runs, _fail_runs.
  assert (filter (fun kv : string * RunRecord => rr_status kv.2 ∈ HELD) (map_to_list (d_runs d)) =
    filter (fun kv => bool_decide (rr_status kv.2 ∈ HELD) = true) (map_to_list (d_runs d))) as ->; [|done].
  apply list_filter_iff. intros kv. by rewrite bool_decide_eq_true.
Qed.

(** A card the roster can show. *)
Definition showable (a : AgentRow) : bool :=
  match a_str (get_or "description" (JStr "") (ag_card a)), dicts (get_or "skills" (JList []) (ag_card a)) with
  | Ok _, Ok _ => true
  | _, _ => false
  end.

Lemma summary_ok d ref a : is_ok (agent_summary d (ref, a)) = showable a.
Proof. unfold agent_summary, showable. destruct (a_str _); [|done]. cbn. by destruct (dicts _). Qed.

Lemma traverse_ok_all {A B} (f : A -> py B) l : is_ok (traverse f l) = forallb (fun x => is_ok (f x)) l.
Proof. induction l as [|x l IH]; [done|]. cbn. destruct (f x); [|done]. cbn. rewrite <- IH. by destruct (traverse f l). Qed.

(** The roster is listed whole or not at all: with every card it would list
    one that can be shown, each agent seen within the window is listed once,
    in the order of the names, with its times, online exactly when it is
    served; one card that cannot be shown and nothing is listed. *)
Theorem roster_is_listed_whole window w :
  let rows := Repo.list_agents (Handlers.s_now (Dispatch.w_store w)) window (Handlers.s_db (Dispatch.w_store w)) in
  if forallb (fun row => showable row.2) rows
  then exists l, agents_online window w = Ok l /\
    map (fun s => (mkRef (as_provider_key s) (as_name s), as_joined_at s, as_last_seen_at s, as_online s)) l =
    map (fun row => (row.1.1, ag_joined_at row.1.2, ag_last_seen_at row.1.2, row.2)) (Core.list_agents window w)
  else is_ok (agents_online window w) = false.
Proof.
  intros rows. set (d := Handlers.s_db (Dispatch.w_store w)) in *.
  assert (is_ok (traverse (agent_summary d) rows) = forallb (fun row => showable row.2) rows) as Hok.
  { rewrite traverse_ok_all. clear. induction rows as [|[ref a] rows IH]; [done|]. cbn [forallb]. by rewrite summary_ok, IH. }
  unfold agents_online, list_agents. change (Repo.list_agents _ window _) with rows. fold d. rewrite <- Hok.
  destruct (traverse (agent_summary d) rows) as [l|e] eqn:Ht; cbn [is_ok]; [|done].
  eexists. split; [reflexivity|]. unfold Core.list_agents. change (Repo.list_agents _ window _) with rows. clear Hok.
  rewrite !map_map. cbn [as_provider_key as_name as_joined_at as_last_seen_at as_online set_as_online fst snd].
  apply traverse_ok in Ht. clearbody rows. induction Ht as [|[ref a] s rows l Hs Hl IH]; [done|]. cbn [map]. f_equal; [|exact IH].
  unfold agent_summary in Hs. apply bind_ok in Hs as (descr&_&Hs). apply bind_ok in Hs as (skills&_&[= <-]). by destruct ref.
Qed.

(** Whoever registers an agent chooses what can be shown: a card whose
    description is null is stored, and from then on nobody's agents are listed. *)
Theorem one_card_hides_the_roster now key name description metadata window d : (0 <= window)%Z -> exists d',
  Repo.register_agent now key (mkRegistration name description [("description", JNull)] metadata false) d = Ok d' /\
  is_ok (list_agents now window d') = false.
Proof.
  intros Hw. eexists. split; [reflexivity|]. unfold list_agents. rewrite traverse_ok_all. apply not_true_iff_false. intros Hall.
  rewrite forallb_forall in Hall. set (d' := set_d_agents _ d) in *.
  assert (exists a, d_agents d' !! mkRef key name = Some a /\ ag_last_seen_at a = now /\ showable a = false) as (a&Ha&Hseen&Hs).
  { eexists. split; [apply lookup_insert_eq|]. case_match; split; reflexivity. }
  specialize (Hall (mkRef key name, a)). rewrite summary_ok, Hs in Hall. discriminate Hall.
  apply list_elem_of_In. unfold Repo.list_agents. rewrite merge_sort_Permutation. apply list_elem_of_filter. split; [cbn; lia|].
  by apply elem_of_map_to_list.
Qed.

End Views.
