(* ===== verification/Play.v ===== *)
(** * Scenes played to their end (scripts/probes)

    A run and its thread with nobody else in the process: the thread's task
    reads its messages one after another, each handled to the end, between
    what the provider's link posts.  On it are played the acceptance probes
    that replace the database under a running process,
    probe_run_row_vanishes.py, probe_nobody_says_anything.py and
    probe_registration_survives_a_new_database.py. *)

From S2P Require Import Prelude Errors Json Pause Crypto Chain Models Repo Coop BrokerState BrokerOps Dispatch Handlers LiveRoster Roster Kyok Doors Link Core Facade.

Module Play.
Import Broker BrokerOps Dispatch Pause Repo Kyok Doors Core.

#[local] Existing Instance Handlers.store_seams.

(** ** A coroutine that nothing interrupts *)
Section alone.
Context {W : Type}.

Fixpoint finish {A} (s : susp W A) (w : W) : A * W :=
  match s with
  | Done a => (a, w)
  | Yield k => let '(w', s') := k w in finish s' w'
  end.

Definition alone {A} (c : comp W A) (w : W) : A * W := let '(w', s) := c w in finish s w'.
End alone.

(** ** The database replaced *)

(** The tables the probes empty. *)
Inductive table : Type := RunEvents | ThreadMessages | Runs | Threads | Agents | Providers.

(** [delete(table)]: refused while rows of another table refer to one that is there. *)
Definition delete_all (t : table) (d : db) : py db :=
  match t with
  | RunEvents => Ok (set_d_run_events [] d)
  | ThreadMessages => Ok (set_d_thread_messages [] d)
  | Runs =>
      guard_or (IntegrityError "runs")
        (bool_decide (dom (d_runs d) = ∅) || bool_decide (length (d_run_events d) = 0) && bool_decide (length (d_thread_messages d) = 0))
        (Ok (set_d_runs ∅ d))
  | Threads =>
      guard_or (IntegrityError "threads")
        (bool_decide (dom (d_threads d) = ∅) || bool_decide (dom (d_runs d) = ∅) && bool_decide (length (d_thread_messages d) = 0))
        (Ok (set_d_threads ∅ d))
  | Agents =>
      guard_or (IntegrityError "agents")
        (bool_decide (dom (d_agents d) = ∅) || bool_decide (dom (d_threads d) = ∅) && bool_decide (dom (d_runs d) = ∅))
        (Ok (set_d_agents ∅ d))
  | Providers =>
      guard_or (IntegrityError "providers")
        (bool_decide (dom (d_providers d) = ∅) || bool_decide (dom (d_agents d) = ∅) && bool_decide (dom (d_llm_providers d) = ∅))
        (Ok (set_d_providers ∅ d))
  end.

(** One session: every statement, then the commit. *)
Definition replace (tables : list table) (d : db) : py db := fold_res delete_all tables d.

Definition BUT_PROVIDERS : list table := [RunEvents; ThreadMessages; Runs; Threads; Agents].
Definition EVERYTHING : list table := BUT_PROVIDERS ++ [Providers].

Section play.
Context `{HC : Crypto, HT : TokenCodec, HR : RunModel, HA : !Handlers.AGUI}.
Notation world := (Dispatch.world Handlers.store).
Open Scope door_scope.

Definition db_of (w : world) : db := Handlers.s_db (w_store w).

Definition replaced (tables : list table) (w : world) : py world :=
  d ← replace tables (db_of w); Ok (mkWorld (w_broker w) (Handlers.set_s_db d (w_store w))).

(** ** A thread and its provider *)

(** The thread's task reads one message, if there is one. *)
Definition turn (thread_id : string) (w : world) : world :=
  match thread_turn thread_id w with Some c => (alone c w).2 | None => w end.

Definition posts (call : broker -> bool * broker) (w : world) : world := on_broker (fun b => (call b).2) w.

(** [_Taker.deliver], and what the in-process link says of an accepted run. *)
Definition deliver (run_id key : string) : world -> world := posts (answer_offer run_id (Answer true) key).

(** The offer is made and taken. *)
Definition taken (thread_id run_id key : string) (w : world) : world :=
  turn thread_id (deliver run_id key (turn thread_id w)).

(** The provider reports the events of its stream, and its end; the last
    message read is the poke of the run's going. *)
Definition streamed (thread_id run_id key : string) (events : list dict) (w : world) : world :=
  let w := foldl (fun w e => turn thread_id (posts (report_event run_id (JObj e) key) w)) w events in
  turn thread_id (turn thread_id (posts (finish_stream run_id key) w)).

(** What [handle.events()] yields, and whether it ends. *)
Fixpoint heard (l : list out_item) : list json * bool :=
  match l with
  | [] => ([], false)
  | END_OF_STREAM :: _ => ([], true)
  | Item e :: l => let '(events, ended) := heard l in (e :: events, ended)
  end.

Definition stream_of (run_id : string) (w : world) : list json * bool :=
  match b_heap (w_broker w) !! run_id with Some r => heard (r_out_queue r) | None => ([], false) end.

(** Listening until the stream ends, or giving up with nothing. *)
Definition drained (run_id : string) (w : world) : list json * bool :=
  let '(events, ended) := stream_of run_id w in (if ended then events else [], ended).

Variable cfg : settings.

(** ** The row vanishes *)

Record vanished : Type := mkVanished {
  v_accepted : bool;
  v_events : list json;
  v_hung : bool;
  v_stored_run : option RunRecord;
  v_stored_events : list dict;
}.

(** A run of [agent] is started and taken, the database is replaced, and the
    provider goes on as if nothing happened. *)
Definition vanish_probe (agent : AgentRef) (key : string) (ids : string * string) (event : dict) (w : world) : loop vanished :=
  started <~ start_run cfg ids.1 ids.2 agent [("messages", JList [])] None None w ;;
  let '(e, w) := started in
  w <- replaced BUT_PROVIDERS (taken (en_thread_id e) (en_run_id e) key w) ;;
  let '(accepted, b) := report_event (en_run_id e) (JObj event) key (w_broker w) in
  let b := (finish_stream (en_run_id e) key b).2 in
  let w := turn (en_thread_id e) (turn (en_thread_id e) (turn (en_thread_id e) (mkWorld b (w_store w)))) in
  let '(events, ended) := drained (en_run_id e) w in
  Some (Ok (mkVanished accepted events (negb ended) (get_run (en_run_id e) (db_of w)) (get_run_events (en_run_id e) 0 (db_of w)))).

(** The exit status. *)
Definition vanish_status (v : vanished) : nat :=
  if negb (v_hung v) && bool_decide (length (v_stored_events v) = 0) then 0 else 1.

(** ** On the facade *)
Variable callback : nat -> Facade.ChangeEvent -> list nat -> list nat * option exn.
Notation funduq := Facade.funduq.

Definition world_of (f : funduq) : world := mkWorld (Facade.f_broker f) (Facade.f_store f).
Definition with_world (w : world) (f : funduq) : funduq := Facade.set_f_world (w_broker w) (w_store w) f.

Definition on_world (g : world -> world) (f : funduq) : funduq := with_world (g (world_of f)) f.

(** [serve] of one probe, [register] of the other: open a link and publish
    names on it.  [ids] are the ticket and the nonce minted. *)
Definition publish (fp : string) (link : Roster.Link) (ids : string * string) (names : list string) (f : funduq)
    : py (list (string * AgentRef) * funduq) :=
  let '(answer, f) := Facade.attach_provider (identity cfg) callback ids.1 ids.2 link None None None f in
  _ ← answer;
  let batch := map (fun n => mkRegistration n "" [] (JObj []) false) names in
  let '(mapping, f) := alone (Facade.register_agents callback fp (Roster.connection link) (fun _ => false) batch None) f in
  mapping ← mapping; Ok (mapping, f).

(** [mapping[name]]. *)
Definition of_name (name : string) (mapping : list (string * AgentRef)) : py AgentRef :=
  match aget name mapping with Some ref => Ok ref | None => Err KeyError end.

(** ** The row vanishes, from the start *)

(** [_Taker]: it signs, confirms nothing and declares no capacity. *)
Definition _Taker (key : private_key) (id : nat) : Roster.Link :=
  Roster.mkLink (mkConn id (public_hex key) None)
    (Some (fun funduq_public_key funduq_nonce provider_nonce =>
             Ok (Roster.identity_sign_connect key funduq_public_key funduq_nonce provider_nonce))) None.

(** What the probe sends. *)
Definition content : dict := [("type", JStr "TEXT_MESSAGE_CONTENT"); ("messageId", JStr "m"); ("delta", JStr "hi")].

Definition vanish_main (fp : string) (key : private_key) (id : nat) (opening run : string * string) (f : funduq) : loop nat :=
  registration <- publish fp (_Taker key id) opening ["a"] f ;;
  let '(registration, f) := registration in
  agent <- of_name "a" registration ;;
  v <~ vanish_probe agent (public_hex key) run content (world_of f) ;;
  Some (Ok (vanish_status v)).

(** ** A new database *)

(** [Provider.run_stream]. *)
Definition translation (agent_name : string) (thread_id run_id : string) : list dict :=
  let ids := [("threadId", JStr thread_id); ("runId", JStr run_id)] in
  [("type", JStr "RUN_STARTED") :: ids;
   [("type", JStr "TEXT_MESSAGE_START"); ("messageId", JStr "m1"); ("role", JStr "assistant")];
   [("type", JStr "TEXT_MESSAGE_CONTENT"); ("messageId", JStr "m1"); ("delta", JStr ("served by " +:+ agent_name))];
   [("type", JStr "TEXT_MESSAGE_END"); ("messageId", JStr "m1")];
   ("type", JStr "RUN_FINISHED") :: ids].

(** A run of [agent] is started, served by its link, and drained; its status is read back. *)
Definition translated (agent : AgentRef) (ids : string * string) (w : world) : loop (list json * run_status * world) :=
  started <~ start_run cfg ids.1 ids.2 agent [("messages", JList [])] None None w ;;
  let '(e, w) := started in
  let t := en_thread_id e in let id := en_run_id e in
  let w := streamed t id (ref_provider_key agent) (translation (ref_name agent) t id) (taken t id (ref_provider_key agent) w) in
  match get_run id (db_of w) with
  | Some run => Some (Ok ((drained id w).1, rr_status run, w))
  | None => Some (Err AttributeError)
  end.

(** The exit status of the probe that replaces the database under a provider
    and has it publish again. *)
Definition new_database_probe (fp : string) (link : Roster.Link) (opening reopening run run' : string * string) (f : funduq) : loop nat :=
  first <- publish fp link opening ["translator"] f ;;
  let '(first, f) := first in
  agent <- of_name "translator" first ;;
  played <~ translated agent run (world_of f) ;;
  let '(before, _, w) := played in
  w <- replaced EVERYTHING w ;;
  second <- publish fp link reopening ["translator"] (with_world w f) ;;
  let '(second, f) := second in
  agent' <- of_name "translator" second ;;
  played <~ translated agent' run' (world_of f) ;;
  let '(after, status, _) := played in
  Some (Ok (if bool_decide (agent' = agent) && bool_decide (status = completed) && bool_decide (length after = length before)
            then 0 else 1)).

(** ** Nobody says anything *)

(** [Findings.record] and [summarize]: silent, and whether it must answer. *)
Definition record (name : string) (silent must_answer : bool) (rows : list (string * bool * bool)) : list (string * bool * bool) :=
  rows ++ [(name, silent, must_answer)].
Definition summarize (rows : list (string * bool * bool)) : nat :=
  length (filter (fun r => r.1.2 = true /\ r.2 = true) rows).

(** [2]: the run's provider leaves before it is offered; the sweep comes when
    it has been unserved for [timeout].  How the run ended, its reason, and
    whether its stream did. *)
Definition unserved (agent : AgentRef) (c : ConnectedProvider) (ids : string * string) (timeout : Z) (f : funduq)
    : loop (option run_status * json * bool * funduq) :=
  started <~ start_run cfg ids.1 ids.2 agent [("messages", JList [])] None None (world_of f) ;;
  let '(e, w) := started in
  let f := Facade.detach_provider callback (ref_provider_key agent) c (with_world w f) in
  let t := en_thread_id e in
  let f := on_world (fun w => turn t (turn t w)) f in
  let f := on_world (on_broker (fun b => sweep timeout (set_b_now (b_now b + timeout)%Z b))) f in
  let f := on_world (fun w => turn t (turn t (turn t w))) f in
  let d := db_of (world_of f) in
  Some (Ok (rr_status <$> get_run (en_run_id e) d, failure_reason_of (get_run_events (en_run_id e) 0 d),
            (drained (en_run_id e) (world_of f)).2, f)).

(** [3]: is a name still routed once the database is replaced, and who is on the roster? *)
Definition still_routed (agent : AgentRef) (window : Z) (w : world) : py (bool * list string) :=
  w ← replaced EVERYTHING w;
  Ok (bool_decide (is_Some (serving agent (w_broker w))), map (fun kv => ref_name kv.1.1) (list_agents window w)).

Definition told (status : option run_status) : bool := bool_decide (status = Some failed) || bool_decide (status = Some cancelled).

End play.

(** The rows and the exit status.  [quick] is a second object, with its own
    settings, on the same database; [typo], [lonely] and [steady] are the
    three providers, each with the fingerprint of its key. *)
Definition silence_probe `{HC : Crypto, HT : TokenCodec, HR : RunModel, HA : !Handlers.AGUI} (cfg quick_cfg : settings)
    (callback : nat -> Facade.ChangeEvent -> list nat -> list nat * option exn) (f quick : Facade.funduq)
    (typo lonely steady : string * Roster.Link) (o1 o2 o3 run : string * string) (timeout window : Z)
    : loop (list (string * bool * bool) * nat) :=
  (first <- publish cfg callback typo.1 typo.2 o1 ["translatr"] f ;;
   let '(_, f) := first in
   let rows := record "a name never registered" false true [] in
   let quick := Facade.set_f_world (Facade.f_broker quick) (Facade.f_store f) quick in
   second <- publish quick_cfg callback lonely.1 lonely.2 o2 ["unserved"] quick ;;
   let '(mapping, quick) := second in
   agent <- of_name "unserved" mapping ;;
   ended <~ unserved quick_cfg callback agent (Roster.connection lonely.2) run timeout quick ;;
   let '(status, _, _, quick) := ended in
   let rows := record "nobody is serving that agent" (negb (told status)) true rows in
   let f := Facade.set_f_world (Facade.f_broker f) (Facade.f_store quick) f in
   third <- publish cfg callback steady.1 steady.2 o3 ["steady"] f ;;
   let '(mapping, f) := third in
   agent <- of_name "steady" mapping ;;
   found <- still_routed agent window (world_of f) ;;
   let rows := record "the database is replaced under a live attachment" found.1 false rows in
   Some (Ok (rows, summarize rows)))%door.

End Play.
