(* ===== verification/PlayOk.v ===== *)
(** * What the played scenes come to

    Run alone, a coroutine is a function on the world, and the handling of a
    message is computed on the little of it that it touches: the run, its
    thread, the provider's places and the store.  From there: a run served by
    its provider completes, a run whose row vanished ends with nothing
    recorded, and the probes' exit statuses. *)

From S2P Require Import Prelude Errors Json Pause Crypto Chain Models Repo RepoFacts Coop BrokerState BrokerOps Dispatch Handlers LiveRoster Roster RosterFacts Kyok Doors DoorsOk Link Core Facade FacadeOk Play.

Module PlayOk.
Import Broker BrokerOps Dispatch Repo Kyok Doors Core Play.

#[local] Existing Instance Handlers.store_seams.

(** ** Running alone *)
Section alone.
Context {W : Type}.
Implicit Types w : W.

Lemma finish_sbind {A B} (s : susp W A) (f : A -> comp W B) w :
  (let '(w', s') := sbind s f w in finish s' w') = (let '(a, w1) := finish s w in alone (f a) w1).
Proof.
  revert s w. fix IH 1. intros [a|k] w; [done|]. cbn. destruct (k w) as [w1 s1]. apply IH.
Qed.

Lemma alone_bind {A B} (c : comp W A) (f : A -> comp W B) w :
  alone (cbind c f) w = (let '(a, w1) := alone c w in alone (f a) w1).
Proof. unfold alone at 1 2, cbind. destruct (c w) as [w1 s]. apply finish_sbind. Qed.

Definition after (c : comp W ()) w : W := (alone c w).2.

Lemma after_bind {A} (c : comp W A) (k : A -> comp W ()) w : after (cbind c k) w = after (k (alone c w).1) (alone c w).2.
Proof. unfold after. rewrite alone_bind. by destruct (alone c w). Qed.

Lemma after_then (c k : comp W ()) w : after (cbind c (fun _ => k)) w = after k (after c w).
Proof. apply after_bind. Qed.

(** What a schedule that does nothing else comes to. *)
Lemma run_alone_finish {A} n (s : susp W A) w w' a : run_alone (repeat id n) s w = (w', Done a) -> finish s w = (a, w').
Proof.
  revert s w. induction n as [|n IH]; intros [x|k] w; cbn; try by intros [= -> ->].
  destruct (k w) as [w1 s1]. apply IH.
Qed.
End alone.

Lemma alone_focus {W V} (view : W -> option V) (put : V -> W -> W) (c : comp V ()) w v :
  (forall v w, is_Some (view w) -> view (put v w) = Some v) -> (forall v v' w, put v' (put v w) = put v' w) ->
  view w = Some v -> after (focus view put c) w = put (after c v) w.
Proof.
  intros Hvp Hpp Hv. unfold after, alone, focus. rewrite Hv. destruct (c v) as [v1 s].
  assert (forall (s : susp V ()) v1, (finish (focus_susp view put s) (put v1 w)).2 = put (finish s v1).2 w) as Hf; [|apply Hf].
  fix IH 1. intros [[]|k] v2; [done|]. cbn. rewrite Hvp by by eexists. destruct (k v2) as [v3 s3]. rewrite Hpp. apply IH.
Qed.

Section handlers.
Context `{HA : !Handlers.AGUI}.
Notation store := Handlers.store.

(** ** Handlers *)

Definition handled (cmd : command) (rs : Run * store) : Run * store := after (Handlers.make_handlers cmd) rs.

Lemma after_transaction f next (r : Run) (s : store) :
  after (Handlers.transaction f next) (r, s) = match f s with Ok s' => after next (r, s') | Err _ => (r, s) end.
Proof.
  unfold Handlers.transaction. rewrite after_bind. cbn [suspend alone finish fst snd]. unfold after at 1, alone. cbn [fst snd].
  destruct (f s) as [s'|]; [|done]. exact (after_then suspend next (r, s')).
Qed.

Lemma after_reading k (r : Run) (s : store) : after (Handlers.reading_run k) (r, s) = after (k r) (r, s).
Proof. done. Qed.

Lemma after_on_run f (r : Run) (s : store) : after (Handlers.on_run f) (r, s) = (f r, s).
Proof. done. Qed.

Lemma handled_offer r s : handled Offer (r, s) = match Handlers.mark (r_run_id r) offering s with Ok s' => (r, s') | Err _ => (r, s) end.
Proof. unfold handled, Handlers.make_handlers, Handlers._handle_offer. rewrite after_reading. exact (after_transaction _ (ret ()) r s). Qed.

Lemma handled_claim r s : handled Claim (r, s) = match Handlers.mark (r_run_id r) running s with Ok s' => (r, s') | Err _ => (r, s) end.
Proof. unfold handled, Handlers.make_handlers, Handlers._handle_claim. rewrite after_reading. exact (after_transaction _ (ret ()) r s). Qed.

Definition takes (e : dict) : bool := Handlers.unknown_type (JObj e) || Handlers.valid_event (JObj e).

(** The transaction of a relayed event. *)
Definition relaying (r : Run) (e : dict) (s : store) : py store :=
  Handlers.on_db (fun d => d ← Repo.append_run_event (r_run_id r) (r_seq r) e d;
                           Ok (Repo.touch_run_activity (Handlers.s_now s) (r_run_id r) d)) s.

Lemma handled_relay r s e : takes e = true ->
  handled (RelayEvent (JObj e)) (r, s) =
  let r := Handlers.next_seq (Handlers.saw e r) in
  match relaying r e s with Ok s' => (set_r_out_queue (r_out_queue r ++ [Item (JObj e)]) r, s') | Err _ => (r, s) end.
Proof.
  intros Ht. unfold handled, Handlers.make_handlers, Handlers._handle_relay.
  replace (negb (Handlers.unknown_type (JObj e)) && negb (Handlers.valid_event (JObj e))) with false
    by (unfold takes in Ht; by destruct (Handlers.unknown_type (JObj e)), (Handlers.valid_event (JObj e))).
  rewrite after_then, after_on_run, after_reading. cbv zeta. set (r' := Handlers.next_seq _).
  exact (after_transaction (relaying r' e) (Handlers.put e) r' s).
Qed.

Lemma handled_malformed r s e : takes e = false ->
  handled (RelayEvent (JObj e)) (r, s) = (set_r_poison (Some "provider sent a malformed AG-UI event") r, s).
Proof.
  intros Ht. unfold handled, Handlers.make_handlers, Handlers._handle_relay.
  replace (negb (Handlers.unknown_type (JObj e)) && negb (Handlers.valid_event (JObj e))) with true; [done|].
  unfold takes in Ht. by destruct (Handlers.unknown_type (JObj e)), (Handlers.valid_event (JObj e)).
Qed.

Lemma handled_finish r s : bool_decide (Handlers.final_status r = failed) && negb (r_saw_run_error r) = false ->
  handled FinishStream (r, s) =
  match Handlers.mark (r_run_id r) (Handlers.final_status r) s with Ok s' => (r, s') | Err _ => (r, s) end.
Proof.
  intros Hf. unfold handled, Handlers.make_handlers, Handlers._handle_finish. rewrite after_reading. cbv zeta. rewrite Hf.
  exact (after_transaction _ (ret ()) r s).
Qed.

Notation world := (Dispatch.world store).

(** ** Coroutines of a thread *)

Lemma after_do f (w : world) : after (do f) w = on_broker f w.
Proof. done. Qed.

Lemma after_ret (w : world) : after (ret ()) w = w.
Proof. done. Qed.

Lemma after_with_run id k (w : world) r : b_heap (w_broker w) !! id = Some r -> after (with_run id k) w = after (k r) w.
Proof. intros Hr. unfold after, alone, with_run. by rewrite Hr. Qed.

Lemma after_with_thread t k (w : world) h : b_threads (w_broker w) !! t = Some h -> after (with_thread t k) w = after (k h) w.
Proof. intros Hh. unfold after, alone, with_thread. by rewrite Hh. Qed.

Lemma after_with_broker k (w : world) : after (with_broker k) w = after (k (w_broker w)) w.
Proof. done. Qed.

Lemma after_record id cmd (w : world) r : id ∈ b_handlers (w_broker w) -> b_heap (w_broker w) !! id = Some r ->
  after (_record id cmd) w = run_put id (handled cmd (r, w_store w)) w.
Proof.
  intros Hin Hr. unfold _record. rewrite after_with_broker, bool_decide_eq_true_2 by done. apply alone_focus.
  - intros [r' s'] w' _. unfold run_view, run_put. cbn. by rewrite lookup_insert_eq.
  - intros [r1 s1] [r2 s2] [b s]. unfold run_put. cbn. f_equal. unfold set_b_heap. cbn. by rewrite insert_insert_eq.
  - unfold run_view. by rewrite Hr.
Qed.

Lemma after_forget id (w : world) : after (_forget id) w = mkWorld (forget id (w_broker w)) (Handlers.discard id (w_store w)).
Proof. done. Qed.

(** ** What a scene is about

    [b0] is the broker the scene began with; the run [id] and its handler on
    thread [t], the providers and the store are as they are now. *)
Record on_stage (b0 : broker) (t id : string) (r : Run) (h : ThreadHandler) (P : gmap string ProviderHandler) (s : store) (w : world)
    : Prop := {
  os_run : b_heap (w_broker w) !! id = Some r;
  os_thread : b_threads (w_broker w) !! t = Some h;
  os_post : b_run_threads (w_broker w) !! id = Some t;
  os_handler : id ∈ b_handlers (w_broker w);
  os_tracked : id ∈ b_runs (w_broker w);
  os_ids : r_run_id r = id /\ r_thread_id r = t;
  os_providers : b_providers (w_broker w) = P;
  os_store : w_store w = s;
  os_still : b_serving (w_broker w) = b_serving b0 /\ b_running (w_broker w) = b_running b0 /\
    b_quality_tolerance (w_broker w) = b_quality_tolerance b0;
  os_clock : b_unserved_since (w_broker w) = b_unserved_since b0 /\ b_now (w_broker w) = b_now b0;
  os_runs : b_runs b0 = [] -> b_runs (w_broker w) = [id];
  os_others t' : t' <> t -> b_threads b0 !! t' = None -> b_threads (w_broker w) !! t' = None;
}.

(** A run let go of while it holds a place. *)
Lemma forgets b id r key p : id ∈ b_runs b -> b_heap b !! id = Some r -> r_offered_to r = Some key -> b_providers b !! key = Some p ->
  b_heap (forget id b) !! id = Some (set_r_offered_conn None (set_r_offered_to None (set_r_settled true r))) /\
  b_threads (forget id b) = (fun h => set_t_inbox (t_inbox h ++ [Poke_]) h) <$> b_threads b /\
  b_providers (forget id b) = <[key := free_place p]> (b_providers b) /\
  b_serving (forget id b) = b_serving b /\ b_running (forget id b) = b_running b /\ b_quality_tolerance (forget id b) = b_quality_tolerance b.
Proof.
  intros Hin Hr Ho Hp. unfold forget, tracked. rewrite bool_decide_eq_true_2, Hr by done. cbv zeta. rewrite Ho.
  rewrite (bool_decide_eq_false_2 (Some key = None)) by done. unfold _release. cbn. rewrite lookup_alter_eq, Hr. cbn. rewrite Ho, Hp. cbn.
  by rewrite !lookup_alter_eq, Hr.
Qed.

Section stage.
Context (b0 : broker) (t id : string).
Implicit Types (r : Run) (h : ThreadHandler) (P : gmap string ProviderHandler) (s : store) (w : world).

Lemma stage_upd_run r h P s w f : on_stage b0 t id r h P s w -> r_run_id (f r) = r_run_id r -> r_thread_id (f r) = r_thread_id r ->
  on_stage b0 t id (f r) h P s (on_broker (upd_run id f) w).
Proof.
  intros [] E1 E2. constructor; cbn; try done; [by rewrite lookup_alter_eq, os_run0|by rewrite E1, E2].
Qed.

Lemma stage_upd_thread r h P s w g : on_stage b0 t id r h P s w -> on_stage b0 t id r (g h) P s (on_broker (upd_thread t g) w).
Proof.
  intros []. constructor; cbn; try done; [by rewrite lookup_alter_eq, os_thread0|].
  intros t' Hne Hn. rewrite lookup_alter_ne by done. auto.
Qed.

Lemma stage_upd_provider r h P s w key g p : on_stage b0 t id r h P s w -> P !! key = Some p ->
  on_stage b0 t id r h (<[key := g p]> P) s (on_broker (upd_provider key g) w).
Proof. intros [] Hp. constructor; cbn; try done. unfold _provider. by rewrite os_providers0, Hp. Qed.

Lemma stage_put r h P s w r' s' : on_stage b0 t id r h P s w -> r_run_id r' = r_run_id r -> r_thread_id r' = r_thread_id r ->
  on_stage b0 t id r' h P s' (run_put id (r', s') w).
Proof. intros [] E1 E2. constructor; cbn; try done; [by rewrite lookup_insert_eq|by rewrite E1, E2]. Qed.

Lemma stage_posts r h P s w m : on_stage b0 t id r h P s w ->
  on_stage b0 t id r (set_t_inbox (t_inbox h ++ [m]) h) P s (posts (_post id m) w) /\ (_post id m (w_broker w)).1 = true.
Proof.
  intros Hs. unfold posts, _post. split; [|by rewrite (os_post _ _ _ _ _ _ _ _ Hs)].
  assert (on_broker (fun b => (match b_run_threads b !! id with Some t => (true, put_nowait t m b) | None => (false, b) end).2) w =
    on_broker (upd_thread t (fun h => set_t_inbox (t_inbox h ++ [m]) h)) w) as ->
    by (unfold on_broker; by rewrite (os_post _ _ _ _ _ _ _ _ Hs)).
  by apply (stage_upd_thread r h P s w (fun h => set_t_inbox (t_inbox h ++ [m]) h)).
Qed.

Lemma stage_serving r h P s w a : on_stage b0 t id r h P s w ->
  serving a (w_broker w) = match aget a (b_serving b0) with Some key => P !! key ≫= p_connection | None => None end.
Proof.
  intros []. unfold serving. destruct os_still0 as (->&_). destruct (aget a (b_serving b0)) as [key|]; [|done]. rewrite os_providers0.
  by destruct (P !! key).
Qed.

(** A message popped and read. *)
Lemma turn_reads w h m inbox : b_threads (w_broker w) !! t = Some h -> t_inbox h = m :: inbox ->
  turn t w = after (maybe_leave t) (after (_on_message t m) (on_broker (upd_thread t pop_inbox) w)).
Proof.
  intros Hh Hi. unfold turn, thread_turn. rewrite Hh, Hi. change (alone ?c w).2 with (after c w). rewrite !after_then. done.
Qed.

Lemma stays w r h P s : on_stage b0 t id r h P s w -> t_live h <> [] -> after (maybe_leave t) w = w.
Proof.
  intros Hs Hl. unfold maybe_leave. rewrite (after_with_thread _ _ _ _ (os_thread _ _ _ _ _ _ _ _ Hs)).
  by rewrite (bool_decide_eq_false_2 (t_live h = [])).
Qed.

Lemma settled_heap r h P s w : on_stage b0 t id r h P s w -> settled_in (w_broker w) id = r_settled r.
Proof. intros []. unfold settled_in. by rewrite os_run0. Qed.

(** ** Looking for the next turn *)

Lemma drop_settled_head r h P s w q : on_stage b0 t id r h P s w -> r_settled r = false -> drop_settled (w_broker w) (id :: q) = id :: q.
Proof. intros Hs Hr. cbn [drop_settled]. by rewrite (settled_heap _ _ _ _ _ Hs), Hr. Qed.

Lemma set_queue_id h : set_t_queue (t_queue h) h = h.
Proof. by destruct h. Qed.

(** [_advance] up to its reading of the head. *)
Lemma advance_reads r h P s w q : on_stage b0 t id r h P s w -> t_queue h = id :: q -> r_settled r = false -> exists w1,
  on_stage b0 t id r h P s w1 /\
  after (_advance t) w = after (if bool_decide (r_claimed_by r <> None) || r_verdict_open r || bool_decide (r_offered_to r <> None)
                                then ret () else _offer t id false) w1.
Proof.
  intros Hs Hq Hr. set (g := fun h => set_t_queue (drop_settled (w_broker w) (t_queue h)) h). exists (on_broker (upd_thread t g) w).
  assert (on_stage b0 t id r h P s (on_broker (upd_thread t g) w)) as H1.
  { replace h with (g h) at 1 by (unfold g; rewrite Hq, (drop_settled_head _ _ _ _ _ _ Hs Hr), <- Hq; apply set_queue_id).
    by apply stage_upd_thread. }
  split; [exact H1|]. unfold _advance. rewrite after_then, after_with_broker, after_do. fold g.
  rewrite (after_with_thread _ _ _ _ (os_thread _ _ _ _ _ _ _ _ H1)), Hq.
  by rewrite (after_with_run _ _ _ _ (os_run _ _ _ _ _ _ _ _ H1)).
Qed.

Lemma advance_busy r h P s w q : on_stage b0 t id r h P s w -> t_queue h = id :: q -> r_settled r = false -> r_offered_to r <> None ->
  on_stage b0 t id r h P s (after (_advance t) w).
Proof.
  intros Hs Hq Hr Ho. destruct (advance_reads _ _ _ _ _ _ Hs Hq Hr) as (w1&H1&->).
  by rewrite (bool_decide_eq_true_2 (r_offered_to r <> None)), orb_true_r by done.
Qed.

Lemma advance_empty r h P s w : on_stage b0 t id r h P s w -> t_queue h = [] -> on_stage b0 t id r h P s (after (_advance t) w).
Proof.
  intros Hs Hq. unfold _advance. rewrite after_then, after_with_broker, after_do. set (g := fun h => set_t_queue _ h).
  assert (on_stage b0 t id r h P s (on_broker (upd_thread t g) w)) as H1.
  { replace h with (g h) at 1 by (unfold g; rewrite Hq; cbn [drop_settled]; rewrite <- Hq; apply set_queue_id). by apply stage_upd_thread. }
  by rewrite (after_with_thread _ _ _ _ (os_thread _ _ _ _ _ _ _ _ H1)), Hq.
Qed.

(** ** An offer *)

Definition with_place (c : ConnectedProvider) (r : Run) : Run :=
  set_r_verdict_open true (set_r_offer_id (r_offer_id r + 1) (set_r_is_interjection false
    (set_r_offered_conn (Some c) (set_r_offered_to (Some (public_key c)) r)))).

Definition one_more (p : ProviderHandler) : ProviderHandler := set_p_in_flight (p_in_flight p + 1)%Z p.

Lemma stage_offer r h P s w c p s' : on_stage b0 t id r h P s w -> serving (r_agent r) (w_broker w) = Some c ->
  P !! public_key c = Some p -> has_room p = true -> Handlers.input_error (r_input_json r) = None ->
  Handlers.mark id offering s = Ok s' ->
  on_stage b0 t id (spawn_offer (with_place c r)) h (<[public_key c := one_more p]> P) s' (after (_offer t id false) w).
Proof.
  intros Hs Hsv Hp Hroom Hin Hm. unfold _offer.
  rewrite (after_with_run _ _ _ _ (os_run _ _ _ _ _ _ _ _ Hs)), after_with_broker, Hsv.
  assert (_provider (public_key c) (w_broker w) = p) as -> by (unfold _provider; by rewrite (os_providers _ _ _ _ _ _ _ _ Hs), Hp).
  rewrite Hroom. cbn [negb].
  change (run_agent_input_error (r_input_json r)) with (Handlers.input_error (r_input_json r)). rewrite Hin.
  rewrite !after_then, !after_do. pose proof (os_ids _ _ _ _ _ _ _ _ Hs) as [Hid _].
  assert (on_stage b0 t id (with_place c r) h (<[public_key c := one_more p]> P) s (on_broker (take_place id c false) w)) as H1.
  { pose proof (stage_upd_run r h P s w (with_place c) Hs eq_refl eq_refl) as H1.
    exact (stage_upd_provider _ h P s _ (public_key c) one_more p H1 Hp). }
  rewrite (after_record _ _ _ _ (os_handler _ _ _ _ _ _ _ _ H1) (os_run _ _ _ _ _ _ _ _ H1)).
  rewrite (os_store _ _ _ _ _ _ _ _ H1), handled_offer. change (r_run_id (with_place c r)) with (r_run_id r). rewrite Hid, Hm.
  assert (on_stage b0 t id (with_place c r) h (<[public_key c := one_more p]> P) s'
    (run_put id (with_place c r, s') (on_broker (take_place id c false) w))) as H2 by (by eapply stage_put).
  by apply (stage_upd_run (with_place c r) h _ s' _ spawn_offer H2).
Qed.

(** ** The messages of a run that is served *)

(** Queued, alone on its thread, and offered. *)
Lemma turn_queued r P s w c p s' agent :
  on_stage b0 t id r (mkThread t agent [Queued_ id] [] []) P s w ->
  r_claimed_by r = None -> r_verdict_open r = false -> r_offered_to r = None -> r_settled r = false ->
  serving (r_agent r) (w_broker w) = Some c -> P !! public_key c = Some p -> has_room p = true ->
  Handlers.input_error (r_input_json r) = None -> Handlers.mark id offering s = Ok s' ->
  on_stage b0 t id (spawn_offer (with_place c r)) (mkThread t agent [] [id] [id]) (<[public_key c := one_more p]> P) s' (turn t w).
Proof.
  intros Hs Hc Hv Ho Hst Hsv Hp Hroom Hin Hm.
  rewrite (turn_reads _ _ (Queued_ id) [] (os_thread _ _ _ _ _ _ _ _ Hs) eq_refl).
  pose proof (stage_upd_thread _ _ _ _ _ pop_inbox Hs) as H1. unfold _on_message. rewrite after_then. cbn [_on_message].
  unfold _on_queued. rewrite after_then, after_do.
  pose proof (stage_upd_thread _ _ _ _ _ (add_live id) H1) as H2. set (w2 := on_broker (upd_thread t (add_live id)) _) in *.
  rewrite (after_with_thread _ _ _ _ (os_thread _ _ _ _ _ _ _ _ H2)), (after_with_run _ _ _ _ (os_run _ _ _ _ _ _ _ _ H2)), after_with_broker.
  cbn [add_live pop_inbox t_queue set_t_inbox set_t_live joins_head]. rewrite after_do.
  pose proof (stage_upd_thread _ _ _ _ _ (fun h => set_t_queue (t_queue h ++ [id]) h) H2) as H3.
  set (w3 := on_broker _ w2) in *.
  assert (set_t_queue (t_queue (add_live id (pop_inbox (mkThread t agent [Queued_ id] [] []))) ++ [id]) (add_live id (pop_inbox (mkThread t agent [Queued_ id] [] [])))
    = mkThread t agent [] [id] [id]) as Eh.
  { unfold add_live, pop_inbox. cbn [t_live set_t_inbox]. by rewrite bool_decide_eq_false_2 by apply not_elem_of_nil. }
  cbv beta in H3. rewrite Eh in H3.
  destruct (advance_reads _ _ _ _ _ [] H3 eq_refl Hst) as (w4&H4&->).
  rewrite (bool_decide_eq_false_2 (r_claimed_by r <> None)), Hv, (bool_decide_eq_false_2 (r_offered_to r <> None)) by (rewrite ?Hc, ?Ho; auto).
  cbn [orb]. rewrite (stays _ (spawn_offer (with_place c r)) (mkThread t agent [] [id] [id]) (<[public_key c := one_more p]> P) s'); [|eapply stage_offer; try done|done].
  - eapply stage_offer; try done. rewrite (stage_serving _ _ _ _ _ _ H4), <- (stage_serving _ _ _ _ _ _ Hs). exact Hsv.
  - rewrite (stage_serving _ _ _ _ _ _ H4), <- (stage_serving _ _ _ _ _ _ Hs). exact Hsv.
Qed.

Lemma after_with_live k r h P s w : on_stage b0 t id r h P s w -> id ∈ t_live h -> after (with_live t id k) w = after (k r) w.
Proof.
  intros Hs Hl. unfold with_live. rewrite (after_with_thread _ _ _ _ (os_thread _ _ _ _ _ _ _ _ Hs)), bool_decide_eq_true_2 by done.
  cbn [when]. by rewrite (after_with_run _ _ _ _ (os_run _ _ _ _ _ _ _ _ Hs)).
Qed.

Lemma stage_record cmd r h P s w r' s' : on_stage b0 t id r h P s w -> handled cmd (r, s) = (r', s') ->
  r_run_id r' = r_run_id r -> r_thread_id r' = r_thread_id r -> on_stage b0 t id r' h P s' (after (_record id cmd) w).
Proof.
  intros Hs Hh E1 E2. rewrite (after_record _ _ _ _ (os_handler _ _ _ _ _ _ _ _ Hs) (os_run _ _ _ _ _ _ _ _ Hs)).
  rewrite (os_store _ _ _ _ _ _ _ _ Hs), Hh. by eapply stage_put.
Qed.

(** The thread's handler while its one run is at work. *)
Notation working agent inbox := (mkThread t agent inbox [id] [id]).

Definition claimed (key : string) (r : Run) : Run :=
  set_r_cancel_notify (r_offered_conn r) (set_r_claimed_by (Some key) (set_r_offer_timer None (set_r_verdict_open false r))).

(** The offer is taken. *)
Lemma turn_answered r P s w agent key s' :
  on_stage b0 t id r (working agent [Answered_ id key (Answer true)]) P s w ->
  r_verdict_open r = true -> r_offered_to r = Some key -> r_is_interjection r = false -> r_cancel_requested r = false ->
  r_settled r = false -> is_conn (serving (r_agent r) (w_broker w)) (r_offered_conn r) = true ->
  Handlers.mark id running s = Ok s' -> on_stage b0 t id (claimed key r) (working agent []) P s' (turn t w).
Proof.
  intros Hs Hv Ho Hi Hc Hst Hconn Hm. pose proof (os_ids _ _ _ _ _ _ _ _ Hs) as [Hid _].
  rewrite (turn_reads _ _ (Answered_ id key (Answer true)) [] (os_thread _ _ _ _ _ _ _ _ Hs) eq_refl).
  assert (on_stage b0 t id r (working agent []) P s (on_broker (upd_thread t pop_inbox) w)) as H1 by exact (stage_upd_thread _ _ _ _ _ pop_inbox Hs).
  unfold _on_message. rewrite after_then. unfold _on_answered.
  rewrite (after_with_live _ _ _ _ _ _ H1) by (by left). rewrite Hv, (bool_decide_eq_false_2 (r_offered_to r <> Some key)) by (rewrite Ho; auto).
  cbn [negb orb]. rewrite !after_then, !after_do.
  pose proof (stage_upd_run _ _ _ _ _ (fun r => set_r_offer_timer None (set_r_verdict_open false r)) H1 eq_refl eq_refl) as H2.
  set (w2 := on_broker _ (on_broker (upd_thread t pop_inbox) w)) in *.
  set (claims := fun r => set_r_cancel_notify (r_offered_conn r) (set_r_claimed_by (Some key) r)).
  assert (on_stage b0 t id (claimed key r) (working agent []) P s (on_broker (upd_run id claims) w2)) as H3
    by exact (stage_upd_run _ _ _ _ _ claims H2 eq_refl eq_refl).
  assert (handled Claim (claimed key r, s) = (claimed key r, s')) as Hh
    by (rewrite handled_claim; change (r_run_id (claimed key r)) with (r_run_id r); by rewrite Hid, Hm).
  pose proof (stage_record _ _ _ _ _ _ _ _ H3 Hh eq_refl eq_refl) as H4. set (w4 := after (_record id Claim) _) in *.
  rewrite (after_with_run _ _ _ _ (os_run _ _ _ _ _ _ _ _ H4)), after_with_broker.
  change (r_agent (claimed key r)) with (r_agent r). change (r_offered_conn (claimed key r)) with (r_offered_conn r).
  rewrite (stage_serving _ _ _ _ _ _ H4), <- (stage_serving _ _ _ _ _ _ Hs), Hconn. cbn [negb]. rewrite after_then.
  change (r_is_interjection (claimed key r)) with (r_is_interjection r). rewrite Hi. cbn [negb when].
  assert (after (_release_interjections t id) w4 = w4) as ->.
  { unfold _release_interjections. rewrite (after_with_thread _ _ _ _ (os_thread _ _ _ _ _ _ _ _ H4)), after_with_broker. done. }
  rewrite (after_with_run _ _ _ _ (os_run _ _ _ _ _ _ _ _ H4)). change (r_cancel_requested (claimed key r)) with (r_cancel_requested r).
  rewrite Hc. cbn [when]. rewrite after_ret.
  pose proof (advance_busy _ _ _ _ _ [] H4 eq_refl Hst ltac:(change (r_offered_to r <> None); congruence)) as H5.
  by rewrite (stays _ _ _ _ _ H5).
Qed.

(** Something said that is neither fatal nor the end. *)
Lemma turn_relayed r P s w agent key e rest r' s' :
  on_stage b0 t id r (working agent (Said_ id key (RelayEvent e) :: rest)) P s w -> r_claimed_by r = Some key ->
  handled (RelayEvent e) (r, s) = (r', s') -> r_run_id r' = r_run_id r -> r_thread_id r' = r_thread_id r ->
  r_poison r' = None -> r_settled r' = false -> r_offered_to r' <> None ->
  on_stage b0 t id r' (working agent rest) P s' (turn t w).
Proof.
  intros Hs Hc Hh E1 E2 Hp Hst Ho.
  rewrite (turn_reads _ _ (Said_ id key (RelayEvent e)) rest (os_thread _ _ _ _ _ _ _ _ Hs) eq_refl).
  assert (on_stage b0 t id r (working agent rest) P s (on_broker (upd_thread t pop_inbox) w)) as H1 by exact (stage_upd_thread _ _ _ _ _ pop_inbox Hs).
  unfold _on_message. rewrite after_then. unfold _on_said. rewrite (after_with_live _ _ _ _ _ _ H1) by (by left).
  rewrite (bool_decide_eq_false_2 (r_claimed_by r <> Some key)) by (rewrite Hc; auto).
  unfold _record_and_maybe_settle. rewrite after_then. pose proof (stage_record _ _ _ _ _ _ _ _ H1 Hh E1 E2) as H2.
  rewrite (after_with_run _ _ _ _ (os_run _ _ _ _ _ _ _ _ H2)), Hp, after_ret.
  pose proof (advance_busy _ _ _ _ _ [] H2 eq_refl Hst Ho) as H3. by rewrite (stays _ _ _ _ _ H3).
Qed.

(** ** The run is over *)

Record off_stage (agent : AgentRef) (inbox : list message) (r : Run) (P : gmap string ProviderHandler) (s : store) (w : world) : Prop := {
  fs_run : b_heap (w_broker w) !! id = Some r;
  fs_thread : b_threads (w_broker w) !! t = match inbox with [] => None | _ => Some (mkThread t agent inbox [] []) end;
  fs_providers : b_providers (w_broker w) = P;
  fs_store : w_store w = s;
  fs_still : b_serving (w_broker w) = b_serving b0 /\ b_running (w_broker w) = b_running b0 /\
    b_quality_tolerance (w_broker w) = b_quality_tolerance b0;
  fs_others t' : t' <> t -> b_threads b0 !! t' = None -> b_threads (w_broker w) !! t' = None;
}.

Definition over (r : Run) : Run := set_r_offered_conn None (set_r_offered_to None (set_r_settled true (end_stream r))).

Lemma stage_settle r P s w agent inbox key p : on_stage b0 t id r (working agent inbox) P s w ->
  r_offered_to r = Some key -> P !! key = Some p ->
  off_stage agent (inbox ++ [Poke_]) (over r) (<[key := free_place p]> P) (Handlers.discard id s) (after (_settle t id) w).
Proof.
  intros Hs Ho Hp. unfold _settle. rewrite !after_then, !after_do, after_forget.
  pose proof (stage_upd_run _ _ _ _ _ end_stream Hs eq_refl eq_refl) as H1.
  pose proof (stage_upd_thread _ _ _ _ _ (drop_from id) H1) as H2. set (w2 := on_broker (upd_thread t (drop_from id)) _) in *.
  assert (drop_from id (working agent inbox) = mkThread t agent inbox [] []) as Eh
    by (unfold drop_from, set_t_queue, set_t_live; cbn; by rewrite !decide_True).
  rewrite Eh in H2. destruct H2.
  destruct (forgets (w_broker w2) id (end_stream r) key p os_tracked0 os_run0 Ho ltac:(by rewrite os_providers0)) as (Fr&Ft&Fp&Fs).
  constructor; cbn [w_broker w_store]; [exact Fr| |by rewrite Fp, os_providers0|by rewrite os_store0| |].
  - rewrite Ft, lookup_fmap, os_thread0. by destruct inbox.
  - destruct Fs as (->&->&->). done.
  - intros t' Hne Hn. by rewrite Ft, lookup_fmap, os_others0.
Qed.

(** What is still read of it: nothing any more. *)
Definition stale (m : message) : Prop := match m with Poke_ | Said_ _ _ _ => True | _ => False end.

Lemma off_advance agent inbox r P s w : inbox <> [] -> off_stage agent inbox r P s w -> off_stage agent inbox r P s (after (_advance t) w).
Proof.
  intros Hne []. destruct inbox as [|m inbox]; [done|]. unfold _advance. rewrite after_then, after_with_broker, after_do.
  set (w1 := on_broker _ w).
  assert (b_threads (w_broker w1) !! t = Some (mkThread t agent (m :: inbox) [] [])) as Ht
    by (unfold w1; cbn; by rewrite lookup_alter_eq, fs_thread0).
  rewrite (after_with_thread _ _ _ _ Ht). cbn [t_queue]. rewrite after_ret. constructor; try done.
  intros t' Hne' Hn. unfold w1. cbn. rewrite lookup_alter_ne by done. auto.
Qed.
Lemma off_stays agent inbox r P s w : inbox <> [] -> off_stage agent inbox r P s w -> after (maybe_leave t) w = w.
Proof.
  intros Hne []. destruct inbox as [|m inbox]; [done|]. unfold maybe_leave. rewrite (after_with_thread _ _ _ _ fs_thread0).
  cbn [t_live t_inbox]. rewrite (bool_decide_eq_false_2 (m :: inbox = [])) by done. by rewrite andb_false_r.
Qed.

Lemma turn_stale agent m rest r P s w : off_stage agent (m :: rest) r P s w -> stale m -> off_stage agent rest r P s (turn t w).
Proof.
  intros [] Hm. rewrite (turn_reads _ _ m rest fs_thread0 eq_refl). set (w1 := on_broker (upd_thread t pop_inbox) w).
  assert (b_threads (w_broker w1) !! t = Some (mkThread t agent rest [] [])) as Ht by (unfold w1; cbn; by rewrite lookup_alter_eq, fs_thread0).
  assert (after (_on_message t m) w1 = after (_advance t) w1) as ->.
  { unfold _on_message. rewrite after_then. destruct m; try done; cbn. unfold _on_said, with_live.
    by rewrite (after_with_thread _ _ _ _ Ht), bool_decide_eq_false_2 by (by apply not_elem_of_nil). }
  unfold _advance. rewrite after_then, after_with_broker, after_do. set (w2 := on_broker _ w1).
  assert (b_threads (w_broker w2) !! t = Some (mkThread t agent rest [] [])) as Ht2 by (unfold w2; cbn; by rewrite !lookup_alter_eq, fs_thread0).
  rewrite (after_with_thread _ _ _ _ Ht2). cbn [t_queue]. rewrite after_ret. unfold maybe_leave. rewrite (after_with_thread _ _ _ _ Ht2).
  cbn [t_live t_inbox]. rewrite (bool_decide_eq_true_2 ([] = [])) by done.
  assert (forall t', t' <> t -> b_threads b0 !! t' = None -> b_threads (w_broker w2) !! t' = None) as Hoth.
  { intros t' Hne Hn. unfold w2, w1. cbn. rewrite !lookup_alter_ne by done. auto. }
  destruct rest as [|m' rest]; cbn [andb].
  - rewrite bool_decide_eq_true_2 by done. cbn [when]. rewrite after_do. unfold leave, on_broker. rewrite Ht2. cbn [w_broker w_store t_agent].
    destruct (b_agent_threads (w_broker w2) !! agent); constructor; cbn; rewrite ?lookup_delete_eq; try done;
      intros t' Hne Hn; rewrite lookup_delete_ne by done; by apply Hoth.
  - rewrite bool_decide_eq_false_2 by done. cbn [when]. rewrite after_ret. by constructor.
Qed.

(** The end of the stream. *)
Lemma turn_finished r P s w agent key p rest r' s' :
  on_stage b0 t id r (working agent (Said_ id key FinishStream :: rest)) P s w -> r_claimed_by r = Some key ->
  handled FinishStream (r, s) = (r', s') -> r_run_id r' = r_run_id r -> r_thread_id r' = r_thread_id r ->
  r_poison r' = None -> r_offered_to r' = Some key -> P !! key = Some p ->
  off_stage agent (rest ++ [Poke_]) (over r') (<[key := free_place p]> P) (Handlers.discard id s') (turn t w).
Proof.
  intros Hs Hc Hh E1 E2 Hpo Ho Hp.
  rewrite (turn_reads _ _ (Said_ id key FinishStream) rest (os_thread _ _ _ _ _ _ _ _ Hs) eq_refl).
  assert (on_stage b0 t id r (working agent rest) P s (on_broker (upd_thread t pop_inbox) w)) as H1 by exact (stage_upd_thread _ _ _ _ _ pop_inbox Hs).
  unfold _on_message. rewrite after_then. unfold _on_said. rewrite (after_with_live _ _ _ _ _ _ H1) by (by left).
  rewrite (bool_decide_eq_false_2 (r_claimed_by r <> Some key)) by (rewrite Hc; auto).
  unfold _record_and_maybe_settle. rewrite after_then. pose proof (stage_record _ _ _ _ _ _ _ _ H1 Hh E1 E2) as H2.
  rewrite (after_with_run _ _ _ _ (os_run _ _ _ _ _ _ _ _ H2)), Hpo.
  pose proof (stage_settle _ _ _ _ _ _ _ _ H2 Ho Hp) as H3. assert (rest ++ [Poke_] <> []) as Hne by by destruct rest.
  pose proof (off_advance _ _ _ _ _ _ Hne H3) as H4. by rewrite (off_stays _ _ _ _ _ _ Hne H4).
Qed.

(** An event that poisons the run ends it. *)
Lemma turn_poisoned r P s w agent key p e rest r' s' r'' s'' why :
  on_stage b0 t id r (working agent (Said_ id key (RelayEvent e) :: rest)) P s w -> r_claimed_by r = Some key ->
  handled (RelayEvent e) (r, s) = (r', s') -> r_run_id r' = r_run_id r -> r_thread_id r' = r_thread_id r -> r_poison r' = Some why ->
  handled (Fail "provider_sent_malformed_event" (Some why)) (r', s') = (r'', s'') -> r_run_id r'' = r_run_id r' -> r_thread_id r'' = r_thread_id r' ->
  r_offered_to r'' = Some key -> P !! key = Some p ->
  off_stage agent (rest ++ [Poke_]) (over r'') (<[key := free_place p]> P) (Handlers.discard id s'') (turn t w).
Proof.
  intros Hs Hc Hh E1 E2 Hpo Hf F1 F2 Ho Hp.
  rewrite (turn_reads _ _ (Said_ id key (RelayEvent e)) rest (os_thread _ _ _ _ _ _ _ _ Hs) eq_refl).
  assert (on_stage b0 t id r (working agent rest) P s (on_broker (upd_thread t pop_inbox) w)) as H1 by exact (stage_upd_thread _ _ _ _ _ pop_inbox Hs).
  unfold _on_message. rewrite after_then. unfold _on_said. rewrite (after_with_live _ _ _ _ _ _ H1) by (by left).
  rewrite (bool_decide_eq_false_2 (r_claimed_by r <> Some key)) by (rewrite Hc; auto).
  unfold _record_and_maybe_settle. rewrite after_then. pose proof (stage_record _ _ _ _ _ _ _ _ H1 Hh E1 E2) as H2.
  rewrite (after_with_run _ _ _ _ (os_run _ _ _ _ _ _ _ _ H2)), Hpo. unfold record_and_settle. rewrite after_then.
  pose proof (stage_record _ _ _ _ _ _ _ _ H2 Hf F1 F2) as H3.
  pose proof (stage_settle _ _ _ _ _ _ _ _ H3 Ho Hp) as H4. assert (rest ++ [Poke_] <> []) as Hne by by destruct rest.
  pose proof (off_advance _ _ _ _ _ _ Hne H4) as H5. by rewrite (off_stays _ _ _ _ _ _ Hne H5).
Qed.
End stage.
(** ** What the store keeps *)

Definition status_in_store (id : string) (s : store) : option run_status := rr_status <$> d_runs (Handlers.s_db s) !! id.

(** The clock and the tables no run writes. *)
Definition static (s s' : store) : Prop :=
  Handlers.s_now s' = Handlers.s_now s /\ d_providers (Handlers.s_db s') = d_providers (Handlers.s_db s) /\
  d_agents (Handlers.s_db s') = d_agents (Handlers.s_db s) /\ d_llm_providers (Handlers.s_db s') = d_llm_providers (Handlers.s_db s).

#[export] Instance static_preorder : PreOrder static.
Proof. split; [done|]. intros s1 s2 s3 (?&?&?&?) (?&?&?&?). split_and!; congruence. Qed.

Lemma marks id st l s old : LEGAL_STATUS_TRANSITIONS st = Some l -> status_in_store id s = Some old -> old ∈ l ->
  exists s', Handlers.mark id st s = Ok s' /\ status_in_store id s' = Some st /\ static s s'.
Proof.
  intros Hl Ho Hin. unfold status_in_store in Ho. destruct (d_runs (Handlers.s_db s) !! id) as [row|] eqn:Hr; [|done]. injection Ho as Ho.
  unfold Handlers.mark, Handlers.mark_run_status, Repo.mark_run_status. rewrite Hl, Hr, bool_decide_eq_true_2 by by rewrite Ho.
  cbn. eexists. split; [done|]. split; [|done]. unfold status_in_store. cbn. rewrite lookup_insert_eq. by destruct st.
Qed.

Lemma event_relayed r e id s st : r_run_id r = id -> status_in_store id s = Some st ->
  exists s', relaying r e s = Ok s' /\ status_in_store id s' = Some st /\ static s s'.
Proof.
  intros <- Hst. unfold status_in_store in Hst. destruct (d_runs (Handlers.s_db s) !! r_run_id r) as [row|] eqn:Hr; [|done].
  unfold relaying, Handlers.on_db, Repo.append_run_event. rewrite bool_decide_eq_true_2 by by rewrite Hr. cbn. eexists. split; [done|].
  split; [|done]. unfold status_in_store. cbn. rewrite lookup_alter_eq, Hr. exact Hst.
Qed.

Section served.
Context (b0 : broker) (t id : string).

(** ** A run that is taken *)

Lemma posted r h P s w m : on_stage b0 t id r h P s w ->
  on_stage b0 t id r (set_t_inbox (t_inbox h ++ [m]) h) P s (posts (_post id m) w).
Proof. intros Hs. apply (stage_posts _ _ _ _ _ _ _ _ m Hs). Qed.

Definition at_work (c : ConnectedProvider) (r : Run) : Run := claimed (public_key c) (spawn_offer (with_place c r)).

Lemma run_taken r P s w c p agent :
  on_stage b0 t id r (mkThread t agent [Queued_ id] [] []) P s w ->
  r_claimed_by r = None -> r_verdict_open r = false -> r_offered_to r = None -> r_settled r = false -> r_cancel_requested r = false ->
  serving (r_agent r) (w_broker w) = Some c -> P !! public_key c = Some p -> has_room p = true ->
  Handlers.input_error (r_input_json r) = None -> status_in_store id s = Some queued ->
  exists s', on_stage b0 t id (at_work c r) (mkThread t agent [] [id] [id]) (<[public_key c := one_more p]> P) s' (taken t id (public_key c) w) /\
    status_in_store id s' = Some running /\ static s s'.
Proof.
  intros Hs Hc Hv Ho Hst Hcn Hsv Hp Hroom Hin Hq.
  destruct (marks id offering [queued] s queued eq_refl Hq ltac:(set_solver)) as (s1&Hm1&Hq1&Hf1).
  destruct (marks id running [offering] s1 offering eq_refl Hq1 ltac:(set_solver)) as (s2&Hm2&Hq2&Hf2).
  exists s2. split; [|split; [done|by etrans]].
  pose proof (turn_queued _ _ _ _ _ _ _ _ _ _ _ Hs Hc Hv Ho Hst Hsv Hp Hroom Hin Hm1) as H1.
  assert (on_stage b0 t id (spawn_offer (with_place c r)) (mkThread t agent [Answered_ id (public_key c) (Answer true)] [id] [id])
    (<[public_key c := one_more p]> P) s1 (deliver id (public_key c) (turn t w))) as H2 by exact (posted _ _ _ _ _ _ H1).
  apply (turn_answered _ _ _ _ _ _ _ _ (public_key c) s2 H2); try done.
  change (r_agent (spawn_offer (with_place c r))) with (r_agent r). rewrite (stage_serving _ _ _ _ _ _ _ _ (r_agent r) H2). rewrite (stage_serving _ _ _ _ _ _ _ _ _ Hs) in Hsv.
  destruct (aget (r_agent r) (b_serving b0)) as [k|]; [|done]. cbn [r_offered_conn spawn_offer with_place].
  destruct (decide (public_key c = k)) as [<-|Hne].
  - rewrite lookup_insert_eq. rewrite Hp in Hsv. cbn in Hsv |- *. rewrite Hsv. cbn. apply Nat.eqb_refl.
  - rewrite lookup_insert_ne by done. rewrite Hsv. cbn. apply Nat.eqb_refl.
Qed.

(** ** A run that is streamed *)

(** Held by [key] and well. *)
Definition held_well (key : string) (r : Run) : Prop :=
  r_claimed_by r = Some key /\ r_offered_to r = Some key /\ r_poison r = None /\ r_settled r = false /\ r_cancel_requested r = false.

Lemma saw_well key e r : held_well key r -> held_well key (Handlers.next_seq (Handlers.saw e r)).
Proof. intros. unfold Handlers.saw. by repeat case_match. Qed.

Lemma events_streamed r agent P s w key events :
  on_stage b0 t id r (mkThread t agent [] [id] [id]) P s w -> held_well key r -> status_in_store id s = Some running ->
  Forall (fun e => takes e = true) events -> exists r' s',
    on_stage b0 t id r' (mkThread t agent [] [id] [id]) P s'
      (foldl (fun w e => turn t (posts (report_event id (JObj e) key) w)) w events) /\
    held_well key r' /\ status_in_store id s' = Some running /\ static s s' /\
    r_out_queue r' = r_out_queue r ++ map (fun e => Item (JObj e)) events /\
    r_saw_run_finished r' = r_saw_run_finished r || existsb (has_type RUN_FINISHED) events.
Proof.
  revert r s w. induction events as [|e events IH]; intros r s w Hs Hw Hq Ht.
  { exists r, s. cbn. rewrite app_nil_r, orb_false_r. done. }
  apply Forall_cons in Ht as [He Ht]. cbn [foldl].
  pose proof (posted _ _ _ _ _ (Said_ id key (RelayEvent (JObj e))) Hs) as H1. cbn [t_inbox set_t_inbox app] in H1.
  set (r1 := Handlers.next_seq (Handlers.saw e r)). pose proof (saw_well key e r Hw) as Hw1. fold r1 in Hw1.
  assert (r_run_id r1 = r_run_id r /\ r_thread_id r1 = r_thread_id r /\ r_out_queue r1 = r_out_queue r /\
    r_saw_run_finished r1 = r_saw_run_finished r || has_type RUN_FINISHED e) as (E1&E2&E3&E4).
  { unfold r1, Handlers.saw. destruct (has_type RUN_FINISHED e); [by rewrite orb_true_r|]. rewrite orb_false_r. by case_match. }
  destruct (os_ids _ _ _ _ _ _ _ _ Hs) as [Hid _].
  destruct (event_relayed r1 e id s running) as (s1&Hr&Hq1&Hf1); [congruence|done|].
  pose proof (handled_relay r s e He) as Hh. cbv zeta in Hh. fold r1 in Hh. rewrite Hr in Hh. clearbody r1.
  destruct Hw1 as (Wc&Wo&Wp&Ws&Wx).
  pose proof (turn_relayed _ _ _ _ _ _ _ _ _ _ _ _ _ H1 (proj1 Hw) Hh E1 E2 Wp Ws ltac:(change (r_offered_to r1 <> None); congruence)) as H2.
  destruct (IH _ _ _ H2) as (r'&s'&Hs'&Hw'&Hq'&Hf'&Eq&Es); [done|done|done|].
  exists r', s'. split; [exact Hs'|]. split; [done|]. split; [done|]. split; [by etrans|]. cbn [map existsb]. cbn in Eq, Es. split.
  - rewrite Eq, E3, <- app_assoc. done.
  - rewrite Es, E4, orb_assoc. done.
Qed.

(** A stream in which the run finished ends in a run that is completed: every
    event was heard in order, and the place is free again. *)
Lemma run_streamed r agent P s w key events p :
  on_stage b0 t id r (mkThread t agent [] [id] [id]) P s w -> held_well key r -> status_in_store id s = Some running ->
  Forall (fun e => takes e = true) events -> existsb (has_type RUN_FINISHED) events = true -> P !! key = Some p -> exists r' s',
    off_stage b0 t id agent [] r' (<[key := free_place p]> P) s' (streamed t id key events w) /\
    status_in_store id s' = Some completed /\ static s s' /\
    r_out_queue r' = r_out_queue r ++ map (fun e => Item (JObj e)) events ++ [END_OF_STREAM].
Proof.
  intros Hs Hw Hq Ht Hfin Hp. destruct (events_streamed _ _ _ _ _ _ _ Hs Hw Hq Ht) as (r1&s1&H1&(Wc&Wo&Wp&Ws&Wx)&Hq1&Hf1&Eq&Es).
  rewrite Hfin, orb_true_r in Es. pose proof (posted _ _ _ _ _ (Said_ id key FinishStream) H1) as H2. cbn [t_inbox set_t_inbox app] in H2.
  assert (Handlers.final_status r1 = completed) as Hst by (unfold Handlers.final_status; by rewrite Es).
  destruct (os_ids _ _ _ _ _ _ _ _ H1) as [Hid _].
  destruct (marks id completed [running; cancelling] s1 running eq_refl Hq1 ltac:(set_solver)) as (s2&Hm&Hq2&Hf2).
  assert (handled FinishStream (r1, s1) = (r1, s2)) as Hh.
  { rewrite handled_finish by by rewrite Hst. by rewrite Hst, Hid, Hm. }
  pose proof (turn_finished _ _ _ _ _ _ _ _ _ _ _ _ _ H2 Wc Hh eq_refl eq_refl Wp Wo Hp) as H3.
  pose proof (turn_stale _ _ _ _ _ _ _ _ _ _ H3 I) as H4.
  exists (over r1), (Handlers.discard id s2). split; [exact H4|]. split; [exact Hq2|]. split; [by etrans|].
  cbn. by rewrite Eq, <- app_assoc.
Qed.
End served.
(** ** Starting a run with nothing said *)
Section starting.
Context `{HC : Crypto, HT : TokenCodec, HR : RunModel}.
Variable cfg : settings.

(** AG-UI takes a run's input with no messages, at the door and at the offer. *)
Definition admits (thread_id run_id : string) : Prop := exists out,
  validated_input
    [("threadId", JStr thread_id); ("runId", JStr run_id); ("state", JNull); ("messages", JList []);
     ("tools", JList []); ("context", JList []); ("forwardedProps", JNull); ("resume", JNull); ("parentRunId", JNull)] = Some out /\
  Handlers.input_error out = None.

(** The ids minted are new, and the queue has room for a first run. *)
Record mints (thread_id run_id : string) (b : broker) (d : db) : Prop := {
  mi_handler : b_threads b !! thread_id = None;
  mi_thread : d_threads d !! thread_id = None;
  mi_run : d_runs d !! run_id = None;
  mi_runs k r : d_runs d !! k = Some r -> rr_thread_id r <> thread_id;
}.

Definition may_queue : Prop := match thread_queue_limit cfg with Some l => 0 < l | None => True end.

Lemma no_pending thread_id d : (forall k r, d_runs d !! k = Some r -> rr_thread_id r <> thread_id) -> count_queued_runs_for_thread thread_id d = 0.
Proof.
  intros Hn. unfold count_queued_runs_for_thread. destruct (filter _ _) as [|r l] eqn:E; [done|].
  assert (r ∈ r :: l) as Hin by left. rewrite <- E in Hin. apply list_elem_of_filter in Hin as [[Ht _] Hin].
  unfold all_runs in Hin. apply list_elem_of_fmap in Hin as ([k r']&->&Hk%elem_of_map_to_list). by destruct (Hn k r' Hk).
Qed.

Lemma starts agent nt nr w c : admits nt nr -> mints nt nr (w_broker w) (db_of w) -> may_queue ->
  b_running (w_broker w) = true -> serving agent (w_broker w) = Some c -> is_Some (d_agents (db_of w) !! agent) -> exists out s' w',
  start_run cfg nt nr agent [("messages", JList [])] None None w = Some (Ok (mkEntered nr nt true, w')) /\
  Handlers.input_error out = None /\ BrokerOps.enqueue_run nr agent nt out 0 None (w_broker w) = Ok (w_broker w') /\
  on_stage (w_broker w) nt nr (new_run nr agent nt out (b_now (w_broker w)) 0 None) (mkThread nt agent [Queued_ nr] [] [])
    (b_providers (w_broker w)) s' w' /\
  status_in_store nr s' = Some queued /\ d_run_events (Handlers.s_db s') = d_run_events (db_of w) /\ static (w_store w) s'.
Proof.
  intros (out&Hv&Hin) [Hh Hth Hru Hrs] Hq Hrun Hsv [row Hag]. exists out.
  set (now := Handlers.s_now (w_store w)).
  set (d1 := set_d_threads (<[nt := mkThreadRow nt (ref_provider_key agent) (ref_name agent) None None (JObj []) now now]> (d_threads (db_of w))) (db_of w)).
  set (d2 := set_d_runs (<[nr := mkRunRecord nr nt (ref_provider_key agent) (ref_name agent) queued None now None None (Some now)
         (opt_str (Json.get "parentRunId" out)) (Json.get "state" out) (py_or (Json.get "tools" out) (JList []))
         (py_or (Json.get "context" out) (JList [])) (Json.get "forwardedProps" out) (Json.get "resume" out) false None]> (d_runs d1)) d1).
  set (s2 := Handlers.set_s_db d2 (w_store w)).
  assert (exists b', BrokerOps.enqueue_run nr agent nt out 0 None (w_broker w) = Ok b' /\
    on_stage (w_broker w) nt nr (new_run nr agent nt out (b_now (w_broker w)) 0 None) (mkThread nt agent [Queued_ nr] [] [])
      (b_providers (w_broker w)) s2 (mkWorld b' s2)) as (b'&Hb&Hst).
  { unfold BrokerOps.enqueue_run. rewrite Hrun. eexists. split; [done|]. unfold _thread_handler. rewrite Hh.
    constructor; cbn; rewrite ?lookup_insert_eq; try done; [by rewrite lookup_alter_eq, lookup_insert_eq|set_solver|case_bool_decide; set_solver|by intros ->|].
    intros t' Hne Hn. by rewrite lookup_alter_ne, lookup_insert_ne. }
  exists s2, (mkWorld b' s2). split; [|split; [done|split; [done|split; [done|split; [|by split]]]]].
  2:{ unfold status_in_store, s2, d2. cbn. by rewrite lookup_insert_eq. }
  set (ib := mkInbound agent [] None JNull None None JNull JNull JNull JNull None JNull).
  assert (write_run now cfg nr nt ib None d1 = Ok (mkOpened nr nt out, d2)) as Hwr.
  { unfold write_run. cbn [ib ib_messages distinct_ids traverse mbind result_bind].
    assert (forall b : bool, b = true -> guard_or (InvalidRunInput "two messages in one input carry the same id") b
      (A := Opened * db) = fun k => k) as Hg by (by intros b ->).
    rewrite Hg by reflexivity. unfold build_run_agent_input.
    change (validated_input _) with (validated_input
      [("threadId", JStr nt); ("runId", JStr nr); ("state", JNull); ("messages", JList []);
       ("tools", JList []); ("context", JList []); ("forwardedProps", JNull); ("resume", JNull); ("parentRunId", JNull)]).
    rewrite Hv. cbn [input_error mbind result_bind ib_agent ib_actor_chain chain_tokens]. unfold create_run.
    rewrite (bool_decide_eq_true_2 (d_runs d1 !! nr = None)), (bool_decide_eq_true_2 (is_Some (d_threads d1 !! nt))),
      (bool_decide_eq_true_2 (is_Some (d_agents d1 !! agent))) by (unfold d1; cbn; rewrite ?lookup_insert_eq; eauto). done. }
  unfold start_run. change (Json.get "forwardedProps" [("messages", JList [])]) with JNull.
  assert (forall d, read_caller JNull None d = Ok (mkCaller [] None JNull None JNull)) as -> by reflexivity.
  cbn [attempt ca_props ca_head_key]. unfold ensure_thread, create_thread. change (Handlers.s_db (w_store w)) with (db_of w).
  rewrite (bool_decide_eq_true_2 (d_threads (db_of w) !! nt = None)), (bool_decide_eq_true_2 (is_Some (d_agents (db_of w) !! agent))) by eauto.
  cbn [guard_or attempt]. fold now. change (py_or (JObj []) (JObj [])) with (JObj []). fold d1.
  change (_inbound agent [("messages", JList [])] (mkCaller [] None JNull None JNull))
    with (@Ok exn _ (mkInbound agent [] None JNull None None JNull JNull JNull JNull None JNull)). cbn [attempt].
  unfold enter. cbn [relayed_chain truthy ib_actor_chain attempt]. change (relayed_chain cfg JNull agent) with (@Ok exn _ JNull). cbn [attempt].
  change (set_ib_actor_chain JNull _) with (mkInbound agent [] None JNull None None JNull JNull JNull JNull None JNull).
  unfold open_run. cbn [addresses_live ib_addressed_run_id guard_or attempt].
  assert (ensure_queue_room nt (thread_queue_limit cfg) d1 = Ok ()) as ->.
  { unfold ensure_queue_room. destruct (thread_queue_limit cfg) as [l|] eqn:El; [|done].
    assert (count_queued_runs_for_thread nt d1 = 0) as -> by (apply no_pending; exact Hrs).
    unfold may_queue in Hq. rewrite El in Hq. destruct l; [lia|done]. }
  cbn [attempt]. change (write_run _ cfg nr nt _ _ d1) with (write_run now cfg nr nt ib None d1). rewrite Hwr. cbn [then_ attempt].
  change (Handlers.set_s_db d2 (w_store w)) with s2. unfold dispatch. cbn [ib bind_inbound ib_kyok op_run_id op_thread_id op_input_json w_store w_broker ib_agent ib_addressed_run_id].
  unfold enqueue_run. by rewrite Hsv, Hb.
Qed.
End starting.
(** ** A run played through *)

Lemma place_back p : (0 <= p_in_flight p)%Z -> free_place (one_more p) = p.
Proof.
  intros Hn. unfold free_place, one_more. cbn. rewrite (proj2 (Z.ltb_lt 0 (p_in_flight p + 1))) by lia. destruct p. cbn.
  unfold set_p_in_flight. cbn. f_equal. lia.
Qed.

Lemma heard_all l : heard (map (fun e => Item e) l ++ [END_OF_STREAM]) = (l, true).
Proof. induction l as [|e l IH]; [done|]. cbn [map app heard]. by rewrite IH. Qed.

(** Whom the broker serves, and what it is ready for, is as it was. *)
Definition same_house (b b' : broker) : Prop :=
  b_serving b' = b_serving b /\ b_providers b' = b_providers b /\ b_running b' = b_running b /\
  forall t, b_threads b !! t = None -> b_threads b' !! t = None.

Section played.
Context `{HC : Crypto, HT : TokenCodec, HR : RunModel}.
Variable cfg : settings.

(** Everything a run of [agent] needs to be taken by [c] at once. *)
Record ready_for (agent : AgentRef) (c : ConnectedProvider) (p : ProviderHandler) (nt nr : string) (w : world) : Prop := {
  rf_admits : admits nt nr;
  rf_mints : mints nt nr (w_broker w) (db_of w);
  rf_queue : may_queue cfg;
  rf_running : b_running (w_broker w) = true;
  rf_serving : serving agent (w_broker w) = Some c;
  rf_provider : b_providers (w_broker w) !! public_key c = Some p;
  rf_room : has_room p = true;
  rf_agent : is_Some (d_agents (db_of w) !! agent);
}.

Lemma started_and_taken agent c p nt nr w : ready_for agent c p nt nr w -> exists out s' w',
  start_run cfg nt nr agent [("messages", JList [])] None None w = Some (Ok (mkEntered nr nt true, w')) /\
  on_stage (w_broker w) nt nr (at_work c (new_run nr agent nt out (b_now (w_broker w)) 0 None)) (mkThread nt agent [] [nr] [nr])
    (<[public_key c := one_more p]> (b_providers (w_broker w))) s' (taken nt nr (public_key c) w') /\
  status_in_store nr s' = Some running /\ static (w_store w) s'.
Proof.
  intros []. destruct (starts cfg agent nt nr w c) as (out&s1&w1&Hst&Hin&_&Hs&Hq&_&Hf); try done.
  assert (serving agent (w_broker w1) = Some c) as Hsv.
  { rewrite (stage_serving _ _ _ _ _ _ _ _ _ Hs), <- rf_serving0. unfold serving. destruct (aget agent (b_serving (w_broker w))) as [k|]; [|done].
    by destruct (b_providers (w_broker w) !! k). }
  destruct (run_taken (w_broker w) nt nr _ _ s1 w1 c p agent Hs) as (s2&H2&Hq2&Hf2); try done.
  exists out, s2, w1. split; [done|]. split; [done|]. split; [done|by etrans].
Qed.

Lemma run_played agent c p nt nr events w : ready_for agent c p nt nr w -> (0 <= p_in_flight p)%Z ->
  Forall (fun e => takes e = true) events -> existsb (has_type RUN_FINISHED) events = true -> exists w1 w',
  start_run cfg nt nr agent [("messages", JList [])] None None w = Some (Ok (mkEntered nr nt true, w1)) /\
  w' = streamed nt nr (public_key c) events (taken nt nr (public_key c) w1) /\
  stream_of nr w' = (map JObj events, true) /\ status_in_store nr (w_store w') = Some completed /\
  same_house (w_broker w) (w_broker w') /\ static (w_store w) (w_store w').
Proof.
  intros Hr Hn Ht Hfin. destruct (started_and_taken _ _ _ _ _ _ Hr) as (out&s1&w1&Hst&H1&Hq1&Hf1).
  eexists w1, _. split; [exact Hst|]. split; [reflexivity|]. set (w2 := taken _ _ _ w1) in *.
  destruct (run_streamed _ _ _ _ _ _ _ w2 (public_key c) events (one_more p) H1 ltac:(done) Hq1 Ht Hfin (lookup_insert_eq _ _ _))
    as (r'&s'&[]&Hq'&Hf'&Ho).
  rewrite insert_insert_eq, place_back, insert_id in fs_providers0 by (done || apply Hr). cbn in Ho. split; [|split; [by rewrite fs_store0|split]].
  - unfold stream_of. rewrite fs_run0, Ho, <- (map_map JObj (fun e => Item e)). apply heard_all.
  - destruct fs_still0 as (?&?&?). split_and!; [done..|]. intros t' Ht'. destruct (decide (t' = nt)) as [->|]; [done|]. by apply fs_others0.
  - rewrite fs_store0. by etrans.
Qed.
End played.
(** ** The row vanishes *)

Lemma replace_keeps_providers d : exists d', replace BUT_PROVIDERS d = Ok d' /\
  d' = mkDb (d_providers d) ∅ (d_llm_providers d) ∅ ∅ [] [].
Proof.
  eexists. split; [|reflexivity]. assert (forall why (b : bool) (k : py db), b = true -> guard_or why b k = k) as Hg by (by intros why b k ->).
  unfold replace, BUT_PROVIDERS. cbn. rewrite Hg by by rewrite orb_true_r. cbn.
  rewrite Hg by (rewrite (bool_decide_eq_true_2 (dom ∅ = ∅)) by apply dom_empty_L; by rewrite orb_true_r). cbn.
  rewrite Hg by (rewrite !(bool_decide_eq_true_2 (dom ∅ = ∅)) by apply dom_empty_L; by rewrite orb_true_r). done.
Qed.

Lemma nothing_marked id st s : d_runs (Handlers.s_db s) !! id = None -> LEGAL_STATUS_TRANSITIONS st <> None ->
  Handlers.mark id st s = Err RunRowMissing.
Proof.
  intros Hn Hl. unfold Handlers.mark, Handlers.mark_run_status, Repo.mark_run_status. destruct (LEGAL_STATUS_TRANSITIONS st); [|done]. by rewrite Hn.
Qed.

Lemma nothing_appended id n e s : d_runs (Handlers.s_db s) !! id = None ->
  Repo.append_run_event id n e (Handlers.s_db s) = Err (IntegrityError "fk_run_events").
Proof. intros Hn. unfold Repo.append_run_event. by rewrite bool_decide_eq_false_2 by (rewrite Hn; by intros [? ?]). Qed.

(** Of a run that has no row, no command on its record writes anything or
    tells its stream anything. *)
Lemma nothing_handled cmd r s : d_runs (Handlers.s_db s) !! r_run_id r = None ->
  match cmd with Offer | Claim | RelayEvent (JObj _) | FinishStream | Fail _ _ => True | _ => False end -> exists r',
  handled cmd (r, s) = (r', s) /\ r_run_id r' = r_run_id r /\ r_thread_id r' = r_thread_id r /\ r_out_queue r' = r_out_queue r /\
  r_claimed_by r' = r_claimed_by r /\ r_offered_to r' = r_offered_to r /\ r_settled r' = r_settled r /\
  (r_poison r' = r_poison r \/ exists e, cmd = RelayEvent (JObj e) /\ takes e = false /\ is_Some (r_poison r')).
Proof.
  intros Hn Hc. destruct cmd as [| |[| | | | |e]| | |code message]; try done.
  - rewrite handled_offer, nothing_marked by done. by exists r; split_and!; auto.
  - rewrite handled_claim, nothing_marked by done. by exists r; split_and!; auto.
  - destruct (takes e) eqn:Ht.
    + rewrite handled_relay by done. cbv zeta. set (r1 := Handlers.next_seq (Handlers.saw e r)).
      assert (r_run_id r1 = r_run_id r /\ r_thread_id r1 = r_thread_id r /\ r_out_queue r1 = r_out_queue r /\
        r_claimed_by r1 = r_claimed_by r /\ r_offered_to r1 = r_offered_to r /\ r_settled r1 = r_settled r /\ r_poison r1 = r_poison r)
        as (E1&?&?&?&?&?&?) by (unfold r1, Handlers.saw; by repeat case_match).
      exists r1. split; [|by split_and!; auto]. unfold relaying, Handlers.on_db. by rewrite E1, nothing_appended.
    + rewrite handled_malformed by done. eexists. split_and!; [done..|]. right. by exists e.
  - destruct (bool_decide (Handlers.final_status r = failed) && negb (r_saw_run_error r)) eqn:Hf.
    + exists (Handlers.next_seq r). split; [|by split_and!; auto].
      unfold handled, Handlers.make_handlers, Handlers._handle_finish. rewrite after_reading. cbv zeta. rewrite Hf, after_then, after_on_run.
      etransitivity; [apply (after_transaction _ (Handlers.put Handlers.ended_without_finishing) (Handlers.next_seq r) s)|].
      unfold Handlers.on_db. by rewrite nothing_appended.
    + rewrite handled_finish, nothing_marked; [by exists r; split_and!; auto|done| |done].
      unfold Handlers.final_status. by repeat case_match.
  - exists (Handlers.next_seq r). split; [|by split_and!; auto].
    unfold handled, Handlers.make_handlers, Handlers._handle_fail. rewrite after_then, after_on_run, after_reading.
    etransitivity; [apply (after_transaction _ (Handlers.put _) (Handlers.next_seq r) s)|].
    unfold Handlers.on_db. by rewrite nothing_appended.
Qed.

Section vanishing.
Context `{HC : Crypto, HT : TokenCodec, HR : RunModel}.
Variable cfg : settings.

(** What funduq does when a run's row disappears under it: whatever agent
    is served, and whatever its provider goes on to report of the run it
    took, well formed or not, nothing is recorded and the caller is told
    nothing that was not, yet the stream ends: the probe's exit status is 0. *)
Lemma vanish_probe_holds agent c p nt nr event w : ready_for cfg agent c p nt nr w ->
  vanish_probe cfg agent (public_key c) (nt, nr) event w = Some (Ok (mkVanished true [] false None [])) /\
  vanish_status (mkVanished true [] false None []) = 0.
Proof.
  intros Hr. split; [|done]. destruct (started_and_taken _ _ _ _ _ _ _ Hr) as (out&s1&w1&Hst&H1&_&_). unfold vanish_probe.
  cbn [fst snd]. rewrite Hst. cbn [then_ attempt en_thread_id en_run_id]. set (w2 := taken nt nr (public_key c) w1) in *.
  unfold replaced. destruct (replace_keeps_providers (db_of w2)) as (d'&->&Hd'). cbn [mbind result_bind attempt w_broker w_store].
  set (s2 := Handlers.set_s_db d' (w_store w2)). set (r := at_work c _) in *. set (key := public_key c) in *.
  assert (d_runs (Handlers.s_db s2) !! nr = None) as Hn by (unfold s2; rewrite Hd'; apply lookup_empty).
  assert (on_stage (w_broker w) nt nr r (mkThread nt agent [] [nr] [nr]) (<[key := one_more p]> (b_providers (w_broker w))) s2
    (mkWorld (w_broker w2) s2)) as H2 by (destruct H1; by constructor).
  assert (report_event nr (JObj event) key (w_broker w2) =
    (true, w_broker (posts (report_event nr (JObj event) key) (mkWorld (w_broker w2) s2)))) as ->.
  { unfold posts, report_event, _post, on_broker. cbn [w_broker w_store]. by rewrite (os_post _ _ _ _ _ _ _ _ H1). }
  cbv beta iota zeta. set (w3 := posts (report_event nr (JObj event) key) (mkWorld (w_broker w2) s2)).
  change (mkWorld (finish_stream nr key (w_broker w3)).2 s2) with (posts (finish_stream nr key) w3). set (w4 := posts (finish_stream nr key) w3).
  assert (on_stage (w_broker w) nt nr r (mkThread nt agent [Said_ nr key (RelayEvent (JObj event)); Said_ nr key FinishStream] [nr] [nr])
    (<[key := one_more p]> (b_providers (w_broker w))) s2 w4) as H4.
  { pose proof (posted _ _ _ _ _ _ _ _ (Said_ nr key (RelayEvent (JObj event))) H2) as H3. exact (posted _ _ _ _ _ _ _ _ (Said_ nr key FinishStream) H3). }
  destruct (nothing_handled (RelayEvent (JObj event)) r s2 Hn I) as (r1&Hh1&I1&T1&Q1&C1&O1&S1&P1).
  assert (exists r2 P2, off_stage (w_broker w) nt nr agent [] r2 P2 (Handlers.discard nr s2) (turn nt (turn nt (turn nt w4))) /\
    r_out_queue r2 = [END_OF_STREAM]) as (r2&P2&H5&Hq).
  { destruct P1 as [P1|(e&[= <-]&_&[why P1])].
    - pose proof (turn_relayed _ _ _ _ _ _ _ _ _ _ _ _ _ H4 eq_refl Hh1 I1 T1 P1 S1 ltac:(by rewrite O1)) as H5.
      destruct (nothing_handled FinishStream r1 s2) as (r2&Hh2&I2&T2&Q2&C2&O2&S2&[P2|(?&?&_)]); [by rewrite I1|done| |done].
      assert (r_poison r2 = None) as P2' by by rewrite P2, P1. assert (r_offered_to r2 = Some key) as O2' by by rewrite O2, O1.
      assert (r_claimed_by r1 = Some key) as C1' by by rewrite C1.
      pose proof (turn_finished _ _ _ _ _ _ _ _ _ _ _ _ _ H5 C1' Hh2 I2 T2 P2' O2' (lookup_insert_eq _ _ _)) as H6.
      pose proof (turn_stale _ _ _ _ _ _ _ _ _ _ H6 I) as H7. exists (over r2). eexists. split; [exact H7|]. cbn. by rewrite Q2, Q1.
    - destruct (nothing_handled (Fail "provider_sent_malformed_event" (Some why)) r1 s2) as (r2&Hh2&I2&T2&Q2&C2&O2&S2&_); [by rewrite I1|done|].
      assert (r_offered_to r2 = Some key) as O2' by by rewrite O2, O1.
      pose proof (turn_poisoned _ _ _ _ _ _ _ _ _ _ _ _ _ _ _ _ _ H4 eq_refl Hh1 I1 T1 P1 Hh2 I2 T2 O2' (lookup_insert_eq _ _ _)) as H5.
      cbn [app] in H5. pose proof (turn_stale _ _ _ _ _ _ _ _ _ _ H5 I) as H6. pose proof (turn_stale _ _ _ _ _ _ _ _ _ _ H6 I) as H7.
      exists (over r2). eexists. split; [exact H7|]. cbn. by rewrite Q2, Q1. }
  destruct H5. unfold drained, stream_of. rewrite fs_run0, Hq. cbn [heard fst snd negb]. unfold db_of. rewrite fs_store0.
  unfold get_run, get_run_events. change (Handlers.s_db (Handlers.discard nr s2)) with d'. rewrite Hd'. cbn [d_runs d_run_events].
  by rewrite lookup_empty.
Qed.
End vanishing.
End handlers.
End PlayOk.
