(* ===== verification/ReplacedOk.v ===== *)
(** * A provider survives its database being replaced

    Publishing names on a fresh link, seen from the broker: the link opens,
    the names are served, the provider declares its capacity, and nobody's
    run or thread is touched.  From there the two halves of
    probe_registration_survives_a_new_database.py: a run served before the
    database is emptied, and one served after the same provider published the
    same name again. *)

From S2P Require Import Prelude Errors Json Pause Crypto Chain Models Repo RepoFacts Coop BrokerState BrokerOps Dispatch Handlers BrokerInv BrokerQuiet LiveRoster Roster RosterFacts Kyok Doors DoorsOk Link Core Facade FacadeOk Play PlayOk.

Module ReplacedOk.
Import Broker BrokerOps BrokerInv BrokerQuiet Dispatch Repo LiveRoster Roster RosterFacts Kyok Doors Core Facade FacadeOk Play PlayOk.

#[local] Existing Instance Handlers.store_seams.
#[local] Existing Instances LiveRoster.broker_table LiveRoster.roster_table.

(** ** Publishing, on the broker *)

(** Runs, threads and places are nobody's business here; the loop goes on. *)
Definition undisturbed (b b' : broker) : Prop := quiet b b' /\ b_running b' = b_running b.

#[local] Instance undisturbed_preorder : PreOrder undisturbed.
Proof. split; [by split|]. intros b1 b2 b3 [? ?] [? ?]. split; [by etrans|congruence]. Qed.

Lemma foldl_running {A} (f : broker -> A -> broker) l b :
  (forall b a, b_running (f b a) = b_running b) -> b_running (foldl f b l) = b_running b.
Proof. intros Hf. revert b. induction l as [|a l IH]; intros b; cbn; [done|]. by rewrite IH, Hf. Qed.

Lemma poke_running a b : b_running (_poke_agent a b) = b_running b.
Proof. by apply foldl_running. Qed.

Lemma register_undisturbed mapping b : undisturbed b (register_provider mapping b).
Proof.
  split; [apply quiet_register_provider|]. unfold register_provider. rewrite foldl_running by (intros; apply poke_running).
  apply foldl_running. by intros ? [].
Qed.

Lemma unregister_undisturbed refs b : undisturbed b (unregister_provider refs b).
Proof.
  split; [apply quiet_unregister|]. apply foldl_running. intros b1 r. unfold unregister_one. case_match; [|done].
  cbv zeta. rewrite poke_running. rewrite foldl_running; [done|]. intros b2 id. unfold fail_held. repeat case_match; try done. unfold push, _post. by case_match.
Qed.

Lemma no_thread b b' t : undisturbed b b' -> b_threads b !! t = None -> b_threads b' !! t = None.
Proof. intros [Hq _] Hn. pose proof (q_threads _ _ Hq t) as Ht. rewrite Hn in Ht. by inversion Ht. Qed.

(** Whoever is registered is known, on the connection and with the capacity it declared. *)
Lemma poked_providers {A} (f : A -> AgentRef) l b : b_providers (foldl (fun b x => _poke_agent (f x) b) b l) = b_providers b.
Proof.
  revert b. induction l as [|x l IH]; intros b; cbn [foldl]; [done|]. rewrite IH. unfold _poke_agent.
  generalize (elements (default ∅ (b_agent_threads b !! f x))). intros ts. revert b. clear. induction ts as [|t ts IH]; intros b; cbn; [done|].
  by rewrite IH.
Qed.

Lemma registered_provider c refs b : refs <> [] -> exists p,
  b_providers (register_provider (onto c refs) b) !! public_key c = Some p /\ p_declared p = max_concurrent_runs c.
Proof.
  intros Hne. unfold register_provider. rewrite poked_providers. cbn [b_providers set_b_work_to_do].
  destruct (list_eq_nil_dec refs) as [->|_]; [done|]. destruct (exists_last Hne) as (l&r&->). unfold onto. rewrite map_app, foldl_app. cbn.
  rewrite lookup_insert_eq. eexists. split; [done|]. done.
Qed.

(** ** Publishing, on the facade *)

Lemma keeps_where {A S} (f : S -> A) (g : Registration -> S -> py S) l s s' :
  (forall a s1 s2, g a s1 = Ok s2 -> f s2 = f s1) -> fold_res g l s = Ok s' -> f s' = f s.
Proof. intros Hg. apply (fold_res_inv (fun s1 => f s1 = f s)); [done|]. intros a s1 s2 _ E H. by rewrite (Hg _ _ _ H). Qed.

(** The tables publishing agents does not write. *)
Definition aside (d : db) := (d_threads d, d_runs d, d_llm_providers d, d_run_events d).

Lemma registered_aside now key fp batch d refs d' : Repo.register_agents now key fp batch None d = Ok (refs, d') -> aside d' = aside d.
Proof.
  unfold Repo.register_agents. intros (d1&H1&H)%bind_ok. apply bind_ok in H as (d2&H2&[= _ <-]). transitivity (aside d1).
  - apply (keeps_where aside _ _ _ _) in H2; [done|]. intros a s1 s2 (card&_&[= <-])%bind_ok. done.
  - unfold ensure_provider in H1. repeat case_match; by simplify_eq.
Qed.

(** The fingerprint is the key's own. *)
Definition own_fingerprint (key fp : string) (d : db) : Prop :=
  forall k row, d_providers d !! k = Some row -> pv_fingerprint row = fp -> k = key.

Lemma provider_ensured now key fp d : own_fingerprint key fp d -> exists d', ensure_provider now key fp d = Ok d'.
Proof.
  intros Hf. unfold ensure_provider. destruct (d_providers d !! key) eqn:Hk; [by eexists|].
  destruct (existsb _ _) eqn:E; [|by eexists]. apply existsb_exists in E as ([k row]&Hin%list_elem_of_In%elem_of_map_to_list&Hfp%String.eqb_eq).
  cbn in Hfp. rewrite (Hf k row Hin Hfp) in Hin. congruence.
Qed.

Lemma ensured_known now key fp d d' k row : ensure_provider now key fp d = Ok d' -> d_providers d' !! k = Some row ->
  k = key /\ pv_fingerprint row = fp \/ d_providers d !! k = Some row.
Proof.
  unfold ensure_provider. intros He. repeat case_match; simplify_eq; auto. cbn. rewrite lookup_insert. case_decide; [|auto].
  intros [= <-]. auto.
Qed.

(** A name with nothing said about it. *)
Definition plain (n : string) : Registration := mkRegistration n "" [] (JObj []) false.

Lemma plain_registered now key names d : exists d',
  fold_res (register_agent now key) (map (Link.declared (fun _ => false)) (map plain names)) d = Ok d'.
Proof. revert d. induction names as [|n names IH]; intros d; cbn; [by eexists|]. apply IH. Qed.

Section publishing.
Context `{HC : Crypto, HL : !CryptoLaws}.
Variable cfg : settings.
Variable callback : nat -> Facade.ChangeEvent -> list nat -> list nat * option exn.

(** Opening a link touches its tickets and links only. *)
Lemma admit_frame {T S} link ticket nonce proof (st : links T S) :
  let st' := (admit_link (identity cfg) link ticket nonce proof st).2 in
  k_table st' = k_table st /\ k_store st' = k_store st /\ k_changes st' = k_changes st.
Proof. cbv zeta. unfold admit_link. by repeat case_match; simplify_eq. Qed.

Lemma open_frame {T S} x n link ticket nonce proof (st : links T S) :
  let st' := (Roster.open (identity cfg) x n link ticket nonce proof st).2 in
  k_table st' = k_table st /\ k_store st' = k_store st /\ k_changes st' = k_changes st.
Proof.
  cbv zeta. unfold Roster.open. destruct proof as [proof|]; [apply (admit_frame link)|]. destruct (sign_connect link) as [signer|]; [|apply (admit_frame link)].
  destruct (signer _ _ _); [|done]. apply (admit_frame link _ _ _ (set_k_tickets _ st)).
Qed.

(** Links this funduq opens without being given a ticket. *)
Definition attaches (link : Link) : Prop := forall x n (st : links broker Handlers.store),
  let '(r, st') := Roster.open (identity cfg) x n link None None None st in
  is_ok r = true /\ require_open (Roster.connection link) st' = Ok ().

Lemma pinned_attaches k id cap : attaches (InProcessLink k (Some (public_hex (identity cfg))) id cap).
Proof.
  intros x n st. pose proof (pinned_link_opens_its_own_funduq (identity cfg) k (public_hex (identity cfg)) id cap x n st) as Ho. cbv zeta in Ho.
  destruct (Roster.open _ _ _ _ _ _ _) as [r st1]. by rewrite decide_True in Ho.
Qed.

Lemma taker_attaches k id : attaches (_Taker k id).
Proof. intros x n st. cbn. rewrite issue_then_claim. unfold identity_sign_connect. rewrite sign_verifies. cbn. split; [done|]. apply add_link_open. Qed.

(** The facade once a link is open: its tables are as they were. *)
Lemma link_attached link x n f : attaches link -> exists answer f1,
  Facade.attach_provider (identity cfg) callback x n link None None None f = (Ok answer, f1) /\
  require_open (Roster.connection link) (agents_view f1) = Ok () /\ f_broker f1 = f_broker f /\ f_store f1 = f_store f.
Proof.
  unfold Facade.attach_provider. intros Ho. specialize (Ho x n (agents_view f)).
  pose proof (open_frame x n link None None None (agents_view f)) as Hf. cbv zeta in Hf.
  destruct (Roster.open _ _ _ _ _ _) as [r st]. destruct Ho as [Hr Ho].
  destruct r as [answer|]; [|done]. eexists answer, _. split; [done|]. destruct (put_agents_views callback st f) as (Et&Eo&Eb&Es&_).
  destruct Hf as (Ht&Hs&_). split; [|split; [by rewrite Eb|by rewrite Es]].
  unfold require_open, open_links, agents_view in *. cbn [k_open]. by rewrite Eo.
Qed.

(** What a provider finds when it has published. *)
Record open_for (c : ConnectedProvider) (fp : string) (names : list string) (f f' : funduq) : Prop := {
  of_serves n : n ∈ names -> serving (ref c n) (f_broker f') = Some c;
  of_ok : broker_ok (f_broker f');
  of_undisturbed : undisturbed (f_broker f) (f_broker f');
  of_provider : exists p, b_providers (f_broker f') !! public_key c = Some p /\ p_declared p = max_concurrent_runs c;
  of_recorded n : n ∈ names -> is_Some (d_agents (Handlers.s_db (f_store f')) !! ref c n);
  of_aside : aside (Handlers.s_db (f_store f')) = aside (Handlers.s_db (f_store f));
  of_table : exists st, k_table st = f_broker f /\ f_broker f' = k_table (serve (S := Handlers.store) c names st);
  of_known k row : d_providers (Handlers.s_db (f_store f')) !! k = Some row ->
    k = public_key c /\ pv_fingerprint row = fp \/ d_providers (Handlers.s_db (f_store f)) !! k = Some row;
}.

Lemma serve_undisturbed {S} c names (st : links broker S) : undisturbed (k_table st) (k_table (serve c names st)).
Proof.
  unfold serve, withdraw_any. destruct (filter _ _); (etrans; [|apply register_undisturbed]); [done|]. apply unregister_undisturbed.
Qed.

Lemma published link fp ids names f : attaches link -> names <> [] -> broker_ok (f_broker f) ->
  own_fingerprint (public_key (Roster.connection link)) fp (Handlers.s_db (f_store f)) -> exists f',
  publish cfg callback fp link ids names f = Ok (map (fun n => (n, ref (Roster.connection link) n)) names, f') /\
  open_for (Roster.connection link) fp names f f'.
Proof.
  intros Hat Hne Hok Hfp. destruct (link_attached link ids.1 ids.2 f Hat) as (answer&f1&Ha&Hopen&Hb1&Hs1). set (c := Roster.connection link) in *.
  destruct (provider_ensured (f_now f1) (public_key c) fp _ Hfp) as (d1&Hd1). destruct (plain_registered (f_now f1) (public_key c) names d1) as (d2&Hd2).
  assert (Repo.register_agents (f_now f1) (public_key c) fp (map (Link.declared (fun _ => false)) (map plain names)) None (Handlers.s_db (f_store f1)) =
    Ok (map (fun a => mkRef (public_key c) (reg_name a)) (map (Link.declared (fun _ => false)) (map plain names)), d2)) as Hreg.
  { unfold Repo.register_agents. rewrite Hs1. rewrite Hd1. cbn. by rewrite Hd2. }
  pose proof (registered_alone_eq callback fp c (fun _ => false) (map plain names) None f1 _ d2 Hopen ltac:(by destruct names) Hreg) as Hr.
  unfold registered_alone in Hr. unfold publish. rewrite Ha. cbn [mbind result_bind]. unfold alone.
  fold c plain.
  destruct (Facade.register_agents callback fp c (fun _ => false) (map plain names) None f1) as [f2 s2] eqn:E2.
  rewrite (run_alone_finish _ _ _ _ _ Hr). cbn [mbind result_bind].
  set (st1 := set_k_store (Handlers.set_s_db d2 (f_store f1)) (agents_view f1)).
  set (st3 := registered_state c (map reg_name (map plain names)) d2 f1).
  assert (map reg_name (map plain names) = names) as Hnames by (rewrite map_map; apply map_id).
  destruct (put_agents_views callback (notify st3) f1) as (_&_&Eb&Es&_).
  pose proof (serve_frame c names st1) as (_&_&Ss&_). eexists. split; [by rewrite !map_map|].
  split; rewrite ?Eb, ?Es; unfold st3, registered_state; rewrite ?Hnames; fold st1; cbn [k_table k_store notify set_k_store].
  - intros n Hn. pose proof (serve_live c names st1 (ref c n)) as Hl. rewrite bool_decide_eq_true_2 in Hl by by apply list_elem_of_fmap_2.
    apply Hl. cbn. by rewrite Hb1.
  - pose proof (serve_ok (HT := LiveRoster.broker_laws) c names st1) as Hk. apply Hk. cbn. by rewrite Hb1.
  - rewrite <- Hb1. apply (serve_undisturbed c names st1).
  - apply registered_provider. by destruct names.
  - intros n Hn. apply touched_still_there. rewrite Ss. apply register_all_stored in Hd2 as [Hf _].
    destruct (Hf (Link.declared (fun _ => false) (plain n))) as [row Hrow]; [|by exists row]. by apply list_elem_of_fmap_2, list_elem_of_fmap_2.
  - rewrite Ss, <- Hs1. apply (registered_aside _ _ _ _ _ _ _ Hreg).
  - exists st1. split; [exact Hb1|done].
  - intros k' row. rewrite Ss. change (d_providers d2 !! k' = Some row -> k' = public_key c /\ pv_fingerprint row = fp \/
      d_providers (Handlers.s_db (f_store f)) !! k' = Some row).
    apply (keeps_where d_providers) in Hd2 as ->; [|by intros a s1 s3 (card&_&[= <-])%bind_ok]. by apply (ensured_known (f_now f1)).
Qed.
End publishing.

(** ** The database replaced *)

Lemma replaced_everything d : d_llm_providers d = ∅ -> replace EVERYTHING d = Ok empty_db.
Proof.
  intros Hl. destruct (replace_keeps_providers d) as (d'&Hr&Hd'). unfold replace, EVERYTHING in *. rewrite fold_res_app, Hr. cbn. rewrite Hd'. cbn.
  rewrite Hl, !(bool_decide_eq_true_2 (dom ∅ = ∅)) by apply dom_empty_L. by rewrite orb_true_r.
Qed.

Section replaced.
Context `{HC : Crypto, HL : !CryptoLaws, HT : TokenCodec, HR : RunModel, HA : !Handlers.AGUI}.
Variable cfg : settings.
Variable callback : nat -> Facade.ChangeEvent -> list nat -> list nat * option exn.

(** One half of the probe needs: an agent's name, its ids, and that AG-UI
    knows the input and the events. *)
Record playable (name : string) (ids : string * string) : Prop := {
  pl_admits : admits ids.1 ids.2;
  pl_events : Forall (fun e => takes e = true) (translation name ids.1 ids.2);
}.

(** Room for one more, as the connection declares it. *)
Definition roomy (c : ConnectedProvider) (b : broker) : Prop :=
  match max_concurrent_runs c with Some n => (in_flight (public_key c) b < n)%Z | None => True end.

(** Once its name is published, a run of it is taken at once. *)
Lemma now_ready c fp name ids f f' : open_for c fp [name] f f' -> b_running (f_broker f) = true -> roomy c (f_broker f) ->
  may_queue cfg -> admits ids.1 ids.2 -> mints ids.1 ids.2 (f_broker f) (Handlers.s_db (f_store f)) -> exists p,
  ready_for cfg (ref c name) c p ids.1 ids.2 (world_of f') /\ p_in_flight p = in_flight (public_key c) (f_broker f).
Proof.
  intros [Osv Ook Ound (p&Hpr&Hdec) Orec Oas _ _] Hrun Hroom Hq Ha [M1 M2 M3 M4]. exists p. injection Oas as At Ar _ _.
  assert (p_in_flight p = in_flight (public_key c) (f_broker f)) as Hin
    by (rewrite <- (q_in_flight _ _ (proj1 Ound)); unfold in_flight; by rewrite Hpr).
  split; [|done]. constructor; try done.
  - constructor; cbn; [by apply (no_thread _ _ _ Ound)| | |]; unfold db_of; cbn; rewrite ?At, ?Ar; done.
  - cbn. by rewrite (proj2 Ound).
  - by apply (Osv name), list_elem_of_singleton.
  - unfold has_room. rewrite Hdec, Hin. unfold roomy in Hroom. destruct (max_concurrent_runs c); [by apply Z.ltb_lt|done].
  - by apply (Orec name), list_elem_of_singleton.
Qed.

(** ** The row vanishes *)

(** C38. What funduq does when a run's row disappears under it: on a broker
    that is running, a provider opens a link, publishes a name and takes a run
    of it, every table but its own is emptied, and it goes on to report an
    event and the end of its stream; nothing is recorded for the row that is
    gone and the caller's stream ends: the probe's exit status is 0. *)
Theorem vanish_main_holds k id fp opening run f :
  broker_ok (f_broker f) -> own_fingerprint (public_hex k) fp (Handlers.s_db (f_store f)) -> b_running (f_broker f) = true ->
  may_queue cfg -> admits run.1 run.2 -> mints run.1 run.2 (f_broker f) (Handlers.s_db (f_store f)) ->
  vanish_main cfg callback fp k id opening run f = Some (Ok 0).
Proof.
  intros Hok Hfp Hrun Hq Ha Hm. destruct (published cfg callback _ fp opening ["a"] f (taker_attaches cfg k id) ltac:(done) Hok Hfp) as (f1&Hp&Ho).
  destruct (now_ready _ _ _ run _ _ Ho Hrun I Hq Ha Hm) as (p&Hr&_). unfold vanish_main. rewrite Hp. cbn [attempt map].
  assert (forall v, of_name "a" [("a", v)] = Ok v) as -> by done. cbn [attempt].
  pose proof (vanish_probe_holds cfg _ _ p run.1 run.2 content _ Hr) as [Hv _].
  change (public_key (Roster.connection (_Taker k id))) with (public_hex k) in Hv. rewrite <- surjective_pairing in Hv.
  rewrite Hv. reflexivity.
Qed.

(** ** A new database *)

(** Published, started, served, drained. *)
Lemma published_and_played k id cap fp opening name ids f : let c := mkConn id (public_hex k) cap in
  broker_ok (f_broker f) -> own_fingerprint (public_hex k) fp (Handlers.s_db (f_store f)) ->
  b_running (f_broker f) = true -> (0 <= in_flight (public_hex k) (f_broker f))%Z -> roomy c (f_broker f) ->
  may_queue cfg -> playable name ids -> mints ids.1 ids.2 (f_broker f) (Handlers.s_db (f_store f)) -> exists f1 w,
  publish cfg callback fp (InProcessLink k (Some (public_hex (identity cfg))) id cap) opening [name] f = Ok ([(name, ref c name)], f1) /\
  translated cfg (ref c name) ids (world_of f1) = Some (Ok (map JObj (translation name ids.1 ids.2), completed, w)) /\
  broker_ok (w_broker w) /\ b_running (w_broker w) = true /\ in_flight (public_hex k) (w_broker w) = in_flight (public_hex k) (f_broker f) /\
  (forall t, b_threads (f_broker f) !! t = None -> b_threads (w_broker w) !! t = None) /\
  d_llm_providers (db_of w) = d_llm_providers (Handlers.s_db (f_store f)).
Proof.
  intros c Hok Hfp Hrun Hpos Hroom Hq [Ha He] Hm.
  destruct (published cfg callback _ fp opening [name] f (pinned_attaches cfg k id cap) ltac:(done) Hok Hfp) as (f1&Hp&Ho).
  change (Roster.connection _) with c in *. destruct (now_ready _ _ _ ids _ _ Ho Hrun Hroom Hq Ha Hm) as (p&Hr&Hin).
  destruct Ho as [_ Ook Ound _ _ Oas _ _]. injection Oas as _ _ Al _.
  destruct (run_played cfg (ref c name) c p ids.1 ids.2 (translation name ids.1 ids.2) _ Hr ltac:(by rewrite Hin) He eq_refl)
    as (w1&w&Hst&Hw&Hs&Hc&(H1&H2&H3&H4)&(_&_&_&Hl)).
  exists f1, w. split; [exact Hp|]. split.
  { unfold translated. cbn [fst snd]. rewrite Hst. cbn [then_ attempt en_thread_id en_run_id ref_provider_key ref_name ref].
    rewrite <- Hw. unfold status_in_store in Hc. unfold get_run, db_of.
    destruct (d_runs (Handlers.s_db (w_store w)) !! ids.2) as [row|]; cbn in Hc; [|discriminate]. injection Hc as ->. unfold drained. by rewrite Hs. }
  split_and!.
  - apply (same_table_ok (f_broker f1)); [|exact Ook]. by split; [|intros key; rewrite H2].
  - rewrite H3. cbn. by rewrite (proj2 Ound).
  - rewrite <- (q_in_flight _ _ (proj1 Ound)). unfold in_flight. by rewrite H2.
  - intros t Ht. apply H4. by apply (no_thread _ _ _ Ound).
  - unfold db_of. rewrite Hl. exact Al.
Qed.

(** C39. A provider survives its database being replaced: on a broker that is
    running, a provider that publishes a name on a link pinned to this funduq,
    has a run served, sees every table emptied under it and publishes the
    same name again on another link, is the same agent again, and the run
    started then is served to its end with as many events: the probe's exit
    status is 0. *)
Theorem new_database_probe_holds k id cap fp opening reopening run run' f :
  broker_ok (f_broker f) -> own_fingerprint (public_hex k) fp (Handlers.s_db (f_store f)) ->
  d_llm_providers (Handlers.s_db (f_store f)) = ∅ ->
  b_running (f_broker f) = true -> (0 <= in_flight (public_hex k) (f_broker f))%Z ->
  roomy (mkConn id (public_hex k) cap) (f_broker f) -> may_queue cfg -> playable "translator" run -> playable "translator" run' ->
  mints run.1 run.2 (f_broker f) (Handlers.s_db (f_store f)) -> b_threads (f_broker f) !! run'.1 = None ->
  new_database_probe cfg callback fp (InProcessLink k (Some (public_hex (identity cfg))) id cap) opening reopening run run' f = Some (Ok 0).
Proof.
  intros Hok Hfp Hllm Hrun Hpos Hroom Hq Hpl Hpl' Hm Ht.
  destruct (published_and_played k id cap fp opening "translator" run f) as (f1&w&Hp&Htr&Wok&Wrun&Win&Wt&Wl); [done..|].
  set (f2 := with_world (mkWorld (w_broker w) (Handlers.set_s_db empty_db (w_store w))) f1).
  destruct (published_and_played k id cap fp reopening "translator" run' f2) as (f3&w'&Hp'&Htr'&_); try done.
  - cbn. by rewrite Win.
  - unfold roomy. cbn. rewrite Win. exact Hroom.
  - constructor; try done. by apply Wt.
  - assert (forall v, of_name "translator" [("translator", v)] = Ok v) as Hname by done.
    unfold new_database_probe. change (mkRef (public_hex k)) with (ref (mkConn id (public_hex k) cap)) in *. rewrite Hp. cbn [attempt]. rewrite Hname. cbn [attempt].
    rewrite Htr. cbn [attempt then_]. unfold replaced. rewrite replaced_everything by by rewrite Wl. cbn [attempt mbind result_bind].
    fold f2. rewrite Hp'. cbn [attempt]. rewrite Hname. cbn [attempt]. rewrite Htr'. cbn [attempt then_].
    rewrite !bool_decide_eq_true_2; [done|by rewrite !length_map|done..].
Qed.
End replaced.

(** ** A new database *)
Module Witness.
Import DoorsOk.Witness FacadeOk.Witness.
#[local] Existing Instance Toy.crypto.
#[local] Existing Instance Toy.laws.
#[local] Existing Instance Kyok.Witness.codec.
#[local] Existing Instance DoorsOk.Witness.agui.

Lemma translator_plays t r : admits t r -> playable "translator" (t, r).
Proof. intros Ha. split; [exact Ha|]. repeat constructor. Qed.

Lemma nothing_admitted t r : admits t r.
Proof. eexists. split; [|vm_compute; reflexivity]. unfold validated_input, model. cbn -[bool_decide]. by rewrite bool_decide_eq_true_2 by done. Qed.

Lemma vanish_main_holds_witness :
  vanish_main (HC := Toy.crypto) cfg moody "fp" "alice" 1 ("T", "n") ("t1", "r1") fresh = Some (Ok 0).
Proof.
  apply (vanish_main_holds (HC := Toy.crypto) cfg moody "alice" 1 "fp" ("T", "n") ("t1", "r1") fresh); try reflexivity.
  - exact fresh_ok.
  - by intros ? ? ?.
  - vm_compute. lia.
  - apply nothing_admitted.
  - constructor; try (vm_compute; reflexivity). intros k r Hr. cbn in Hr. by rewrite lookup_empty in Hr.
Defined.

Lemma new_database_probe_holds_witness :
  new_database_probe (HC := Toy.crypto) cfg moody "fp" (InProcessLink (H := Toy.crypto) "alice" (Some "hub") 1 (Some 2%Z))
    ("T", "n") ("T2", "n2") ("t1", "r1") ("t2", "r2") fresh = Some (Ok 0).
Proof.
  apply (new_database_probe_holds (HC := Toy.crypto) cfg moody "alice" 1 (Some 2%Z) "fp" ("T", "n") ("T2", "n2") ("t1", "r1") ("t2", "r2") fresh).
  - exact fresh_ok.
  - by intros ? ? ?.
  - reflexivity.
  - reflexivity.
  - vm_compute. discriminate.
  - vm_compute. reflexivity.
  - vm_compute. lia.
  - apply translator_plays, nothing_admitted.
  - apply translator_plays, nothing_admitted.
  - constructor; try (vm_compute; reflexivity). intros k r Hr. cbn in Hr. by rewrite lookup_empty in Hr.
  - reflexivity.
Defined.
End Witness.
End ReplacedOk.
