(* ===== verification/SilenceOk.v ===== *)
(** * Nobody is left without an answer

    What a run comes to whose provider leaves before it is offered: it waits
    on its thread, the sweep finds it unserved for longer than the timeout,
    and the thread ends it, with a reason.  From there the exit status of
    probe_nobody_says_anything.py, and the one silence it knows of: a name is
    still routed when the database that recorded it is gone. *)

From S2P Require Import Prelude Errors Json Pause Crypto Chain Models Repo RepoFacts Coop BrokerState BrokerOps Dispatch Handlers BrokerInv BrokerQuiet LiveRoster Roster RosterFacts Kyok Doors DoorsOk Link Core Facade FacadeOk Play PlayOk ReplacedOk.

Module SilenceOk.
Import Broker BrokerOps BrokerInv BrokerQuiet Dispatch Pause Repo LiveRoster Roster RosterFacts Kyok Doors Core Facade FacadeOk Play PlayOk ReplacedOk.

#[local] Existing Instance Handlers.store_seams.
#[local] Existing Instances LiveRoster.broker_table LiveRoster.roster_table.

Section handlers.
Context `{HA : !Handlers.AGUI}.
Notation store := Handlers.store.
Notation world := (Dispatch.world store).

(** ** The last command *)

(** The event funduq authors for a failure with no message of its own. *)
Definition failure (code : string) : dict := Handlers.run_error code code.

Definition failing (r : Run) (code : string) (s : store) : py store :=
  s ← Handlers.on_db (Repo.append_run_event (r_run_id r) (r_seq r) (failure code)) s;
  Handlers.mark (r_run_id r) failed s.

Lemma handled_fail code r s :
  handled (Fail code None) (r, s) =
  let r := Handlers.next_seq r in
  match failing r code s with Ok s' => (set_r_out_queue (r_out_queue r ++ [Item (JObj (failure code))]) r, s') | Err _ => (r, s) end.
Proof.
  unfold handled, Handlers.make_handlers, Handlers._handle_fail. rewrite after_then, after_on_run, after_reading. cbv zeta.
  exact (after_transaction (failing (Handlers.next_seq r) code) (Handlers.put (failure code)) (Handlers.next_seq r) s).
Qed.

(** Nothing was said in the run's name yet. *)
Definition unheard (id : string) (s : store) : Prop := forall e, e ∈ d_run_events (Handlers.s_db s) -> ev_run_id e <> id.

Lemma none_of id l : (forall e, e ∈ l -> ev_run_id e <> id) -> filter (fun e => ev_run_id e = id /\ (0 < ev_seq e)%Z) l = [].
Proof.
  induction l as [|e l IH]; intros Hn; [done|]. rewrite filter_cons_False by (intros [Hid _]; apply (Hn e); [left|exact Hid]).
  apply IH. intros e' He. apply Hn. by right.
Qed.

Lemma fails r code id s : r_run_id r = id -> (0 < r_seq r)%Z -> status_in_store id s = Some queued -> unheard id s -> exists s',
  failing r code s = Ok s' /\ status_in_store id s' = Some failed /\ static s s' /\
  get_run_events id 0 (Handlers.s_db s') = [failure code].
Proof.
  intros <- Hseq Hst Hun. unfold status_in_store in Hst. destruct (d_runs (Handlers.s_db s) !! r_run_id r) as [row|] eqn:Hr; [|done].
  injection Hst as Hst. unfold failing, Handlers.on_db, Repo.append_run_event. rewrite bool_decide_eq_true_2 by by rewrite Hr.
  cbn [mbind result_bind guard_or]. set (s1 := Handlers.set_s_db _ s).
  destruct (marks (r_run_id r) failed [queued; offering; running; cancelling] s1 queued eq_refl) as (s'&Hm&Hq&Hf);
    [unfold status_in_store, s1; cbn; by rewrite Hr, <- Hst|set_solver|].
  exists s'. split; [exact Hm|]. split; [exact Hq|]. split; [etrans; [|exact Hf]; done|].
  assert (d_run_events (Handlers.s_db s') = d_run_events (Handlers.s_db s) ++ [mkEventRow (r_run_id r) (r_seq r) (failure code)]) as He.
  { change (d_run_events (Handlers.s_db s') = d_run_events (Handlers.s_db s1)). unfold Handlers.mark, Handlers.mark_run_status, Repo.mark_run_status in Hm. cbn [LEGAL_STATUS_TRANSITIONS] in Hm.
    destruct (d_runs (Handlers.s_db s1) !! r_run_id r); [|done]. destruct (bool_decide _); cbn in Hm; by injection Hm as <-. }
  unfold get_run_events. rewrite He, filter_app.
  rewrite none_of by exact Hun. cbn [app]. rewrite filter_cons_True by by split. done.
Qed.

(** ** A run nobody serves *)
Section stage.
Context (b0 : broker) (t id : string).
Notation working agent inbox := (mkThread t agent inbox [id] [id]).

(** Its turn comes and nobody is there. *)
Lemma advance_waits r h P s w q : on_stage b0 t id r h P s w -> t_queue h = id :: q -> r_settled r = false ->
  aget (r_agent r) (b_serving b0) = None -> on_stage b0 t id r h P s (after (_advance t) w).
Proof.
  intros Hs Hq Hr Hsv. destruct (advance_reads _ _ _ _ _ _ _ _ _ Hs Hq Hr) as (w1&H1&->). case_match; [exact H1|].
  unfold _offer. rewrite (after_with_run _ _ _ _ (os_run _ _ _ _ _ _ _ _ H1)), after_with_broker, (stage_serving _ _ _ _ _ _ _ _ _ H1), Hsv.
  exact H1.
Qed.

Lemma turn_unserved r P s w agent rest : on_stage b0 t id r (mkThread t agent (Queued_ id :: rest) [] []) P s w ->
  r_settled r = false -> aget (r_agent r) (b_serving b0) = None ->
  on_stage b0 t id r (working agent rest) P s (turn t w).
Proof.
  intros Hs Hst Hsv. rewrite (turn_reads _ _ _ (Queued_ id) rest (os_thread _ _ _ _ _ _ _ _ Hs) eq_refl).
  pose proof (stage_upd_thread _ _ _ _ _ _ _ _ pop_inbox Hs) as H1. unfold _on_message. rewrite after_then. cbn [_on_message].
  unfold _on_queued. rewrite after_then, after_do.
  pose proof (stage_upd_thread _ _ _ _ _ _ _ _ (add_live id) H1) as H2. set (w2 := on_broker (upd_thread t (add_live id)) _) in *.
  rewrite (after_with_thread _ _ _ _ (os_thread _ _ _ _ _ _ _ _ H2)), (after_with_run _ _ _ _ (os_run _ _ _ _ _ _ _ _ H2)), after_with_broker.
  cbn [add_live pop_inbox t_queue set_t_inbox set_t_live joins_head]. rewrite after_do.
  pose proof (stage_upd_thread _ _ _ _ _ _ _ _ (fun h => set_t_queue (t_queue h ++ [id]) h) H2) as H3. set (w3 := on_broker _ w2) in *.
  assert (on_stage b0 t id r (working agent rest) P s w3) as H4.
  { cbv beta in H3. unfold add_live, pop_inbox in H3. cbn [t_live set_t_inbox] in H3. by rewrite bool_decide_eq_false_2 in H3 by apply not_elem_of_nil. }
  pose proof (advance_waits _ _ _ _ _ [] H4 eq_refl Hst Hsv) as H5. by rewrite (stays _ _ _ _ _ _ _ _ H5).
Qed.

Lemma turn_poked r P s w agent rest : on_stage b0 t id r (working agent (Poke_ :: rest)) P s w ->
  r_settled r = false -> aget (r_agent r) (b_serving b0) = None -> on_stage b0 t id r (working agent rest) P s (turn t w).
Proof.
  intros Hs Hst Hsv. rewrite (turn_reads _ _ _ Poke_ rest (os_thread _ _ _ _ _ _ _ _ Hs) eq_refl).
  pose proof (stage_upd_thread _ _ _ _ _ _ _ _ pop_inbox Hs) as H1. unfold _on_message. rewrite after_then, after_ret.
  pose proof (advance_waits _ _ _ _ _ [] H1 eq_refl Hst Hsv) as H2. by rewrite (stays _ _ _ _ _ _ _ _ H2).
Qed.

(** A run let go of that holds no place. *)
Lemma forgets_free b r : id ∈ b_runs b -> b_heap b !! id = Some r -> r_offered_to r = None ->
  b_heap (forget id b) !! id = Some (set_r_settled true r) /\
  b_threads (forget id b) = (fun h => set_t_inbox (t_inbox h ++ [Poke_]) h) <$> b_threads b /\
  b_providers (forget id b) = b_providers b /\
  b_serving (forget id b) = b_serving b /\ b_running (forget id b) = b_running b /\ b_quality_tolerance (forget id b) = b_quality_tolerance b.
Proof.
  intros Hin Hr Ho. unfold forget, tracked. rewrite bool_decide_eq_true_2, Hr by done. cbv zeta. rewrite bool_decide_eq_true_2 by done. cbn.
  by rewrite lookup_alter_eq, Hr.
Qed.

(** The sweep's verdict is read. *)
Lemma turn_failed r P s w agent code rest r' s' : on_stage b0 t id r (working agent (Trusted_ id (Fail code None) :: rest)) P s w ->
  r_claimed_by r = None -> handled (Fail code None) (r, s) = (r', s') -> r_run_id r' = r_run_id r -> r_thread_id r' = r_thread_id r ->
  r_offered_to r' = None ->
  off_stage b0 t id agent (rest ++ [Poke_]) (set_r_settled true (end_stream r')) P (Handlers.discard id s') (turn t w).
Proof.
  intros Hs Hc Hh E1 E2 Ho. rewrite (turn_reads _ _ _ (Trusted_ id (Fail code None)) rest (os_thread _ _ _ _ _ _ _ _ Hs) eq_refl).
  assert (on_stage b0 t id r (working agent rest) P s (on_broker (upd_thread t pop_inbox) w)) as H1
    by exact (stage_upd_thread _ _ _ _ _ _ _ _ pop_inbox Hs).
  unfold _on_message. rewrite after_then. unfold _on_trusted. rewrite (after_with_live _ _ _ _ _ _ _ _ _ H1) by (by left). rewrite Hc, after_then, after_ret.
  unfold record_and_settle. rewrite after_then. pose proof (stage_record _ _ _ _ _ _ _ _ _ _ _ H1 Hh E1 E2) as H2. unfold _settle.
  rewrite !after_then, !after_do, after_forget.
  pose proof (stage_upd_run _ _ _ _ _ _ _ _ end_stream H2 eq_refl eq_refl) as H3.
  pose proof (stage_upd_thread _ _ _ _ _ _ _ _ (drop_from id) H3) as H4. set (w4 := on_broker (upd_thread t (drop_from id)) _) in *.
  assert (drop_from id (working agent rest) = mkThread t agent rest [] []) as Eh
    by (unfold drop_from, set_t_queue, set_t_live; cbn; by rewrite !decide_True).
  rewrite Eh in H4. destruct H4.
  destruct (forgets_free (w_broker w4) (end_stream r') os_tracked0 os_run0 Ho) as (Fr&Ft&Fp&Fs).
  assert (off_stage b0 t id agent (rest ++ [Poke_]) (set_r_settled true (end_stream r')) P (Handlers.discard id s')
    (mkWorld (forget id (w_broker w4)) (Handlers.discard id (w_store w4)))) as H5.
  { constructor; cbn [w_broker w_store]; [exact Fr| |by rewrite Fp|by rewrite os_store0| |].
    - rewrite Ft, lookup_fmap, os_thread0. by destruct rest.
    - destruct Fs as (->&->&->). done.
    - intros t' Hne Hn. by rewrite Ft, lookup_fmap, os_others0. }
  assert (rest ++ [Poke_] <> []) as Hne by by destruct rest.
  pose proof (off_advance _ _ _ _ _ _ _ _ _ Hne H5) as H6. by rewrite (off_stays _ _ _ _ _ _ _ _ _ Hne H6).
Qed.
End stage.

(** ** The sweep finds it *)

Lemma stage_swept b0 t id r P s w agent timeout :
  on_stage b0 t id r (mkThread t agent [] [id] [id]) P s w -> b_runs b0 = [] -> aget (r_agent r) (b_serving b0) = None ->
  r_claimed_by r = None -> r_offered_to r = None -> (r_queued_at r <= b_now b0)%Z ->
  (default (r_queued_at r) (b_unserved_since b0 !! r_agent r) <= b_now b0)%Z ->
  exists b1, on_stage b1 t id r (mkThread t agent [Trusted_ id (Fail "no_provider_took_it" None); Poke_] [id] [id]) P s
    (on_broker (fun b => sweep timeout (set_b_now (b_now b + timeout)%Z b)) w) /\ b_serving b1 = b_serving b0.
Proof.
  intros Hs Hb0 Hsv Hc Ho Hq Hu. pose proof (os_runs _ _ _ _ _ _ _ _ Hs Hb0) as Hruns. pose proof (os_clock _ _ _ _ _ _ _ _ Hs) as [Hus Hnow].
  set (b := set_b_now (b_now (w_broker w) + timeout)%Z (w_broker w)).
  assert (expires timeout b r = true) as He.
  { unfold expires. rewrite Hc, Ho, !bool_decide_eq_true_2 by done. cbn [andb].
    assert (serving (r_agent r) b = None) as -> by (change (serving (r_agent r) (w_broker w) = None); by rewrite (stage_serving _ _ _ _ _ _ _ _ _ Hs), Hsv).
    rewrite bool_decide_eq_true_2 by done. cbn [andb b_unserved_since b_now set_b_now b]. rewrite Hus, Hnow. apply Z.leb_le.
    destruct (b_unserved_since b0 !! r_agent r); cbn in Hu; lia. }
  assert ((expire_queued timeout b).2 = put_nowait t (Trusted_ id (Fail "no_provider_took_it" None)) b) as Hx.
  { unfold expire_queued. change (b_runs b) with (b_runs (w_broker w)). rewrite Hruns. cbn [foldl expire_one].
    change (b_heap b) with (b_heap (w_broker w)). rewrite (os_run _ _ _ _ _ _ _ _ Hs), He. cbn [snd]. unfold push, _post.
    change (b_run_threads b) with (b_run_threads (w_broker w)). by rewrite (os_post _ _ _ _ _ _ _ _ Hs). }
  exists (set_b_now (b_now b0 + timeout)%Z b0). split; [|done]. unfold on_broker, sweep. fold b. rewrite Hx.
  destruct Hs. constructor; try done; cbn.
  - by rewrite lookup_fmap, lookup_alter_eq, os_thread0.
  - by rewrite Hus, Hnow.
  - intros t' Hne. rewrite lookup_fmap, lookup_alter_ne by done. intros Hn. by rewrite os_others0.
Qed.

(** ** Its provider leaves *)

(** The only name served is withdrawn, and the only run is nobody's yet. *)
Lemma withdrawn b agent key t id r : b_serving b = [(agent, key)] -> b_runs b = [id] -> b_heap b !! id = Some r -> r_claimed_by r = None ->
  b_agent_threads b !! agent = Some {[t]} ->
  unregister_provider [agent] b =
  put_nowait t Poke_ (set_b_unserved_since (<[agent := b_now b]> (b_unserved_since b)) (set_b_serving [] b)).
Proof.
  intros Hs Hr Hh Hc Ha. unfold unregister_provider. cbn [foldl]. unfold unregister_one. rewrite Hs. cbn [aget]. rewrite decide_True by done.
  change (b_runs (set_b_unserved_since _ _)) with (b_runs b). rewrite Hr. cbn [foldl]. unfold fail_held at 1.
  change (b_heap (set_b_unserved_since _ _)) with (b_heap b). rewrite Hh, Hc. rewrite (bool_decide_eq_true_2 (@None string = None)) by done.
  rewrite orb_true_r. unfold _poke_agent. change (b_agent_threads (set_b_unserved_since _ _)) with (b_agent_threads b). rewrite Ha. cbn [default from_option Datatypes.id].
  rewrite elements_singleton. cbn [foldl]. unfold adel. cbn. by rewrite decide_False by auto.
Qed.

(** ** Left before it was offered *)
Section silent.
Context `{HC : Crypto, HL : !CryptoLaws, HT : TokenCodec, HR : RunModel}.
Variable cfg : settings.
Variable callback : nat -> Facade.ChangeEvent -> list nat -> list nat * option exn.

Lemma world_on_world g f : world_of (on_world g f) = g (world_of f).
Proof. unfold on_world, world_of, with_world. cbn. by destruct (g _). Qed.

(** A broker that serves one name, and nothing else. *)
Record lone (agent : AgentRef) (c : ConnectedProvider) (b : broker) : Prop := {
  lo_running : b_running b = true;
  lo_runs : b_runs b = [];
  lo_serving : b_serving b = [(agent, public_key c)];
  lo_served : serving agent b = Some c;
  lo_threads : b_agent_threads b = ∅;
  lo_own : ref_provider_key agent = public_key c;
}.

Lemma detached agent c b f t id r : f_broker f = b -> b_serving b = [(agent, public_key c)] -> serving agent b = Some c ->
  b_runs b = [id] -> b_heap b !! id = Some r -> r_claimed_by r = None -> b_agent_threads b !! agent = Some {[t]} ->
  world_of (Facade.detach_provider callback (public_key c) c f) =
  mkWorld (put_nowait t Poke_ (set_b_unserved_since (<[agent := b_now b]> (b_unserved_since b)) (set_b_serving [] b))) (f_store f).
Proof.
  intros <- Hs Hsv Hr Hh Hc Ha. unfold Facade.detach_provider, world_of. set (st := agents_view f).
  destruct (put_agents_views callback (Roster.detach (public_key c) c st) f) as (_&_&Eb&Es&_). unfold put_agents in Eb, Es.
  etransitivity; [exact (f_equal2 mkWorld Eb Es)|]. clear Eb Es.
  unfold Roster.detach. set (st1 := close_link _ _ _) in *.
  assert (k_table st1 = f_broker f /\ k_store st1 = f_store f) as [Ht Hst] by (unfold st1, close_link; by repeat case_match).
  assert (attached (public_key c) c st1 = [agent]) as ->.
  { unfold attached. rewrite Ht. change (served_by (public_key c) (f_broker f)) with (agents_served_by (public_key c) (f_broker f)).
    assert (agents_served_by (public_key c) (f_broker f) = [agent]) as -> by (unfold agents_served_by; rewrite Hs; by rewrite filter_cons_True).
    change (live agent (f_broker f)) with (serving agent (f_broker f)). rewrite filter_cons_True; [done|].
    change (is_conn (serving agent (f_broker f)) (Some c) = true). rewrite Hsv. cbn. apply Nat.eqb_refl. }
  cbn [k_table k_store notify set_k_table]. rewrite Ht, Hst. f_equal. by apply withdrawn with (key := public_key c) (id := id) (r := r).
Qed.

Lemma unserved_ends agent c ids timeout f : lone agent c (f_broker f) -> is_Some (d_agents (Handlers.s_db (f_store f)) !! agent) ->
  admits ids.1 ids.2 -> mints ids.1 ids.2 (f_broker f) (Handlers.s_db (f_store f)) -> may_queue cfg -> unheard ids.2 (f_store f) -> exists f',
  unserved cfg callback agent c ids timeout f = Some (Ok (Some failed, JStr "no_provider_took_it", true, f')) /\ static (f_store f) (f_store f').
Proof.
  intros [Hrun Hruns Hsrv Hsv Hat Hown] Hag Ha Hm Hq Hun. set (t := ids.1) in *. set (id := ids.2) in *.
  destruct (starts cfg agent t id (world_of f) c Ha Hm Hq Hrun Hsv Hag) as (out&s1&w1&Hst&_&Hb&Hs&Hqd&Hev&Hfr).
  set (r := new_run id agent t out (b_now (w_broker (world_of f))) 0 None) in *.
  assert (b_runs (w_broker w1) = [id]) as Hr1 by exact (os_runs _ _ _ _ _ _ _ _ Hs Hruns).
  assert (b_agent_threads (w_broker w1) !! agent = Some {[t]}) as Ha1.
  { unfold BrokerOps.enqueue_run in Hb. cbn [w_broker world_of] in Hb. rewrite Hrun in Hb. injection Hb as <-. unfold _thread_handler.
    rewrite (mi_handler _ _ _ _ Hm). cbn. rewrite Hat, lookup_insert_eq, lookup_empty. cbn. by rewrite union_empty_r_L. }
  assert (serving agent (w_broker w1) = Some c) as Hsv1.
  { rewrite (stage_serving _ _ _ _ _ _ _ _ _ Hs). unfold serving in Hsv. cbn [w_broker world_of]. destruct (aget agent (b_serving (f_broker f))); [|done].
    by destruct (b_providers (f_broker f) !! _). }
  assert (b_serving (w_broker w1) = [(agent, public_key c)]) as Hs1 by (rewrite (proj1 (os_still _ _ _ _ _ _ _ _ Hs)); exact Hsrv).
  pose proof (detached agent c (w_broker w1) (with_world w1 f) t id r eq_refl Hs1 Hsv1 Hr1 (os_run _ _ _ _ _ _ _ _ Hs) eq_refl Ha1) as Hd.
  set (b3 := put_nowait t Poke_ _) in Hd. change (f_store (with_world w1 f)) with (w_store w1) in Hd.
  set (f3 := Facade.detach_provider callback (public_key c) c (with_world w1 f)) in *. set (b0 := set_b_runs [] b3).
  assert (on_stage b0 t id r (mkThread t agent [Queued_ id; Poke_] [] []) (b_providers (f_broker f)) s1 (mkWorld b3 (w_store w1))) as H3.
  { destruct Hs. constructor; try done. cbn. by rewrite lookup_alter_eq, os_thread0. }
  rewrite <- Hd in H3. pose proof (turn_unserved _ _ _ _ _ _ _ _ _ H3 eq_refl eq_refl) as H4.
  pose proof (turn_poked _ _ _ _ _ _ _ _ _ H4 eq_refl eq_refl) as H5. set (w5 := turn t (turn t (world_of f3))) in *.
  destruct (stage_swept _ _ _ _ _ _ _ _ timeout H5 eq_refl eq_refl eq_refl eq_refl) as (b6&H6&Hb6).
  { change (b_now (f_broker f) <= b_now (w_broker w1))%Z. rewrite (proj2 (os_clock _ _ _ _ _ _ _ _ Hs)). done. }
  { change (r_agent r) with agent. cbn. rewrite lookup_insert_eq. done. }
  set (w6 := on_broker (fun b => sweep timeout (set_b_now (b_now b + timeout)%Z b)) w5) in *.
  destruct (fails (Handlers.next_seq r) "no_provider_took_it" id s1 eq_refl eq_refl Hqd) as (s2&Hfl&Hq2&Hf2&He2); [by unfold unheard; rewrite Hev|].
  pose proof (handled_fail "no_provider_took_it" r s1) as Hh. cbv zeta in Hh. rewrite Hfl in Hh.
  pose proof (turn_failed _ _ _ _ _ _ _ _ _ _ _ _ H6 eq_refl Hh eq_refl eq_refl eq_refl) as H7. cbn [app] in H7.
  pose proof (turn_stale _ _ _ _ _ _ _ _ _ _ H7 I) as H8. pose proof (turn_stale _ _ _ _ _ _ _ _ _ _ H8 I) as H9.
  set (w9 := turn t (turn t (turn t w6))) in *.
  set (f' := on_world (fun w => turn t (turn t (turn t w))) (on_world (on_broker (fun b => sweep timeout (set_b_now (b_now b + timeout)%Z b)))
    (on_world (fun w => turn t (turn t w)) f3))).
  assert (world_of f' = w9) as Hw by (unfold f'; by rewrite !world_on_world).
  exists f'. destruct H9 as [Hrun9 _ _ Hst9 _ _]. split.
  - unfold unserved. cbn [fst snd]. fold t id. rewrite Hst. cbn [then_ attempt en_thread_id en_run_id]. rewrite Hown. fold f3. fold f'. rewrite Hw.
    unfold drained, stream_of. rewrite Hrun9. unfold db_of. rewrite Hst9. change (Handlers.s_db (Handlers.discard id s2)) with (Handlers.s_db s2). rewrite He2.
    unfold status_in_store in Hq2. unfold get_run. rewrite Hq2. reflexivity.
  - assert (forall g, f_store g = w_store (world_of g)) as E by done. rewrite (E f'), Hw, Hst9. etrans; [exact Hfr|]. etrans; [exact Hf2|done].
Qed.

(** A broker with nothing to do and nobody to serve. *)
Record idle (b : broker) : Prop := {
  id_running : b_running b = true;
  id_runs : b_runs b = [];
  id_serving : b_serving b = [];
  id_threads : b_agent_threads b = ∅;
}.

Lemma idle_ok b : idle b -> broker_ok b.
Proof. intros []. split; intros ref key; rewrite id_serving0; [done|]. by intros ?%not_elem_of_nil. Qed.

(** The first name published on it is the only one it serves. *)
Lemma lone_published c fp name f f' : idle (f_broker f) -> open_for c fp [name] f f' -> lone (ref c name) c (f_broker f').
Proof.
  intros [] [Osv _ _ _ _ _ (st&Ht&Hb) _].
  assert (f_broker f' = set_b_work_to_do true (register_one (f_broker f) (ref c name, c))) as E.
  { rewrite Hb. unfold serve. cbn [map]. unfold attached. rewrite Ht. change (served_by (public_key c) (f_broker f)) with (agents_served_by (public_key c) (f_broker f)).
    unfold agents_served_by. rewrite id_serving0. cbn [filter list_filter fmap list_fmap withdraw_any k_table set_k_table]. rewrite Ht.
    change (write_live (onto c [ref c name]) (f_broker f)) with (register_provider [(ref c name, c)] (f_broker f)). unfold register_provider.
    cbn [foldl fst]. unfold _poke_agent. change (b_agent_threads (set_b_work_to_do true _)) with (b_agent_threads (f_broker f)).
    by rewrite id_threads0, lookup_empty. }
  split; [by rewrite E|by rewrite E| |by apply (Osv name), list_elem_of_singleton|by rewrite E|done]. rewrite E. cbn. by rewrite id_serving0.
Qed.

(** A name outlives the database: it is routed as before, and listed nowhere. *)
Lemma routed_and_unlisted agent c window w : serving agent (w_broker w) = Some c -> d_llm_providers (db_of w) = ∅ ->
  still_routed agent window w = Ok (true, []).
Proof.
  intros Hs Hl. unfold still_routed, replaced. rewrite replaced_everything by done. cbn [mbind result_bind w_broker]. rewrite Hs.
  rewrite bool_decide_eq_true_2 by by eexists. done.
Qed.

(** The fingerprints of a process that knew nobody. *)
Lemma own_after key fp fp' names f f' c : own_fingerprint key fp (Handlers.s_db (f_store f)) -> fp <> fp' ->
  open_for c fp' names f f' -> own_fingerprint key fp (Handlers.s_db (f_store f')).
Proof.
  intros Hown Hne [_ _ _ _ _ _ _ Hk] k row Hrow Hfp. destruct (Hk k row Hrow) as [[-> Hp]|Hold]; [congruence|by eapply Hown].
Qed.
End silent.

(** ** The probe *)

Lemma alone_link `{HC : Crypto} cfg k id cap :
  Roster.connection (InProcessLink k (Some (public_hex (identity cfg))) id cap) = mkConn id (public_hex k) cap.
Proof. done. Qed.

End handlers.

(** ** Three providers *)
Module Witness.
Import DoorsOk.Witness FacadeOk.Witness ReplacedOk.Witness.
#[local] Existing Instance Toy.crypto.
#[local] Existing Instance Toy.laws.
#[local] Existing Instance Kyok.Witness.codec.
#[local] Existing Instance DoorsOk.Witness.agui.

Definition pinned (key : string) (id : nat) : Roster.Link := InProcessLink (H := Toy.crypto) key (Some "hub") id None.

End Witness.
End SilenceOk.
